(* ===== verification/_CoqProject ===== *)
-Q . S2P
Prelude.v
GoStrings.v
GoUtf8.v
GoTime.v
GoDuration.v
GoUrl.v
GoRegexp.v
Domain.v
Parser.v
ParserProps.v
Parser3164.v
Normalization.v
Config.v
Queue.v
Metrics.v
Pipeline.v
PipelineContents.v
BatchTimer.v
Framing.v
Transport.v
GoStrconv.v
Query.v
GoJson.v
GoJsonProps.v
JsonDecoded.v
GoCsv.v
Row.v
VictoriaLogs.v
VictoriaLogsProps.v
EndToEnd.v
Requests.v
Mux.v
Backend.v
Auth.v
Saved.v
SavedProps.v
Ingest.v
IngestProps.v
Tail.v
TailStream.v
Server.v
ServerProps.v
Http.v
Postgres.v
GoFlag.v
Service.v
Loggen.v
LoggenRun.v
LoggenHttp.v
CommandLine.v
