(* ===== verification/Prelude.v ===== *)
(** * Syslogx: a verification library

    This library models the Go service of [src/backend] and proves what makes its
    parts correct. File names below are relative to [src/backend/internal] unless
    they say otherwise. Each model file opens with the source file it translates
    and keeps its names; definitions compute, and the witnesses run them.

    ** The program

    A transport reads frames from the network, the pipeline queues them, parse
    workers parse and normalize them, a batch worker appends them to
    VictoriaLogs. The API serves queries, exports, live tails, ingestion over
    HTTP, sessions and saved searches over the same storage client.
<<
      UDP, TCP --> Transport, Framing --> Queue --> Pipeline --> VictoriaLogs
                                            |  parse: Parser, Normalization
      HTTP --> Server --> Mux, Auth --> Query, Ingest, Tail, Saved --> Backend
>>

    ** The files

    Go's standard library, as far as the program calls it:
    - [GoStrings], [GoUtf8] ([strings], [unicode/utf8], decimal [strconv]);
      [GoTime], [GoDuration] ([time], floats through [SpecFloat]);
    - [GoRegexp] ([regexp] for the RFC 3164 pattern, a matcher proved sound and
      complete for the language of the pattern); [GoUrl] ([net/url]);
    - [GoStrconv] ([strconv.Quote], [fmt.Sprint], [base64]) with decoders that
      read back; [GoJson], [GoJsonProps], [JsonDecoded] ([encoding/json] on
      dynamic values: scanner, decoder, encoder; both are inverse on what is
      well-formed, and whatever is decoded is well-formed); [GoCsv] ([bufio.Writer]
      and [csv.Writer], with a reader of RFC 4180); [GoFlag] ([flag], and
      [strconv.ParseInt] in base 0).

    Components:
    - [Domain]: [domain/log.go]; [Parser], [ParserProps], [Parser3164]:
      [parser/parser.go]; [Normalization]: [normalization/normalizer.go];
      [Config]: [config/config.go]; [Metrics]: [metrics/metrics.go];
    - [Queue]: [ingestion/queue.go], a step relation over the sections its mutex
      protects, with the broadcast channel and the blocked callers;
      [Pipeline]: [ingestion/pipeline.go], a step relation over any queue that
      is an instance of the interface of [Queue];
      [PipelineContents] says which entries it stores for which messages,
      [BatchTimer] has the batch worker with the clock and its timer;
    - [Framing], [Transport]: [transport/syslog/manager.go], the cutting of a
      byte stream into frames, addresses of peers, and the goroutines of any
      number of UDP and TCP sources with the manager's [Close];
      [EndToEnd] joins a TCP source to the pipeline and the storage client;
    - [Query]: [query/builder.go] and the types of [storage/storage.go]; [Row],
      [VictoriaLogs], [VictoriaLogsProps]: [storage/victorialogs];
    - [Backend]: the interfaces of [storage/storage.go] as records with the laws
      of which the API's theorems are proved, and the client as an instance;
    - [Requests], [Mux], [Server], [ServerProps], [Ingest], [IngestProps],
      [Tail], [TailStream]: [api/server.go]; [Auth]: [api/auth.go]; [Saved], [SavedProps]:
      [api/saved.go], [api/sources.go] and the interface of
      [controlstore/saved_search.go];
    - [Http]: [metrics/http.go] and the middleware [requestLog];
    - [Postgres]: [controlstore/postgres], over a pool whose functions pass the
      state of the database, with the handlers of [api/saved.go] on top;
    - [Service]: [cmd/syslogx/main.go] of [src/backend] and [Manager.Start], as
      the sequence of actions on the components;
    - [Loggen], [LoggenRun], [LoggenHttp]: [cmd/loggen/main.go] of [src/backend],
      its lines and records, the loop that sends them, and its logs as the
      service receives them;
    - [CommandLine]: the flags of both programs, and what they run with them.

    ** How state and effects are represented

    Fallible code is [outcome]: a value, an error of the component's own type, or
    a run-time panic; every index and slice expression of the source is [checked],
    so absence of panics is a theorem. Errors are one constructor per place they
    are made; their texts are left out. Go integers are [Z], with the wrap
    written where the code can reach it ([uint8], [uint16], [uint64], [int64],
    saturating [time.Duration]). A [map] is a [gmap]; where the order of a range shows, the
    order is an argument and the theorems hold for every one. Shared state is a
    record that operations return; concurrency is a step relation whose atomic
    actions are the sections between lock and unlock, single channel operations
    and, in [Pipeline], each access to what the goroutines share: the calls of
    [Submit] and [Reject], the workers and the appends are at a position of their
    code, and every counter an accounting compares moves in a step of its own. So
    a message may be stored before its call has counted it as accepted
    ([Pipeline.ahead_of_accepted]); the theorems count the calls in between.

    A response of the storage service is its status, its body and, if reading it
    breaks off, after how many lines the reader meets the error: a loop that stops
    at a number of lines fails exactly if the error was met by then.

    ** What the theorems show

    - Parsers: no payload makes them panic; printed RFC 5424 and RFC 3164 lines
      read back; the priority and the inferred year are exactly what their
      definitions ask; detection agrees with parsing.
    - Normalization: entries are canonical, their message and raw message valid
      UTF-8 (other texts keep the bytes of the event); identifiers sort by arrival.
    - Configuration: a loaded configuration satisfies every limit it checks,
      with the stated precedence of its layers, and names only known parsers.
    - Queue: a bounded FIFO list is its specification (a forward simulation);
      its byte count is exact, memory is bounded, no wake-up is lost, closing
      drains.
    - Pipeline: every message received is accounted for in every interleaving;
      a stop that is not cut short stores or counts all of them, each as the entry
      its own bytes parse to; after a forced one only what is left in the queue is
      neither stored nor counted; batches keep order and their bounds, but for the
      one made of all that is left when the context ends; retries end, and the
      steps of an append are those of the retry loop; with the clock, no entry waits in a batch longer than the configured
      age, an append and the delay in taking a due tick.
    - Transport: what is sent is what is submitted; readers are total; the limit
      on connections of each source holds, and [Close] finishes and leaves nothing
      open.
    - Queries and storage: validation is exactly its bounds; no value changes the
      shape of a query, native text being no value; cursors enumerate a store once
      when the limit is given; a row keeps all columns and labels and every field
      that shares no name; appended bodies, exported
      CSV and JSON read back; a failed export sends the start of its text less
      what its buffer held.
    - API: no request makes a handler panic; protected handlers need a live
      session however the path is spelled; saved searches refine a list, in the
      server's map and in PostgreSQL alike; what ingestion acknowledges is stored;
      a tail does not repeat itself within its window, and a client reads back
      from its stream the rows it wrote; the request counters are the answers
      given.
    - Whole system: flags in any order and style reach the configuration, which
      they override; a loaded configuration starts, and everything started is
      released in order whatever fails; lines sent over TCP, up to the first one refused on their connection,
      are rows of the storage service after a graceful stop or counted as dropped; what the load generator sends over TCP or
      HTTP is what the service submits, parses and stores.

    ** Bounds and fuel

    Recursion that follows the rest of a string takes the length of the string as
    fuel (one more where the empty rest still takes a step): every such loop
    removes at least one byte a round. The theorems are about the results with
    the fuel the definitions pass, and prove that there is a result wherever fuel
    could run out. [scan_value] alternates between values and separators and
    takes twice the length plus one; Go's limit of 10000 nested values is in the
    model. [newline_loop] takes one round per byte still to arrive and one more.
    Retries take the attempts that are left, an NDJSON body the 1001 items after
    which the code stops, an export the lines of the response, its buffer the
    bytes it holds, a tail window the 4096 keys of the source. The loops of the load generator take the logs that
    are due (each round sends at least one) and the rounds until the clock makes
    all of them due.

    ** What is an argument

    The machine: bytes read from the random source, the clock, the time zone
    database, files, the YAML decoder. Other people's code: [bcrypt] (a pair of
    functions), the VictoriaLogs service (a function from requests to responses),
    PostgreSQL (functions on its state, with the laws [Postgres.PostgreSQL] of the
    statements on a table). Parts of Go the results do not depend on: which
    runes past ASCII are printable, how a [float64] prints and parses, the order
    of a map range, the draws of [math/rand].

    ** Where the code is not what it, or its documentation, means to be

    Theorems that show a behaviour the documentation denies, or a loss, and that
    bound the theorems above: [Parser3164.RFC3164_feb29_rejected],
    [ParserProps.nil_sd_drops_leading_space], [Normalization.hostname_not_sanitised],
    [Framing.newline_limit_counts_delimiter], [Pipeline.forced_stop_unaccounted],
    [Pipeline.cancelled_batch_unlimited], [Query.ordering_filter_is_a_word],
    [Query.interval_is_closed], [Query.limits_in_bytes], [Row.colliding_field_lost],
    [IngestProps.item_keys_lost], [IngestProps.missing_severity_stored],
    [Http.method_label_unbounded], [ServerProps.ingest_while_draining] and
    [Postgres.zero_byte_unavailable].

    ** Not modelled

    - What PostgreSQL does with a statement: [Postgres.PostgreSQL] states it, for
      a server that answers; a statement that is applied although its answer is
      lost is outside these laws.
    - Deadlines as time: a read or write deadline is a result of the read or
      write. In [Pipeline] a batch timer may fire at any moment; [BatchTimer] has
      its times.
    - A client that stops reading while an export is written to it.
    - Log lines, error texts, Prometheus' exposition format and histogram buckets.
    - The web interface (TypeScript), deployment files and scripts. *)
From Stdlib Require Export ZArith Lia Bool Ascii.
From Stdlib Require String.
From stdpp Require Export base tactics numbers list option gmap strings.

#[export] Set Warnings "-clear-no-such-hyp,-level-tolerance,-register-all".
#[global] Open Scope Z_scope.
#[global] Set Default Goal Selector "!".
#[global] Arguments String.append !_ _ / : simpl nomatch.

(** ** Outcomes of Go code

    A Go function that returns [(T, error)] either returns a value, returns an
    error, or panics on an out-of-range index or slice expression. *)
Inductive outcome (E A : Type) : Type :=
  | Ok (a : A)
  | Err (e : E)
  | Panic.
Arguments Ok {E A} a.
Arguments Err {E A} e.
Arguments Panic {E A}.

#[export] Instance outcome_ret E : MRet (outcome E) := fun _ => Ok.
#[export] Instance outcome_bind E : MBind (outcome E) := fun _ _ f m =>
  match m with Ok a => f a | Err e => Err e | Panic => Panic end.

(** An expression that Go checks at run time: [None] is a panic. *)
Definition checked {E A} (o : option A) : outcome E A :=
  match o with Some a => Ok a | None => Panic end.

Definition no_panic {E A} (m : outcome E A) : Prop :=
  match m with Panic => False | _ => True end.

(** [ensures Q m]: every value [m] returns satisfies [Q]. *)
Definition ensures {E A} (Q : A -> Prop) (m : outcome E A) : Prop :=
  match m with Ok a => Q a | _ => True end.

Lemma ensures_bind {E A B} (R : A -> Prop) (Q : B -> Prop) (m : outcome E A)
    (f : A -> outcome E B) :
  ensures R m -> (forall a, R a -> ensures Q (f a)) -> ensures Q (m ≫= f).
Proof. destruct m; simpl; auto. Qed.

Lemma ensures_any {E A} (m : outcome E A) : ensures (fun _ => True) m.
Proof. by destruct m. Qed.

(** ** Bytes and Go strings

    A Go [string] (and a [[]byte]) is a sequence of bytes: [string], whose
    characters are 8-bit [ascii] values. *)
Abbreviation byte := ascii (only parsing).
Definition code (c : byte) : Z := Z.of_N (N_of_ascii c).
Definition chr (z : Z) : byte := ascii_of_N (Z.to_N (z mod 256)).
Definition len (s : string) : Z := Z.of_nat (String.length s).

Definition ch_eq (a b : byte) : bool := Ascii.eqb a b.
Infix "=c" := ch_eq (at level 70).
Definition str_eq (a b : string) : bool := String.eqb a b.
Infix "=s" := str_eq (at level 70).

Fixpoint str_take (n : nat) (s : string) : string :=
  match n, s with
  | S n, String c s => String c (str_take n s)
  | _, _ => EmptyString
  end.
Fixpoint str_drop (n : nat) (s : string) : string :=
  match n, s with
  | S n, String _ s => str_drop n s
  | _, _ => s
  end.
Fixpoint str_nth (s : string) (n : nat) : option byte :=
  match s, n with
  | EmptyString, _ => None
  | String c _, O => Some c
  | String _ s, S n => str_nth s n
  end.

(** [s[lo:hi]] and [s[i]]: [None] is Go's run-time panic. *)
Definition slice (s : string) (lo hi : Z) : option string :=
  if (0 <=? lo) && (lo <=? hi) && (hi <=? len s)
  then Some (str_take (Z.to_nat (hi - lo)) (str_drop (Z.to_nat lo) s))
  else None.
Definition str_at (s : string) (i : Z) : option byte :=
  if 0 <=? i then str_nth s (Z.to_nat i) else None.

Fixpoint all_bytes (p : byte -> bool) (s : string) : bool :=
  match s with
  | EmptyString => true
  | String c s => p c && all_bytes p s
  end.

(** The longest prefix whose bytes satisfy [p], and what follows it. *)
Fixpoint span (p : byte -> bool) (s : string) : string * string :=
  match s with
  | EmptyString => (EmptyString, EmptyString)
  | String c s' =>
      if p c then let (a, b) := span p s' in (String c a, b) else (EmptyString, s)
  end.

Definition starts (p : byte -> bool) (s : string) : bool :=
  match s with EmptyString => false | String c _ => p c end.

Fixpoint str_rev_app (s acc : string) : string :=
  match s with EmptyString => acc | String c s => str_rev_app s (String c acc) end.
Definition str_rev (s : string) : string := str_rev_app s EmptyString.

(** ** Shared lemmas *)

Lemma append_nil_r s : s +:+ "" = s.
Proof. induction s as [|c s IH]; simpl; congruence. Qed.

Lemma append_assoc a b c : (a +:+ b) +:+ c = a +:+ (b +:+ c).
Proof. induction a as [|x a IH]; simpl; congruence. Qed.

Lemma append_cons c a b : String c a +:+ b = String c (a +:+ b).
Proof. reflexivity. Qed.

Lemma length_append a b : String.length (a +:+ b) = (String.length a + String.length b)%nat.
Proof. induction a as [|x a IH]; simpl; congruence. Qed.

Lemma len_append a b : len (a +:+ b) = len a + len b.
Proof. unfold len. rewrite length_append. lia. Qed.

Lemma len_cons c s : len (String c s) = len s + 1.
Proof. unfold len. cbn [String.length]. lia. Qed.

Lemma len_nil : len "" = 0.
Proof. reflexivity. Qed.

Lemma len_nonneg s : 0 <= len s.
Proof. unfold len. lia. Qed.

Lemma len_zero s : len s = 0 -> s = "".
Proof. destruct s; [done|]. rewrite len_cons. pose proof (len_nonneg s). lia. Qed.

Lemma str_take_append a b : str_take (String.length a) (a +:+ b) = a.
Proof. induction a as [|x a IH]; simpl; [by destruct b|congruence]. Qed.

Lemma str_drop_append a b : str_drop (String.length a) (a +:+ b) = b.
Proof. induction a as [|x a IH]; simpl; [by destruct b|congruence]. Qed.

Lemma str_take_drop n s : str_take n s +:+ str_drop n s = s.
Proof. revert s. induction n as [|n IH]; intros [|c s]; simpl; try done. by rewrite IH. Qed.

Lemma length_str_take n s : String.length (str_take n s) = Nat.min n (String.length s).
Proof. revert s. induction n as [|n IH]; intros [|c s]; simpl; try done. by rewrite IH. Qed.

Lemma length_str_drop n s : String.length (str_drop n s) = (String.length s - n)%nat.
Proof. revert s. induction n as [|n IH]; intros [|c s]; simpl; done. Qed.

Lemma slice_append a b c lo hi :
  len a = lo -> lo + len b = hi -> slice (a +:+ (b +:+ c)) lo hi = Some b.
Proof.
  intros <- <-. unfold slice. rewrite !len_append.
  pose proof (len_nonneg a); pose proof (len_nonneg b); pose proof (len_nonneg c).
  replace ((0 <=? len a) && (len a <=? len a + len b)
           && (len a + len b <=? len a + (len b + len c))) with true by lia.
  unfold len. replace (Z.to_nat (Z.of_nat (String.length a))) with (String.length a) by lia.
  rewrite str_drop_append.
  replace (Z.to_nat _) with (String.length b) by lia. by rewrite str_take_append.
Qed.

Lemma all_bytes_append p a b : all_bytes p (a +:+ b) = all_bytes p a && all_bytes p b.
Proof. induction a as [|x a IH]; simpl; [done|]. rewrite IH. by rewrite andb_assoc. Qed.

Lemma all_bytes_impl (p q : byte -> bool) s :
  (forall c, p c = true -> q c = true) -> all_bytes p s = true -> all_bytes q s = true.
Proof.
  intros Hpq. induction s as [|c s IH]; simpl; [done|].
  rewrite !andb_true_iff. intros [??]; auto.
Qed.

Lemma span_spec p s a b :
  span p s = (a, b) -> s = a +:+ b /\ all_bytes p a = true /\ starts p b = false.
Proof.
  revert a b. induction s as [|c s IH]; simpl; intros a b E; [by simplify_eq|].
  destruct (p c) eqn:Hc; [|by simplify_eq/=].
  destruct (span p s) as [a' b'] eqn:E'. simplify_eq/=.
  destruct (IH a' b eq_refl) as (-> & -> & ->). by rewrite Hc.
Qed.

Lemma span_append p a b :
  all_bytes p a = true -> starts p b = false -> span p (a +:+ b) = (a, b).
Proof.
  intros Ha Hb. induction a as [|c a IH]; simpl in *.
  - destruct b as [|c b]; simpl in *; [done|]. by rewrite Hb.
  - apply andb_true_iff in Ha as [-> Ha]. by rewrite IH.
Qed.

Lemma code_bound c : 0 <= code c < 256.
Proof. unfold code. pose proof (N_ascii_bounded c). lia. Qed.

Lemma chr_code c : chr (code c) = c.
Proof.
  unfold chr. rewrite Z.mod_small by apply code_bound.
  unfold code. rewrite N2Z.id. apply ascii_N_embedding.
Qed.

Lemma code_chr z : 0 <= z < 256 -> code (chr z) = z.
Proof.
  intros H. unfold code, chr. rewrite Z.mod_small by lia.
  rewrite N_ascii_embedding; lia.
Qed.

Lemma ch_eq_spec a b : reflect (a = b) (a =c b).
Proof. unfold ch_eq. apply Ascii.eqb_spec. Qed.

Lemma ch_eq_refl c : (c =c c) = true.
Proof. by destruct (ch_eq_spec c c). Qed.

Lemma str_eq_spec a b : reflect (a = b) (a =s b).
Proof. unfold str_eq. apply String.eqb_spec. Qed.

Lemma str_eq_refl s : (s =s s) = true.
Proof. by destruct (str_eq_spec s s). Qed.

(** A weighted count of a list. *)
Definition sum_by {A} (g : A -> Z) (l : list A) : Z := foldr (fun a n => g a + n) 0 l.
Lemma sum_by_app {A} (g : A -> Z) a b : sum_by g (a ++ b) = sum_by g a + sum_by g b.
Proof. unfold sum_by. induction a as [|x a IH]; [done|]. cbn. rewrite IH. lia. Qed.
Lemma sum_by_insert {A} (g : A -> Z) l i x y :
  l !! i = Some x -> sum_by g (<[i := y]> l) = sum_by g l - g x + g y.
Proof.
  unfold sum_by. revert i. induction l as [|z l IH]; intros [|i] Hi; simpl in *; simplify_eq; [lia|].
  rewrite (IH i Hi). lia.
Qed.

(** Lists up to their order, with the functions of the Standard Library. *)
Lemma existsb_perm {A} (f : A -> bool) l l' : l ≡ₚ l' -> existsb f l = existsb f l'.
Proof.
  intros Hp. apply eq_true_iff_eq. rewrite !existsb_exists.
  split; intros (x & Hx & Hf); exists x; (split; [|done]).
  - by eapply Permutation_in.
  - by eapply Permutation_in; [symmetry|].
Qed.
Lemma filter_perm {A} (f : A -> bool) l l' : l ≡ₚ l' -> List.filter f l ≡ₚ List.filter f l'.
Proof.
  induction 1 as [|v l l' _ IH|v w l|l1 l2 l3 _ IH1 _ IH2]; cbn [List.filter]; [done| | |by etrans].
  - destruct (f v); by rewrite IH.
  - destruct (f v), (f w); done || apply Permutation_swap.
Qed.
Lemma same_key {A B} (f : A -> B) l x y : NoDup (map f l) -> In x l -> In y l -> f x = f y -> x = y.
Proof.
  induction l as [|z l IH]; [done|]. cbn [map]. intros [Hz Hn]%NoDup_cons.
  intros [->|Hx] [->|Hy] E; [done| | |by apply IH]; exfalso; apply Hz, list_elem_of_In, in_map_iff; by eexists.
Qed.

(** ** Automation *)

Create Rewrite HintDb gostr.
Create Rewrite HintDb b2p.
#[export] Hint Rewrite append_nil_r append_assoc len_append len_cons len_nil : gostr.
#[export] Hint Rewrite andb_true_iff orb_true_iff negb_true_iff andb_false_iff orb_false_iff
  negb_false_iff Z.leb_le Z.ltb_lt Z.eqb_eq Z.leb_gt Z.ltb_ge Z.eqb_neq : b2p.

(** Turn boolean tests of the code into propositions. *)
Ltac b2p := autorewrite with b2p in *; destruct_and?.

(** Split on the scrutinee of the innermost [if] or [match] of the goal. *)
Ltac split_if :=
  match goal with
  | |- context [if ?b then _ else _] => let E := fresh "E" in destruct b eqn:E
  end.

(** Reduce the monadic binds whose first argument is a value. *)
Ltac bind_simpl :=
  cbn [mbind option_bind mret option_ret outcome_bind outcome_ret checked].

(** ** Index and slice expressions that stay in range *)

Lemma slice_in_range s lo hi :
  0 <= lo -> lo <= hi -> hi <= len s -> exists r, slice s lo hi = Some r.
Proof.
  intros. unfold slice.
  replace ((0 <=? lo) && (lo <=? hi) && (hi <=? len s)) with true by lia. eauto.
Qed.

Lemma str_at_in_range s i : 0 <= i < len s -> exists c, str_at s i = Some c.
Proof.
  intros [H0 H]. unfold str_at. destruct (Z.leb_spec 0 i); [|lia].
  unfold len in H. assert (Hn : (Z.to_nat i < String.length s)%nat) by lia.
  clear H H0 H1. generalize dependent (Z.to_nat i).
  induction s as [|c s IH]; intros [|n] Hn; simpl in *; try lia; eauto.
  apply IH. lia.
Qed.

Lemma no_panic_bind {E A B} (m : outcome E A) (f : A -> outcome E B) :
  no_panic m -> (forall a, m = Ok a -> no_panic (f a)) -> no_panic (m ≫= f).
Proof. destruct m; simpl; auto. Qed.
