(* ===== verification/GoStrings.v ===== *)
(** * Go's [strings], [strconv] and [unicode/utf8]

    The functions of Go's standard library that the program calls on strings,
    as executable definitions on byte strings, with the lemmas the components
    use about them. *)
From S2P Require Import Prelude.

(** ** Searching and cutting *)

Fixpoint index_nat (c : byte) (s : string) : option nat :=
  match s with
  | EmptyString => None
  | String x s => if x =c c then Some O else S <$> index_nat c s
  end.

(** [strings.IndexByte]: -1 when the byte does not occur. *)
Definition IndexByte (s : string) (c : byte) : Z :=
  match index_nat c s with Some n => Z.of_nat n | None => -1 end.

(** [strings.LastIndexByte]. *)
Fixpoint last_index_nat (c : byte) (s : string) : option nat :=
  match s with
  | EmptyString => None
  | String x s =>
      match last_index_nat c s with
      | Some n => Some (S n)
      | None => if x =c c then Some O else None
      end
  end.
Definition LastIndexByte (s : string) (c : byte) : Z :=
  match last_index_nat c s with Some n => Z.of_nat n | None => -1 end.

Fixpoint strip_prefix (p s : string) : option string :=
  match p, s with
  | EmptyString, _ => Some s
  | String a p, String b s => if a =c b then strip_prefix p s else None
  | _, _ => None
  end.
Definition strip_suffix (p s : string) : option string :=
  str_rev <$> strip_prefix (str_rev p) (str_rev s).

Definition HasPrefix (s p : string) : bool := bool_decide (is_Some (strip_prefix p s)).
Definition HasSuffix (s p : string) : bool := bool_decide (is_Some (strip_suffix p s)).
Definition TrimPrefix (s p : string) : string := default s (strip_prefix p s).
Definition TrimSuffix (s p : string) : string := default s (strip_suffix p s).

Fixpoint Contains (s p : string) : bool :=
  HasPrefix s p || match s with EmptyString => false | String _ s => Contains s p end.

(** [strings.Cut] with a one-byte separator. *)
Fixpoint cut_byte (s : string) (c : byte) : option (string * string) :=
  match s with
  | EmptyString => None
  | String x s =>
      if x =c c then Some (EmptyString, s)
      else match cut_byte s c with
           | Some (a, b) => Some (String x a, b)
           | None => None
           end
  end.

(** [strings.ReplaceAll(s, c, "")] for a one-byte [c]. *)
Fixpoint remove_byte (c : byte) (s : string) : string :=
  match s with
  | EmptyString => EmptyString
  | String x s => if x =c c then remove_byte c s else String x (remove_byte c s)
  end.

(** [strings.TrimLeft] and [strings.TrimRight] with an ASCII cutset. *)
Definition trim_left (p : byte -> bool) (s : string) : string := (span p s).2.
Definition trim_right (p : byte -> bool) (s : string) : string :=
  str_rev (trim_left p (str_rev s)).

Definition is_crlf (c : byte) : bool := (c =c chr 13) || (c =c chr 10).
Definition is_sp (c : byte) : bool := c =c " ".

(** ** Trimming white space

    [strings.TrimSpace] trims the runes of [unicode.IsSpace]: the encodings of
    those runes, from the left and (reversed) from the right. *)
Definition of_codes (l : list Z) : string :=
  foldr (fun z s => String (chr z) s) EmptyString l.
Definition space_encodings : list string :=
  of_codes <$>
    ([[9]; [10]; [11]; [12]; [13]; [32]; [194; 133]; [194; 160]; [225; 154; 128];
      [226; 128; 168]; [226; 128; 169]; [226; 128; 175]; [226; 129; 159]; [227; 128; 128]]
     ++ ((fun k => [226; 128; k]) <$> seqZ 128 11)).

Fixpoint strip_any (ps : list string) (s : string) : option string :=
  match ps with
  | [] => None
  | p :: ps => match strip_prefix p s with Some s' => Some s' | None => strip_any ps s end
  end.
Fixpoint trim_any (fuel : nat) (ps : list string) (s : string) : string :=
  match fuel, strip_any ps s with
  | S fuel, Some s' => trim_any fuel ps s'
  | _, _ => s
  end.
Definition trim_space_left (s : string) : string :=
  trim_any (String.length s) space_encodings s.
Definition trim_space_right (s : string) : string :=
  str_rev (trim_any (String.length s) (str_rev <$> space_encodings) (str_rev s)).
Definition TrimSpace (s : string) : string := trim_space_right (trim_space_left s).

(** ** Decimal numbers *)

Definition is_digit (c : byte) : bool := (48 <=? code c) && (code c <=? 57).
Definition digit (z : Z) : byte := chr (48 + z).

(** Value of a digit string read after the value [acc]; [None] on a non-digit. *)
Fixpoint dec_value (acc : Z) (s : string) : option Z :=
  match s with
  | EmptyString => Some acc
  | String c s => if is_digit c then dec_value (acc * 10 + (code c - 48)) s else None
  end.

Definition min_int64 : Z := - 2 ^ 63.
Definition max_int64 : Z := 2 ^ 63 - 1.
Definition in_int64 (z : Z) : bool := (min_int64 <=? z) && (z <=? max_int64).
(** Two's-complement wrap-around of [int64] arithmetic. *)
Definition wrap64 (z : Z) : Z := (z + 2 ^ 63) mod 2 ^ 64 - 2 ^ 63.

(** [strconv.Atoi] (and [ParseInt(s, 10, 64)]) on a 64-bit platform. *)
Definition Atoi (s : string) : option Z :=
  let signed neg body :=
    match body with
    | EmptyString => None
    | _ =>
        match dec_value 0 body with
        | Some n =>
            let v := if neg : bool then - n else n in
            if in_int64 v then Some v else None
        | None => None
        end
    end in
  match s with
  | String c body =>
      if c =c "-" then signed true body
      else if c =c "+" then signed false body
      else signed false s
  | EmptyString => None
  end.

Fixpoint digits_acc (fuel : nat) (n : Z) (acc : string) : string :=
  match fuel with
  | O => acc
  | S fuel =>
      let acc := String (digit (n mod 10)) acc in
      if n <? 10 then acc else digits_acc fuel (n / 10) acc
  end.
Definition digits (n : Z) : string := digits_acc (S (Z.to_nat (Z.log2 n))) n EmptyString.

(** [strconv.Itoa], [FormatUint], and [%d]. *)
Definition Itoa (z : Z) : string :=
  if z <? 0 then String "-" (digits (- z)) else digits z.

(** Zero-padded decimal ([appendInt] of package time, [%0nd]). *)
Definition zeros (n : nat) : string := Nat.iter n (String "0") EmptyString.
Definition pad (width : nat) (z : Z) : string :=
  let d := digits z in zeros (width - String.length d) +:+ d.

(** ** Lemmas: searching *)

Definition lacks (c : byte) (s : string) : bool := all_bytes (fun x => negb (x =c c)) s.

Lemma index_nat_append c a b :
  lacks c a = true -> index_nat c (a +:+ String c b) = Some (String.length a).
Proof.
  induction a as [|x a IH]; simpl; [by rewrite ch_eq_refl|].
  unfold lacks in *. simpl. intros [Hx Ha]%andb_true_iff. apply negb_true_iff in Hx.
  by rewrite Hx, IH.
Qed.

Lemma index_nat_Some c s n :
  index_nat c s = Some n ->
  exists a b, s = a +:+ String c b /\ String.length a = n /\ lacks c a = true.
Proof.
  revert n. induction s as [|x s IH]; simpl; [done|]. intros n.
  destruct (ch_eq_spec x c) as [->|Hx].
  - intros [= <-]. by exists "", s.
  - destruct (index_nat c s) as [m|] eqn:E; simpl; [|done]. intros [= <-].
    destruct (IH m eq_refl) as (a & b & -> & Hlen & Hl).
    exists (String x a), b. unfold lacks in *. simpl. rewrite Hl, Hlen.
    split; [done|]. split; [done|]. by destruct (ch_eq_spec x c).
Qed.

Lemma index_nat_None c s : index_nat c s = None -> lacks c s = true.
Proof.
  induction s as [|x s IH]; simpl; [done|]. unfold lacks in *. simpl.
  destruct (ch_eq_spec x c); [done|]. destruct (index_nat c s); simpl; [done|]. auto.
Qed.

Lemma index_nat_lacks c s : lacks c s = true -> index_nat c s = None.
Proof.
  induction s as [|x s IH]; simpl; [done|]. unfold lacks in *. simpl.
  intros [Hx Hs]%andb_true_iff. apply negb_true_iff in Hx. rewrite Hx. by rewrite IH.
Qed.

Lemma IndexByte_append c a b :
  lacks c a = true -> IndexByte (a +:+ String c b) c = len a.
Proof. intros H. unfold IndexByte. by rewrite index_nat_append. Qed.

Lemma IndexByte_inv c s :
  (IndexByte s c = -1 /\ lacks c s = true)
  \/ exists a b, s = a +:+ String c b /\ IndexByte s c = len a /\ lacks c a = true.
Proof.
  unfold IndexByte. destruct (index_nat c s) as [n|] eqn:E.
  - right. destruct (index_nat_Some _ _ _ E) as (a & b & -> & <- & H). by exists a, b.
  - left. split; [done|]. by apply index_nat_None.
Qed.

Lemma last_index_nat_Some c s n :
  last_index_nat c s = Some n ->
  exists a b, s = a +:+ String c b /\ String.length a = n /\ lacks c b = true.
Proof.
  revert n. induction s as [|x s IH]; simpl; [done|]. intros n.
  destruct (last_index_nat c s) as [m|] eqn:E.
  - intros [= <-]. destruct (IH m eq_refl) as (a & b & -> & <- & H).
    by exists (String x a), b.
  - destruct (ch_eq_spec x c) as [->|]; [|done]. intros [= <-].
    exists "", s. split; [done|]. split; [done|].
    clear IH. revert E. induction s as [|y s IH]; simpl; [done|].
    destruct (last_index_nat c s); [done|]. unfold lacks in *. simpl.
    destruct (ch_eq_spec y c); [done|]. auto.
Qed.

Lemma last_index_nat_append c a b :
  lacks c b = true -> last_index_nat c (a +:+ String c b) = Some (String.length a).
Proof.
  intros Hb. induction a as [|x a IH]; simpl.
  - assert (last_index_nat c b = None) as ->; [|by rewrite ch_eq_refl].
    induction b as [|y b IH]; [done|]. unfold lacks in *. simpl in *.
    apply andb_true_iff in Hb as [Hy Hb]. apply negb_true_iff in Hy.
    by rewrite (IH Hb), Hy.
  - by rewrite IH.
Qed.

Lemma strip_prefix_append p s : strip_prefix p (p +:+ s) = Some s.
Proof. induction p as [|c p IH]; simpl; [done|]. by rewrite ch_eq_refl. Qed.

Lemma strip_prefix_Some p s r : strip_prefix p s = Some r -> s = p +:+ r.
Proof.
  revert s. induction p as [|c p IH]; simpl; [by intros s [= ->]|].
  intros [|x s]; [done|]. destruct (ch_eq_spec c x) as [->|]; [|done].
  intros H. by rewrite (IH _ H).
Qed.

Lemma cut_byte_append c a b : lacks c a = true -> cut_byte (a +:+ String c b) c = Some (a, b).
Proof.
  induction a as [|x a IH]; simpl; [by rewrite ch_eq_refl|].
  unfold lacks in *. simpl. intros [Hx Ha]%andb_true_iff. apply negb_true_iff in Hx.
  by rewrite Hx, IH.
Qed.

Lemma cut_byte_Some s c a b :
  cut_byte s c = Some (a, b) -> s = a +:+ String c b /\ lacks c a = true.
Proof.
  revert a b. induction s as [|x s IH]; simpl; [done|]. intros a b.
  destruct (ch_eq_spec x c) as [->|Hx]; [by intros [= <- <-]|].
  destruct (cut_byte s c) as [[a' b']|] eqn:E; [|done]. intros [= <- <-].
  destruct (IH a' b' eq_refl) as [-> H]. unfold lacks in *. simpl. rewrite H.
  split; [done|]. by destruct (ch_eq_spec x c).
Qed.

(** ** Lemmas: reversal and trimming *)

Lemma str_rev_app_append s a b : str_rev_app s (a +:+ b) = str_rev_app s a +:+ b.
Proof. revert a. induction s as [|c s IH]; simpl; [done|]. intros a. by rewrite <- IH. Qed.

Lemma str_rev_cons c s : str_rev (String c s) = str_rev s +:+ String c "".
Proof. unfold str_rev. simpl. by rewrite <- str_rev_app_append. Qed.

Lemma str_rev_append a b : str_rev (a +:+ b) = str_rev b +:+ str_rev a.
Proof.
  induction a as [|c a IH]; simpl.
  - by rewrite append_nil_r.
  - by rewrite !str_rev_cons, IH, append_assoc.
Qed.

Lemma str_rev_involutive s : str_rev (str_rev s) = s.
Proof. induction s as [|c s IH]; [done|]. by rewrite str_rev_cons, str_rev_append, IH. Qed.

Lemma length_str_rev s : String.length (str_rev s) = String.length s.
Proof.
  induction s as [|c s IH]; [done|]. rewrite str_rev_cons, length_append. simpl. lia.
Qed.

Lemma all_bytes_rev p s : all_bytes p (str_rev s) = all_bytes p s.
Proof.
  induction s as [|c s IH]; [done|]. rewrite str_rev_cons, all_bytes_append, IH. simpl.
  by rewrite andb_true_r, andb_comm.
Qed.

(** [ends p s]: the last byte of [s] satisfies [p]. *)
Definition ends (p : byte -> bool) (s : string) : bool := starts p (str_rev s).

Lemma starts_append p a b :
  starts p (a +:+ b) = match a with EmptyString => starts p b | _ => starts p a end.
Proof. by destruct a. Qed.

Lemma ends_append p a b :
  ends p (a +:+ b) = match b with EmptyString => ends p a | _ => ends p b end.
Proof.
  unfold ends. rewrite str_rev_append. destruct b as [|c b]; [done|].
  rewrite str_rev_cons. destruct (str_rev b); done.
Qed.

Lemma strip_suffix_append p s : strip_suffix p (s +:+ p) = Some s.
Proof.
  unfold strip_suffix. rewrite str_rev_append, strip_prefix_append. simpl.
  by rewrite str_rev_involutive.
Qed.

Lemma strip_suffix_Some p s r : strip_suffix p s = Some r -> s = r +:+ p.
Proof.
  unfold strip_suffix. destruct (strip_prefix _ _) as [r'|] eqn:E; simpl; [|done].
  intros [= <-]. apply strip_prefix_Some in E.
  by rewrite <- (str_rev_involutive s), E, str_rev_append, str_rev_involutive.
Qed.

Lemma trim_left_spec p s :
  exists a, s = a +:+ trim_left p s /\ all_bytes p a = true /\ starts p (trim_left p s) = false.
Proof.
  unfold trim_left. destruct (span p s) as [a b] eqn:E. exists a. by apply span_spec.
Qed.

Lemma trim_left_id p s : starts p s = false -> trim_left p s = s.
Proof.
  intros H. unfold trim_left. pose proof (span_append p "" s eq_refl H) as E.
  simpl in E. by rewrite E.
Qed.

Lemma trim_right_spec p s :
  exists b, s = trim_right p s +:+ b /\ all_bytes p b = true /\ ends p (trim_right p s) = false.
Proof.
  unfold trim_right, ends. destruct (trim_left_spec p (str_rev s)) as (a & Hs & Ha & Hst).
  exists (str_rev a). rewrite all_bytes_rev, str_rev_involutive.
  split; [|done]. by rewrite <- str_rev_append, <- Hs, str_rev_involutive.
Qed.

Lemma trim_right_id p s : ends p s = false -> trim_right p s = s.
Proof.
  intros H. unfold trim_right. rewrite trim_left_id by done. apply str_rev_involutive.
Qed.

(** ** Lemmas: white space

    A string that begins and ends with a graphic ASCII byte has nothing to
    trim. *)
Definition is_graph (c : byte) : bool := (33 <=? code c) && (code c <=? 126).

Definition no_graph_start (ps : list string) : bool :=
  forallb (fun p => starts (fun c => negb (is_graph c)) p) ps.

Lemma strip_any_no_graph ps s :
  no_graph_start ps = true -> starts is_graph s = true -> strip_any ps s = None.
Proof.
  intros Hps Hs. induction ps as [|p ps IH]; [done|]. simpl in *.
  apply andb_true_iff in Hps as [Hp Hps]. rewrite (IH Hps).
  destruct p as [|a p]; [done|]. destruct s as [|c s]; [done|]. simpl in *.
  destruct (ch_eq_spec a c) as [->|]; [|done]. by rewrite Hs in Hp.
Qed.

Lemma strip_any_graph s :
  starts is_graph s = true -> strip_any space_encodings s = None.
Proof. by apply strip_any_no_graph. Qed.

Lemma strip_any_rev_graph s :
  starts is_graph s = true -> strip_any (str_rev <$> space_encodings) s = None.
Proof. by apply strip_any_no_graph. Qed.

Lemma trim_any_stop n ps s : strip_any ps s = None -> trim_any n ps s = s.
Proof. intros H. destruct n; simpl; [done|]. by rewrite H. Qed.

Lemma trim_space_left_graph s : starts is_graph s = true -> trim_space_left s = s.
Proof. intros H. by apply trim_any_stop, strip_any_graph. Qed.

Lemma trim_space_right_graph s : ends is_graph s = true -> trim_space_right s = s.
Proof.
  intros H. unfold trim_space_right. rewrite trim_any_stop by by apply strip_any_rev_graph.
  apply str_rev_involutive.
Qed.

Lemma TrimSpace_graph s :
  starts is_graph s = true -> ends is_graph s = true -> TrimSpace s = s.
Proof.
  intros ??. unfold TrimSpace. by rewrite trim_space_left_graph, trim_space_right_graph.
Qed.

Lemma TrimSpace_nil : TrimSpace "" = "".
Proof. reflexivity. Qed.

(** ** Lemmas: decimal numbers *)

Lemma is_digit_digit z : 0 <= z < 10 -> is_digit (digit z) = true.
Proof.
  intros H. unfold is_digit, digit. rewrite code_chr by lia.
  apply andb_true_iff; split; apply Z.leb_le; lia.
Qed.

Lemma code_digit z : 0 <= z < 10 -> code (digit z) - 48 = z.
Proof. intros H. unfold digit. rewrite code_chr; lia. Qed.

Lemma dec_digits_acc fuel n acc :
  0 <= n < 2 ^ Z.of_nat fuel -> dec_value 0 (digits_acc fuel n acc) = dec_value n acc.
Proof.
  revert n acc. induction fuel as [|fuel IH]; intros n acc Hn.
  { simpl in *. by replace n with 0 by lia. }
  cbn [digits_acc].
  assert (Hm : 0 <= n mod 10 < 10) by (apply Z.mod_pos_bound; lia).
  assert (Hstep : forall m, dec_value m (String (digit (n mod 10)) acc)
                           = dec_value (m * 10 + n mod 10) acc).
  { intros m. cbn [dec_value]. by rewrite is_digit_digit, code_digit. }
  destruct (Z.ltb_spec n 10).
  - rewrite Hstep, Z.mod_small; [done|lia].
  - rewrite IH.
    + rewrite Hstep. f_equal. pose proof (Z.div_mod n 10). lia.
    + rewrite Nat2Z.inj_succ, Z.pow_succ_r in Hn by lia.
      split; [apply Z.div_pos; lia|]. apply Z.div_lt_upper_bound; lia.
Qed.

Lemma log2_fuel n : 0 <= n -> n < 2 ^ Z.of_nat (S (Z.to_nat (Z.log2 n))).
Proof.
  intros H. rewrite Nat2Z.inj_succ, Z2Nat.id by apply Z.log2_nonneg.
  destruct (Z.eq_dec n 0) as [->|]; [done|]. apply Z.log2_spec. lia.
Qed.

Lemma dec_digits n : 0 <= n -> dec_value 0 (digits n) = Some n.
Proof.
  intros H. unfold digits. rewrite dec_digits_acc; [done|]. split; [lia|]. by apply log2_fuel.
Qed.

Lemma digits_acc_digits fuel n acc :
  0 <= n -> all_bytes is_digit acc = true -> all_bytes is_digit (digits_acc fuel n acc) = true.
Proof.
  revert n acc. induction fuel as [|fuel IH]; intros n acc Hn Hacc; [done|]. cbn [digits_acc].
  assert (all_bytes is_digit (String (digit (n mod 10)) acc) = true).
  { simpl. rewrite Hacc, is_digit_digit; [done|]. apply Z.mod_pos_bound. lia. }
  destruct (n <? 10); [done|]. apply IH; [apply Z.div_pos; lia|done].
Qed.

Lemma digits_digits n : 0 <= n -> all_bytes is_digit (digits n) = true.
Proof. intros H. by apply digits_acc_digits. Qed.

Lemma digits_acc_length fuel k n acc :
  0 <= n < 10 ^ Z.of_nat (S k) ->
  (String.length (digits_acc fuel n acc) <= S k + String.length acc)%nat.
Proof.
  revert k n acc. induction fuel as [|fuel IH]; intros k n acc Hn; cbn [digits_acc]; [lia|].
  destruct (Z.ltb_spec n 10); cbn [String.length]; [lia|].
  destruct k as [|k]; [change (10 ^ Z.of_nat 1) with 10 in Hn; lia|].
  rewrite Nat2Z.inj_succ, Z.pow_succ_r in Hn by lia.
  specialize (IH k (n / 10) (String (digit (n mod 10)) acc)).
  cbn [String.length] in IH. etrans; [apply IH|lia].
  split; [apply Z.div_pos; lia|]. apply Z.div_lt_upper_bound; lia.
Qed.

Lemma digits_length k n : 0 <= n < 10 ^ Z.of_nat (S k) -> (String.length (digits n) <= S k)%nat.
Proof.
  intros H. pose proof (digits_acc_length (S (Z.to_nat (Z.log2 n))) k n "" H) as Hl.
  cbn [String.length] in Hl. fold (digits n) in Hl. lia.
Qed.

Lemma digits_acc_nonempty fuel n acc : digits_acc (S fuel) n acc <> "".
Proof.
  revert n acc. induction fuel as [|fuel IH]; intros n acc; cbn [digits_acc].
  - by destruct (n <? 10).
  - destruct (n <? 10); [done|]. apply IH.
Qed.

Lemma digits_nonempty n : digits n <> "".
Proof. apply digits_acc_nonempty. Qed.

Lemma dec_value_zeros k acc s : acc = 0 -> dec_value acc (zeros k +:+ s) = dec_value 0 s.
Proof. intros ->. induction k as [|k IH]; [done|]. exact IH. Qed.

Lemma length_zeros k : String.length (zeros k) = k.
Proof. induction k as [|k IH]; [done|]. simpl. by rewrite <- IH at 2. Qed.

Lemma dec_pad w n : 0 <= n -> dec_value 0 (pad w n) = Some n.
Proof. intros H. unfold pad. rewrite dec_value_zeros by done. by apply dec_digits. Qed.

Lemma length_pad w n : 0 <= n < 10 ^ Z.of_nat (S w) -> String.length (pad (S w) n) = S w.
Proof.
  intros H. unfold pad. rewrite length_append, length_zeros.
  pose proof (digits_length w n H). lia.
Qed.

Lemma pad_digits w n : 0 <= n -> all_bytes is_digit (pad w n) = true.
Proof.
  intros H. unfold pad. rewrite all_bytes_append, digits_digits by done.
  rewrite andb_true_r. induction (w - _)%nat as [|k IH]; [done|]. exact IH.
Qed.

Lemma is_digit_cases c s (P : option Z -> Prop) :
  is_digit c = true ->
  P (Atoi (String c s)) <->
  P (match dec_value 0 (String c s) with
     | Some n => if in_int64 n then Some n else None
     | None => None
     end).
Proof.
  intros Hc. unfold Atoi.
  destruct (ch_eq_spec c "-") as [->|]; [done|]. by destruct (ch_eq_spec c "+") as [->|].
Qed.

(** A non-empty string of digits in range is its decimal value. *)
Lemma Atoi_digits s n :
  s <> "" -> all_bytes is_digit s = true -> dec_value 0 s = Some n -> n <= max_int64 -> 0 <= n ->
  Atoi s = Some n.
Proof.
  intros Hne Hd Hv Hmax Hmin. destruct s as [|c s]; [done|]. simpl in Hd.
  apply andb_true_iff in Hd as [Hc _].
  apply (is_digit_cases c s (fun o => o = Some n) Hc). rewrite Hv.
  unfold in_int64, min_int64. replace (_ && _) with true by lia. done.
Qed.

Lemma Atoi_Itoa z : in_int64 z = true -> Atoi (Itoa z) = Some z.
Proof.
  intros Hz. pose proof Hz as Hz'. unfold in_int64 in Hz'. b2p.
  unfold Itoa. destruct (Z.ltb_spec z 0).
  - unfold Atoi. simpl. rewrite dec_digits by lia.
    destruct (digits (- z)) eqn:E; [by apply digits_nonempty in E|].
    by rewrite Z.opp_involutive, Hz.
  - apply Atoi_digits; [apply digits_nonempty|apply digits_digits; lia|
      apply dec_digits; lia|lia|lia].
Qed.

(** A digit string of length [n] denotes a number below [10^n]. *)
Lemma dec_value_bound s a v :
  dec_value a s = Some v -> 0 <= a -> v < (a + 1) * 10 ^ len s.
Proof.
  revert a. induction s as [|c s IH]; intros a H Ha; cbn [dec_value] in H.
  { simplify_eq. change (len "") with 0. lia. }
  destruct (is_digit c) eqn:Hc; [|done]. unfold is_digit in Hc. apply andb_true_iff in Hc.
  rewrite !Z.leb_le in Hc. pose proof (len_nonneg s).
  rewrite len_cons, Z.pow_add_r by lia. change (10 ^ 1) with 10.
  specialize (IH _ H ltac:(lia)). pose proof (Z.pow_pos_nonneg 10 (len s) ltac:(lia) ltac:(lia)).
  nia.
Qed.

Lemma digits_length_ge k n : 0 < k -> 10 ^ (k - 1) <= n -> k <= len (digits n).
Proof.
  intros Hk Hn. assert (0 <= n) by (pose proof (Z.pow_nonneg 10 (k - 1)); lia).
  pose proof (dec_value_bound (digits n) 0 n (dec_digits n H) ltac:(lia)) as Hb.
  destruct (Z.lt_ge_cases (len (digits n)) k) as [Hlt|]; [|done].
  assert (10 ^ len (digits n) <= 10 ^ (k - 1)) by (apply Z.pow_le_mono_r; lia). lia.
Qed.

(** Numbers that already have the width are not padded. *)
Lemma pad_digits_eq w n : 0 < Z.of_nat w -> 10 ^ (Z.of_nat w - 1) <= n -> pad w n = digits n.
Proof.
  intros Hw Hn. pose proof (digits_length_ge (Z.of_nat w) n Hw Hn) as Hl. unfold len in Hl.
  unfold pad. by replace (w - String.length (digits n))%nat with 0%nat by lia.
Qed.

(** A positive number is printed without leading zeros. *)
Lemma digits_acc_head fuel n acc :
  1 <= n < 2 ^ Z.of_nat fuel -> starts (fun c => negb (c =c "0")) (digits_acc fuel n acc) = true.
Proof.
  revert n acc. induction fuel as [|fuel IH]; intros n acc Hn; [change (2 ^ Z.of_nat 0) with 1 in Hn; lia|].
  cbn [digits_acc]. destruct (Z.ltb_spec n 10).
  - cbn [starts]. apply negb_true_iff. destruct (ch_eq_spec (digit (n mod 10)) "0") as [E|]; [|done].
    apply (f_equal code) in E. unfold digit in E. rewrite Z.mod_small, code_chr in E by lia. change (code "0") with 48 in E. lia.
  - apply IH. rewrite Nat2Z.inj_succ, Z.pow_succ_r in Hn by lia.
    split; [apply Z.div_le_lower_bound; lia|]. apply Z.div_lt_upper_bound; lia.
Qed.
Lemma digits_head n : 1 <= n -> starts (fun c => negb (c =c "0")) (digits n) = true.
Proof.
  intros H. apply digits_acc_head. pose proof (Z.log2_spec n ltac:(lia)). pose proof (Z.log2_nonneg n).
  rewrite Nat2Z.inj_succ, Z2Nat.id by lia. lia.
Qed.

(** ** [strings.Join] *)

Fixpoint join (sep : string) (l : list string) : string :=
  match l with [] => "" | [s] => s | s :: l => s +:+ sep +:+ join sep l end.
Lemma join_cons sep s l : join sep (s :: l) = s +:+ (match l with [] => "" | _ => sep +:+ join sep l end).
Proof. destruct l; simpl; [by rewrite append_nil_r|done]. Qed.
