(* ===== verification/GoUtf8.v ===== *)
(** * Go's [unicode/utf8] and [strings.ToValidUTF8]

    Decoding of one rune with Go's acceptance ranges, well-formed UTF-8 as an
    inductive predicate, and the replacement of invalid byte runs. *)
From S2P Require Import Prelude GoStrings.

Definition rune_error : Z := 65533.

Definition in_range (lo hi : Z) (c : byte) : bool := (lo <=? code c) && (code c <=? hi).
Definition is_cont (c : byte) : bool := in_range 128 191 c.

(** [utf8.DecodeRuneInString]: the rune and its width; width 1 with
    [rune_error] is an invalid byte. *)
Definition decode_rune (s : string) : Z * nat :=
  let bad := (rune_error, 1%nat) in
  match s with
  | EmptyString => (rune_error, O)
  | String c0 s1 =>
      let x := code c0 in
      if x <? 128 then (x, 1%nat)
      else if x <? 194 then bad
      else if x <=? 223 then
        match s1 with
        | String c1 _ =>
            if is_cont c1 then ((x - 192) * 64 + (code c1 - 128), 2%nat) else bad
        | _ => bad
        end
      else if x <=? 239 then
        match s1 with
        | String c1 (String c2 _) =>
            if in_range (if x =? 224 then 160 else 128) (if x =? 237 then 159 else 191) c1
               && is_cont c2
            then ((x - 224) * 4096 + (code c1 - 128) * 64 + (code c2 - 128), 3%nat) else bad
        | _ => bad
        end
      else if x <=? 244 then
        match s1 with
        | String c1 (String c2 (String c3 _)) =>
            if in_range (if x =? 240 then 144 else 128) (if x =? 244 then 143 else 191) c1
               && is_cont c2 && is_cont c3
            then ((x - 240) * 262144 + (code c1 - 128) * 4096 + (code c2 - 128) * 64
                  + (code c3 - 128), 4%nat) else bad
        | _ => bad
        end
      else bad
  end.

(** The head of [s] is a well-formed rune of [w] bytes. *)
Definition rune_at (s : string) (w : nat) : bool :=
  let (r, n) := decode_rune s in
  (w =? n)%nat && negb (n =? 0)%nat && negb ((n =? 1)%nat && (r =? rune_error)).

Inductive valid_utf8 : string -> Prop :=
  | valid_nil : valid_utf8 EmptyString
  | valid_rune s w : rune_at s w = true -> valid_utf8 (str_drop w s) -> valid_utf8 s.

(** The copying loop of [strings.ToValidUTF8]: a run of invalid bytes becomes
    one replacement. *)
Fixpoint to_valid (fuel : nat) (repl : string) (invalid : bool) (s : string) : string :=
  match fuel, s with
  | S fuel, String c s' =>
      if code c <? 128 then String c (to_valid fuel repl false s')
      else
        let (_, wid) := decode_rune s in
        if (wid =? 1)%nat
        then (if invalid then EmptyString else repl) +:+ to_valid fuel repl true s'
        else str_take wid s +:+ to_valid fuel repl false (str_drop wid s)
  | _, _ => EmptyString
  end.
Definition ToValidUTF8 (s repl : string) : string := to_valid (String.length s) repl false s.

(** The replacement character U+FFFD the program passes. *)
Definition replacement : string := of_codes [239; 191; 189].

(** ** Lemmas *)

Ltac rune_cases :=
  repeat match goal with
    | |- context [if ?b then _ else _] => destruct b eqn:?
    | |- context [match ?s with EmptyString => _ | String _ _ => _ end] => destruct s
    end.

Lemma decode_width s : s <> "" -> (1 <= (decode_rune s).2 <= 4)%nat.
Proof. destruct s as [|c s]; [done|]. intros _. cbn -[Z.mul Z.add]. rune_cases; simpl; lia. Qed.

(** A multi-byte rune is decoded from its own bytes alone. *)
Lemma decode_local s t :
  (1 < (decode_rune s).2)%nat ->
  decode_rune (str_take (decode_rune s).2 s +:+ t) = decode_rune s
  /\ String.length (str_take (decode_rune s).2 s) = (decode_rune s).2.
Proof.
  destruct s as [|c0 s]; [simpl; lia|].
  destruct (decode_rune (String c0 s)) as [r w] eqn:E. cbn [snd].
  revert E. cbn -[Z.mul Z.add str_take].
  rune_cases; intros [= <- <-] Hw; try lia; cbn -[Z.mul Z.add]; try done;
    repeat match goal with H : _ = true |- _ => rewrite H | H : _ = false |- _ => rewrite H end;
    done.
Qed.

Lemma rune_at_ascii c s : (code c <? 128) = true -> rune_at (String c s) 1 = true.
Proof.
  intros H. unfold rune_at, decode_rune. rewrite H. cbn.
  apply Z.ltb_lt in H. unfold rune_error. destruct (Z.eqb_spec (code c) 65533); [lia|done].
Qed.

Lemma rune_at_spec s w :
  rune_at s w = true <->
  (decode_rune s).2 = w /\ w <> O /\ ~ (w = 1%nat /\ (decode_rune s).1 = rune_error).
Proof.
  unfold rune_at. destruct (decode_rune s) as [r n]. cbn [fst snd].
  destruct (Nat.eqb_spec w n), (Nat.eqb_spec n 0), (Nat.eqb_spec n 1), (Z.eqb_spec r rune_error);
    simpl; intuition (congruence || lia).
Qed.

(** A byte outside ASCII is never a rune of its own. *)
Lemma decode_one c s :
  (code c <? 128) = false -> (decode_rune (String c s)).2 = 1%nat ->
  (decode_rune (String c s)).1 = rune_error.
Proof. intros Hc. cbn -[Z.mul Z.add]. rewrite Hc. rune_cases; simpl; done. Qed.

Lemma valid_append a b : valid_utf8 a -> valid_utf8 b -> valid_utf8 (a +:+ b).
Proof.
  intros Ha Hb. induction Ha as [|s w Hw Hd IH]; [done|].
  pose proof Hw as (Hn & Hne & Hbad)%rune_at_spec.
  destruct s as [|c s]; [simpl in Hn; lia|].
  destruct (decide (w = 1%nat)) as [->|Hw1].
  - destruct (code c <? 128) eqn:Hc; [|by destruct Hbad; split; [|apply decode_one]].
    apply (valid_rune _ 1); [by apply rune_at_ascii|exact IH].
  - pose proof (decode_local (String c s) (str_drop w (String c s) +:+ b)) as Hl.
    rewrite Hn in Hl. destruct Hl as [Hl Hlen]; [lia|].
    rewrite <- append_assoc, str_take_drop in Hl.
    apply (valid_rune _ w).
    + apply rune_at_spec. by rewrite Hl.
    + rewrite <- (str_take_drop w (String c s)), append_assoc, <- Hlen at 1.
      by rewrite str_drop_append.
Qed.

Lemma rune_valid s w :
  (1 < w)%nat -> (decode_rune s).2 = w -> valid_utf8 (str_take w s).
Proof.
  intros Hw <-. pose proof (decode_local s "" Hw) as [Hd Hl]. rewrite append_nil_r in Hd.
  apply (valid_rune _ (decode_rune s).2).
  - unfold rune_at. rewrite Hd. destruct (decode_rune s) as [r n]. simpl in *.
    rewrite Nat.eqb_refl. destruct n as [|[|n]]; [lia..|done].
  - assert (forall u, str_drop (String.length u) u = "") as Hdr by (induction u; done).
    rewrite <- Hl at 1. rewrite Hdr. constructor.
Qed.

Lemma to_valid_valid fuel repl inv s :
  valid_utf8 repl -> valid_utf8 (to_valid fuel repl inv s).
Proof.
  intros Hr. revert inv s. induction fuel as [|fuel IH]; intros inv s; [constructor|].
  destruct s as [|c s]; [constructor|]. cbn [to_valid]. destruct (code c <? 128) eqn:Hc.
  { apply (valid_rune _ 1); [by apply rune_at_ascii|apply IH]. }
  destruct (decode_rune (String c s)) as [r w] eqn:E.
  pose proof (decode_width (String c s)) as Hw. rewrite E in Hw. cbn [snd] in Hw.
  destruct (Nat.eqb_spec w 1) as [->|Hne].
  - apply valid_append; [|apply IH]. destruct inv; [constructor|done].
  - apply valid_append; [|apply IH]. apply rune_valid; [|by rewrite E].
    specialize (Hw ltac:(done)). lia.
Qed.

Lemma replacement_valid : valid_utf8 replacement.
Proof. apply (valid_rune _ 3); [reflexivity|constructor]. Qed.

(** The result is always well-formed. *)
Lemma ToValidUTF8_valid s : valid_utf8 (ToValidUTF8 s replacement).
Proof. apply to_valid_valid, replacement_valid. Qed.

Lemma to_valid_id fuel repl inv s :
  (String.length s <= fuel)%nat -> valid_utf8 s -> to_valid fuel repl inv s = s.
Proof.
  intros Hf Hv. revert fuel inv Hf. induction Hv as [|s w Hw Hv IH]; intros fuel inv Hf.
  { by destruct fuel. }
  destruct s as [|c s]; [by destruct fuel|]. destruct fuel as [|fuel]; [simpl in Hf; lia|].
  cbn [to_valid]. cbn [String.length] in Hf.
  apply rune_at_spec in Hw as (Hn & Hne & Hbad).
  destruct (code c <? 128) eqn:Hc.
  { assert (w = 1%nat) as ->.
    { revert Hn. cbn -[Z.mul Z.add]. rewrite Hc. by intros <-. }
    f_equal. apply IH. simpl. lia. }
  destruct (decode_rune (String c s)) as [r n] eqn:E. cbn [fst snd] in *. subst n.
  destruct (Nat.eqb_spec w 1) as [->|Hne1].
  { destruct Hbad. split; [done|]. pose proof (decode_one c s Hc) as Ho.
    rewrite E in Ho. by apply Ho. }
  rewrite IH; [apply str_take_drop|]. rewrite length_str_drop. cbn [String.length]. lia.
Qed.

(** Well-formed input is returned unchanged: Go's early return agrees. *)
Lemma ToValidUTF8_id s : valid_utf8 s -> ToValidUTF8 s replacement = s.
Proof. intros H. by apply to_valid_id. Qed.

Lemma valid_ascii s : all_bytes (fun c => code c <? 128) s = true -> valid_utf8 s.
Proof.
  induction s as [|c s IH]; simpl; [constructor|]. intros [Hc Hs]%andb_true_iff.
  apply (valid_rune _ 1); [by apply rune_at_ascii|by apply IH].
Qed.
