(* ===== verification/GoTime.v ===== *)
(** * Go's package [time]

    Instants with a zone offset, the proleptic Gregorian calendar, the two
    layouts the program formats and parses ([time.RFC3339Nano] and
    ["2006 Jan 2 15:04:05"]), locations and saturating durations. *)
From S2P Require Import Prelude GoStrings.

(** An instant, in nanoseconds since the Unix epoch, and the offset (seconds
    east of UTC) of the location it is printed in. *)
Record Time := mkTime { t_ns : Z; t_off : Z }.

Definition second : Z := 1000000000.
(** Go's zero [Time]: January 1, year 1, 00:00:00 UTC. *)
Definition zero_time : Time := mkTime (-62135596800 * second) 0.
Definition IsZero (t : Time) : bool := t_ns t =? t_ns zero_time.
Definition Before (t u : Time) : bool := t_ns t <? t_ns u.
Definition UTC (t : Time) : Time := mkTime (t_ns t) 0.
Definition unix_sec (t : Time) : Z := t_ns t / second.
Definition UnixMilli (t : Time) : Z := t_ns t / 1000000.
Definition add_dur (t : Time) (d : Z) : Time := mkTime (t_ns t + d) (t_off t).

(** [Time.Sub]: the difference, saturated to a 64-bit [Duration]. *)
Definition sat64 (z : Z) : Z := Z.max min_int64 (Z.min max_int64 z).
Definition Sub (t u : Time) : Z := sat64 (t_ns t - t_ns u).

(** A location: the offset in force at each Unix second (the zone database is
    data the program does not contain). *)
Definition Location := Z -> Z.
Definition loc_utc : Location := fun _ => 0.
Definition In_loc (t : Time) (loc : Location) : Time := mkTime (t_ns t) (loc (unix_sec t)).

(** ** Calendar *)

Definition is_leap (y : Z) : bool :=
  (y mod 4 =? 0) && (negb (y mod 100 =? 0) || (y mod 400 =? 0)).
Definition days_in (m y : Z) : Z :=
  if m =? 2 then (if is_leap y then 29 else 28)
  else if (m =? 4) || (m =? 6) || (m =? 9) || (m =? 11) then 30 else 31.

(** Days from 0001-01-01 to January 1 of year [y]. *)
Definition year_start (y : Z) : Z :=
  365 * (y - 1) + (y - 1) / 4 - (y - 1) / 100 + (y - 1) / 400.
(** Days of year [y] before month [m]. *)
Definition month_start (m y : Z) : Z :=
  let base := match m with
    | 1 => 0 | 2 => 31 | 3 => 59 | 4 => 90 | 5 => 120 | 6 => 151 | 7 => 181
    | 8 => 212 | 9 => 243 | 10 => 273 | 11 => 304 | 12 => 334 | _ => 365
    end in
  if (2 <? m) && is_leap y then base + 1 else base.

Definition unix_epoch_days : Z := 719162.

Definition days_of_civil (y m d : Z) : Z :=
  year_start y + month_start m y + (d - 1) - unix_epoch_days.

Definition year_of_days (n : Z) : Z :=
  let est := 400 * n / 146097 + 1 in
  if n <? year_start est then est - 1
  else if year_start (est + 1) <=? n then est + 1 else est.

Fixpoint month_scan (k : nat) (m y doy : Z) : Z :=
  match k with
  | O => m
  | S k => if doy <? month_start (m + 1) y then m else month_scan k (m + 1) y doy
  end.

(** Year, month and day of a day number (days since the Unix epoch). *)
Definition civil_of_days (n : Z) : Z * Z * Z :=
  let n := n + unix_epoch_days in
  let y := year_of_days n in
  let doy := n - year_start y in
  let m := month_scan 11 1 y doy in
  (y, m, doy - month_start m y + 1).

(** Broken-down time of day. *)
Record Clock := mkClock { hour : Z; minute : Z; sec : Z; nsec : Z }.

Definition local_days (t : Time) : Z := (unix_sec t + t_off t) / 86400.
Definition Year (t : Time) : Z := (civil_of_days (local_days t)).1.1.

Definition clock_of (t : Time) : Clock :=
  let s := (unix_sec t + t_off t) mod 86400 in
  mkClock (s / 3600) (s / 60 mod 60) (s mod 60) (t_ns t mod second).

(** [time.Date] for fields already in range: [unix] is the instant as if in
    UTC, then corrected by the offset of [loc]. *)
Definition Date (y m d : Z) (c : Clock) (loc : Location) : Time :=
  let unix := days_of_civil y m d * 86400 + hour c * 3600 + minute c * 60 + sec c in
  let off := loc unix in
  let unix' := if off =? 0 then unix else unix - loc (unix - off) in
  mkTime (unix' * second + nsec c) (loc unix').

(** ** Formatting *)

Definition pad_int (w : nat) (z : Z) : string :=
  if z <? 0 then String "-" (pad w (- z)) else pad w z.

Definition is_zero_digit (c : byte) : bool := c =c "0".
(** [.999999999]: the fraction without trailing zeros, or nothing. *)
Definition format_frac (ns : Z) : string :=
  if ns =? 0 then "" else String "." (trim_right is_zero_digit (pad 9 ns)).

(** [Z07:00]. *)
Definition format_zone (off : Z) : string :=
  if off =? 0 then "Z"
  else
    let zone := Z.quot off 60 in
    let (sign, zone) := if zone <? 0 then ("-"%char, - zone) else ("+"%char, zone) in
    String sign (pad 2 (zone / 60) +:+ String ":" (pad 2 (zone mod 60))).

(** [t.Format(time.RFC3339Nano)]. *)
Definition FormatRFC3339Nano (t : Time) : string :=
  let '(y, m, d) := civil_of_days (local_days t) in
  let c := clock_of t in
  pad_int 4 y +:+ String "-" (pad 2 m +:+ String "-" (pad 2 d +:+ String "T"
    (pad 2 (hour c) +:+ String ":" (pad 2 (minute c) +:+ String ":" (pad 2 (sec c) +:+
      (format_frac (nsec c) +:+ format_zone (t_off t))))))).

(** ** Parsing

    The pieces of [time.parse]: each consumes a prefix of the value. *)

Definition getnum (fixed : bool) (s : string) : option (Z * string) :=
  match s with
  | String a s1 =>
      if is_digit a then
        match s1 with
        | String b s2 =>
            if is_digit b then Some ((code a - 48) * 10 + (code b - 48), s2)
            else if fixed then None else Some (code a - 48, s1)
        | EmptyString => if fixed then None else Some (code a - 48, s1)
        end
      else None
  | EmptyString => None
  end.

Definition get_year (s : string) : option (Z * string) :=
  if 4 <=? len s then
    y ← dec_value 0 (str_take 4 s); Some (y, str_drop 4 s)
  else None.

Definition in_bounds (lo hi z : Z) : bool := (lo <=? z) && (z <=? hi).
Definition bounded (lo hi : Z) (r : option (Z * string)) : option (Z * string) :=
  '(z, s) ← r; if in_bounds lo hi z then Some (z, s) else None.

(** A literal byte of the layout. *)
Definition skip_lit (c : byte) (s : string) : option string := strip_prefix (String c "") s.
(** A space of the layout: any number of spaces, at least one unless the value
    is exhausted. *)
Definition skip_space (s : string) : option string :=
  match s with
  | EmptyString => Some s
  | String c _ => if is_sp c then Some (trim_left is_sp s) else None
  end.

Definition comma_or_period (c : byte) : bool := (c =c ".") || (c =c ",").

(** An optional fraction: nanoseconds from its first nine digits. *)
Definition get_frac (s : string) : Z * string :=
  match s with
  | String p s1 =>
      if comma_or_period p && starts is_digit s1 then
        let (ds, rest) := span is_digit s1 in
        let ds := str_take 9 ds in
        (default 0 (dec_value 0 ds) * 10 ^ (9 - len ds), rest)
      else (0, s)
  | EmptyString => (0, s)
  end.

(** [15:04:05] with an optional fraction. *)
Definition get_clock (s : string) : option (Clock * string) :=
  '(h, s) ← bounded 0 23 (getnum false s);
  s ← skip_lit ":" s;
  '(mi, s) ← bounded 0 59 (getnum true s);
  s ← skip_lit ":" s;
  '(sc, s) ← bounded 0 59 (getnum true s);
  let (ns, s) := get_frac s in
  Some (mkClock h mi sc ns, s).

(** [Z07:00]: the offset in seconds. *)
Definition get_zone (s : string) : option (Z * string) :=
  match s with
  | String "Z" s => Some (0, s)
  | String sg (String h1 (String h2 (String col (String m1 (String m2 s))))) =>
      if negb (col =c ":") then None else
      '(hr, _) ← getnum true (String h1 (String h2 ""));
      '(mm, _) ← getnum true (String m1 (String m2 ""));
      if (24 <? hr) || (60 <? mm) then None
      else
        let z := (hr * 60 + mm) * 60 in
        if sg =c "+" then Some (z, s) else if sg =c "-" then Some (- z, s) else None
  | _ => None
  end.

(** [time.Parse(time.RFC3339Nano, s)]. *)
Definition ParseRFC3339Nano (s : string) : option Time :=
  '(y, s) ← get_year s;
  s ← skip_lit "-" s;
  '(m, s) ← bounded 1 12 (getnum true s);
  s ← skip_lit "-" s;
  '(d, s) ← getnum true s;
  s ← skip_lit "T" s;
  '(c, s) ← get_clock s;
  '(off, s) ← get_zone s;
  if (s =s "") && in_bounds 1 (days_in m y) d then
    let t := Date y m d c loc_utc in
    Some (mkTime (t_ns t - off * second) off)
  else None.

Definition month_names : list string :=
  ["Jan"; "Feb"; "Mar"; "Apr"; "May"; "Jun"; "Jul"; "Aug"; "Sep"; "Oct"; "Nov"; "Dec"]%string.

(** [match] of package time: equality up to the case of ASCII letters. *)
Definition lower (z : Z) : Z := Z.lor z 32.
Definition fold_eq (a b : byte) : bool :=
  (a =c b) ||
  ((lower (code a) =? lower (code b)) && (97 <=? lower (code a)) && (lower (code a) <=? 122)).
Fixpoint strip_fold (p s : string) : option string :=
  match p, s with
  | EmptyString, _ => Some s
  | String a p, String b s => if fold_eq b a then strip_fold p s else None
  | _, _ => None
  end.
Fixpoint lookup_month (i : Z) (tab : list string) (s : string) : option (Z * string) :=
  match tab with
  | [] => None
  | p :: tab => match strip_fold p s with Some r => Some (i, r) | None => lookup_month (i + 1) tab s end
  end.

(** [time.ParseInLocation("2006 Jan 2 15:04:05", s, loc)]. *)
Definition ParseStamp (s : string) (loc : Location) : option Time :=
  '(y, s) ← get_year s;
  s ← skip_space s;
  '(m, s) ← lookup_month 1 month_names s;
  s ← skip_space s;
  '(d, s) ← getnum false s;
  s ← skip_space s;
  '(c, s) ← get_clock s;
  if (s =s "") && in_bounds 1 (days_in m y) d then Some (Date y m d c loc) else None.

Example format_epoch : FormatRFC3339Nano (mkTime 0 0) = "1970-01-01T00:00:00Z"%string.
Proof. reflexivity. Qed.
Example parse_offset :
  FormatRFC3339Nano <$> ParseRFC3339Nano "2026-09-14T14:30:00.1230+02:00"%string
  = Some "2026-09-14T14:30:00.123+02:00"%string.
Proof. vm_compute. reflexivity. Qed.
Example parse_stamp :
  (FormatRFC3339Nano <$> ParseStamp "2026 Sep 4 14:30:00"%string loc_utc)
  = Some "2026-09-04T14:30:00Z"%string.
Proof. vm_compute. reflexivity. Qed.

(** ** Lemmas: the calendar *)

Ltac div_lia := Z.div_mod_to_equations; lia.

Lemma year_start_step y : year_start (y + 1) = year_start y + (if is_leap y then 366 else 365).
Proof.
  unfold year_start, is_leap. replace (y + 1 - 1) with y by lia.
  destruct (Z.eqb_spec (y mod 4) 0), (Z.eqb_spec (y mod 100) 0), (Z.eqb_spec (y mod 400) 0);
    cbn [andb orb negb]; div_lia.
Qed.

Lemma year_start_mono a b : a <= b -> year_start a <= year_start b.
Proof. unfold year_start. intros. div_lia. Qed.

Lemma year_start_bracket_unique a b n :
  year_start a <= n < year_start (a + 1) -> year_start b <= n < year_start (b + 1) -> a = b.
Proof.
  intros. destruct (Z.lt_trichotomy a b) as [H1|[->|H1]]; [|done|].
  - pose proof (year_start_mono (a + 1) b). lia.
  - pose proof (year_start_mono (b + 1) a). lia.
Qed.

Lemma year_of_days_bracket n :
  year_start (year_of_days n) <= n < year_start (year_of_days n + 1).
Proof.
  unfold year_of_days. set (est := 400 * n / 146097 + 1).
  assert (Hlo : year_start (est - 1) <= n) by (unfold year_start, est; div_lia).
  assert (Hhi : n < year_start (est + 2)) by (unfold year_start, est; div_lia).
  destruct (Z.ltb_spec n (year_start est)).
  { replace (est - 1 + 1) with est by lia. lia. }
  destruct (Z.leb_spec (year_start (est + 1)) n); [|lia].
  replace (est + 1 + 1) with (est + 2) by lia. lia.
Qed.

Lemma year_of_days_eq y n : year_start y <= n < year_start (y + 1) -> year_of_days n = y.
Proof. intros H. eapply year_start_bracket_unique; [apply year_of_days_bracket|exact H]. Qed.

Lemma month_range m : 1 <= m <= 12 ->
  m = 1 \/ m = 2 \/ m = 3 \/ m = 4 \/ m = 5 \/ m = 6 \/ m = 7 \/ m = 8 \/ m = 9 \/ m = 10
  \/ m = 11 \/ m = 12.
Proof. lia. Qed.

(** Case analysis on a month in range. *)
Ltac month_cases H :=
  apply month_range in H; repeat (destruct H as [->|H]); [..|revert H; intros ->].

Lemma month_start_step m y :
  1 <= m <= 12 -> month_start (m + 1) y = month_start m y + days_in m y.
Proof. intros H. unfold month_start, days_in. month_cases H; cbn; destruct (is_leap y); done. Qed.

Lemma month_start_13 y : month_start 13 y = if is_leap y then 366 else 365.
Proof. unfold month_start. cbn. by destruct (is_leap y). Qed.

Lemma month_scan_bracket y doy :
  0 <= doy < month_start 13 y ->
  1 <= month_scan 11 1 y doy <= 12
  /\ month_start (month_scan 11 1 y doy) y <= doy < month_start (month_scan 11 1 y doy + 1) y.
Proof.
  assert (Hgen : forall k m, 1 <= m -> m + Z.of_nat k = 12 -> month_start m y <= doy ->
    doy < month_start 13 y ->
    m <= month_scan k m y doy <= 12
    /\ month_start (month_scan k m y doy) y <= doy < month_start (month_scan k m y doy + 1) y).
  { induction k as [|k IH]; intros m H1 H2 H3 H4; cbn [month_scan].
    - assert (m = 12) as -> by lia. split; [lia|]. exact (conj H3 H4).
    - destruct (Z.ltb_spec doy (month_start (m + 1) y)); [lia|].
      destruct (IH (m + 1)); lia. }
  intros [H1 H2]. apply (Hgen 11%nat 1); [lia..| |done]. unfold month_start. cbn. lia.
Qed.

Lemma month_start_mono a b y :
  1 <= a -> a <= b -> b <= 13 -> month_start a y <= month_start b y.
Proof.
  intros Ha Hab Hb. unfold month_start. destruct (decide (b = 13)) as [->|].
  - assert (Ha' : 1 <= a <= 12 \/ a = 13) by lia. destruct Ha' as [Ha'| ->]; [|done].
    month_cases Ha'; cbn; destruct (is_leap y); lia.
  - assert (Ha' : 1 <= a <= 12) by lia. assert (Hb' : 1 <= b <= 12) by lia.
    clear Hb Ha. month_cases Ha'; month_cases Hb'; cbn; destruct (is_leap y); lia.
Qed.

Lemma month_scan_eq m y doy :
  1 <= m <= 12 -> month_start m y <= doy < month_start (m + 1) y -> month_scan 11 1 y doy = m.
Proof.
  intros Hm Hd.
  pose proof (month_start_mono 1 m y). pose proof (month_start_mono (m + 1) 13 y).
  change (month_start 1 y) with 0 in *.
  destruct (month_scan_bracket y doy) as [Hr Hb]; [lia|].
  set (k := month_scan 11 1 y doy) in *.
  pose proof (month_start_mono (k + 1) m y). pose proof (month_start_mono (m + 1) k y). lia.
Qed.

Definition valid_date (y m d : Z) : Prop := 1 <= m <= 12 /\ 1 <= d <= days_in m y.

Lemma month_start_bounds m y :
  1 <= m <= 12 -> 0 <= month_start m y /\ month_start m y + days_in m y <= month_start 13 y.
Proof.
  intros H. rewrite month_start_13. unfold month_start, days_in.
  month_cases H; cbn; destruct (is_leap y); lia.
Qed.

(** The calendar conversions are mutually inverse. *)
Lemma civil_of_days_of_civil y m d :
  valid_date y m d -> civil_of_days (days_of_civil y m d) = (y, m, d).
Proof.
  intros [Hm Hd]. unfold civil_of_days, days_of_civil.
  replace (year_start y + month_start m y + (d - 1) - unix_epoch_days + unix_epoch_days)
    with (year_start y + (month_start m y + (d - 1))) by lia.
  pose proof (month_start_bounds m y Hm) as [Hlo Hhi]. rewrite month_start_13 in Hhi.
  assert (year_of_days (year_start y + (month_start m y + (d - 1))) = y) as ->.
  { apply year_of_days_eq. rewrite year_start_step. lia. }
  replace (year_start y + (month_start m y + (d - 1)) - year_start y)
    with (month_start m y + (d - 1)) by lia.
  rewrite (month_scan_eq m).
  - f_equal. lia.
  - done.
  - rewrite month_start_step by done. lia.
Qed.

Lemma days_of_civil_of_days n :
  let '(y, m, d) := civil_of_days n in days_of_civil y m d = n /\ valid_date y m d.
Proof.
  unfold civil_of_days. set (k := n + unix_epoch_days). set (y := year_of_days k).
  pose proof (year_of_days_bracket k) as Hy. fold y in Hy. rewrite year_start_step in Hy.
  rewrite <- month_start_13 in Hy.
  pose proof (month_scan_bracket y (k - year_start y) ltac:(lia)) as [Hm Hs].
  set (m := month_scan 11 1 y (k - year_start y)) in *.
  rewrite month_start_step in Hs by done. unfold days_of_civil, valid_date, k in *. lia.
Qed.

(** Days of two years compare as the years do. *)
Lemma days_of_civil_year y m d :
  valid_date y m d ->
  year_start y - unix_epoch_days <= days_of_civil y m d < year_start (y + 1) - unix_epoch_days.
Proof.
  intros [Hm Hd]. unfold days_of_civil. rewrite year_start_step.
  pose proof (month_start_bounds m y Hm). rewrite month_start_13 in *. lia.
Qed.

(** ** Lemmas: formatted times parse back *)

Lemma two_digits s :
  String.length s = 2%nat -> all_bytes is_digit s = true ->
  exists a b, s = String a (String b "") /\ is_digit a = true /\ is_digit b = true.
Proof.
  destruct s as [|a [|b [|]]]; try done. simpl. intros _.
  rewrite andb_true_r. intros [??]%andb_true_iff. by exists a, b.
Qed.

Lemma getnum_pad2 fixed z s : 0 <= z < 100 -> getnum fixed (pad 2 z +:+ s) = Some (z, s).
Proof.
  intros H.
  destruct (two_digits (pad 2 z)) as (a & b & E & Ha & Hb).
  { by apply (length_pad 1). } { apply pad_digits. lia. }
  pose proof (dec_pad 2 z ltac:(lia)) as Hv. rewrite E in *. simpl in Hv.
  rewrite Ha, Hb in Hv. simplify_eq. simpl. by rewrite Ha, Hb.
Qed.

Lemma bounded_in lo hi z s : lo <= z <= hi -> bounded lo hi (Some (z, s)) = Some (z, s).
Proof. intros H. unfold bounded, in_bounds. simpl. by replace (_ && _) with true by lia. Qed.

Lemma skip_lit_cons c s : skip_lit c (String c s) = Some s.
Proof. unfold skip_lit. simpl. by rewrite ch_eq_refl. Qed.

Lemma get_year_pad y s : 0 <= y <= 9999 -> get_year (pad 4 y +:+ s) = Some (y, s).
Proof.
  intros H. pose proof (length_pad 3 y ltac:(cbn; lia)) as Hl.
  pose proof (str_take_append (pad 4 y) s) as Ht. pose proof (str_drop_append (pad 4 y) s) as Hd.
  rewrite Hl in Ht, Hd. unfold get_year. rewrite Ht, Hd, dec_pad by lia.
  destruct (Z.leb_spec 4 (len (pad 4 y +:+ s))) as [|Hlt]; [done|].
  unfold len in Hlt. rewrite length_append in Hlt. lia.
Qed.

Lemma dec_value_append_zeros k acc s v :
  dec_value acc s = Some v -> dec_value acc (s +:+ zeros k) = Some (v * 10 ^ Z.of_nat k).
Proof.
  revert acc. induction s as [|c s IH]; simpl; intros acc H.
  - simplify_eq. revert v. induction k as [|k IH]; intros v.
    + change (10 ^ Z.of_nat 0) with 1. by rewrite Z.mul_1_r.
    + change (dec_value (v * 10 + 0) (zeros k) = Some (v * 10 ^ Z.of_nat (S k))).
      rewrite IH. f_equal. rewrite Nat2Z.inj_succ, Z.pow_succ_r by lia. lia.
  - destruct (is_digit c); [|done]. auto.
Qed.

Lemma all_zero_digits s : all_bytes is_zero_digit s = true -> s = zeros (String.length s).
Proof.
  induction s as [|c s IH]; simpl; [done|]. intros [Hc Hs]%andb_true_iff.
  unfold is_zero_digit in Hc. destruct (ch_eq_spec c "0") as [->|]; [|done]. by rewrite <- IH.
Qed.

(** The trimmed fraction, scaled back by the digits it lost. *)
Lemma trim_frac ns :
  0 < ns < second ->
  let ds := trim_right is_zero_digit (pad 9 ns) in
  ds <> "" /\ all_bytes is_digit ds = true /\ (String.length ds <= 9)%nat
  /\ default 0 (dec_value 0 ds) * 10 ^ (9 - len ds) = ns.
Proof.
  intros H ds. unfold second in H.
  destruct (trim_right_spec is_zero_digit (pad 9 ns)) as (z & Hp & Hz & _). fold ds in Hp.
  pose proof (length_pad 8 ns ltac:(cbn; lia)) as Hl.
  pose proof (pad_digits 9 ns ltac:(lia)) as Hd.
  pose proof (dec_pad 9 ns ltac:(lia)) as Hv.
  rewrite Hp, length_append in Hl. rewrite Hp, all_bytes_append in Hd.
  apply andb_true_iff in Hd as [Hds _]. rewrite Hp in Hv.
  rewrite (all_zero_digits z Hz) in Hv. generalize dependent (String.length z). intros k Hl Hv.
  assert (Hdv : exists v, dec_value 0 ds = Some v).
  { clear -Hds. generalize 0. induction ds as [|c ds IH]; intros acc; simpl in *; [eauto|].
    apply andb_true_iff in Hds as [-> Hds]. auto. }
  destruct Hdv as [v Hdv]. rewrite (dec_value_append_zeros k 0 ds v Hdv) in Hv.
  assert (k = Z.to_nat (9 - len ds)) as Hk by (unfold len; lia).
  injection Hv as Hv. rewrite Hdv. simpl. split_and!; [| |lia|].
  - intros E. rewrite E in Hdv. simpl in Hdv. simplify_eq. lia.
  - done.
  - rewrite Hk, Z2Nat.id in Hv by (unfold len; lia). exact Hv.
Qed.

Lemma str_take_all n s : (String.length s <= n)%nat -> str_take n s = s.
Proof.
  revert n. induction s as [|c s IH]; intros [|n] H; simpl in *; try done; [lia|].
  f_equal. apply IH. lia.
Qed.

Lemma get_frac_format ns rest :
  0 <= ns < second -> starts is_digit rest = false -> starts comma_or_period rest = false ->
  get_frac (format_frac ns +:+ rest) = (ns, rest).
Proof.
  intros H Hd Hc. unfold format_frac. destruct (Z.eqb_spec ns 0) as [->|Hne].
  { destruct rest as [|c rest]; [done|]. simpl in *. by rewrite Hc. }
  destruct (trim_frac ns ltac:(lia)) as (Hds & Hdig & Hlen & Hval).
  set (ds := trim_right is_zero_digit (pad 9 ns)) in *.
  rewrite append_cons. unfold get_frac.
  assert (starts is_digit (ds +:+ rest) = true) as ->.
  { destruct ds as [|c ds]; [done|]. simpl in *. by apply andb_true_iff in Hdig as [-> _]. }
  change (comma_or_period "." && true) with true. cbn [andb].
  rewrite span_append by done. rewrite str_take_all by done. by rewrite Hval.
Qed.

Lemma get_clock_format c rest :
  0 <= hour c < 24 -> 0 <= minute c < 60 -> 0 <= sec c < 60 -> 0 <= nsec c < second ->
  starts is_digit rest = false -> starts comma_or_period rest = false ->
  get_clock (pad 2 (hour c) +:+ String ":" (pad 2 (minute c) +:+ String ":" (pad 2 (sec c) +:+
    (format_frac (nsec c) +:+ rest)))) = Some (c, rest).
Proof.
  intros. unfold get_clock. rewrite getnum_pad2, bounded_in by lia. bind_simpl.
  rewrite skip_lit_cons. bind_simpl. rewrite getnum_pad2, bounded_in by lia. bind_simpl.
  rewrite skip_lit_cons. bind_simpl. rewrite getnum_pad2, bounded_in by lia. bind_simpl.
  rewrite get_frac_format by done. by destruct c.
Qed.

(** Offsets the layout can print: whole minutes, at most 24 hours and 59 minutes. *)
Definition printable_offset (off : Z) : Prop := off mod 60 = 0 /\ -90000 < off < 90000.

Lemma get_zone_signed sg z :
  (sg = "+"%char \/ sg = "-"%char) -> 0 <= z < 1500 ->
  get_zone (String sg (pad 2 (z / 60) +:+ String ":" (pad 2 (z mod 60))))
  = Some (if sg =c "+" then z * 60 else - (z * 60), "").
Proof.
  intros Hsg Hz.
  assert (Hh : 0 <= z / 60 < 25) by div_lia. assert (Hm : 0 <= z mod 60 < 60) by div_lia.
  pose proof (getnum_pad2 true (z / 60) "" ltac:(lia)) as H1.
  pose proof (getnum_pad2 true (z mod 60) "" ltac:(lia)) as H2.
  destruct (two_digits (pad 2 (z / 60))) as (a & b & E1 & _).
  { apply (length_pad 1). cbn. lia. } { apply pad_digits. lia. }
  destruct (two_digits (pad 2 (z mod 60))) as (c & d & E2 & _).
  { apply (length_pad 1). cbn. lia. } { apply pad_digits. lia. }
  rewrite E1, E2 in *. cbn [String.append] in *. unfold get_zone.
  rewrite H1, H2. bind_simpl.
  replace ((24 <? z / 60) || (60 <? z mod 60)) with false by lia.
  replace ((z / 60 * 60 + z mod 60) * 60) with (z * 60) by div_lia.
  by destruct Hsg as [->| ->].
Qed.

Lemma get_zone_format off : printable_offset off -> get_zone (format_zone off) = Some (off, "").
Proof.
  intros [Hm Hb]. unfold format_zone. destruct (Z.eqb_spec off 0) as [->|]; [done|].
  assert (Hq : Z.quot off 60 * 60 = off).
  { pose proof (Z.quot_rem' off 60). pose proof (Z.rem_divide off 60 ltac:(lia)) as [_ Hd].
    rewrite Hd in H; [lia|]. apply Z.mod_divide; lia. }
  destruct (Z.ltb_spec (Z.quot off 60) 0); rewrite get_zone_signed; try lia; eauto;
    simpl; repeat f_equal; lia.
Qed.

Lemma format_zone_start off p :
  p "Z"%char = false -> p "+"%char = false -> p "-"%char = false ->
  starts p (format_zone off) = false.
Proof.
  intros. unfold format_zone. destruct (off =? 0); [done|]. by destruct (Z.quot off 60 <? 0).
Qed.

Lemma clock_bounds t :
  0 <= hour (clock_of t) < 24 /\ 0 <= minute (clock_of t) < 60
  /\ 0 <= sec (clock_of t) < 60 /\ 0 <= nsec (clock_of t) < second.
Proof. unfold clock_of, second; simpl. div_lia. Qed.

Lemma date_of_parts t :
  let '(y, m, d) := civil_of_days (local_days t) in
  t_ns (Date y m d (clock_of t) loc_utc) - t_off t * second = t_ns t.
Proof.
  pose proof (days_of_civil_of_days (local_days t)) as H.
  destruct (civil_of_days (local_days t)) as [[y m] d]. destruct H as [H _].
  unfold Date, loc_utc. simpl. rewrite H. unfold clock_of, local_days, unix_sec, second; simpl.
  div_lia.
Qed.

(** Formatting with RFC 3339 nanoseconds and parsing back is the identity. *)
Lemma ParseRFC3339Nano_Format t :
  0 <= Year t <= 9999 -> printable_offset (t_off t) ->
  ParseRFC3339Nano (FormatRFC3339Nano t) = Some t.
Proof.
  intros Hy Ho. unfold FormatRFC3339Nano, Year in *.
  pose proof (date_of_parts t) as Hd. pose proof (days_of_civil_of_days (local_days t)) as Hv.
  destruct (civil_of_days (local_days t)) as [[y m] d] eqn:E. simpl in Hy.
  destruct Hv as [_ [Hm Hday]]. pose proof (clock_bounds t) as (?&?&?&?).
  assert (days_in m y <= 31) by (unfold days_in; repeat case_match; lia).
  unfold ParseRFC3339Nano, pad_int. replace (y <? 0) with false by lia.
  rewrite get_year_pad by lia. bind_simpl. rewrite skip_lit_cons. bind_simpl.
  rewrite getnum_pad2, bounded_in by lia. bind_simpl. rewrite skip_lit_cons. bind_simpl.
  rewrite getnum_pad2 by lia. bind_simpl. rewrite skip_lit_cons. bind_simpl.
  rewrite get_clock_format; try done; [|by apply format_zone_start..]. bind_simpl.
  rewrite get_zone_format by done. bind_simpl.
  unfold in_bounds. replace ((1 <=? d) && (d <=? days_in m y)) with true by lia.
  change (("" =s "") && true) with true. cbv iota zeta. rewrite Hd. by destruct t.
Qed.

(** ** The bytes of a formatted time *)

Section TimeBytes.
Context (p : byte -> bool).
Hypothesis p_digit : forall c, is_digit c = true -> p c = true.
Hypothesis p_marks : forallb p ["-"; "+"; "T"; ":"; "."; "Z"]%char = true.

Lemma digits_bytes s : all_bytes is_digit s = true -> all_bytes p s = true.
Proof using p_digit. by apply all_bytes_impl. Qed.
Lemma pad_bytes w z : 0 <= z -> all_bytes p (pad w z) = true.
Proof using p_digit. intros. by apply digits_bytes, pad_digits. Qed.
Lemma mark_byte c : In c ["-"; "+"; "T"; ":"; "."; "Z"]%char -> p c = true.
Proof using p_marks. by apply forallb_forall. Qed.

Lemma zone_bytes off : all_bytes p (format_zone off) = true.
Proof using p_digit p_marks.
  unfold format_zone. destruct (Z.eqb_spec off 0).
  { cbn [all_bytes]. rewrite mark_byte by (simpl; tauto). done. }
  set (z := Z.quot off 60). destruct (Z.ltb_spec z 0);
    cbn [all_bytes]; rewrite !all_bytes_append; cbn [all_bytes]; rewrite !pad_bytes, !mark_byte; simpl; try tauto;
    (apply Z.div_pos || apply Z.mod_pos_bound); lia.
Qed.
Lemma frac_bytes ns : 0 <= ns < second -> all_bytes p (format_frac ns) = true.
Proof using p_digit p_marks.
  intros H. unfold format_frac. destruct (Z.eqb_spec ns 0); [done|].
  destruct (trim_frac ns) as (_ & Hds & _); [lia|]. cbn [all_bytes].
  rewrite digits_bytes, mark_byte; [done|simpl; tauto|done].
Qed.
Lemma FormatRFC3339Nano_bytes t : all_bytes p (FormatRFC3339Nano t) = true.
Proof using p_digit p_marks.
  unfold FormatRFC3339Nano. pose proof (days_of_civil_of_days (local_days t)) as Hv.
  pose proof (clock_bounds t) as (?&?&?&?). set (c := clock_of t) in *.
  destruct (civil_of_days (local_days t)) as [[y m] d]. destruct Hv as (_ & Hm & Hd).
  assert (all_bytes p (pad_int 4 y) = true) as Hy.
  { unfold pad_int. destruct (Z.ltb_spec y 0); [cbn [all_bytes]; rewrite mark_byte by (simpl; tauto)|];
      rewrite pad_bytes; done || lia. }
  repeat (rewrite all_bytes_append || cbn [all_bytes]).
  rewrite Hy, !pad_bytes, frac_bytes, zone_bytes, !mark_byte by (lia || simpl; tauto). done.
Qed.
End TimeBytes.

(** A time in UTC takes at most 30 bytes. *)
Lemma FormatRFC3339Nano_length t :
  t_off t = 0 -> 0 <= Year t <= 9999 -> len (FormatRFC3339Nano t) <= 30.
Proof.
  unfold Year, FormatRFC3339Nano. intros Hoff. pose proof (days_of_civil_of_days (local_days t)) as Hv.
  pose proof (clock_bounds t) as (?&?&?&?). set (c := clock_of t) in *.
  destruct (civil_of_days (local_days t)) as [[y m] d]. cbn [fst]. destruct Hv as (_ & Hm & Hd). intros Hy.
  assert (days_in m y <= 31) by (unfold days_in; repeat case_match; lia).
  assert (Hf : len (format_frac (nsec c)) <= 10).
  { unfold format_frac. destruct (Z.eqb_spec (nsec c) 0); [done|].
    destruct (trim_frac (nsec c)) as (_ & _ & Hl & _); [lia|]. rewrite len_cons. unfold len. lia. }
  rewrite Hoff. change (format_zone 0) with "Z"%string. unfold pad_int. replace (y <? 0) with false by lia.
  assert (Hp2 : forall z, 0 <= z < 100 -> len (pad 2 z) = 2) by (intros z Hz; unfold len; rewrite length_pad; [done|change (0 <= z < 100); lia]).
  assert (Hp4 : len (pad 4 y) = 4) by (unfold len; rewrite length_pad; [done|change (0 <= y < 10000); lia]).
  repeat (rewrite len_append || rewrite len_cons). rewrite Hp4, !Hp2, len_nil by lia. lia.
Qed.
