(* ===== verification/GoDuration.v ===== *)
(** * Go's [time.ParseDuration] and [strconv.ParseBool]

    The parser of configuration values. The fractional part goes through
    [float64], as in Go: [SpecFloat] with 53-bit significands. *)
From Stdlib Require Import SpecFloat.
From S2P Require Import Prelude GoStrings.

Definition two63 : Z := 2 ^ 63.
(** [uint64] arithmetic wraps. *)
Definition uint64 (z : Z) : Z := z mod 2 ^ 64.

(** [float64(z)] of an integer, and truncation back to one. *)
Definition float_of (z : Z) : spec_float := binary_normalize 53 1024 z 0 false.
Definition float_mul : spec_float -> spec_float -> spec_float := SFmul 53 1024.
Definition float_div : spec_float -> spec_float -> spec_float := SFdiv 53 1024.
Definition trunc_float (f : spec_float) : Z :=
  match f with
  | S754_finite s m e =>
      let v := if 0 <=? e then Z.pos m * 2 ^ e else Z.pos m / 2 ^ (- e) in
      if s then - v else v
  | _ => 0
  end.

(** [leadingInt]: [None] when the digits overflow. *)
Fixpoint leadingInt (x : Z) (s : string) : option (Z * string) :=
  match s with
  | String c s' =>
      if is_digit c then
        if two63 / 10 <? x then None else
        let y := x * 10 + (code c - 48) in
        if two63 <? y then None else leadingInt y s'
      else Some (x, s)
  | EmptyString => Some (x, s)
  end.

(** [leadingFraction]: digits past the overflow are skipped. *)
Fixpoint leadingFraction (x : Z) (scale : spec_float) (overflow : bool) (s : string)
    : Z * spec_float * string :=
  match s with
  | String c s' =>
      if is_digit c then
        if overflow || ((two63 - 1) / 10 <? x) then leadingFraction x scale true s' else
        let y := x * 10 + (code c - 48) in
        if two63 <? y then leadingFraction x scale true s'
        else leadingFraction y (float_mul scale (float_of 10)) false s'
      else (x, scale, s)
  | EmptyString => (x, scale, s)
  end.

Definition unit_char (c : byte) : bool := negb ((c =c ".") || is_digit c).

(** [unitMap], with both encodings of the micro sign. *)
Definition unit_of (u : string) : option Z :=
  if u =s "ns" then Some 1
  else if (u =s "us") || (u =s of_codes [194; 181; 115]) || (u =s of_codes [206; 188; 115])
  then Some 1000
  else if u =s "ms" then Some 1000000
  else if u =s "s" then Some 1000000000
  else if u =s "m" then Some 60000000000
  else if u =s "h" then Some 3600000000000
  else None.

(** One [number unit] term: its nanoseconds and the rest. *)
Definition duration_term (s : string) : option (Z * string) :=
  if negb (starts (fun c => (c =c ".") || is_digit c) s) then None else
  '(v, s1) ← leadingInt 0 s;
  let pre := negb (String.length s =? String.length s1)%nat in
  let '(f, scale, s2, post) :=
    match strip_prefix "." s1 with
    | Some s' =>
        let '(f, scale, s2) := leadingFraction 0 (float_of 1) false s' in
        (f, scale, s2, negb (String.length s' =? String.length s2)%nat)
    | None => (0, float_of 1, s1, false)
    end in
  if negb (pre || post) then None else
  let (u, rest) := span unit_char s2 in
  if u =s "" then None else
  unit ← unit_of u;
  if two63 / unit <? v then None else
  let v := v * unit in
  if 0 <? f then
    let v := uint64 (v + trunc_float (float_mul (float_of f) (float_div (float_of unit) scale))) in
    if two63 <? v then None else Some (v, rest)
  else Some (v, rest).

Fixpoint duration_terms (fuel : nat) (d : Z) (s : string) : option Z :=
  match s with
  | EmptyString => Some d
  | _ =>
      match fuel with
      | O => None
      | S fuel =>
          '(v, rest) ← duration_term s;
          let d := uint64 (d + v) in
          if two63 <? d then None else duration_terms fuel d rest
      end
  end.

Definition ParseDuration (s : string) : option Z :=
  let '(neg, s) :=
    match s with
    | String c s' => if (c =c "-") || (c =c "+") then (c =c "-", s') else (false, s)
    | EmptyString => (false, s)
    end in
  if s =s "0" then Some 0 else
  if s =s "" then None else
  d ← duration_terms (String.length s) 0 s;
  if neg : bool then Some (- d) else if max_int64 <? d then None else Some d.

Definition ParseBool (s : string) : option bool :=
  if existsb (str_eq s) ["1"; "t"; "T"; "true"; "TRUE"; "True"]%string then Some true
  else if existsb (str_eq s) ["0"; "f"; "F"; "false"; "FALSE"; "False"]%string then Some false
  else None.

Example parse_mixed : ParseDuration "1h15m30.5s" = Some 4530500000000.
Proof. vm_compute. reflexivity. Qed.
Example parse_fraction : ParseDuration ".1ms" = Some 100000.
Proof. vm_compute. reflexivity. Qed.
Example parse_negative : ParseDuration "-1.5h" = Some (-5400000000000).
Proof. vm_compute. reflexivity. Qed.
Example parse_largest : ParseDuration "9223372036854775807ns" = Some max_int64.
Proof. vm_compute. reflexivity. Qed.
Example parse_overflow : ParseDuration "9223372036854775808ns" = None.
Proof. vm_compute. reflexivity. Qed.

Lemma duration_terms_bound fuel d s r :
  0 <= d <= two63 -> duration_terms fuel d s = Some r -> 0 <= r <= two63.
Proof.
  revert d s. induction fuel as [|fuel IH]; intros d s Hd; destruct s as [|c s]; cbn [duration_terms];
    try done; try (by intros [= <-]).
  destruct (duration_term _) as [[v rest]|]; [|done]. cbn [mbind option_bind].
  destruct (Z.ltb_spec two63 (uint64 (d + v))); [done|]. apply IH.
  split; [apply Z.mod_pos_bound; lia|done].
Qed.

(** A parsed duration is an [int64]. *)
Lemma ParseDuration_bound s d : ParseDuration s = Some d -> min_int64 <= d <= max_int64.
Proof.
  unfold ParseDuration. destruct (match s with String _ _ => _ | _ => _ end) as [neg s'].
  destruct (s' =s "0"); [by intros [= <-]|]. destruct (s' =s ""); [done|].
  destruct (duration_terms _ _ _) as [r|] eqn:E; [|done]. cbn [mbind option_bind].
  apply duration_terms_bound in E; [|done]. unfold two63, min_int64, max_int64 in *.
  destruct neg; [intros [= <-]; lia|]. destruct (Z.ltb_spec (2 ^ 63 - 1) r); [done|].
  intros [= <-]. lia.
Qed.
