(* ===== verification/GoUrl.v ===== *)
(** * Go's [net/url.Parse]

    The parser applied to the storage endpoint, for its scheme, host and path,
    and the encoding of a form value. *)
From S2P Require Import Prelude GoStrings.

Definition is_ctl (c : byte) : bool := (code c <? 32) || (code c =? 127).
Definition is_alpha (c : byte) : bool :=
  let x := Z.lor (code c) 32 in (97 <=? x) && (x <=? 122).
Definition is_ishex (c : byte) : bool :=
  is_digit c || let x := Z.lor (code c) 32 in (97 <=? x) && (x <=? 102).
Definition hex_val (c : byte) : Z :=
  if is_digit c then code c - 48 else Z.lor (code c) 32 - 87.

Definition one_of (l : string) (c : byte) : bool := existsb (ch_eq c) (String.list_ascii_of_string l).

Definition lower_byte (c : byte) : byte :=
  if (65 <=? code c) && (code c <=? 90) then chr (code c + 32) else c.
Fixpoint ToLower (s : string) : string :=
  match s with EmptyString => "" | String c s => String (lower_byte c) (ToLower s) end.

(** [getScheme]: [None] when the scheme is missing before the colon. *)
Fixpoint scheme_scan (first : bool) (acc s : string) : option (option (string * string)) :=
  match s with
  | EmptyString => Some None
  | String c s =>
      if is_alpha c then scheme_scan false (String c acc) s
      else if is_digit c || one_of "+-." c then
        if first then Some None else scheme_scan false (String c acc) s
      else if c =c ":" then if first then None else Some (Some (str_rev acc, s))
      else Some None
  end.
Definition getScheme (s : string) : option (string * string) :=
  match scheme_scan true "" s with
  | None => None
  | Some (Some (scheme, rest)) => Some (scheme, rest)
  | Some None => Some (""%string, s)
  end.

(** Where an unescaped byte is. *)
Inductive url_mode := InPath | InHost | InZone | InUser | InFragment.

(** Bytes that may appear unescaped in a host. *)
Definition host_byte (c : byte) : bool :=
  is_alpha c || is_digit c || one_of "-_.~" c || one_of "!$&'()*+,;=:[]<>" c || (c =c chr 34).

(** Bytes [unescape] lets a percent escape stand for, in a host. *)
Definition unescape_host_ok (mode : url_mode) (h1 h2 : byte) : bool :=
  let v := hex_val h1 * 16 + hex_val h2 in
  match mode with
  | InHost => negb ((hex_val h1 <? 8) && negb ((h1 =c "2") && (h2 =c "5")))
  | InZone =>
      ((h1 =c "2") && (h2 =c "5")) || (v =? 32) || host_byte (chr v)
  | _ => true
  end.

Fixpoint unescape (mode : url_mode) (s : string) : option string :=
  match s with
  | EmptyString => Some ""%string
  | String c s =>
      if c =c "%" then
        match s with
        | String h1 (String h2 s) =>
            if is_ishex h1 && is_ishex h2 && unescape_host_ok mode h1 h2
            then r ← unescape mode s; Some (String (chr (hex_val h1 * 16 + hex_val h2)) r)
            else None
        | _ => None
        end
      else
        match mode with
        | InHost | InZone =>
            if (code c <? 128) && negb (host_byte c) then None
            else r ← unescape mode s; Some (String c r)
        | _ => r ← unescape mode s; Some (String c r)
        end
  end.

Definition validOptionalPort (port : string) : bool :=
  match port with
  | EmptyString => true
  | String c p => (c =c ":") && all_bytes is_digit p
  end.

(** The index of a substring, as a split. *)
Fixpoint split_at (p s : string) : option (string * string) :=
  match strip_prefix p s with
  | Some rest => Some (""%string, p +:+ rest)
  | None =>
      match s with
      | EmptyString => None
      | String c s => '(a, b) ← split_at p s; Some (String c a, b)
      end
  end.

Definition split_last (c : byte) (s : string) : option (string * string) :=
  let i := LastIndexByte s c in
  if i <? 0 then None
  else Some (str_take (Z.to_nat i) s, str_drop (Z.to_nat i) s).

Definition parseHost (host : string) : option string :=
  if HasPrefix host "[" then
    '(addr, port) ← split_last "]" host;
    if negb (validOptionalPort (str_drop 1 port)) then None else
    match split_at "%25" addr with
    | Some (h1, zone) =>
        a ← unescape InHost h1; b ← unescape InZone zone; c ← unescape InHost port;
        Some (a +:+ b +:+ c)
    | None => unescape InHost host
    end
  else
    match split_last ":" host with
    | Some (_, port) => if validOptionalPort port then unescape InHost host else None
    | None => unescape InHost host
    end.

Definition user_byte (c : byte) : bool :=
  is_alpha c || is_digit c || one_of "-._:~!$&'()*+,;=%@" c.

Definition parseAuthority (authority : string) : option string :=
  match split_last "@" authority with
  | None => parseHost authority
  | Some (userinfo, at_host) =>
      host ← parseHost (str_drop 1 at_host);
      if negb (all_bytes user_byte userinfo) then None else
      match cut_byte userinfo ":" with
      | None => _ ← unescape InUser userinfo; Some host
      | Some (user, pass) => _ ← unescape InUser user; _ ← unescape InUser pass; Some host
      end
  end.

(** [url.Parse]: scheme (lower case), host and path. *)
Definition url_parts (raw : string) : option (string * string * string) :=
  let '(u, frag) := match cut_byte raw "#" with Some (u, f) => (u, f) | None => (raw, ""%string) end in
  _ ← (if frag =s "" then Some ""%string else unescape InFragment frag);
  if negb (all_bytes (fun c => negb (is_ctl c)) u) then None else
  if u =s "*" then Some (""%string, ""%string, "*"%string) else
  '(scheme, rest) ← getScheme u;
  let scheme := ToLower scheme in
  let rest := match cut_byte rest "?" with Some (r, _) => r | None => rest end in
  if negb (HasPrefix rest "/") then
    if negb (scheme =s "") then Some (scheme, ""%string, ""%string)
    else if Contains (fst (default (rest, ""%string) (cut_byte rest "/"))) ":" then None
    else path ← unescape InPath rest; Some (scheme, ""%string, path)
  else if (negb (scheme =s "") || negb (HasPrefix rest "///")) && HasPrefix rest "//" then
    let auth := str_drop 2 rest in
    let '(authority, path) :=
      match split_at "/" auth with Some (a, b) => (a, b) | None => (auth, ""%string) end in
    host ← parseAuthority authority;
    path ← unescape InPath path;
    Some (scheme, host, path)
  else path ← unescape InPath rest; Some (scheme, ""%string, path).
Definition url_Parse (raw : string) : option (string * string) :=
  '(scheme, host, _) ← url_parts raw; Some (scheme, host).

(** [url.QueryEscape] *)
Definition upper_hex (n : Z) : byte := if n <? 10 then chr (48 + n) else chr (55 + n).
Definition query_byte (c : byte) : string :=
  if is_alpha c || is_digit c || one_of "-_.~" c then String c ""
  else if c =c " " then "+"
  else String "%" (String (upper_hex (code c / 16)) (String (upper_hex (code c mod 16)) "")).
Fixpoint QueryEscape (s : string) : string :=
  match s with EmptyString => "" | String c s => query_byte c +:+ QueryEscape s end.

Example url_default : url_Parse "http://127.0.0.1:9428" = Some ("http", "127.0.0.1:9428")%string.
Proof. vm_compute. reflexivity. Qed.
Example url_opaque : url_Parse "localhost:9428" = Some ("localhost", "")%string.
Proof. vm_compute. reflexivity. Qed.
Example url_bad_port : url_Parse "http://h:9x/" = None.
Proof. vm_compute. reflexivity. Qed.
Example url_ipv6 : url_Parse "HTTPS://u:p@[fe80::1%25en0]:443/q?x#f" = Some ("https", "[fe80::1%en0]:443")%string.
Proof. vm_compute. reflexivity. Qed.
Example url_path : url_parts "http://h:1/vl%20x/" = Some ("http", "h:1", "/vl x/")%string.
Proof. vm_compute. reflexivity. Qed.
