(* ===== verification/GoRegexp.v ===== *)
(** * Go's [regexp], for the pattern the program compiles

    Regular expressions over byte classes with a backtracking matcher in Go's
    leftmost-first priority (greedy repetitions try the longest match first),
    and its soundness and completeness for the language of the expression.
    Every class used by the program treats all non-ASCII runes alike, so
    matching bytes and matching runes coincide. *)
From S2P Require Import Prelude GoStrings.

Inductive regex :=
  | RClass (p : byte -> bool)
  | RRep (p : byte -> bool) (lo : nat) (hi : option nat)
  | RSeq (r1 r2 : regex)
  | RGroup (r : regex).

Definition captures := list string.

(** Greedy repetition of a class: the longest run first, then shorter ones. *)
Fixpoint rep_match {R} (p : byte -> bool) (lo : nat) (hi : option nat) (s : string)
    (k : string -> option R) : option R :=
  let stop := if (lo =? 0)%nat then k s else None in
  match s, hi with
  | String c s', None =>
      if p c then
        match rep_match p (pred lo) None s' k with Some r => Some r | None => stop end
      else stop
  | String c s', Some (S h) =>
      if p c then
        match rep_match p (pred lo) (Some h) s' k with Some r => Some r | None => stop end
      else stop
  | _, _ => stop
  end.

Definition consumed (s rest : string) : string :=
  str_take (String.length s - String.length rest) s.

Fixpoint rmatch (r : regex) (s : string) (caps : captures)
    (k : string -> captures -> option captures) : option captures :=
  match r with
  | RClass p =>
      match s with
      | String c s' => if p c then k s' caps else None
      | EmptyString => None
      end
  | RRep p lo hi => rep_match p lo hi s (fun s' => k s' caps)
  | RSeq r1 r2 => rmatch r1 s caps (fun s' caps' => rmatch r2 s' caps' k)
  | RGroup r => rmatch r s caps (fun s' caps' => k s' (caps' ++ [consumed s s']))
  end.

(** [FindStringSubmatch] of a pattern anchored at both ends: the groups. *)
Definition at_end (s : string) (caps : captures) : option captures :=
  match s with EmptyString => Some caps | _ => None end.
Definition FindStringSubmatch (r : regex) (s : string) : option captures := rmatch r s [] at_end.
Definition MatchString (r : regex) (s : string) : bool :=
  bool_decide (is_Some (FindStringSubmatch r s)).

(** Sequencing of a list of expressions. *)
Fixpoint RSeqs (r : regex) (rs : list regex) : regex :=
  match rs with [] => r | r' :: rs => RSeq r (RSeqs r' rs) end.
Definition RChar (c : byte) : regex := RClass (fun x => x =c c).

(** Perl classes of Go's syntax. *)
Definition re_digit : byte -> bool := is_digit.
Definition re_space (c : byte) : bool :=
  (c =c chr 9) || (c =c chr 10) || (c =c chr 12) || (c =c chr 13) || (c =c chr 32).
Definition re_nonspace (c : byte) : bool := negb (re_space c).
Definition re_any (c : byte) : bool := negb (c =c chr 10).
Definition re_upper (c : byte) : bool := (65 <=? code c) && (code c <=? 90).
Definition re_lower (c : byte) : bool := (97 <=? code c) && (code c <=? 122).

(** ** The language of an expression *)

Definition count_ok (lo : nat) (hi : option nat) (n : nat) : Prop :=
  (lo <= n)%nat /\ match hi with Some h => (n <= h)%nat | None => True end.

Fixpoint matches (r : regex) (s : string) : Prop :=
  match r with
  | RClass p => exists c, s = String c "" /\ p c = true
  | RRep p lo hi => all_bytes p s = true /\ count_ok lo hi (String.length s)
  | RSeq r1 r2 => exists a b, s = a +:+ b /\ matches r1 a /\ matches r2 b
  | RGroup r => matches r s
  end.

(** A run of [p] of an allowed length, after which [K] holds. *)
Definition runs (p : byte -> bool) (lo : nat) (hi : option nat) (s : string) (K : string -> Prop) : Prop :=
  exists a b, s = a +:+ b /\ all_bytes p a = true /\ count_ok lo hi (String.length a) /\ K b.

(** No byte can be taken. *)
Lemma runs_stop p lo hi s K : starts p s = false \/ hi = Some O -> lo = 0%nat /\ K s <-> runs p lo hi s K.
Proof.
  intros Hc. split.
  - intros [-> Hk]. exists "", s. split_and!; try done. split; simpl; [lia|]. destruct hi; [lia|done].
  - intros (a & b & -> & Ha & [H1 H2] & Hk). destruct a as [|x a]; simpl in *; [by split; [lia|]|].
    apply andb_true_iff in Ha as [Ha _]. destruct Hc as [Hc|Hc]; [congruence|]. rewrite Hc in H2. lia.
Qed.

(** One byte is taken, or none. *)
Lemma runs_step p lo hi hi' c s K :
  hi = None /\ hi' = None \/ (exists h, hi = Some (S h) /\ hi' = Some h) -> p c = true ->
  runs p (pred lo) hi' s K \/ lo = 0%nat /\ K (String c s) <-> runs p lo hi (String c s) K.
Proof.
  intros Hhi Hc. split.
  - intros [(a & b & -> & Ha & [H1 H2] & Hk)|[-> Hk]].
    + exists (String c a), b. simpl. rewrite Hc. split_and!; try done.
      split; simpl; [lia|]. destruct Hhi as [[-> ->]|(h & -> & ->)]; [done|lia].
    + exists "", (String c s). split_and!; try done. split; simpl; [lia|]. destruct hi; [lia|done].
  - intros (a & b & E & Ha & [H1 H2] & Hk). destruct a as [|x a]; simpl in *; [right; subst b; by split; [lia|]|].
    simplify_eq. left. exists a, b. rewrite Hc in Ha. split_and!; try done.
    split; [lia|]. destruct Hhi as [[-> ->]|(h & -> & ->)]; [done|lia].
Qed.

Lemma or_else_some {R} (o1 o2 : option R) :
  is_Some (match o1 with Some r => Some r | None => o2 end) <-> is_Some o1 \/ is_Some o2.
Proof. destruct o1 as [r|]; [naive_solver|]. split; [auto|]. intros [[? ?]|]; done. Qed.

Lemma rep_match_iff {R} p lo hi s (k : string -> option R) :
  is_Some (rep_match p lo hi s k) <-> runs p lo hi s (fun b => is_Some (k b)).
Proof.
  revert lo hi. induction s as [|c s IH]; intros lo hi;
    (assert (Hstop : forall s, is_Some (if (lo =? 0)%nat then k s else None) <-> lo = 0%nat /\ is_Some (k s));
     [intros s'; destruct (Nat.eqb_spec lo 0); [naive_solver|]; split; [by intros [? ?]|naive_solver]|]).
  - assert (rep_match p lo hi "" k = if (lo =? 0)%nat then k "" else None) as -> by (by destruct hi as [[|]|]).
    rewrite Hstop. apply (runs_stop p lo _ _ (fun b => is_Some (k b))). by left.
  - cbn [rep_match]. destruct hi as [[|h]|]; [rewrite Hstop; apply (runs_stop p lo _ _ (fun b => is_Some (k b))); by right|..];
      (destruct (p c) eqn:Hc; [rewrite or_else_some, Hstop, IH; apply (runs_step p lo _ _ c s (fun b => is_Some (k b))); eauto|rewrite Hstop; apply (runs_stop p lo _ _ (fun b => is_Some (k b))); by left]).
Qed.

(** The matcher succeeds exactly when the expression matches a prefix from
    which the continuation succeeds. *)
Lemma rmatch_iff r s caps k (P : string -> Prop) :
  (forall s caps, is_Some (k s caps) <-> P s) ->
  is_Some (rmatch r s caps k) <-> exists a b, s = a +:+ b /\ matches r a /\ P b.
Proof.
  revert s caps k P. induction r as [p|p lo hi|r1 IH1 r2 IH2|r IH]; intros s caps k P Hk; simpl.
  - destruct s as [|c s].
    + split; [by intros [? ?]|]. intros (a & b & E & (c & -> & _) & _). done.
    + destruct (p c) eqn:Hc.
      * rewrite Hk. split.
        -- intros HP. exists (String c ""), s. eauto.
        -- intros (a & b & E & (x & -> & _) & HP). simpl in E. by simplify_eq.
      * split; [by intros [? ?]|]. intros (a & b & E & (x & -> & Hx) & _). simpl in E. congruence.
  - rewrite rep_match_iff. unfold runs. setoid_rewrite Hk. naive_solver.
  - rewrite (IH1 s caps _ (fun s => exists a b, s = a +:+ b /\ matches r2 a /\ P b)).
    + split.
      * intros (a & b & -> & H1 & (c & d & -> & H2 & HP)).
        exists (a +:+ c), d. rewrite append_assoc. eauto 10.
      * intros (ac & d & -> & (a & c & -> & H1 & H2) & HP).
        exists a, (c +:+ d). rewrite append_assoc. eauto 10.
    + intros s' caps'. by apply IH2.
  - rewrite (IH s caps _ P); [done|]. intros. apply Hk.
Qed.

Lemma MatchString_iff r s : MatchString r s = true <-> matches r s.
Proof.
  unfold MatchString, FindStringSubmatch. rewrite bool_decide_eq_true.
  rewrite (rmatch_iff r s [] at_end (fun s => s = "")).
  - split; [|intros H; exists s, ""; by rewrite append_nil_r].
    intros (a & b & -> & H & ->). by rewrite append_nil_r.
  - intros [|c s'] caps; simpl; split; try done; by intros [? ?].
Qed.

(** ** Greedy first attempts

    When the first attempt of each repetition succeeds, the groups are the
    greedy ones: the lemmas that compute a match. *)

Lemma rep_match_greedy {R} p lo hi a b (k : string -> option R) r :
  all_bytes p a = true -> count_ok lo hi (String.length a) ->
  (starts p b = false \/ hi = Some (String.length a)) -> k b = Some r ->
  rep_match p lo hi (a +:+ b) k = Some r.
Proof.
  revert lo hi. induction a as [|c a IH]; intros lo hi Ha Hc Hb Hk; simpl in *.
  - destruct Hc as [Hlo _]. replace lo with 0%nat by lia.
    destruct b as [|c b]; [by destruct hi as [[|]|]|]. simpl in *.
    destruct Hb as [->|[= ->]]; [|done]. by destruct hi as [[|]|].
  - apply andb_true_iff in Ha as [-> Ha]. destruct Hc as [Hlo Hhi].
    destruct hi as [[|h]|]; [lia|..]; (rewrite IH; [done|done| |naive_solver|done]);
      split; simpl in *; try done; lia.
Qed.

Lemma consumed_append a b : consumed (a +:+ b) b = a.
Proof.
  unfold consumed. rewrite length_append. replace (_ - _)%nat with (String.length a) by lia.
  apply str_take_append.
Qed.
