(* ===== verification/Domain.v ===== *)
(** * The canonical log model

    [backend/internal/domain/log.go]: the frame a transport hands to the
    pipeline, the canonical log entry, and the dynamic values ([any]) that its
    fields hold. *)
From S2P Require Import Prelude GoStrings GoTime.

Definition SchemaVersion : Z := 1.

Inductive ParseStatus :=
  | ParseStatusParsed
  | ParseStatusPartial
  | ParseStatusUnknown
  | ParseStatusInvalid.

Definition ParseStatus_string (s : ParseStatus) : string :=
  match s with
  | ParseStatusParsed => "parsed"
  | ParseStatusPartial => "partial"
  | ParseStatusUnknown => "unknown"
  | ParseStatusInvalid => "invalid"
  end.

#[export] Instance ParseStatus_eq_dec : EqDecision ParseStatus.
Proof. solve_decision. Defined.

(** The dynamic types a decoded JSON value can have: [nil], [string], [bool],
    [json.Number] (its literal), [float64] (its IEEE bits), [[]any] and
    [map[string]any] (its entries). *)
Inductive any :=
  | ANil
  | AStr (s : string)
  | ABool (b : bool)
  | ANumber (lit : string)
  | AFloat (bits : Z)
  | AList (l : list any)
  | AMap (m : list (string * any)).

Record LogEntry := mkLogEntry {
  le_ID : string;
  le_TenantID : string;
  le_Timestamp : Time;
  le_ReceivedAt : Time;
  le_Message : string;
  le_RawMessage : string;
  le_Hostname : string;
  le_SourceIP : string;
  le_SourcePort : Z;
  le_Facility : option Z;
  le_FacilityName : string;
  le_Severity : option Z;
  le_SeverityName : string;
  le_Priority : option Z;
  le_Protocol : string;
  le_Format : string;
  le_AppName : string;
  le_ProcessID : string;
  le_MessageID : string;
  le_SourceID : string;
  le_Source : string;
  le_SourceType : string;
  le_Fields : gmap string any;
  le_Labels : gmap string string;
  le_ParseStatus : ParseStatus;
  le_SchemaVersion : Z;
  le_TimestampInferred : bool
}.

Record Frame := mkFrame {
  f_Payload : string;
  f_ReceivedAt : Time;
  f_TenantID : string;
  f_SourceID : string;
  f_SourceName : string;
  f_Protocol : string;
  f_SourceIP : string;
  f_SourcePort : Z
}.

(** The zero [Frame] (a cleared queue slot). *)
Definition zero_frame : Frame := mkFrame "" zero_time "" "" "" "" "" 0.
