(* ===== verification/Parser.v ===== *)
(** * The syslog parsers

    [backend/internal/parser/parser.go]: format detection, the RFC 3164 and
    RFC 5424 parsers and the registry that dispatches to them. Every index and
    slice expression of the source is a [checked] one. *)
From S2P Require Import Prelude GoStrings GoUtf8 GoTime GoRegexp Domain.

(** The errors, one per [fmt.Errorf] of the source; all but
    [ENotRegistered] wrap [ErrInvalid]. *)
Inductive error :=
  | EPriority
  | E3164Header
  | E3164Timestamp
  | E5424Header
  | E5424Version
  | E5424Timestamp
  | ESData
  | ESDataID
  | ESDataParam
  | ESDataValue
  | ESDataValueUnterminated
  | ESDataUnterminated
  | ENotRegistered (name : string).

Definition ErrInvalid (e : error) : bool :=
  match e with ENotRegistered _ => false | _ => true end.

Record Event := mkEvent {
  e_Timestamp : Time;
  e_TimestampInferred : bool;
  e_Message : string;
  e_Hostname : string;
  e_Facility : option Z;
  e_Severity : option Z;
  e_Priority : option Z;
  e_AppName : string;
  e_ProcessID : string;
  e_MessageID : string;
  e_Format : string;
  e_Fields : gmap string any
}.

(** [uint8(n)] *)
Definition uint8 (n : Z) : Z := n mod 256.

Definition priority (value : string) : outcome error (Z * Z * Z) :=
  match Atoi value with
  | None => Err EPriority
  | Some n =>
      if (n <? 0) || (191 <? n) then Err EPriority
      else Ok (uint8 n, uint8 (Z.quot n 8), uint8 (Z.rem n 8))
  end.

(** ** RFC 3164 *)

(** The pattern of the source, group by group: priority, month, day, clock,
    host and the rest of the line. *)
Definition re_two_digits : regex := RRep re_digit 2 (Some 2%nat).
Definition rfc3164Pattern : regex :=
  RSeqs (RChar "<")
    [ RGroup (RRep re_digit 1 (Some 3%nat)); RChar ">";
      RGroup (RSeq (RClass re_upper) (RRep re_lower 2 (Some 2%nat)));
      RRep re_space 1 None;
      RGroup (RSeq (RClass (fun c => (c =c " ") || is_digit c)) (RRep re_digit 0 (Some 1%nat)));
      RRep re_space 1 None;
      RGroup (RSeqs re_two_digits [RChar ":"; re_two_digits; RChar ":"; re_two_digits]);
      RRep re_space 1 None;
      RGroup (RRep re_nonspace 1 None);
      RRep re_space 0 None;
      RGroup (RRep re_any 0 None) ].

(** One year of the loop of [nearestRFC3164Time]. *)
Definition nearest_step (value : string) (base : Time) (loc : Location)
    (acc : Time * Z) (year : Z) : option (Time * Z) :=
  let '(best, bestDelta) := acc in
  t ← ParseStamp (Itoa year +:+ String " " value) loc;
  let delta := Sub t base in
  let delta := if delta <? 0 then wrap64 (- delta) else delta in
  Some (if delta <? bestDelta then (t, delta) else (best, bestDelta)).

Fixpoint foldM {A B} (f : A -> B -> option A) (acc : A) (l : list B) : option A :=
  match l with [] => Some acc | x :: l => acc ← f acc x; foldM f acc l end.

Definition nearestRFC3164Time (month day clock : string) (received : Time)
    (loc : option Location) : option Time :=
  let loc := default loc_utc loc in
  let base := In_loc received loc in
  let value := month +:+ String " " (day +:+ String " " clock) in
  '(best, _) ← foldM (nearest_step value base loc) (zero_time, max_int64)
                 [Year base - 1; Year base; Year base + 1];
  Some best.

Definition parseTag (value : string) : outcome error (string * string * string) :=
  let value := TrimSpace value in
  match cut_byte value ":" with
  | None => Ok ("", "", value)%string
  | Some (head, rest) =>
      let message := TrimSpace rest in
      let open := LastIndexByte head "[" in
      if (0 <? open) && HasSuffix head "]" then
        app ← checked (slice head 0 open);
        pid ← checked (slice head (open + 1) (len head - 1));
        Ok (app, pid, message)
      else Ok (head, "", message)%string
  end.

Definition no_fields : gmap string any := ∅.

Definition RFC3164_Parse (payload : string) (received : Time) (loc : option Location)
    : outcome error Event :=
  match FindStringSubmatch rfc3164Pattern (trim_right is_crlf payload) with
  | None => Err E3164Header
  | Some [m1; m2; m3; m4; m5; m6] =>
      '(p, facility, severity) ← priority m1;
      match nearestRFC3164Time m2 (TrimSpace m3) m4 received loc with
      | None => Err E3164Timestamp
      | Some stamp =>
          '(app, pid, msg) ← parseTag m6;
          Ok {| e_Timestamp := UTC stamp; e_TimestampInferred := true; e_Message := msg;
                e_Hostname := m5; e_Facility := Some facility; e_Severity := Some severity;
                e_Priority := Some p; e_AppName := app; e_ProcessID := pid; e_MessageID := "";
                e_Format := "rfc3164"; e_Fields := no_fields |}
      end
  | Some _ => Panic
  end.

(** ** RFC 5424 *)

Definition cutToken (value : string) : outcome error (option (string * string)) :=
  let i := IndexByte value " " in
  if i <? 0 then Ok None
  else
    token ← checked (slice value 0 i);
    rest ← checked (slice value (i + 1) (len value));
    Ok (Some (token, trim_left is_sp rest)).

Definition nilValue (v : string) : string := if v =s "-" then "" else v.

(** Structured data. The source scans [joined] with an index [i]; here the
    state is the remainder [joined[i:]], so [i < len(joined)] is "the remainder
    is not empty" and [joined[i]] its first byte. *)
Definition dquote : byte := chr 34.
Definition backslash : byte := chr 92.
Definition sd_escapable (c : byte) : bool := (c =c dquote) || (c =c backslash) || (c =c "]").

(** The value loop, after the opening quote: [None] when it is not closed. *)
Fixpoint sd_value (s : string) : option (string * string) :=
  match s with
  | EmptyString => None
  | String ch s =>
      if ch =c dquote then Some (EmptyString, s)
      else if ch =c backslash then
        match s with
        | EmptyString => None
        | String escaped s =>
            '(v, rest) ← sd_value s;
            Some (if sd_escapable escaped then String escaped v
                  else String backslash (String escaped v), rest)
        end
      else '(v, rest) ← sd_value s; Some (String ch v, rest)
  end.

Definition not_id_end (c : byte) : bool := negb (c =c " ") && negb (c =c "]").
Definition not_name_end (c : byte) : bool :=
  negb (c =c "=") && negb (c =c "]") && negb (c =c " ").

Definition sd_key (sdID name : string) : string :=
  ("syslog.sd." +:+ (sdID +:+ String "." name))%string.

(** One parameter: spaces, name, [=], quoted value. *)
Definition sd_param (sdID s : string) (fields : gmap string any)
    : outcome error (string * gmap string any) :=
  let (name, s) := span not_name_end (trim_left is_sp s) in
  if name =s "" then Err ESDataParam else
  match s with
  | String eq s =>
      if negb (eq =c "=") then Err ESDataParam else
      match s with
      | String q s =>
          if negb (q =c dquote) then Err ESDataValue else
          match sd_value s with
          | None => Err ESDataValueUnterminated
          | Some (value, rest) => Ok (rest, <[sd_key sdID name := AStr value]> fields)
          end
      | EmptyString => Err ESDataValue
      end
  | EmptyString => Err ESDataParam
  end.

(** The parameters of one element, up to its closing bracket. [fuel] bounds
    the iterations; running out is [Panic], excluded by [sd_no_panic]. *)
Fixpoint sd_params (fuel : nat) (sdID s : string) (fields : gmap string any)
    : outcome error (string * gmap string any) :=
  match fuel with
  | O => Panic
  | S fuel =>
      match s with
      | EmptyString => Ok (s, fields)
      | String c _ =>
          if c =c "]" then Ok (s, fields)
          else '(s, fields) ← sd_param sdID s fields; sd_params fuel sdID s fields
      end
  end.

(** The elements: [for i < len(joined) && joined[i] == '[']. *)
Fixpoint sd_elements (fuel : nat) (s : string) (fields : gmap string any)
    : outcome error (string * gmap string any) :=
  match fuel with
  | O => Panic
  | S fuel =>
      match s with
      | String c s1 =>
          if negb (c =c "[") then Ok (s, fields) else
          let (sdID, s2) := span not_id_end s1 in
          if sdID =s "" then Err ESDataID else
          '(s3, fields) ← sd_params (S (String.length s2)) sdID s2 fields;
          match s3 with
          | String c s4 =>
              if c =c "]" then sd_elements fuel s4 fields else Err ESDataUnterminated
          | EmptyString => Err ESDataUnterminated
          end
      | EmptyString => Ok (s, fields)
      end
  end.

Definition parseStructuredData (joined : string) (fields : gmap string any)
    : outcome error (string * gmap string any) :=
  if joined =s "-" then Ok (""%string, fields)
  else if HasPrefix joined "- " then
    rest ← checked (slice joined 2 (len joined)); Ok (rest, fields)
  else if (joined =s "") || negb (starts (fun c => c =c "[") joined) then Err ESData
  else sd_elements (S (String.length joined)) joined fields.

(** The token loop: [n] more tokens. *)
Fixpoint cut_tokens (n : nat) (rest : string) : outcome error (list string * string) :=
  match n with
  | O => Ok ([], rest)
  | S n =>
      o ← cutToken rest;
      match o with
      | None => Err E5424Header
      | Some (token, remaining) =>
          '(parts, rest) ← cut_tokens n remaining; Ok (token :: parts, rest)
      end
  end.

Definition bom : string := of_codes [239; 187; 191].

Definition RFC5424_Parse (payload : string) (received : Time) : outcome error Event :=
  let s := trim_right is_crlf payload in
  if negb (HasPrefix s "<") then Err EPriority else
  let end_ := IndexByte s ">" in
  if (end_ <? 2) || (4 <? end_) then Err EPriority else
  pri ← checked (slice s 1 end_);
  '(p, facility, severity) ← priority pri;
  rest ← checked (slice s (end_ + 1) (len s));
  '(parts, rest) ← cut_tokens 6 rest;
  match parts with
  | [version; stamp; host; app; pid; msgid] =>
      if negb (version =s "1") then Err E5424Version else
      '(stamp, inferred) ←
        (if stamp =s "-" then Ok (received, true)
         else match ParseRFC3339Nano stamp with
              | Some t => Ok (t, false)
              | None => Err E5424Timestamp
              end);
      '(remaining, fields) ← parseStructuredData rest no_fields;
      let message := TrimPrefix (TrimPrefix remaining " ") bom in
      Ok {| e_Timestamp := UTC stamp; e_TimestampInferred := inferred; e_Message := message;
            e_Hostname := nilValue host; e_Facility := Some facility;
            e_Severity := Some severity; e_Priority := Some p; e_AppName := nilValue app;
            e_ProcessID := nilValue pid; e_MessageID := nilValue msgid;
            e_Format := "rfc5424"; e_Fields := fields |}
  | _ => Panic
  end.

(** ** Detection and the registry *)

Definition version_digit (c : byte) : bool := (49 <=? code c) && (code c <=? 57).

Definition Detect (payload : string) : outcome error string :=
  let s := payload in
  let end_ := IndexByte s ">" in
  if len s <? 4 then Ok "unknown"%string else
  c0 ← checked (str_at s 0);
  if negb (c0 =c "<") || (end_ <? 2) || (4 <? end_) then Ok "unknown"%string else
  pri ← checked (slice s 1 end_);
  match Atoi pri with
  | None => Ok "unknown"%string
  | Some _ =>
      rest ← checked (slice s (end_ + 1) (len s));
      is5424 ←
        (if 2 <=? len rest then
           r0 ← checked (str_at rest 0);
           if version_digit r0 then r1 ← checked (str_at rest 1); Ok (r1 =c " ") else Ok false
         else Ok false);
      if is5424 : bool then Ok "rfc5424"%string
      else if MatchString rfc3164Pattern s then Ok "rfc3164"%string
      else Ok "unknown"%string
  end.

(** The [Parser] interface: a name and a parse function. *)
Record ParserImpl := mkParser {
  Name : string;
  Parse : string -> Time -> option Location -> outcome error Event
}.
Definition RFC3164 : ParserImpl := mkParser "rfc3164" RFC3164_Parse.
Definition RFC5424 : ParserImpl :=
  mkParser "rfc5424" (fun payload received _ => RFC5424_Parse payload received).

Abbreviation Registry := (gmap string ParserImpl).
Definition NewRegistry : Registry :=
  foldl (fun r p => <[Name p := p]> r) ∅ [RFC3164; RFC5424].

Definition unknown_event (payload : string) (received : Time) : Event :=
  {| e_Timestamp := UTC received; e_TimestampInferred := true;
     e_Message := ToValidUTF8 payload replacement; e_Hostname := ""; e_Facility := None;
     e_Severity := None; e_Priority := None; e_AppName := ""; e_ProcessID := "";
     e_MessageID := ""; e_Format := "unknown"; e_Fields := no_fields |}.

Definition Registry_Parse (r : Registry) (configured payload : string) (received : Time)
    (loc : option Location) : outcome error Event :=
  let dispatch name :=
    match r !! name with
    | None => Err (ENotRegistered name)
    | Some p => Parse p payload received loc
    end in
  if (configured =s "") || (configured =s "auto") then
    name ← Detect payload;
    if name =s "unknown" then Ok (unknown_event payload received) else dispatch name
  else dispatch configured.
