(* ===== verification/ParserProps.v ===== *)
(** * Properties of the syslog parsers

    Absence of run-time panics on every input; the PRI encoding; round trips of
    RFC 5424 lines with structured data and of RFC 3164 lines; year inference;
    and the agreement of detection with parsing. *)
From S2P Require Import Prelude GoStrings GoUtf8 GoTime GoRegexp Domain Parser.

Ltac solve_slice :=
  match goal with
  | |- context [checked (slice ?s ?lo ?hi)] =>
      let H := fresh "Hs" in
      destruct (slice_in_range s lo hi) as [? H]; [lia..|]; rewrite H; bind_simpl
  end.
Ltac solve_at :=
  match goal with
  | |- context [checked (str_at ?s ?i)] =>
      let H := fresh "Hs" in let c := fresh "c" in
      destruct (str_at_in_range s i) as [c H]; [lia|]; rewrite H; bind_simpl
  end.

Lemma IndexByte_bounds s c : -1 <= IndexByte s c < Z.max 1 (len s).
Proof.
  destruct (IndexByte_inv c s) as [[-> _]|(a & b & -> & -> & _)].
  - pose proof (len_nonneg s). lia.
  - rewrite len_append, len_cons. pose proof (len_nonneg a). pose proof (len_nonneg b). lia.
Qed.

(** ** No run-time panic *)

Lemma priority_no_panic v : no_panic (priority v).
Proof. unfold priority. destruct (Atoi v); [|done]. by split_if. Qed.

Lemma cutToken_no_panic v : no_panic (cutToken v).
Proof.
  unfold cutToken. pose proof (IndexByte_bounds v " ") as Hb.
  pose proof (len_nonneg v). destruct (Z.ltb_spec (IndexByte v " ") 0); [done|].
  assert (IndexByte v " " < len v).
  { destruct (IndexByte_inv " " v) as [[E _]|(a & b & -> & -> & _)]; [lia|].
    rewrite len_append, len_cons. pose proof (len_nonneg b). lia. }
  repeat solve_slice. done.
Qed.

Lemma cut_tokens_no_panic n s : no_panic (cut_tokens n s).
Proof.
  revert s. induction n as [|n IH]; intros s; [done|]. cbn [cut_tokens].
  apply no_panic_bind; [apply cutToken_no_panic|]. intros [[tok rest]|] _; [|done].
  apply no_panic_bind; [apply IH|]. by intros [] _.
Qed.

Lemma cut_tokens_length n s parts rest :
  cut_tokens n s = Ok (parts, rest) -> length parts = n.
Proof.
  revert s parts rest. induction n as [|n IH]; intros s parts rest; cbn [cut_tokens].
  { by intros [= <- _]. }
  destruct (cutToken s) as [[[tok rem]|]| |]; bind_simpl; try done.
  destruct (cut_tokens n rem) as [[ps r]| |] eqn:E; bind_simpl; try done.
  intros [= <- _]. simpl. f_equal. by eapply IH.
Qed.

(** [HasSuffix] and [LastIndexByte] on the same string. *)
Lemma bracket_range head :
  0 < LastIndexByte head "[" -> HasSuffix head "]" = true ->
  LastIndexByte head "[" + 1 <= len head - 1.
Proof.
  unfold LastIndexByte. destruct (last_index_nat "[" head) as [n|] eqn:E; [|lia].
  destruct (last_index_nat_Some _ _ _ E) as (a & b & -> & <- & _).
  intros _ Hs%bool_decide_eq_true. destruct Hs as [r Hr%strip_suffix_Some].
  rewrite len_append, len_cons. unfold len. destruct b as [|c b]; [|simpl; lia].
  assert (Hends : ends (fun c => c =c "]") (a +:+ "[") = true) by (by rewrite Hr, ends_append).
  by rewrite ends_append in Hends.
Qed.

Lemma parseTag_no_panic v : no_panic (parseTag v).
Proof.
  unfold parseTag. destruct (cut_byte _ _) as [[head rest]|]; [|done].
  destruct (Z.ltb_spec 0 (LastIndexByte head "[")) as [Hpos|]; [|done].
  destruct (HasSuffix head "]") eqn:Hs; [|done]. cbn [andb].
  pose proof (bracket_range head Hpos Hs). pose proof (len_nonneg head).
  repeat solve_slice. done.
Qed.

(** The result is not a panic, and an [Ok] remainder is at most [n] bytes. *)
Definition shrinks {A} (n : nat) (m : outcome error (string * A)) : Prop :=
  match m with
  | Ok (s, _) => (String.length s <= n)%nat
  | Err _ => True
  | Panic => False
  end.

Lemma shrinks_weaken {A} n k (m : outcome error (string * A)) :
  (n <= k)%nat -> shrinks n m -> shrinks k m.
Proof. destruct m as [[s a]|e|]; simpl; [lia|done..]. Qed.

Lemma sd_value_shrinks s v rest :
  sd_value s = Some (v, rest) -> (String.length rest < String.length s)%nat.
Proof.
  remember (String.length s) as n eqn:Hn. revert s v rest Hn.
  induction n as [n IH] using lt_wf_ind. intros [|c s] v rest ->; [done|]. cbn [sd_value].
  destruct (c =c dquote); [intros [= <- <-]; simpl; lia|].
  destruct (c =c backslash).
  - destruct s as [|e s]; [done|]. destruct (sd_value s) as [[v' r']|] eqn:E; [|done].
    bind_simpl. intros [= _ <-]. apply (IH (String.length s)) in E; simpl in *; lia.
  - destruct (sd_value s) as [[v' r']|] eqn:E; [|done]. bind_simpl. intros [= _ <-].
    apply (IH (String.length s)) in E; simpl in *; lia.
Qed.

Lemma span_length p s : String.length s = (String.length (span p s).1 + String.length (span p s).2)%nat.
Proof.
  destruct (span p s) as [a b] eqn:E. apply span_spec in E as [-> _]. apply length_append.
Qed.

Lemma sd_param_shrinks id s f : shrinks (pred (String.length s)) (sd_param id s f).
Proof.
  unfold sd_param, trim_left. pose proof (span_length is_sp s) as H1.
  set (t := (span is_sp s).2) in *. pose proof (span_length not_name_end t) as H2.
  destruct (span not_name_end t) as [name u]. simpl in H2.
  destruct (name =s ""); [done|]. destruct u as [|eq u]; [done|].
  destruct (negb (eq =c "=")); [done|]. destruct u as [|q u]; [done|].
  destruct (negb (q =c dquote)); [done|].
  destruct (sd_value u) as [[v r]|] eqn:E; [|done].
  apply sd_value_shrinks in E. simpl in *. lia.
Qed.

Lemma sd_params_shrinks fuel id s f :
  (String.length s < fuel)%nat -> shrinks (String.length s) (sd_params fuel id s f).
Proof.
  revert s f. induction fuel as [|fuel IH]; intros s f Hf; [lia|]. cbn [sd_params].
  destruct s as [|c s]; [simpl; lia|]. destruct (c =c "]"); [simpl; lia|].
  pose proof (sd_param_shrinks id (String c s) f) as Hp.
  destruct (sd_param id (String c s) f) as [[s' f']|e|]; bind_simpl; [|done..].
  simpl in *. eapply shrinks_weaken; [|apply IH]; lia.
Qed.

Lemma sd_elements_shrinks fuel s f :
  (String.length s < fuel)%nat -> shrinks (String.length s) (sd_elements fuel s f).
Proof.
  revert s f. induction fuel as [|fuel IH]; intros s f Hf; [lia|]. cbn [sd_elements].
  destruct s as [|c s]; [simpl; lia|]. destruct (negb (c =c "[")); [simpl; lia|].
  pose proof (span_length not_id_end s) as Hl.
  destruct (span not_id_end s) as [id s2]. simpl in Hl. destruct (id =s ""); [done|].
  pose proof (sd_params_shrinks (S (String.length s2)) id s2 f ltac:(lia)) as Hp.
  destruct (sd_params _ id s2 f) as [[s3 f']|e|]; bind_simpl; [|done..].
  destruct s3 as [|d s4]; [done|]. destruct (d =c "]"); [|done].
  simpl in *. eapply shrinks_weaken; [|apply IH]; lia.
Qed.

Lemma parseStructuredData_no_panic s f : no_panic (parseStructuredData s f).
Proof.
  unfold parseStructuredData. destruct (s =s "-"); [done|].
  destruct (HasPrefix s "- ") eqn:Hp.
  - apply bool_decide_eq_true in Hp as [r ->%strip_prefix_Some].
    pose proof (len_nonneg r). pose proof (len_append "- " r) as Hl.
    change (len "- ") with 2 in Hl. solve_slice. done.
  - split_if; [done|].
    pose proof (sd_elements_shrinks (S (String.length s)) s f ltac:(lia)) as Hs.
    by destruct (sd_elements _ s f) as [[]| |].
Qed.

Lemma RFC5424_Parse_no_panic payload received : no_panic (RFC5424_Parse payload received).
Proof.
  unfold RFC5424_Parse. set (s := trim_right is_crlf payload).
  split_if; [done|]. pose proof (len_nonneg s).
  destruct (Z.ltb_spec (IndexByte s ">") 2), (Z.ltb_spec 4 (IndexByte s ">")); try done.
  cbn [orb]. pose proof (IndexByte_bounds s ">"). repeat solve_slice.
  apply no_panic_bind; [apply priority_no_panic|]. intros [[p fa] se] _.
  apply no_panic_bind; [apply cut_tokens_no_panic|]. intros [parts rest] Hparts.
  apply cut_tokens_length in Hparts.
  destruct parts as [|version [|stamp [|host [|app [|pid [|msgid [|]]]]]]]; try done.
  split_if; [done|]. apply no_panic_bind.
  { split_if; [done|]. by destruct (ParseRFC3339Nano stamp). }
  intros [st inf] _. apply no_panic_bind; [apply parseStructuredData_no_panic|].
  by intros [] _.
Qed.

(** The pattern has six groups: a successful match has six captures. *)
Fixpoint groups (r : regex) : nat :=
  match r with
  | RClass _ | RRep _ _ _ => O
  | RSeq a b => groups a + groups b
  | RGroup r => S (groups r)
  end%nat.

Lemma rep_match_result {R} p lo hi s (k : string -> option R) r :
  rep_match p lo hi s k = Some r -> exists s', k s' = Some r.
Proof.
  revert lo hi. induction s as [|c s IH]; intros lo hi; destruct hi as [[|h]|]; cbn [rep_match];
    repeat case_match; intros; simplify_eq; eauto.
Qed.

Lemma rmatch_groups r s caps k c :
  rmatch r s caps k = Some c ->
  exists s' caps', k s' caps' = Some c /\ length caps' = (length caps + groups r)%nat.
Proof.
  revert s caps k. induction r as [p|p lo hi|r1 IH1 r2 IH2|r IH]; intros s caps k; cbn [rmatch groups].
  - destruct s as [|x s]; [done|]. destruct (p x); [|done]. intros H. exists s, caps.
    split; [done|lia].
  - intros [s' H]%rep_match_result. exists s', caps. split; [done|lia].
  - intros (s1 & c1 & (s2 & c2 & H & L2)%IH2 & L1)%IH1. exists s2, c2. split; [done|lia].
  - intros (s1 & c1 & H & L)%IH. exists s1, (c1 ++ [consumed s s1]). split; [done|].
    rewrite length_app. simpl. lia.
Qed.

Lemma FindStringSubmatch_groups r s c : FindStringSubmatch r s = Some c -> length c = groups r.
Proof.
  intros (s' & c' & H & L)%rmatch_groups. destruct s'; [|done]. by injection H as ->.
Qed.

Lemma RFC3164_Parse_no_panic payload received loc : no_panic (RFC3164_Parse payload received loc).
Proof.
  unfold RFC3164_Parse. destruct (FindStringSubmatch _ _) as [c|] eqn:E; [|done].
  apply FindStringSubmatch_groups in E. change (groups rfc3164Pattern) with 6%nat in E.
  destruct c as [|m1 [|m2 [|m3 [|m4 [|m5 [|m6 [|]]]]]]]; try done.
  apply no_panic_bind; [apply priority_no_panic|]. intros [[p fa] se] _.
  destruct (nearestRFC3164Time _ _ _ _ _); [|done].
  apply no_panic_bind; [apply parseTag_no_panic|]. by intros [[]] _.
Qed.

Lemma Detect_no_panic payload : no_panic (Detect payload).
Proof.
  unfold Detect. set (s := payload). destruct (Z.ltb_spec (len s) 4); [done|].
  pose proof (IndexByte_bounds s ">"). solve_at.
  destruct (negb (c =c "<")); [done|]. cbn [orb].
  destruct (Z.ltb_spec (IndexByte s ">") 2), (Z.ltb_spec 4 (IndexByte s ">")); try done.
  cbn [orb]. repeat solve_slice. destruct (Atoi _); [|done].
  apply no_panic_bind.
  - match goal with |- context [2 <=? len ?r] => destruct (Z.leb_spec 2 (len r)); [|done] end.
    repeat solve_at. by split_if.
  - intros b _. split_if; [done|]. by split_if.
Qed.

Lemma NewRegistry_lookup name p :
  NewRegistry !! name = Some p -> p = RFC3164 \/ p = RFC5424.
Proof.
  unfold NewRegistry. cbn [foldl]. intros H.
  apply lookup_insert_Some in H as [[_ <-]|[_ H]]; [by right|].
  apply lookup_insert_Some in H as [[_ <-]|[_ H]]; [by left|].
  by rewrite lookup_empty in H.
Qed.

Lemma Registry_lookup_rfc3164 : NewRegistry !! "rfc3164"%string = Some RFC3164.
Proof. reflexivity. Qed.
Lemma Registry_lookup_rfc5424 : NewRegistry !! "rfc5424"%string = Some RFC5424.
Proof. reflexivity. Qed.

(** C7. Whatever parser a source configures and whatever bytes arrive, parsing
    never reaches an out-of-range index or slice expression (nor runs a loop
    past its bound): a worker cannot be brought down by a payload. *)
Theorem Registry_Parse_no_panic configured payload received loc :
  Registry_Parse NewRegistry configured payload received loc <> Panic.
Proof.
  enough (no_panic (Registry_Parse NewRegistry configured payload received loc)) as H.
  { intros E. by rewrite E in H. }
  assert (Hd : forall name, no_panic (match NewRegistry !! name with
      | None => Err (ENotRegistered name)
      | Some p => Parse p payload received loc end)).
  { intros name. destruct (NewRegistry !! name) as [p|] eqn:E; [|done].
    apply NewRegistry_lookup in E as [->| ->];
      [apply RFC3164_Parse_no_panic|apply RFC5424_Parse_no_panic]. }
  unfold Registry_Parse. split_if; [|apply Hd].
  apply no_panic_bind; [apply Detect_no_panic|]. intros name _. by split_if.
Qed.

(** ** The PRI value *)

Lemma uint8_small n : 0 <= n < 256 -> uint8 n = n.
Proof. intros. by apply Z.mod_small. Qed.

(** A PRI is accepted exactly when it is a decimal integer in 0..191, and
    then facility and severity are its unique decomposition [8*f + s]. *)
Theorem priority_spec v p f s :
  priority v = Ok (p, f, s) <->
  Atoi v = Some p /\ 0 <= p <= 191 /\ p = 8 * f + s /\ 0 <= f <= 23 /\ 0 <= s <= 7.
Proof.
  unfold priority. destruct (Atoi v) as [n|]; [|split; [done|naive_solver]].
  destruct (Z.ltb_spec n 0), (Z.ltb_spec 191 n); cbn [orb];
    try (split; [done|]; intros ([= ->] & ? & _); lia).
  rewrite Z.quot_div_nonneg, Z.rem_mod_nonneg by lia.
  rewrite !uint8_small by div_lia. split.
  - intros [= <- <- <-]. split; [done|]. div_lia.
  - intros ([= <-] & Hn & Hd & Hf & Hs). repeat f_equal; div_lia.
Qed.

(** ** Structured data *)

Fixpoint sd_escape (v : string) : string :=
  match v with
  | EmptyString => EmptyString
  | String c v =>
      if sd_escapable c then String backslash (String c (sd_escape v)) else String c (sd_escape v)
  end.

Abbreviation param := (string * string)%type.
Abbreviation element := (string * list (string * string))%type.

Definition print_param (p : param) : string :=
  String " " (p.1 +:+ String "=" (String dquote (sd_escape p.2 +:+ String dquote ""))).
Fixpoint print_params (ps : list param) : string :=
  match ps with [] => EmptyString | p :: ps => print_param p +:+ print_params ps end.
Definition print_element (e : element) : string :=
  String "[" (e.1 +:+ (print_params e.2 +:+ "]")).
Fixpoint print_elements (es : list element) : string :=
  match es with [] => EmptyString | e :: es => print_element e +:+ print_elements es end.

Definition sd_name_ok (n : string) : bool := negb (n =s "") && all_bytes not_name_end n.
Definition sd_id_ok (n : string) : bool := negb (n =s "") && all_bytes not_id_end n.
Definition element_ok (e : element) : bool :=
  sd_id_ok e.1 && forallb (fun p => sd_name_ok p.1) e.2.

Definition add_params (id : string) (ps : list param) (f : gmap string any) : gmap string any :=
  foldl (fun f p => <[sd_key id p.1 := AStr p.2]> f) f ps.
Definition add_elements (es : list element) (f : gmap string any) : gmap string any :=
  foldl (fun f e => add_params e.1 e.2 f) f es.

Lemma sd_value_escape v rest : sd_value (sd_escape v +:+ String dquote rest) = Some (v, rest).
Proof.
  induction v as [|c v IH]; [done|]. cbn [sd_escape]. unfold sd_escapable at 1.
  destruct (c =c dquote) eqn:H1; [|destruct (c =c backslash) eqn:H2; [|destruct (c =c "]") eqn:H3]];
    cbn [orb append_cons String.append sd_value];
    unfold sd_escapable; rewrite ?H1, ?H2, ?H3; cbn [orb]; rewrite IH; bind_simpl; try done.
  all: by cbn.
Qed.

Lemma not_name_not_space n : all_bytes not_name_end n = true -> starts is_sp n = false.
Proof.
  destruct n as [|c n]; [done|]. simpl. unfold not_name_end, is_sp.
  destruct (c =c " "); [|done]. by rewrite !andb_false_r.
Qed.

Lemma sd_param_print id n v rest f :
  sd_name_ok n = true ->
  sd_param id (print_param (n, v) +:+ rest) f = Ok (rest, <[sd_key id n := AStr v]> f).
Proof.
  unfold sd_name_ok. intros [Hne Hn]%andb_true_iff. unfold sd_param, print_param. cbn [fst snd].
  rewrite append_cons, !append_assoc, append_cons.
  assert (forall x, trim_left is_sp (String " " (n +:+ x)) = n +:+ x) as ->.
  { intros x. destruct n as [|c n]; [done|]. pose proof (not_name_not_space _ Hn) as Hs.
    simpl in Hs. unfold trim_left. simpl. by rewrite Hs. }
  rewrite span_append by done. destruct (n =s ""); [done|].
  change (negb ("=" =c "=")) with false. cbn [String.append].
  change (negb (dquote =c dquote)) with false.
  rewrite append_assoc, append_cons, sd_value_escape. done.
Qed.

Lemma sd_params_print fuel id ps rest f :
  (length ps < fuel)%nat -> forallb (fun p => sd_name_ok p.1) ps = true ->
  sd_params fuel id (print_params ps +:+ String "]" rest) f
  = Ok (String "]" rest, add_params id ps f).
Proof.
  revert fuel f. induction ps as [|[n v] ps IH]; intros [|fuel] f Hf Hok; cbn [length] in Hf; try lia.
  { done. }
  simpl in Hok. apply andb_true_iff in Hok as [Hn Hok].
  cbn [sd_params print_params]. rewrite append_assoc.
  assert (exists x, print_param (n, v) +:+ (print_params ps +:+ String "]" rest) = String " " x) as [x Hx]
    by (by eexists).
  rewrite Hx, <- Hx. change (" " =c "]") with false. cbv iota.
  rewrite sd_param_print by done. bind_simpl. rewrite IH by (done || lia). done.
Qed.

Lemma print_params_length ps : (length ps <= String.length (print_params ps))%nat.
Proof.
  induction ps as [|p ps IH]; [done|]. cbn [print_params length]. rewrite length_append.
  unfold print_param. simpl. lia.
Qed.

Lemma starts_params p ps rest :
  p "]"%char = false -> p " "%char = false -> starts p (print_params ps +:+ String "]" rest) = false.
Proof. intros H1 H2. by destruct ps. Qed.

Lemma sd_elements_print fuel es rest f :
  (length es < fuel)%nat -> forallb element_ok es = true -> starts (fun c => c =c "[") rest = false ->
  sd_elements fuel (print_elements es +:+ rest) f = Ok (rest, add_elements es f).
Proof.
  intros Hf Hok Hr. revert fuel f Hf. induction es as [|[id ps] es IH]; intros [|fuel] f Hf;
    cbn [length] in Hf; try lia.
  { cbn [print_elements String.append]. destruct rest as [|c rest]; [done|]. simpl in Hr.
    cbn [sd_elements]. by rewrite Hr. }
  simpl in Hok. apply andb_true_iff in Hok as [Hid Hok]. unfold element_ok in Hid. cbn [fst snd] in Hid.
  apply andb_true_iff in Hid as [Hid Hps]. apply andb_true_iff in Hid as [Hne Hid].
  cbn [sd_elements print_elements]. unfold print_element. cbn [fst snd].
  rewrite append_assoc, append_cons, !append_assoc. cbn [String.append].
  change (negb ("[" =c "[")) with false. cbv iota.
  rewrite span_append by (done || by apply starts_params).
  destruct (id =s ""); [done|].
  rewrite sd_params_print.
  - bind_simpl. change ("]" =c "]") with true. cbv iota. rewrite IH by (done || lia). done.
  - pose proof (print_params_length ps). rewrite length_append. lia.
  - done.
Qed.

Lemma print_elements_length es : (length es <= String.length (print_elements es))%nat.
Proof.
  induction es as [|p es IH]; [done|]. cbn [print_elements length]. rewrite length_append.
  unfold print_element. simpl. lia.
Qed.

Lemma parseStructuredData_print es rest f :
  es <> [] -> forallb element_ok es = true -> starts (fun c => c =c "[") rest = false ->
  parseStructuredData (print_elements es +:+ rest) f = Ok (rest, add_elements es f).
Proof.
  intros Hne Hok Hr. unfold parseStructuredData.
  assert (exists x, print_elements es +:+ rest = String "[" x) as [x Hx] by (destruct es; [done|by eexists]).
  rewrite Hx. destruct (str_eq_spec (String "[" x) "-"); [done|].
  destruct (str_eq_spec (String "[" x) ""); [done|]. cbn [starts orb].
  change (HasPrefix (String "[" x) "- ") with false. cbv iota.
  change (negb ("[" =c "[")) with false. cbv iota. rewrite <- Hx. apply sd_elements_print; try done.
  pose proof (print_elements_length es). rewrite length_append. lia.
Qed.

(** ** RFC 5424 lines *)

Record Line5424 := mkLine5424 {
  l_pri : Z;
  l_time : Time;
  l_host : string;
  l_app : string;
  l_pid : string;
  l_msgid : string;
  l_sd : list element;
  l_msg : string
}.

(** A header token: the nil value [-] stands for the empty string. *)
Definition nil_token (v : string) : string := if v =s "" then "-" else v.
Definition token_ok (v : string) : bool := lacks " " v && negb (v =s "-").
Definition print_sd (es : list element) : string :=
  match es with [] => "-" | _ => print_elements es end.
Definition print_msg (m : string) : string := if m =s "" then "" else String " " m.

Definition print_header (l : Line5424) : string :=
  "1 " +:+ (FormatRFC3339Nano (l_time l) +:+ String " " (nil_token (l_host l) +:+ String " "
    (nil_token (l_app l) +:+ String " " (nil_token (l_pid l) +:+ String " "
      (nil_token (l_msgid l) +:+ String " " (print_sd (l_sd l) +:+ print_msg (l_msg l))))))).
Definition print5424 (l : Line5424) : string :=
  String "<" (Itoa (l_pri l) +:+ String ">" (print_header l)).

Definition line_ok (l : Line5424) : Prop :=
  0 <= l_pri l <= 191 /\ 0 <= Year (l_time l) <= 9999 /\ printable_offset (t_off (l_time l))
  /\ token_ok (l_host l) = true /\ token_ok (l_app l) = true /\ token_ok (l_pid l) = true
  /\ token_ok (l_msgid l) = true /\ forallb element_ok (l_sd l) = true
  /\ ends is_crlf (l_msg l) = false /\ strip_prefix bom (l_msg l) = None.

Definition event_of_line (l : Line5424) : Event :=
  {| e_Timestamp := UTC (l_time l); e_TimestampInferred := false; e_Message := l_msg l;
     e_Hostname := l_host l; e_Facility := Some (l_pri l / 8);
     e_Severity := Some (l_pri l mod 8); e_Priority := Some (l_pri l); e_AppName := l_app l;
     e_ProcessID := l_pid l; e_MessageID := l_msgid l; e_Format := "rfc5424";
     e_Fields := add_elements (l_sd l) no_fields |}.

Definition not_space (c : byte) : bool := negb (c =c " ").

Lemma format_not_space t : all_bytes not_space (FormatRFC3339Nano t) = true.
Proof.
  apply FormatRFC3339Nano_bytes; [|done]. intros c Hc. unfold not_space. by destruct (ch_eq_spec c " ") as [->|].
Qed.

Lemma format_starts t rest : 0 <= Year t -> starts is_digit (FormatRFC3339Nano t +:+ rest) = true.
Proof.
  unfold Year, FormatRFC3339Nano. destruct (civil_of_days (local_days t)) as [[y m] d]. cbn [fst].
  intros Hy. unfold pad_int. replace (y <? 0) with false by lia.
  pose proof (pad_digits 4 y Hy) as Hd.
  assert (pad 4 y <> "") as Hne.
  { unfold pad. destruct (4 - _)%nat; [|done]. exact (digits_nonempty y). }
  destruct (pad 4 y) as [|c s]; [done|]. simpl in *. by apply andb_true_iff in Hd as [-> _].
Qed.

Lemma lacks_space_spec s : lacks " " s = all_bytes not_space s.
Proof. reflexivity. Qed.

Lemma cutToken_append tok rest :
  lacks " " tok = true -> cutToken (tok +:+ String " " rest) = Ok (Some (tok, trim_left is_sp rest)).
Proof.
  intros H. unfold cutToken. rewrite IndexByte_append by done.
  pose proof (len_nonneg tok). pose proof (len_nonneg rest).
  destruct (Z.ltb_spec (len tok) 0); [lia|].
  pose proof (slice_append "" tok (String " " rest) 0 (len tok) eq_refl eq_refl) as E1.
  cbn [String.append] in E1. rewrite E1. bind_simpl.
  pose proof (slice_append (tok +:+ " ") rest "" (len tok + 1) (len (tok +:+ String " " rest))) as E2.
  rewrite append_nil_r, append_assoc in E2. cbn [String.append] in E2.
  rewrite E2; [done|..]; rewrite !len_append, ?len_cons, ?len_nil; lia.
Qed.

Lemma cut_tokens_step n tok rest :
  lacks " " tok = true -> starts is_sp rest = false ->
  cut_tokens (S n) (tok +:+ String " " rest)
  = ('(parts, r) ← cut_tokens n rest; Ok (tok :: parts, r)).
Proof.
  intros H1 H2. cbn [cut_tokens]. rewrite cutToken_append by done. bind_simpl.
  by rewrite trim_left_id.
Qed.

Lemma nil_token_lacks v : token_ok v = true -> lacks " " (nil_token v) = true.
Proof.
  intros [H _]%andb_true_iff. unfold nil_token. by destruct (str_eq_spec v "").
Qed.
Lemma nil_token_starts v rest : token_ok v = true -> starts is_sp (nil_token v +:+ rest) = false.
Proof.
  intros [H _]%andb_true_iff. unfold nil_token. destruct (str_eq_spec v ""); [done|].
  destruct v as [|c v]; [done|]. unfold lacks in H. simpl in *.
  apply andb_true_iff in H as [H _]. by apply negb_true_iff in H.
Qed.
Lemma nilValue_nil_token v : token_ok v = true -> nilValue (nil_token v) = v.
Proof.
  intros [_ H]%andb_true_iff. unfold nil_token, nilValue.
  destruct (str_eq_spec v "") as [->|]; [done|]. by destruct (v =s "-").
Qed.

Lemma sd_starts es rest : starts is_sp (print_sd es +:+ rest) = false.
Proof. by destruct es. Qed.

Lemma parseStructuredData_nil m f :
  parseStructuredData ("-" +:+ print_msg m) f = Ok (m, f).
Proof.
  unfold print_msg. destruct (str_eq_spec m "") as [->|]; [done|].
  cbn [String.append]. unfold parseStructuredData.
  destruct (str_eq_spec (String "-" (String " " m)) "-"); [done|].
  change (HasPrefix (String "-" (String " " m)) "- ") with true. cbv iota.
  pose proof (slice_append "- " m "" 2 (len (String "-" (String " " m))) eq_refl) as E.
  rewrite append_nil_r in E. cbn [String.append] in E. rewrite E; [done|].
  rewrite !len_cons. lia.
Qed.

Lemma parseStructuredData_sd es m f :
  es <> [] -> forallb element_ok es = true ->
  parseStructuredData (print_sd es +:+ print_msg m) f = Ok (print_msg m, add_elements es f).
Proof.
  intros Hne Hok. assert (print_sd es = print_elements es) as -> by (by destruct es).
  apply parseStructuredData_print; [done|done|]. unfold print_msg. by destruct (m =s "").
Qed.

Lemma message_of_print m :
  strip_prefix bom m = None -> TrimPrefix (TrimPrefix (print_msg m) " ") bom = m.
Proof.
  intros H. unfold print_msg. destruct (str_eq_spec m "") as [->|]; [done|].
  pose proof (strip_prefix_append " " m) as E. cbn [String.append] in E.
  assert (TrimPrefix (String " " m) " " = m) as -> by (unfold TrimPrefix; by rewrite E).
  unfold TrimPrefix. by rewrite H.
Qed.

Lemma print_sd_end es rest : ends is_crlf rest = false -> ends is_crlf (print_sd es +:+ rest) = false.
Proof.
  intros H. rewrite ends_append. destruct rest as [|c r]; [|exact H].
  destruct es as [|e es]; [done|]. cbn [print_sd].
  assert (Hgen : forall es e, ends is_crlf (print_elements (e :: es)) = false).
  { clear. induction es as [|e' es IH]; intros e; cbn [print_elements]; rewrite ends_append.
    - unfold print_element. rewrite <- append_cons, <- append_assoc. by rewrite ends_append.
    - destruct (print_element e' +:+ _) eqn:E; [by destruct e'|]. rewrite <- E. apply IH. }
  apply Hgen.
Qed.

Lemma print_msg_end m : ends is_crlf m = false -> ends is_crlf (print_msg m) = false.
Proof.
  intros H. unfold print_msg. destruct (str_eq_spec m ""); [done|].
  change (String " " m) with (" " +:+ m). rewrite ends_append. by destruct m.
Qed.

(** A string that ends, like its non-empty tail, outside [p]. *)
Definition good_end (p : byte -> bool) (s : string) : Prop := s <> "" /\ ends p s = false.

Lemma good_end_append p a b : good_end p b -> good_end p (a +:+ b).
Proof.
  intros [Hne He]. split; [by destruct a|]. rewrite ends_append. by destruct b.
Qed.
Lemma good_end_cons p c b : good_end p b -> good_end p (String c b).
Proof. apply (good_end_append p (String c "")). Qed.

Lemma print_header_end l pre :
  ends is_crlf (l_msg l) = false -> good_end is_crlf (pre +:+ print_header l).
Proof.
  intros H. unfold print_header.
  do 2 apply good_end_append. apply good_end_append.
  do 4 (apply good_end_cons, good_end_append). apply good_end_cons. split.
  - by destruct (l_sd l).
  - apply print_sd_end, print_msg_end, H.
Qed.

Lemma pri_digits p : 0 <= p <= 191 ->
  Atoi (Itoa p) = Some p /\ lacks ">" (Itoa p) = true /\ 1 <= len (Itoa p) <= 3.
Proof.
  intros H. split; [|split].
  - apply Atoi_Itoa. unfold in_int64, min_int64, max_int64. lia.
  - unfold Itoa. replace (p <? 0) with false by lia. unfold lacks.
    eapply all_bytes_impl; [|apply (digits_digits p); lia].
    intros c Hc. by destruct (ch_eq_spec c ">") as [->|].
  - unfold Itoa. replace (p <? 0) with false by lia. unfold len.
    pose proof (digits_length 2 p ltac:(cbn; lia)). pose proof (digits_nonempty p).
    destruct (digits p); [done|]. cbn [String.length] in *. lia.
Qed.

(** The PRI prefix shared by both formats. *)
Lemma pri_slices p rest :
  0 <= p <= 191 ->
  let s := String "<" (Itoa p +:+ String ">" rest) in
  IndexByte s ">" = len (Itoa p) + 1 /\ slice s 1 (IndexByte s ">") = Some (Itoa p)
  /\ slice s (IndexByte s ">" + 1) (len s) = Some rest
  /\ priority (Itoa p) = Ok (p, p / 8, p mod 8).
Proof.
  intros H s. destruct (pri_digits p H) as (Ha & Hl & Hlen).
  assert (IndexByte s ">" = len (Itoa p) + 1) as Hi.
  { unfold s. rewrite <- append_cons, IndexByte_append by done. by rewrite len_cons. }
  rewrite Hi. split; [done|]. split; [|split].
  - apply (slice_append "<" (Itoa p) (String ">" rest)); [done|]. change (len "<") with 1. lia.
  - pose proof (slice_append ("<" +:+ (Itoa p +:+ ">")) rest "" (len (Itoa p) + 1 + 1) (len s)) as E.
    rewrite append_nil_r, !append_assoc in E. apply E.
    + rewrite !len_append. change (len "<") with 1. change (len ">") with 1. lia.
    + unfold s. autorewrite with gostr. lia.
  - apply priority_spec. split; [done|]. div_lia.
Qed.

(** The line has no trailing CR or LF to trim. *)
Lemma print5424_trim l :
  ends is_crlf (l_msg l) = false -> trim_right is_crlf (print5424 l) = print5424 l.
Proof.
  intros H. apply trim_right_id. unfold print5424.
  apply good_end_cons, good_end_append, good_end_cons.
  apply (print_header_end l ""). done.
Qed.

Lemma print5424_tokens l :
  line_ok l ->
  cut_tokens 6 (print_header l)
  = Ok (["1"%string; FormatRFC3339Nano (l_time l); nil_token (l_host l); nil_token (l_app l);
         nil_token (l_pid l); nil_token (l_msgid l)], print_sd (l_sd l) +:+ print_msg (l_msg l)).
Proof.
  intros (_ & Hy & Ho & Hh & Ha & Hp & Hm & _). unfold print_header.
  change ("1 " +:+ ?x) with ("1" +:+ String " " x). rewrite cut_tokens_step; [|done|].
  2: { destruct (FormatRFC3339Nano (l_time l)) as [|c s] eqn:E;
       pose proof (format_starts (l_time l) "" ltac:(lia)) as Hs; rewrite E in Hs; [done|].
       simpl in *. unfold is_sp. by destruct (ch_eq_spec c " ") as [->|]. }
  rewrite cut_tokens_step; [|rewrite lacks_space_spec; by apply format_not_space|by apply nil_token_starts].
  do 3 (rewrite cut_tokens_step; [|by apply nil_token_lacks|by apply nil_token_starts]).
  rewrite cut_tokens_step; [|by apply nil_token_lacks|apply sd_starts].
  reflexivity.
Qed.

(** What is left to do once the header of a printed line is parsed. *)
Definition finish5424 (l : Line5424) (sd : outcome error (string * gmap string any))
    : outcome error Event :=
  '(remaining, fields) ← sd;
  Ok {| e_Timestamp := UTC (l_time l); e_TimestampInferred := false;
        e_Message := TrimPrefix (TrimPrefix remaining " ") bom;
        e_Hostname := l_host l; e_Facility := Some (l_pri l / 8);
        e_Severity := Some (l_pri l mod 8); e_Priority := Some (l_pri l); e_AppName := l_app l;
        e_ProcessID := l_pid l; e_MessageID := l_msgid l; e_Format := "rfc5424";
        e_Fields := fields |}.

Lemma RFC5424_Parse_header l received :
  line_ok l ->
  RFC5424_Parse (print5424 l) received
  = finish5424 l (parseStructuredData (print_sd (l_sd l) +:+ print_msg (l_msg l)) no_fields).
Proof.
  intros Hok. pose proof Hok as (Hpri & Hy & Ho & Hh & Ha & Hp & Hm & Hsd & Hend & Hbom).
  unfold RFC5424_Parse. rewrite print5424_trim by done.
  change (HasPrefix (print5424 l) "<") with true. cbn [negb].
  destruct (pri_slices (l_pri l) (print_header l) Hpri) as (Hi & Hs1 & Hs2 & Hpr).
  destruct (pri_digits (l_pri l) Hpri) as (_ & _ & Hlen).
  fold (print5424 l) in Hi, Hs1, Hs2.
  replace ((IndexByte (print5424 l) ">" <? 2) || (4 <? IndexByte (print5424 l) ">"))
    with false by lia.
  rewrite Hs1, Hs2. bind_simpl. rewrite Hpr. bind_simpl.
  rewrite print5424_tokens by done. bind_simpl. change (negb ("1" =s "1")) with false. cbv iota.
  destruct (str_eq_spec (FormatRFC3339Nano (l_time l)) "-") as [E|_].
  { pose proof (format_starts (l_time l) "" ltac:(lia)) as Hst. by rewrite E in Hst. }
  rewrite ParseRFC3339Nano_Format by done. bind_simpl.
  by rewrite !nilValue_nil_token by done.
Qed.

Lemma TrimPrefix_none s p : strip_prefix p s = None -> TrimPrefix s p = s.
Proof. intros H. unfold TrimPrefix. by rewrite H. Qed.

Lemma no_space_prefix s : starts is_sp s = false -> strip_prefix " " s = None.
Proof.
  destruct s as [|c s]; [done|]. cbn [starts strip_prefix]. unfold is_sp.
  destruct (ch_eq_spec " " c) as [<-|]; done.
Qed.

Lemma RFC5424_Parse_print l received :
  line_ok l -> (l_sd l = [] -> starts is_sp (l_msg l) = false) ->
  RFC5424_Parse (print5424 l) received = Ok (event_of_line l).
Proof.
  intros Hok Hsp. rewrite RFC5424_Parse_header by done.
  destruct Hok as (_ & _ & _ & _ & _ & _ & _ & Hsd & _ & Hbom). unfold event_of_line.
  unfold finish5424. destruct (decide (l_sd l = [])) as [Hnil|Hne].
  2: { rewrite parseStructuredData_sd by done. bind_simpl. by rewrite message_of_print. }
  - rewrite Hnil. cbn [print_sd]. rewrite parseStructuredData_nil. bind_simpl.
    rewrite (TrimPrefix_none (l_msg l) " ") by auto using no_space_prefix.
    by rewrite TrimPrefix_none.
Qed.

Lemma Detect_print5424 l : line_ok l -> Detect (print5424 l) = Ok "rfc5424"%string.
Proof.
  intros (Hpri & _). unfold Detect.
  destruct (pri_slices (l_pri l) (print_header l) Hpri) as (Hi & Hs1 & Hs2 & Hpr).
  destruct (pri_digits (l_pri l) Hpri) as (Ha & _ & Hlen).
  fold (print5424 l) in Hi, Hs1, Hs2.
  pose proof (len_nonneg (print_header l)).
  assert (len (print5424 l) = len (Itoa (l_pri l)) + len (print_header l) + 2) as Hl.
  { unfold print5424. autorewrite with gostr. lia. }
  assert (2 <= len (print_header l)) as Hh.
  { unfold print_header. rewrite len_append. change (len "1 ") with 2.
    match goal with |- context [2 + len ?x] => pose proof (len_nonneg x) end. lia. }
  replace (len (print5424 l) <? 4) with false by lia.
  change (str_at (print5424 l) 0) with (Some "<"%char). bind_simpl.
  replace ((IndexByte (print5424 l) ">" <? 2)) with false by lia.
  replace (4 <? IndexByte (print5424 l) ">") with false by lia.
  change (negb ("<" =c "<")) with false. cbn [orb].
  rewrite Hs1, Hs2. bind_simpl. rewrite Ha. replace (2 <=? len (print_header l)) with true by lia.
  reflexivity.
Qed.

(** The registry hands a printed line to the RFC 5424 parser. *)
Lemma Registry_Parse_5424 l received loc configured :
  line_ok l -> (l_sd l = [] -> starts is_sp (l_msg l) = false) ->
  configured = "auto"%string \/ configured = "rfc5424"%string ->
  Registry_Parse NewRegistry configured (print5424 l) received loc = Ok (event_of_line l).
Proof.
  intros Hl Hsp [->| ->]; unfold Registry_Parse.
  - change (("auto" =s "") || ("auto" =s "auto")) with true. cbv iota.
    rewrite Detect_print5424 by done. bind_simpl. change ("rfc5424" =s "unknown") with false.
    cbv iota. rewrite Registry_lookup_rfc5424. by apply RFC5424_Parse_print.
  - change (("rfc5424" =s "") || ("rfc5424" =s "auto")) with false. cbv iota.
    rewrite Registry_lookup_rfc5424. by apply RFC5424_Parse_print.
Qed.

(** C2. Every well-formed RFC 5424 line (any PRI, any printable time stamp, nil
    or present header fields, any structured data with any values, any
    message) is detected and parsed back to exactly the event it was printed
    from, whichever of the two configurations selects the parser; without
    structured data the message must not begin with a space. *)
Theorem RFC5424_roundtrip l received loc configured :
  line_ok l -> (l_sd l = [] -> starts is_sp (l_msg l) = false) ->
  configured = "auto"%string \/ configured = "rfc5424"%string ->
  Registry_Parse NewRegistry configured (print5424 l) received loc = Ok (event_of_line l).
Proof. apply Registry_Parse_5424. Qed.

Definition sample_line : Line5424 :=
  mkLine5424 165 (mkTime 1789396200123000000 7200) "fw01" "vpn" "8710" ""
    [("exampleSDID@32473", [("iut", "3"); ("note", "a space and ] bracket")]); ("empty", [])]%string
    " VPN disconnected".

Lemma RFC5424_roundtrip_witness :
  line_ok sample_line /\
  Registry_Parse NewRegistry "auto" (print5424 sample_line) zero_time None
  = Ok (event_of_line sample_line).
Proof.
  assert (line_ok sample_line) as H.
  { unfold line_ok, printable_offset. split_and!; try (vm_compute; congruence); done. }
  split; [exact H|]. apply (RFC5424_roundtrip sample_line zero_time None); [exact H|done|by left].
Defined.

Definition with_msg (l : Line5424) (m : string) : Line5424 :=
  mkLine5424 (l_pri l) (l_time l) (l_host l) (l_app l) (l_pid l) (l_msgid l) (l_sd l) m.

(** Without structured data the parser strips two spaces instead of one: a
    message that begins with a space loses it, and two different lines give
    the same event. *)
Theorem nil_sd_drops_leading_space l received :
  line_ok l -> l_sd l = [] -> l_msg l <> ""%string ->
  RFC5424_Parse (print5424 (with_msg l (String " " (l_msg l)))) received = Ok (event_of_line l).
Proof.
  intros Hok Hnil Hne. pose proof Hok as (? & ? & ? & ? & ? & ? & ? & ? & Hend & Hbom).
  rewrite RFC5424_Parse_header.
  2: { unfold line_ok, with_msg; simpl. split_and!; try (done || lia).
       change (String " " (l_msg l)) with (" " +:+ l_msg l). rewrite ends_append.
       by destruct (l_msg l). }
  unfold with_msg; cbn [l_sd l_msg]. rewrite Hnil. cbn [print_sd].
  rewrite parseStructuredData_nil.
  unfold finish5424, event_of_line. bind_simpl. rewrite Hnil.
  pose proof (strip_prefix_append " " (l_msg l)) as Hs. cbn [String.append] in Hs.
  assert (TrimPrefix (String " " (l_msg l)) " " = l_msg l) as -> by (unfold TrimPrefix; by rewrite Hs).
  by rewrite TrimPrefix_none.
Qed.

Lemma nil_sd_drops_leading_space_witness :
  let l := mkLine5424 34 (mkTime 0 0) "h" "" "" "" [] "m" in
  line_ok l /\ RFC5424_Parse (print5424 (with_msg l " m")) zero_time = Ok (event_of_line l).
Proof.
  intros l. assert (line_ok l) as H.
  { unfold line_ok, printable_offset. split_and!; try (vm_compute; congruence); done. }
  split; [exact H|]. apply (nil_sd_drops_leading_space l zero_time H); done.
Defined.
