(* ===== verification/Parser3164.v ===== *)
(** * RFC 3164: year inference and line round trips

    The stamp of an RFC 3164 line has no year. [nearestRFC3164Time] tries the
    year of arrival and its two neighbours; here is what it computes, how far
    from the arrival time it can be, the stamps it can never accept, and the
    round trip of a whole line. *)
From S2P Require Import Prelude GoStrings GoUtf8 GoTime GoRegexp Domain Parser ParserProps.

Definition month_name (m : Z) : string := default "" (month_names !! Z.to_nat (m - 1)).
(** A clock without fraction, as both syslog formats print it. *)
Definition print_clock (h mi s : Z) : string :=
  pad 2 h +:+ String ":" (pad 2 mi +:+ String ":" (pad 2 s)).
Definition clock_ok (h mi s : Z) : Prop := 0 <= h < 24 /\ 0 <= mi < 60 /\ 0 <= s < 60.
Definition plain_clock (h mi s : Z) : Clock := mkClock h mi s 0.

(** ** Parsing a stamp with a known year *)

Lemma get_year_Itoa y rest : 1000 <= y <= 9999 -> get_year (Itoa y +:+ rest) = Some (y, rest).
Proof.
  intros H. unfold Itoa. replace (y <? 0) with false by lia.
  rewrite <- (pad_digits_eq 4) by (cbn; lia). apply get_year_pad. lia.
Qed.

Lemma skip_space_one s : starts is_sp s = false -> skip_space (String " " s) = Some s.
Proof.
  intros H. unfold skip_space. change (is_sp " ") with true. cbv iota. f_equal.
  unfold trim_left. cbn [span]. change (is_sp " ") with true. cbv iota.
  destruct (span is_sp s) as [a b] eqn:E. pose proof (span_append is_sp "" s eq_refl H) as E'.
  cbn [String.append] in E'. rewrite E' in E. by simplify_eq.
Qed.

Lemma lookup_month_name m rest :
  1 <= m <= 12 -> lookup_month 1 month_names (month_name m +:+ rest) = Some (m, rest).
Proof. intros H. month_cases H; reflexivity. Qed.

Lemma month_name_graph m rest : 1 <= m <= 12 -> starts is_sp (month_name m +:+ rest) = false.
Proof. intros H. month_cases H; reflexivity. Qed.

Lemma getnum_Itoa d rest :
  1 <= d < 100 -> starts is_digit rest = false -> getnum false (Itoa d +:+ rest) = Some (d, rest).
Proof.
  intros H Hr. unfold Itoa. replace (d <? 0) with false by lia.
  destruct (Z.lt_ge_cases d 10).
  - assert (digits d = String (digit d) "") as ->.
    { unfold digits. cbn [digits_acc]. replace (d <? 10) with true by lia. by rewrite Z.mod_small by lia. }
    cbn [String.append getnum]. rewrite is_digit_digit, code_digit by lia.
    destruct rest as [|c rest]; [done|]. cbn [starts] in Hr. by rewrite Hr.
  - rewrite <- (pad_digits_eq 2) by (cbn; lia). apply getnum_pad2. lia.
Qed.

Lemma digits_starts n rest p :
  0 <= n -> (forall c, is_digit c = true -> p c = false) -> starts p (digits n +:+ rest) = false.
Proof.
  intros Hn Hp. pose proof (digits_digits n Hn) as Hd. pose proof (digits_nonempty n).
  destruct (digits n) as [|c s]; [done|]. simpl in *. apply andb_true_iff in Hd as [Hd _]. auto.
Qed.

Lemma digit_not_sp c : is_digit c = true -> is_sp c = false.
Proof. unfold is_sp. by destruct (ch_eq_spec c " ") as [->|]. Qed.

Lemma pad_starts w n rest p :
  0 <= n -> (0 < w)%nat -> (forall c, is_digit c = true -> p c = false) ->
  starts p (pad w n +:+ rest) = false.
Proof.
  intros Hn Hw Hp. pose proof (pad_digits w n Hn) as Hd.
  assert (pad w n <> "") as Hne.
  { unfold pad. destruct (w - _)%nat; [|done]. exact (digits_nonempty n). }
  destruct (pad w n) as [|c s]; [done|]. simpl in *. apply andb_true_iff in Hd as [Hd _]. auto.
Qed.

Lemma get_clock_print h mi s :
  clock_ok h mi s -> get_clock (print_clock h mi s) = Some (plain_clock h mi s, "").
Proof.
  intros (Hh & Hm & Hs). pose proof (get_clock_format (plain_clock h mi s) "") as E.
  cbn in E. rewrite append_nil_r in E. apply E; unfold second; (lia || done).
Qed.

(** The value after the year: month, day and clock. *)
Definition stamp_value (month day clock : string) : string :=
  month +:+ String " " (day +:+ String " " clock).

Lemma ParseStamp_day y m d clock loc :
  1000 <= y <= 9999 -> 1 <= m <= 12 -> 1 <= d < 100 -> starts is_sp clock = false ->
  ParseStamp (Itoa y +:+ String " " (stamp_value (month_name m) (Itoa d) clock)) loc
  = ('(c, s) ← get_clock clock;
     if (s =s "") && in_bounds 1 (days_in m y) d then Some (Date y m d c loc) else None).
Proof.
  intros Hy Hm Hd Hc. unfold ParseStamp, stamp_value. rewrite get_year_Itoa by done. bind_simpl.
  rewrite skip_space_one by by apply month_name_graph. bind_simpl.
  rewrite lookup_month_name by done. bind_simpl.
  rewrite skip_space_one.
  2: { unfold Itoa. replace (d <? 0) with false by lia. apply digits_starts; [lia|apply digit_not_sp]. }
  bind_simpl. rewrite getnum_Itoa by done. bind_simpl. rewrite skip_space_one by done. done.
Qed.

Lemma ParseStamp_print y m d h mi s loc :
  1000 <= y <= 9999 -> valid_date y m d -> clock_ok h mi s ->
  ParseStamp (Itoa y +:+ String " " (stamp_value (month_name m) (Itoa d) (print_clock h mi s))) loc
  = Some (Date y m d (plain_clock h mi s) loc).
Proof.
  intros Hy [Hm Hd] Hc. assert (days_in m y <= 31) by (unfold days_in; repeat case_match; lia).
  destruct Hc as (Hh & Hmi & Hs). rewrite ParseStamp_day; [|lia..|].
  - rewrite get_clock_print by done. bind_simpl. unfold in_bounds.
    by replace ((1 <=? d) && (d <=? days_in m y)) with true by lia.
  - apply pad_starts; [lia|lia|apply digit_not_sp].
Qed.

(** ** The nearest year *)

(** A month and a day that exist in every year. *)
Definition plain_date (m d : Z) : Prop := 1 <= m <= 12 /\ 1 <= d <= days_in m 2001.

Lemma plain_date_valid m d y : plain_date m d -> valid_date y m d.
Proof.
  intros [Hm Hd]. split; [done|]. enough (days_in m 2001 <= days_in m y) by lia.
  unfold days_in. change (is_leap 2001) with false. repeat case_match; lia.
Qed.

Lemma Date_utc_ns y m d c :
  t_ns (Date y m d c loc_utc)
  = (days_of_civil y m d * 86400 + hour c * 3600 + minute c * 60 + sec c) * second + nsec c.
Proof. reflexivity. Qed.

(** The instants of one calendar year, as local times. *)
Lemma year_bracket t :
  (year_start (Year t) - unix_epoch_days) * 86400 * second <= t_ns t + t_off t * second
  < (year_start (Year t + 1) - unix_epoch_days) * 86400 * second.
Proof.
  unfold Year. pose proof (days_of_civil_of_days (local_days t)) as H.
  destruct (civil_of_days (local_days t)) as [[y m] d]. cbn [fst].
  destruct H as [Heq Hv]. pose proof (days_of_civil_year y m d Hv) as Hb. rewrite Heq in Hb.
  unfold local_days, unix_sec, second in *. simpl in Hb. unfold second in Hb. div_lia.
Qed.

(** The instant of a stamp read in year [y], in UTC. *)
Definition stamp_ns (y m d h mi s : Z) : Z := t_ns (Date y m d (plain_clock h mi s) loc_utc).

Lemma stamp_ns_bracket y m d h mi s :
  valid_date y m d -> clock_ok h mi s ->
  (year_start y - unix_epoch_days) * 86400 * second <= stamp_ns y m d h mi s
  < (year_start (y + 1) - unix_epoch_days) * 86400 * second.
Proof.
  intros Hv (Hh & Hm & Hs). pose proof (days_of_civil_year y m d Hv).
  unfold stamp_ns. rewrite Date_utc_ns. unfold second. simpl. lia.
Qed.

(** From one year to the next a stamp moves by 365 or 366 days. *)
Lemma stamp_ns_step y m d h mi s :
  plain_date m d ->
  365 * 86400 * second <= stamp_ns (y + 1) m d h mi s - stamp_ns y m d h mi s <= 366 * 86400 * second.
Proof.
  intros [Hm Hd]. unfold stamp_ns. rewrite !Date_utc_ns. unfold days_of_civil, second.
  rewrite year_start_step. unfold month_start.
  month_cases Hm; cbn [Z.ltb Z.compare Pos.compare Pos.compare_cont andb];
    destruct (is_leap y), (is_leap (y + 1)); simpl; lia.
Qed.

Lemma stamp_ns_mono y y' m d h mi s :
  plain_date m d -> y <= y' -> stamp_ns y m d h mi s <= stamp_ns y' m d h mi s.
Proof.
  intros Hp Hy. replace y' with (y + Z.of_nat (Z.to_nat (y' - y))) by lia. generalize (Z.to_nat (y' - y)) as n.
  induction n as [|n IH]; [by rewrite Z.add_0_r|].
  pose proof (stamp_ns_step (y + Z.of_nat n) m d h mi s Hp) as Hs.
  replace (y + Z.of_nat n + 1) with (y + Z.of_nat (S n)) in Hs by lia. unfold second in Hs. lia.
Qed.
Lemma stamp_ns_far y y' m d h mi s :
  plain_date m d -> y < y' -> stamp_ns y m d h mi s + 365 * 86400 * second <= stamp_ns y' m d h mi s.
Proof.
  intros Hp Hy. pose proof (stamp_ns_step y m d h mi s Hp).
  pose proof (stamp_ns_mono (y + 1) y' m d h mi s Hp ltac:(lia)). lia.
Qed.

(** A location whose offsets from UTC are at most [zone] seconds, less than a
    day. *)
Definition zone_within (zone : Z) (loc : Location) : Prop :=
  0 <= zone < 86400 /\ forall u, Z.abs (loc u) <= zone.

(** The instant of a stamp read in year [y] in a location: it is that of UTC up to
    an offset. *)
Definition stamp_at (loc : Location) (y m d h mi s : Z) : Z := t_ns (Date y m d (plain_clock h mi s) loc).

Lemma stamp_at_near zone loc y m d h mi s :
  zone_within zone loc -> Z.abs (stamp_at loc y m d h mi s - stamp_ns y m d h mi s) <= zone * second.
Proof.
  intros [Hz Hloc]. unfold stamp_at, stamp_ns, Date. cbn [t_ns plain_clock hour minute sec nsec loc_utc Z.eqb].
  set (u := days_of_civil y m d * 86400 + h * 3600 + mi * 60 + s).
  pose proof (Hloc (u - loc u)). unfold second. destruct (Z.eqb_spec (loc u) 0); lia.
Qed.

Lemma sat64_id z : min_int64 <= z <= max_int64 -> sat64 z = z.
Proof. unfold sat64. lia. Qed.

Lemma nearest_step_abs value base loc best bd y t :
  ParseStamp (Itoa y +:+ String " " value) loc = Some t ->
  Z.abs (t_ns t - t_ns base) <= max_int64 ->
  nearest_step value base loc (best, bd) y
  = Some (if Z.abs (t_ns t - t_ns base) <? bd then (t, Z.abs (t_ns t - t_ns base)) else (best, bd)).
Proof.
  intros Ht Hb. unfold nearest_step. rewrite Ht. bind_simpl. unfold Sub.
  assert (max_int64 = 9223372036854775807 /\ min_int64 = -9223372036854775808) as [Hmax Hmin] by done.
  rewrite sat64_id by lia.
  assert ((if t_ns t - t_ns base <? 0 then wrap64 (- (t_ns t - t_ns base)) else t_ns t - t_ns base)
          = Z.abs (t_ns t - t_ns base)) as ->; [|done].
  destruct (Z.ltb_spec (t_ns t - t_ns base) 0); [|lia].
  unfold wrap64. change (2 ^ 63) with 9223372036854775808.
  change (2 ^ 64) with 18446744073709551616. rewrite Z.mod_small; lia.
Qed.

(** The year the loop settles on, for candidate instants [c] and arrival [b]. *)
Definition chosen_year (c : Z -> Z) (b Y : Z) : Z :=
  let dist y := Z.abs (c y - b) in
  if dist Y <? dist (Y - 1)
  then (if dist (Y + 1) <? dist Y then Y + 1 else Y)
  else (if dist (Y + 1) <? dist (Y - 1) then Y + 1 else Y - 1).

(** [e] is how far the candidates can be from bracketing the arrival. *)
Lemma chosen_year_closest (c : Z -> Z) b Y g e :
  (forall y y', y <= y' -> c y <= c y') -> c (Y - 1) - e <= b <= c (Y + 1) + e ->
  c Y - c (Y - 1) <= 2 * g -> c (Y + 1) - c Y <= 2 * g -> e <= g ->
  c (Y - 2) + e <= b <= c (Y + 2) - e ->
  let y := chosen_year c b Y in
  Z.abs (y - Y) <= 1 /\ Z.abs (c y - b) <= g /\ forall y', Z.abs (c y - b) <= Z.abs (c y' - b).
Proof.
  intros Hmono Hb G0 G1 He Hfar y.
  assert (Hy : Z.abs (y - Y) <= 1 /\ Z.abs (c y - b) <= g
    /\ Z.abs (c y - b) <= Z.abs (c (Y - 1) - b) /\ Z.abs (c y - b) <= Z.abs (c Y - b)
    /\ Z.abs (c y - b) <= Z.abs (c (Y + 1) - b)).
  { subst y. unfold chosen_year. pose proof (Hmono (Y - 1) Y ltac:(lia)). pose proof (Hmono Y (Y + 1) ltac:(lia)).
    repeat match goal with |- context [?u <? ?v] => destruct (Z.ltb_spec u v) end; lia. }
  destruct Hy as (Hd & Hg & H0 & H1 & H2). split; [done|]. split; [done|]. intros y'.
  assert (y' <= Y - 2 \/ y' = Y - 1 \/ y' = Y \/ y' = Y + 1 \/ Y + 2 <= y') as [H|[->|[->|[->|H]]]] by lia; try done.
  - pose proof (Hmono y' (Y - 2) H). pose proof (Hmono y' (Y - 1) ltac:(lia)). lia.
  - pose proof (Hmono (Y + 2) y' H). pose proof (Hmono (Y + 1) y' ltac:(lia)). lia.
Qed.

Lemma max_int64_val : max_int64 = 9223372036854775807.
Proof. reflexivity. Qed.

Lemma nearest_unfold month day clock received loc :
  let l := default loc_utc loc in
  nearestRFC3164Time month day clock received loc
  = ('(best, _) ← foldM (nearest_step (stamp_value month day clock) (In_loc received l) l)
       (zero_time, max_int64)
       [Year (In_loc received l) - 1; Year (In_loc received l); Year (In_loc received l) + 1];
     Some best).
Proof. reflexivity. Qed.

Lemma foldM_three {A B} (f : A -> B -> option A) acc x y z a1 a2 a3 :
  f acc x = Some a1 -> f a1 y = Some a2 -> f a2 z = Some a3 -> foldM f acc [x; y; z] = Some a3.
Proof. intros H1 H2 H3. cbn [foldM]. rewrite H1. bind_simpl. rewrite H2. bind_simpl. by rewrite H3. Qed.

Section Nearest.
Context (m d h mi s : Z) (received : Time) (loc : option Location) (zone : Z).
Let l : Location := default loc_utc loc.
Let base : Time := In_loc received l.
Let Y := Year base.
Context (Hp : plain_date m d) (Hc : clock_ok h mi s) (Hzone : zone_within zone l).
Context (HY : 1001 <= Y <= 9998).
Let c (y : Z) : Z := stamp_at l y m d h mi s.
Let b : Z := t_ns received.

Lemma candidates_mono y y' : y <= y' -> c y <= c y'.
Proof using Hp Hzone.
  clear -Hp Hzone. intros Hy. destruct (decide (y = y')) as [->|]; [done|].
  pose proof (stamp_ns_far y y' m d h mi s Hp ltac:(lia)).
  pose proof (stamp_at_near zone l y m d h mi s Hzone). pose proof (stamp_at_near zone l y' m d h mi s Hzone).
  destruct Hzone as [Hz _]. unfold c, second in *. lia.
Qed.

Lemma candidates_bracket :
  c (Y - 1) - 2 * zone * second <= b <= c (Y + 1) + 2 * zone * second
  /\ c Y - c (Y - 1) <= 2 * ((183 * 86400 + zone) * second)
  /\ c (Y + 1) - c Y <= 2 * ((183 * 86400 + zone) * second)
  /\ c (Y - 2) + 2 * zone * second <= b <= c (Y + 2) - 2 * zone * second
  /\ 0 <= zone < 86400.
Proof using Hp Hc Hzone.
  clear HY. assert (Hoff : Z.abs (t_off base) <= zone) by apply Hzone.
  pose proof (year_bracket base) as Hb. fold Y in Hb. change (t_ns base) with b in Hb.
  pose proof (fun y => stamp_ns_bracket y m d h mi s (plain_date_valid m d y Hp) Hc) as B.
  pose proof (B (Y - 1)) as B0. pose proof (B (Y + 1)) as B2. replace (Y - 1 + 1) with Y in * by lia.
  pose proof (stamp_ns_step (Y - 1) m d h mi s Hp) as G0. pose proof (stamp_ns_step Y m d h mi s Hp) as G1.
  pose proof (stamp_ns_far (Y - 2) (Y - 1) m d h mi s Hp ltac:(lia)) as F0.
  pose proof (stamp_ns_far (Y + 1) (Y + 2) m d h mi s Hp ltac:(lia)) as F1.
  replace (Y - 1 + 1) with Y in * by lia.
  pose proof (fun y => stamp_at_near zone l y m d h mi s Hzone) as N.
  pose proof (N (Y - 2)). pose proof (N (Y - 1)). pose proof (N Y). pose proof (N (Y + 1)). pose proof (N (Y + 2)).
  destruct Hzone as [Hz _]. clear B N Hzone. unfold c, second in *. split_and!; lia.
Qed.

Lemma candidate_step y best bd :
  Y - 1 <= y <= Y + 1 ->
  nearest_step (stamp_value (month_name m) (Itoa d) (print_clock h mi s)) base l (best, bd) y
  = Some (if Z.abs (c y - b) <? bd
          then (Date y m d (plain_clock h mi s) l, Z.abs (c y - b)) else (best, bd)).
Proof using Hp Hc HY Hzone.
  intros Hy. apply (nearest_step_abs _ base).
  - apply ParseStamp_print; [lia|by apply plain_date_valid|done].
  - change (Z.abs (c y - b) <= max_int64). destruct candidates_bracket as (Hb & G0 & G1 & _ & Hz).
    rewrite max_int64_val. unfold second in *.
    assert (y = Y - 1 \/ y = Y \/ y = Y + 1) as [->|[->| ->]] by lia; lia.
Qed.

Lemma nearest_chosen :
  nearestRFC3164Time (month_name m) (Itoa d) (print_clock h mi s) received loc
  = Some (Date (chosen_year c b Y) m d (plain_clock h mi s) l).
Proof using Hp Hc HY Hzone.
  assert (Z.abs (c (Y - 1) - b) < max_int64) as Hfirst.
  { destruct candidates_bracket as (Hb & G0 & G1 & _ & Hz). rewrite max_int64_val. unfold second in *. lia. }
  set (t := fun y => Date y m d (plain_clock h mi s) l). set (dist := fun y => Z.abs (c y - b)).
  set (y1 := if dist Y <? dist (Y - 1) then Y else Y - 1).
  set (y2 := if dist (Y + 1) <? dist y1 then Y + 1 else y1).
  rewrite nearest_unfold. fold l base Y.
  rewrite (foldM_three _ _ _ _ _ (t (Y - 1), dist (Y - 1)) (t y1, dist y1) (t y2, dist y2)).
  - bind_simpl. assert (y2 = chosen_year c b Y) as ->; [|done].
    unfold y2, y1, chosen_year, dist. by destruct (Z.abs (c Y - b) <? Z.abs (c (Y - 1) - b)).
  - rewrite candidate_step by lia. apply Z.ltb_lt in Hfirst. by rewrite Hfirst.
  - rewrite candidate_step by lia. unfold y1, dist. by destruct (_ <? _).
  - rewrite candidate_step by lia. unfold y2, dist. clearbody y1. by destruct (_ <? _).
Qed.
End Nearest.

(** What is inferred: the stamp in the year, of the arrival or next to it, that
    brings it closest to the arrival of all years. *)
Definition nearest_year (m d h mi s : Z) (received : Time) (loc : option Location) (zone : Z) : Prop :=
  let l := default loc_utc loc in
  exists y,
    nearestRFC3164Time (month_name m) (Itoa d) (print_clock h mi s) received loc
      = Some (Date y m d (plain_clock h mi s) l)
    /\ Z.abs (y - Year (In_loc received l)) <= 1
    /\ Z.abs (stamp_at l y m d h mi s - t_ns received) <= (183 * 86400 + zone) * second
    /\ forall y', Z.abs (stamp_at l y m d h mi s - t_ns received)
                  <= Z.abs (stamp_at l y' m d h mi s - t_ns received).

Lemma nearest_closest m d h mi s received loc zone :
  plain_date m d -> clock_ok h mi s -> zone_within zone (default loc_utc loc) ->
  1001 <= Year (In_loc received (default loc_utc loc)) <= 9998 ->
  nearest_year m d h mi s received loc zone.
Proof.
  intros Hp Hc Hz HY. unfold nearest_year. rewrite (nearest_chosen m d h mi s received loc zone Hp Hc Hz HY).
  destruct (candidates_bracket m d h mi s received loc zone Hp Hc Hz) as (Hb & G0 & G1 & F & Hzone).
  eexists. split; [reflexivity|].
  apply (chosen_year_closest (fun y => stamp_at (default loc_utc loc) y m d h mi s) _ _ _ (2 * zone * second));
    try done; [|unfold second; lia].
  intros y y' Hy. by apply (candidates_mono m d h mi s loc zone).
Qed.

Lemma zone_utc : zone_within 0 loc_utc.
Proof. split; [lia|done]. Qed.

(** C24. In the location of its source, UTC when there is none, a stamp whose date
    exists in every year is given the year that brings it closest to the time of
    arrival, among all years. The result is never more than 183 days and the
    largest offset of the location away from the arrival. The location may be any
    whose offsets from UTC are below a day, changes of offset included; the arrival
    is in the years 1001 to 9998 of that location, so that the three years tried
    have four digits. *)
Theorem nearest_year_closest m d h mi s received loc zone :
  plain_date m d -> clock_ok h mi s -> zone_within zone (default loc_utc loc) ->
  1001 <= Year (In_loc received (default loc_utc loc)) <= 9998 ->
  nearest_year m d h mi s received loc zone.
Proof. apply nearest_closest. Qed.

(** A zone that is an hour ahead, two in the summer of 2025. *)
Definition summer (u : Z) : Z := if (1743296400 <=? u) && (u <? 1761440400) then 7200 else 3600.

Lemma nearest_year_closest_witness :
  nearest_year 12 31 23 59 59 (mkTime 1767225600000000000 0) (Some summer) 7200.
Proof.
  apply (nearest_year_closest 12 31 23 59 59 (mkTime 1767225600000000000 0) (Some summer) 7200).
  - unfold plain_date. vm_compute. intuition congruence.
  - unfold clock_ok. lia.
  - split; [lia|]. intros u. cbn. unfold summer. destruct (_ && _); lia.
  - vm_compute. split; congruence.
Defined.
(** The stamp is read in the year before, an hour ahead of UTC. *)
Example nearest_in_summer_zone :
  nearestRFC3164Time "Dec" "31" "23:59:59" (mkTime 1767225600000000000 0) (Some summer)
  = Some (mkTime 1767221999000000000 3600).
Proof. vm_compute. reflexivity. Qed.

(** ** February 29 *)

Lemma not_leap_among Y : is_leap (Y - 1) = false \/ is_leap Y = false.
Proof.
  unfold is_leap. destruct (Z.eqb_spec ((Y - 1) mod 4) 0); [|by left].
  right. destruct (Z.eqb_spec (Y mod 4) 0); [div_lia|done].
Qed.

Lemma ParseStamp_feb29 y clock loc :
  1000 <= y <= 9999 -> is_leap y = false -> starts is_sp clock = false ->
  ParseStamp (Itoa y +:+ String " " (stamp_value "Feb" "29" clock)) loc = None.
Proof.
  intros Hy Hl Hc. rewrite (ParseStamp_day y 2 29) by (lia || done).
  destruct (get_clock clock) as [[c r]|]; [|done]. bind_simpl. unfold days_in.
  change (2 =? 2) with true. rewrite Hl. by rewrite andb_false_r.
Qed.

(** Year inference fails on February 29, in every location. *)
Lemma nearest_feb29 clock received loc :
  starts is_sp clock = false -> 1001 <= Year (In_loc received (default loc_utc loc)) <= 9998 ->
  nearestRFC3164Time "Feb" "29" clock received loc = None.
Proof.
  intros Hc HY. unfold nearestRFC3164Time. fold (stamp_value "Feb" "29" clock).
  set (base := In_loc received (default loc_utc loc)) in *. cbn [foldM].
  assert (Hnone : forall y acc, 1000 <= y <= 9999 -> is_leap y = false ->
      nearest_step (stamp_value "Feb" "29" clock) base (default loc_utc loc) acc y = None).
  { intros y [best bd] Hy Hl. unfold nearest_step. by rewrite ParseStamp_feb29. }
  destruct (not_leap_among (Year base)) as [Hl|Hl].
  - by rewrite Hnone by (lia || done).
  - destruct (nearest_step _ _ _ _ (Year base - 1)); [|done]. bind_simpl.
    by rewrite Hnone by (lia || done).
Qed.

(** ** Whole lines *)

Record Line3164 := mkLine3164 {
  b_pri : Z;
  b_month : Z;
  b_day : Z;
  b_hour : Z;
  b_min : Z;
  b_sec : Z;
  b_host : string;
  b_app : string;
  b_pid : string;
  b_msg : string
}.

Definition b_clock (l : Line3164) : string := print_clock (b_hour l) (b_min l) (b_sec l).
Definition print_head (l : Line3164) : string :=
  if b_pid l =s "" then b_app l else b_app l +:+ String "[" (b_pid l +:+ "]").
Definition print_tag (l : Line3164) : string := print_head l +:+ String ":" (print_msg (b_msg l)).
(** Days below ten are padded with a space. *)
Definition print_day (d : Z) : string := if d <? 10 then String " " (Itoa d) else Itoa d.
Definition print_body (l : Line3164) : string :=
  month_name (b_month l) +:+ String " " (print_day (b_day l) +:+ String " " (b_clock l +:+
    String " " (b_host l +:+ String " " (print_tag l)))).
Definition print3164 (l : Line3164) : string :=
  String "<" (Itoa (b_pri l) +:+ String ">" (print_body l)).

Definition nonempty (s : string) : bool := negb (s =s "").
Definition text_ok (s : string) : bool :=
  (s =s "") || (starts is_graph s && ends is_graph s && all_bytes re_any s).
Definition line3164_ok (l : Line3164) : Prop :=
  0 <= b_pri l <= 191 /\ 1 <= b_month l <= 12 /\ 1 <= b_day l <= 31
  /\ clock_ok (b_hour l) (b_min l) (b_sec l)
  /\ (nonempty (b_host l) = true /\ all_bytes re_nonspace (b_host l) = true)
  /\ (nonempty (b_app l) = true /\ all_bytes is_graph (b_app l) = true
      /\ lacks ":" (b_app l) = true /\ lacks "[" (b_app l) = true)
  /\ (all_bytes is_graph (b_pid l) = true /\ lacks ":" (b_pid l) = true
      /\ lacks "[" (b_pid l) = true)
  /\ text_ok (b_msg l) = true.

Lemma graph_nonspace c : is_graph c = true -> re_nonspace c = true.
Proof.
  unfold re_nonspace, re_space. intros Hc.
  repeat match goal with |- context [c =c ?x] => destruct (ch_eq_spec c x) as [->|]; [done|] end. done.
Qed.

Lemma nonspace_any c : re_nonspace c = true -> re_any c = true.
Proof.
  unfold re_nonspace, re_space, re_any. destruct (ch_eq_spec c (chr 10)) as [->|]; [|done].
  by vm_compute.
Qed.

Lemma graph_any s : all_bytes is_graph s = true -> all_bytes re_any s = true.
Proof. apply all_bytes_impl. auto using graph_nonspace, nonspace_any. Qed.

Lemma head_ok l :
  line3164_ok l ->
  all_bytes is_graph (print_head l) = true /\ lacks ":" (print_head l) = true
  /\ starts is_graph (print_head l) = true.
Proof.
  intros (_ & _ & _ & _ & _ & (Hne & Hag & Hac & Hab) & (Hpg & Hpc & Hpb) & _). unfold print_head.
  assert (starts is_graph (b_app l) = true).
  { destruct (b_app l); [done|]. simpl in Hag |- *. by apply andb_true_iff in Hag as [-> _]. }
  destruct (b_pid l =s ""); [done|]. unfold lacks in *.
  repeat (rewrite all_bytes_append || simpl all_bytes).
  repeat match goal with H : _ = true |- _ => rewrite H; clear H end.
  split; [done|]. split; [done|]. rewrite starts_append. destruct (b_app l); [|done]. done.
Qed.

Lemma tag_ends l : line3164_ok l -> ends is_graph (print_tag l) = true.
Proof.
  intros (_ & _ & _ & _ & _ & _ & _ & Hm). unfold print_tag, print_msg, text_ok in *.
  destruct (str_eq_spec (b_msg l) "") as [->|Hne]; [by rewrite ends_append|].
  cbn [orb] in Hm. b2p. rewrite ends_append. change (String ":" (String " " ?x)) with (": " +:+ x).
  rewrite ends_append. by destruct (b_msg l).
Qed.

Lemma tag_any l : line3164_ok l -> all_bytes re_any (print_tag l) = true.
Proof.
  intros Hok. destruct (head_ok l Hok) as (Hg & _ & _).
  destruct Hok as (_ & _ & _ & _ & _ & _ & _ & Hm).
  unfold print_tag. rewrite all_bytes_append, graph_any by done. simpl.
  unfold print_msg, text_ok in *. destruct (str_eq_spec (b_msg l) "") as [->|]; [done|].
  cbn [orb] in Hm. b2p. by cbn [all_bytes].
Qed.

Lemma trim_space_left_one s : starts is_graph s = true -> trim_space_left (String " " s) = s.
Proof.
  intros H. unfold trim_space_left. cbn [String.length trim_any].
  assert (strip_any space_encodings (String " " s) = Some s) as -> by reflexivity.
  by apply trim_any_stop, strip_any_graph.
Qed.

Lemma slice_app_head a c : slice (a +:+ c) 0 (len a) = Some a.
Proof. apply (slice_append "" a c); [done|]. cbn [len String.length]. lia. Qed.

Lemma parseTag_print l :
  line3164_ok l -> parseTag (print_tag l) = Ok (b_app l, b_pid l, b_msg l).
Proof.
  intros Hok. destruct (head_ok l Hok) as (Hg & Hl & Hs). unfold parseTag.
  rewrite TrimSpace_graph; [|unfold print_tag; rewrite starts_append; by destruct (print_head l)|by apply tag_ends].
  unfold print_tag. rewrite cut_byte_append by done.
  assert (TrimSpace (print_msg (b_msg l)) = b_msg l) as ->.
  { destruct Hok as (_ & _ & _ & _ & _ & _ & _ & Hm). unfold print_msg, text_ok in *.
    destruct (str_eq_spec (b_msg l) "") as [->|]; [done|]. cbn [orb] in Hm. b2p.
    unfold TrimSpace. by rewrite trim_space_left_one, trim_space_right_graph. }
  destruct Hok as (_ & _ & _ & _ & _ & (Hnea & Hag & Hac & Hab) & (Hpg & Hpc & Hpb) & _).
  unfold print_head.
  destruct (str_eq_spec (b_pid l) "") as [->|Hne].
  - unfold LastIndexByte. destruct (last_index_nat "[" (b_app l)) as [n|] eqn:E; [|done].
    apply last_index_nat_Some in E as (x & y & E & _). unfold lacks in *.
    rewrite E, all_bytes_append in Hab. simpl in Hab. by rewrite andb_false_r in Hab.
  - unfold LastIndexByte. rewrite last_index_nat_append.
    2: { unfold lacks in *. rewrite all_bytes_append. by rewrite Hpb. }
    change (Z.of_nat (String.length (b_app l))) with (len (b_app l)).
    assert (0 < len (b_app l)).
    { destruct (b_app l) as [|c s]; [done|]. rewrite len_cons. pose proof (len_nonneg s). lia. }
    destruct (Z.ltb_spec 0 (len (b_app l))); [|lia].
    assert (HasSuffix (b_app l +:+ String "[" (b_pid l +:+ "]")) "]" = true) as ->.
    { apply bool_decide_eq_true. rewrite <- append_cons, <- append_assoc, strip_suffix_append. eauto. }
    cbn [andb]. rewrite slice_app_head. bind_simpl.
    pose proof (slice_append (b_app l +:+ "[") (b_pid l) "]" (len (b_app l) + 1)
      (len (b_app l +:+ String "[" (b_pid l +:+ "]")) - 1)) as E.
    rewrite append_assoc in E. cbn [String.append] in E. rewrite E; [done|..];
      autorewrite with gostr; cbn [len String.length]; lia.
Qed.

(** *** The match of a printed line *)

Lemma rmatch_rep p lo hi a b caps k r :
  all_bytes p a = true -> count_ok lo hi (String.length a) ->
  starts p b = false \/ hi = Some (String.length a) -> k b caps = Some r ->
  rmatch (RRep p lo hi) (a +:+ b) caps k = Some r.
Proof. intros. cbn [rmatch]. by apply rep_match_greedy. Qed.

Lemma rmatch_group r a b caps k x :
  rmatch r (a +:+ b) caps (fun s' caps' => k s' (caps' ++ [consumed (a +:+ b) s'])) = Some x ->
  rmatch (RGroup r) (a +:+ b) caps k = Some x.
Proof. done. Qed.

Lemma rmatch_group_rep p lo hi a b caps k r :
  all_bytes p a = true -> count_ok lo hi (String.length a) ->
  starts p b = false \/ hi = Some (String.length a) -> k b (caps ++ [a]) = Some r ->
  rmatch (RGroup (RRep p lo hi)) (a +:+ b) caps k = Some r.
Proof. intros. apply rmatch_group, rmatch_rep; try done. by rewrite consumed_append. Qed.

Lemma rmatch_seq r1 r2 s caps k :
  rmatch (RSeq r1 r2) s caps k = rmatch r1 s caps (fun s' caps' => rmatch r2 s' caps' k).
Proof. done. Qed.

Lemma rmatch_char c s caps k : rmatch (RChar c) (String c s) caps k = k s caps.
Proof. cbn. by rewrite ch_eq_refl. Qed.

Lemma rmatch_month m b caps k r :
  1 <= m <= 12 -> k b (caps ++ [month_name m]) = Some r ->
  rmatch (RGroup (RSeq (RClass re_upper) (RRep re_lower 2 (Some 2%nat)))) (month_name m +:+ b) caps k
  = Some r.
Proof.
  intros Hm Hk. apply rmatch_group. rewrite rmatch_seq.
  assert (exists c s, month_name m = String c s /\ re_upper c = true
          /\ all_bytes re_lower s = true /\ String.length s = 2%nat) as (c & s & E & Hu & Hl & Hlen).
  { month_cases Hm; eexists _, _; (split; [reflexivity|done]). }
  rewrite E in *. rewrite append_cons. cbn [rmatch]. rewrite Hu.
  apply rep_match_greedy; [done|by rewrite Hlen; split|right; by rewrite Hlen|].
  by rewrite <- append_cons, consumed_append.
Qed.

Lemma day_string d : 1 <= d <= 31 ->
  exists c s, Itoa d = String c s /\ is_digit c = true /\ all_bytes is_digit s = true
              /\ (String.length s <= 1)%nat.
Proof.
  intros H. unfold Itoa. replace (d <? 0) with false by lia.
  pose proof (digits_digits d ltac:(lia)) as Hd. pose proof (digits_nonempty d).
  pose proof (digits_length 1 d ltac:(cbn; lia)) as Hl.
  destruct (digits d) as [|c s]; [done|]. simpl in Hd. apply andb_true_iff in Hd as [??].
  exists c, s. cbn [String.length] in Hl. split_and!; try done. lia.
Qed.

Lemma rmatch_day d b caps k r :
  1 <= d <= 31 -> starts is_digit b = false -> k b (caps ++ [Itoa d]) = Some r ->
  rmatch (RGroup (RSeq (RClass (fun c => (c =c " ") || is_digit c)) (RRep re_digit 0 (Some 1%nat))))
    (Itoa d +:+ b) caps k = Some r.
Proof.
  intros Hd Hb Hk. apply rmatch_group. rewrite rmatch_seq.
  destruct (day_string d Hd) as (c & s & E & Hc & Hs & Hl). rewrite E in *.
  rewrite append_cons. cbn [rmatch]. rewrite Hc, orb_true_r.
  apply rep_match_greedy; [done|split; [lia|done]|by left|].
  by rewrite <- append_cons, consumed_append.
Qed.

Lemma rmatch_two z b caps k r :
  0 <= z < 100 -> k b caps = Some r -> rmatch re_two_digits (pad 2 z +:+ b) caps k = Some r.
Proof.
  intros Hz Hk. pose proof (length_pad 1 z ltac:(cbn; lia)) as Hl.
  apply rmatch_rep; [apply pad_digits; lia|rewrite Hl; by split|right; by rewrite Hl|done].
Qed.

Lemma rmatch_clock h mi s b caps k r :
  clock_ok h mi s -> k b (caps ++ [print_clock h mi s]) = Some r ->
  rmatch (RGroup (RSeqs re_two_digits [RChar ":"; re_two_digits; RChar ":"; re_two_digits]))
    (print_clock h mi s +:+ b) caps k = Some r.
Proof.
  intros (Hh & Hm & Hs) Hk. apply rmatch_group. pose proof (consumed_append (print_clock h mi s) b) as E.
  unfold print_clock in *. cbn [RSeqs]. revert E. generalize (consumed
    ((pad 2 h +:+ String ":" (pad 2 mi +:+ String ":" (pad 2 s))) +:+ b)). intros cons E.
  rewrite append_assoc, append_cons, append_assoc, append_cons.
  rewrite rmatch_seq. apply rmatch_two; [lia|]. rewrite rmatch_seq, rmatch_char, rmatch_seq.
  apply rmatch_two; [lia|]. rewrite rmatch_seq, rmatch_char. apply rmatch_two; [lia|].
  by rewrite E.
Qed.

(** One or more spaces before something that is not white space. *)
Lemma rmatch_space1 b caps k r :
  starts re_space b = false -> k b caps = Some r ->
  rmatch (RRep re_space 1 None) (String " " b) caps k = Some r.
Proof. intros Hb Hk. apply (rmatch_rep re_space 1 None " " b); [done|split; done|by left|done]. Qed.

Lemma digit_not_space_re c : is_digit c = true -> re_space c = false.
Proof.
  intros Hc. unfold re_space.
  repeat match goal with |- context [c =c ?x] => destruct (ch_eq_spec c x) as [->|]; [done|] end. done.
Qed.

Lemma rmatch_day_padded d b caps k r :
  1 <= d <= 31 -> starts is_digit b = false -> k b (caps ++ [Itoa d]) = Some r ->
  rmatch (RSeq (RRep re_space 1 None)
    (RGroup (RSeq (RClass (fun c => (c =c " ") || is_digit c)) (RRep re_digit 0 (Some 1%nat)))))
    (String " " (print_day d +:+ b)) caps k = Some r.
Proof.
  intros Hd Hb Hk. rewrite rmatch_seq.
  assert (Hst : starts re_space (Itoa d +:+ b) = false).
  { destruct (day_string d Hd) as (c & s & -> & Hc & _). simpl. by apply digit_not_space_re. }
  unfold print_day. destruct (d <? 10).
  - apply (rmatch_rep re_space 1 None "  " (Itoa d +:+ b)); [done|split; [simpl; lia|done]|by left|].
    by apply rmatch_day.
  - apply rmatch_space1; [done|]. by apply rmatch_day.
Qed.

Lemma submatch_body l :
  line3164_ok l ->
  FindStringSubmatch rfc3164Pattern (print3164 l)
  = Some [Itoa (b_pri l); month_name (b_month l); Itoa (b_day l); b_clock l; b_host l; print_tag l].
Proof.
  intros Hok. destruct (head_ok l Hok) as (Hg & _ & Hst).
  pose proof (tag_any l Hok) as Htag.
  destruct Hok as (Hpri & Hm & Hd & Hck & (Hhne & Hh) & _).
  unfold FindStringSubmatch, rfc3164Pattern, print3164, print_body. cbn [RSeqs].
  rewrite rmatch_seq, rmatch_char, rmatch_seq.
  destruct (pri_digits (b_pri l) Hpri) as (_ & _ & Hlen).
  apply rmatch_group_rep.
  { unfold Itoa. replace (b_pri l <? 0) with false by lia. apply digits_digits. lia. }
  { unfold len in Hlen. split; lia. } { by left. }
  rewrite rmatch_seq, rmatch_char, rmatch_seq. apply rmatch_month; [done|].
  rewrite rmatch_seq.
  match goal with |- rmatch _ _ ?caps (fun s' caps' => rmatch (RSeq ?g ?rest) s' caps' ?k) = Some ?x =>
    change (rmatch (RSeq (RRep re_space 1 None) g)
      (String " " (print_day (b_day l) +:+ String " " (b_clock l +:+ String " " (b_host l +:+ String " " (print_tag l)))))
      caps (fun s' caps' => rmatch rest s' caps' k) = Some x) end.
  apply rmatch_day_padded; [done|done|]. rewrite rmatch_seq.
  destruct Hck as (Hhh & Hmm & Hss). apply rmatch_space1.
  { unfold b_clock, print_clock. rewrite append_assoc.
    apply pad_starts; [lia|lia|apply digit_not_space_re]. }
  rewrite rmatch_seq. apply rmatch_clock; [done|]. rewrite rmatch_seq.
  assert (Hhost : starts re_space (b_host l +:+ String " " (print_tag l)) = false).
  { destruct (b_host l) as [|c s]; [done|]. simpl in *. apply andb_true_iff in Hh as [Hc _].
    unfold re_nonspace in Hc. by apply negb_true_iff in Hc. }
  apply rmatch_space1; [done|]. rewrite rmatch_seq.
  apply rmatch_group_rep; [done| |by left|].
  { destruct (b_host l); [done|]. split; simpl; [lia|done]. }
  rewrite rmatch_seq. apply (rmatch_rep re_space 0 None " " (print_tag l)); [done|by split; simpl; lia| |].
  { left. unfold print_tag. destruct (print_head l) as [|c s]; [done|]. simpl in *.
    apply graph_nonspace in Hst. unfold re_nonspace in Hst. by apply negb_true_iff in Hst. }
  pose proof (rmatch_group_rep re_any 0 None (print_tag l) "") as E. rewrite append_nil_r in E.
  apply E; [done|by split; [lia|]|by left|]. reflexivity.
Qed.

Definition event_of_3164 (l : Line3164) (stamp : Time) : Event :=
  {| e_Timestamp := UTC stamp; e_TimestampInferred := true; e_Message := b_msg l;
     e_Hostname := b_host l; e_Facility := Some (b_pri l / 8);
     e_Severity := Some (b_pri l mod 8); e_Priority := Some (b_pri l); e_AppName := b_app l;
     e_ProcessID := b_pid l; e_MessageID := ""; e_Format := "rfc3164"; e_Fields := no_fields |}.

Lemma graph_end_crlf s : ends is_graph s = true -> ends is_crlf s = false.
Proof.
  unfold ends. destruct (str_rev s) as [|c r]; [done|]. cbn [starts]. unfold is_crlf. intros Hc.
  repeat match goal with |- context [c =c ?x] => destruct (ch_eq_spec c x) as [->|]; [done|] end. done.
Qed.

Lemma print3164_trim l : line3164_ok l -> trim_right is_crlf (print3164 l) = print3164 l.
Proof.
  intros Hok. apply trim_right_id. unfold print3164, print_body.
  assert (good_end is_crlf (print_tag l)) as Ht.
  { split; [|by apply graph_end_crlf, tag_ends]. intros E. pose proof (tag_ends l Hok) as H.
    by rewrite E in H. }
  do 2 (apply good_end_cons, good_end_append). 
  do 3 (apply good_end_cons, good_end_append). by apply good_end_cons.
Qed.

Lemma Itoa_day_graph d : 1 <= d <= 31 -> TrimSpace (Itoa d) = Itoa d.
Proof.
  intros H. assert (Hg : all_bytes is_graph (Itoa d) = true).
  { unfold Itoa. replace (d <? 0) with false by lia.
    eapply all_bytes_impl; [|apply digits_digits; lia]. intros c. unfold is_digit, is_graph. b2p. lia. }
  assert (Hs : forall s, s <> "" -> all_bytes is_graph s = true -> starts is_graph s = true).
  { intros [|c s]; [done|]. simpl. by intros _ [-> _]%andb_true_iff. }
  assert (Itoa d <> "") by (destruct (day_string d H) as (c & s & -> & _); done).
  apply TrimSpace_graph; [by apply Hs|]. unfold ends. apply Hs; [|by rewrite all_bytes_rev].
  intros E. apply (f_equal str_rev) in E. by rewrite str_rev_involutive in E.
Qed.

(** Everything but the time stamp of a printed line is decided. *)
Lemma RFC3164_Parse_stamp l received loc :
  line3164_ok l ->
  RFC3164_Parse (print3164 l) received loc
  = match nearestRFC3164Time (month_name (b_month l)) (Itoa (b_day l)) (b_clock l) received loc with
    | None => Err E3164Timestamp
    | Some stamp => Ok (event_of_3164 l stamp)
    end.
Proof.
  intros Hok. unfold RFC3164_Parse. rewrite print3164_trim, submatch_body by done.
  pose proof Hok as (Hpri & _ & Hd & _).
  destruct (pri_slices (b_pri l) "" Hpri) as (_ & _ & _ & ->). bind_simpl.
  rewrite Itoa_day_graph by done. destruct (nearestRFC3164Time _ _ _ _ _); [|done].
  by rewrite parseTag_print.
Qed.

Lemma Detect_print3164 l : line3164_ok l -> Detect (print3164 l) = Ok "rfc3164"%string.
Proof.
  intros Hok. pose proof Hok as (Hpri & Hm & _). unfold Detect.
  destruct (pri_slices (b_pri l) (print_body l) Hpri) as (Hi & Hs1 & Hs2 & _).
  destruct (pri_digits (b_pri l) Hpri) as (Ha & _ & Hlen).
  fold (print3164 l) in Hi, Hs1, Hs2.
  assert (exists a b c s, print_body l = String a (String b (String c s)) /\ version_digit a = false)
    as (a & b & c & s & Eb & Hv).
  { unfold print_body. month_cases Hm; eexists _, _, _, _; (split; [reflexivity|done]). }
  assert (len (print3164 l) = len (Itoa (b_pri l)) + len (print_body l) + 2) as Hl.
  { unfold print3164. autorewrite with gostr. lia. }
  assert (3 <= len (print_body l)) as Hb.
  { rewrite Eb, !len_cons. pose proof (len_nonneg s). lia. }
  replace (len (print3164 l) <? 4) with false by lia.
  change (str_at (print3164 l) 0) with (Some "<"%char). bind_simpl.
  replace ((IndexByte (print3164 l) ">" <? 2)) with false by lia.
  replace (4 <? IndexByte (print3164 l) ">") with false by lia.
  change (negb ("<" =c "<")) with false. cbn [orb].
  rewrite Hs1, Hs2. bind_simpl. rewrite Ha. replace (2 <=? len (print_body l)) with true by lia.
  rewrite Eb. change (str_at (String a ?x) 0) with (Some a). bind_simpl. rewrite Hv. bind_simpl.
  assert (MatchString rfc3164Pattern (print3164 l) = true) as ->; [|done].
  apply bool_decide_eq_true. rewrite submatch_body by done. eauto.
Qed.

(** The registry hands a printed line to the RFC 3164 parser. *)
Lemma Registry_Parse_3164 l received loc configured :
  line3164_ok l -> configured = "auto"%string \/ configured = "rfc3164"%string ->
  Registry_Parse NewRegistry configured (print3164 l) received loc
  = RFC3164_Parse (print3164 l) received loc.
Proof.
  intros Hok [->| ->]; unfold Registry_Parse.
  - change (("auto" =s "") || ("auto" =s "auto")) with true. cbv iota.
    rewrite Detect_print3164 by done. bind_simpl. change ("rfc3164" =s "unknown") with false.
    by rewrite Registry_lookup_rfc3164.
  - change (("rfc3164" =s "") || ("rfc3164" =s "auto")) with false. cbv iota.
    by rewrite Registry_lookup_rfc3164.
Qed.

(** C9. Every well-formed RFC 3164 line (any PRI, padded or unpadded day, host,
    tag with or without a process id, message) is detected and parsed back to
    its fields, with the inferred time stamp. *)
Theorem RFC3164_roundtrip l received loc configured stamp :
  line3164_ok l -> configured = "auto"%string \/ configured = "rfc3164"%string ->
  nearestRFC3164Time (month_name (b_month l)) (Itoa (b_day l)) (b_clock l) received loc = Some stamp ->
  Registry_Parse NewRegistry configured (print3164 l) received loc = Ok (event_of_3164 l stamp).
Proof.
  intros Hok Hc Hn. rewrite Registry_Parse_3164, RFC3164_Parse_stamp by done. by rewrite Hn.
Qed.

Definition sample3164 : Line3164 := mkLine3164 34 9 4 14 30 0 "host" "app" "7" "hello udp".
Lemma sample3164_ok : line3164_ok sample3164.
Proof. unfold line3164_ok, clock_ok. split_and!; try (vm_compute; congruence); done. Qed.

Lemma RFC3164_roundtrip_witness :
  let stamp := Date 2026 9 4 (plain_clock 14 30 0) loc_utc in
  line3164_ok sample3164 /\
  Registry_Parse NewRegistry "auto" "<34>Sep  4 14:30:00 host app[7]: hello udp" stamp None
  = Ok (event_of_3164 sample3164 stamp).
Proof.
  intros stamp. split; [exact sample3164_ok|].
  apply (RFC3164_roundtrip sample3164 stamp None); [exact sample3164_ok|by left|].
  vm_compute. reflexivity.
Defined.

(** A line stamped February 29 is never accepted: of the three candidate
    years one is not a leap year, and its parse error aborts the search, so
    the event is dropped in every location and on every arrival day. *)
Theorem RFC3164_feb29_rejected l received loc configured :
  line3164_ok l -> b_month l = 2 -> b_day l = 29 ->
  1001 <= Year (In_loc received (default loc_utc loc)) <= 9998 ->
  configured = "auto"%string \/ configured = "rfc3164"%string ->
  Registry_Parse NewRegistry configured (print3164 l) received loc = Err E3164Timestamp.
Proof.
  intros Hok Hm Hd HY Hc. rewrite Registry_Parse_3164, RFC3164_Parse_stamp by done.
  rewrite Hm, Hd. change (month_name 2) with "Feb"%string. change (Itoa 29) with "29"%string.
  rewrite nearest_feb29; [done| |done].
  destruct Hok as (_ & _ & _ & (Hh & _) & _). unfold b_clock, print_clock.
  apply pad_starts; [lia|lia|apply digit_not_sp].
Qed.

Lemma RFC3164_feb29_rejected_witness :
  let received := Date 2028 2 29 (plain_clock 14 30 1) loc_utc in
  Registry_Parse NewRegistry "auto" "<34>Feb 29 14:30:00 host app[7]: hello" received None
  = Err E3164Timestamp.
Proof.
  apply (RFC3164_feb29_rejected (mkLine3164 34 2 29 14 30 0 "host" "app" "7" "hello") _ None);
    [|done|done|vm_compute; intuition congruence|by left].
  unfold line3164_ok, clock_ok. split_and!; try (vm_compute; congruence); done.
Defined.

(** ** Detection and parsing agree on the header *)

Lemma trim_right_append p a b : good_end p a -> trim_right p (a +:+ b) = a +:+ trim_right p b.
Proof.
  intros [Hne He]. destruct (trim_right_spec p b) as (c & Hb & Hc & Hend).
  rewrite Hb at 1. rewrite <- append_assoc. unfold trim_right at 1. rewrite str_rev_append.
  unfold trim_left. rewrite span_append.
  - cbn [snd]. apply str_rev_involutive.
  - by rewrite all_bytes_rev.
  - fold (ends p (a +:+ trim_right p b)). rewrite ends_append. by destruct (trim_right p b).
Qed.

(** A prefix of white space followed by text is again of that form. *)
Lemma split_prefix p q a b y c :
  all_bytes p a = true -> all_bytes q b = true -> a +:+ b = y +:+ c ->
  exists a' b', y = a' +:+ b' /\ all_bytes p a' = true /\ all_bytes q b' = true.
Proof.
  revert y. induction a as [|x a IH]; intros y Ha Hb E; cbn [String.append] in E.
  - exists "", y. split; [done|]. split; [done|].
    rewrite E, all_bytes_append in Hb. by apply andb_true_iff in Hb as [-> _].
  - destruct y as [|z y]; [by exists "", ""|]. cbn [String.append] in E. simplify_eq.
    simpl in Ha. apply andb_true_iff in Ha as [Hz Ha].
    destruct (IH y Ha Hb ltac:(done)) as (a' & b' & -> & Ha' & Hb').
    exists (String z a'), b'. simpl. by rewrite Hz.
Qed.

Lemma nonspace_end a : a <> "" -> all_bytes re_nonspace a = true -> good_end is_crlf a.
Proof.
  intros Hne Ha. split; [done|]. unfold ends. rewrite <- all_bytes_rev in Ha.
  destruct (str_rev a) as [|c r]; [done|]. simpl in *. apply andb_true_iff in Ha as [Hc _].
  revert Hc. unfold is_crlf.
  destruct (ch_eq_spec c (chr 13)) as [->|]; [done|].
  by destruct (ch_eq_spec c (chr 10)) as [->|].
Qed.

(** The pattern up to the host, and the rest of it. *)
Definition pattern_tail : regex := RSeq (RRep re_space 0 None) (RGroup (RRep re_any 0 None)).

Lemma tail_trim b : matches pattern_tail b -> matches pattern_tail (trim_right is_crlf b).
Proof.
  intros (sp & rest & -> & [Hsp _] & [Hrest _]).
  destruct (trim_right_spec is_crlf (sp +:+ rest)) as (c & E & _).
  destruct (split_prefix _ _ _ _ _ _ Hsp Hrest E) as (a' & b' & -> & Ha & Hb).
  exists a', b'. simpl. unfold count_ok. split_and!; try done; lia.
Qed.

Lemma matches_trim s :
  matches rfc3164Pattern s -> matches rfc3164Pattern (trim_right is_crlf s).
Proof.
  intros (p1 & s1 & -> & H1 & p2 & s2 & -> & H2 & p3 & s3 & -> & H3 & p4 & s4 & -> & H4
    & p5 & s5 & -> & H5 & p6 & s6 & -> & H6 & p7 & s7 & -> & H7 & p8 & s8 & -> & H8
    & p9 & s9 & -> & H9
    & p10 & s10 & -> & H10 & Htail).
  assert (good_end is_crlf p10) as Hg.
  { destruct H10 as [H10 [Hlen _]]. apply nonspace_end; [|done]. intros ->. simpl in Hlen. lia. }
  rewrite <- !append_assoc, trim_right_append, !append_assoc.
  2: { rewrite !append_assoc. by do 9 apply good_end_append. }
  do 10 (eexists _, _; split; [reflexivity|]; split; [eassumption|]).
  by apply tail_trim.
Qed.

Lemma Detect_names payload name :
  Detect payload = Ok name ->
  name = "unknown"%string \/ name = "rfc5424"%string
  \/ name = "rfc3164"%string /\ MatchString rfc3164Pattern payload = true.
Proof.
  unfold Detect. split_if; [intros [= <-]; auto|].
  destruct (str_at payload 0) as [c0|]; bind_simpl; [|done]. split_if; [intros [= <-]; auto|].
  destruct (slice payload 1 _) as [pri|]; bind_simpl; [|done].
  destruct (Atoi pri); [|intros [= <-]; auto].
  destruct (slice payload _ _) as [rest|]; bind_simpl; [|done].
  destruct (if 2 <=? len rest then _ else _) as [[|]|e|]; bind_simpl; try done.
  - intros [= <-]; auto.
  - destruct (MatchString rfc3164Pattern payload) eqn:Hm; intros [= <-]; auto.
Qed.

Lemma Detect_no_error payload e : Detect payload <> Err e.
Proof.
  unfold Detect. split_if; [done|].
  destruct (str_at payload 0) as [c0|]; bind_simpl; [|done]. split_if; [done|].
  destruct (slice payload 1 _) as [pri|]; bind_simpl; [|done]. destruct (Atoi pri); [|done].
  destruct (slice payload _ _) as [rest|]; bind_simpl; [|done].
  destruct (if 2 <=? len rest then _ else _) as [[|]|e'|] eqn:Hd; bind_simpl; try done.
  - by split_if.
  - exfalso. revert Hd. split_if; [|done]. destruct (str_at rest 0); bind_simpl; [|done].
    split_if; [|done]. by destruct (str_at rest 1).
Qed.

(** The errors of [m] are among those [P] allows. *)
Definition errors_in {A} (P : error -> Prop) (m : outcome error A) : Prop :=
  match m with Err e => P e | _ => True end.

Lemma errors_bind {A B} P (m : outcome error A) (f : A -> outcome error B) :
  errors_in P m -> (forall a, errors_in P (f a)) -> errors_in P (m ≫= f).
Proof. destruct m; simpl; auto. Qed.

Lemma errors_checked {A} P (o : option A) : errors_in P (checked o).
Proof. by destruct o. Qed.

Definition expected (e : error) : Prop := e <> E3164Header /\ ErrInvalid e = true.

Lemma priority_errors v : errors_in expected (priority v).
Proof. unfold priority. destruct (Atoi v); [|done]. by split_if. Qed.

Lemma cut_tokens_errors n s : errors_in expected (cut_tokens n s).
Proof.
  revert s. induction n as [|n IH]; intros s; [done|]. cbn [cut_tokens].
  apply errors_bind.
  - unfold cutToken. split_if; [done|]. do 2 (apply errors_bind; [apply errors_checked|intros ?]). done.
  - intros [[tok rem]|]; [|done]. apply errors_bind; [apply IH|]. by intros [].
Qed.

Lemma sd_param_errors id s f : errors_in expected (sd_param id s f).
Proof.
  unfold sd_param. destruct (span not_name_end _) as [name t]. split_if; [done|].
  destruct t as [|eq t]; [done|]. destruct (negb (eq =c "=")); [done|].
  destruct t as [|q t]; [done|]. destruct (negb (q =c dquote)); [done|].
  by destruct (sd_value t) as [[]|].
Qed.

Lemma sd_params_errors fuel id s f : errors_in expected (sd_params fuel id s f).
Proof.
  revert s f. induction fuel as [|fuel IH]; intros s f; [done|]. cbn [sd_params].
  destruct s as [|c s]; [done|]. split_if; [done|].
  apply errors_bind; [apply sd_param_errors|]. intros []. apply IH.
Qed.

Lemma sd_elements_errors fuel s f : errors_in expected (sd_elements fuel s f).
Proof.
  revert s f. induction fuel as [|fuel IH]; intros s f; [done|]. cbn [sd_elements].
  destruct s as [|c s]; [done|]. split_if; [done|]. destruct (span not_id_end s) as [id s2].
  split_if; [done|]. apply errors_bind; [apply sd_params_errors|].
  intros [[|d s4] f']; [done|]. split_if; [apply IH|done].
Qed.

Lemma RFC5424_errors payload received : errors_in expected (RFC5424_Parse payload received).
Proof.
  unfold RFC5424_Parse. split_if; [done|]. split_if; [done|].
  apply errors_bind; [apply errors_checked|]. intros pri.
  apply errors_bind; [apply priority_errors|]. intros [[p f] s].
  apply errors_bind; [apply errors_checked|]. intros rest.
  apply errors_bind; [apply cut_tokens_errors|]. intros [parts r].
  destruct parts as [|? [|? [|? [|? [|? [|? [|]]]]]]]; try done. split_if; [done|].
  apply errors_bind. { split_if; [done|]. by destruct (ParseRFC3339Nano _). }
  intros [st inf]. apply errors_bind; [|by intros []].
  unfold parseStructuredData. split_if; [done|]. split_if.
  { apply errors_bind; [apply errors_checked|]. done. }
  split_if; [done|]. apply sd_elements_errors.
Qed.

Lemma RFC3164_errors payload received loc :
  MatchString rfc3164Pattern (trim_right is_crlf payload) = true ->
  errors_in expected (RFC3164_Parse payload received loc).
Proof.
  intros Hm%bool_decide_eq_true. unfold RFC3164_Parse. destruct Hm as [caps E]. rewrite E.
  destruct caps as [|m1 [|m2 [|m3 [|m4 [|m5 [|m6 [|]]]]]]]; try done.
  apply errors_bind; [apply priority_errors|]. intros [[p f] s].
  destruct (nearestRFC3164Time _ _ _ _ _); [|done]. apply errors_bind; [|by intros [[]]].
  unfold parseTag. destruct (cut_byte _ _) as [[]|]; [|done]. split_if; [|done].
  do 2 (apply errors_bind; [apply errors_checked|intros ?]). done.
Qed.

Lemma auto_errors payload received loc :
  errors_in expected (Registry_Parse NewRegistry "auto" payload received loc).
Proof.
  unfold Registry_Parse. change (("auto" =s "") || ("auto" =s "auto")) with true. cbv iota.
  destruct (Detect payload) as [name|e'|] eqn:Hd; bind_simpl; [|by apply Detect_no_error in Hd|done].
  destruct (Detect_names payload name Hd) as [->|[->|[-> Hm]]].
  - done.
  - change ("rfc5424" =s "unknown") with false. cbv iota. rewrite Registry_lookup_rfc5424.
    apply RFC5424_errors.
  - change ("rfc3164" =s "unknown") with false. cbv iota. rewrite Registry_lookup_rfc3164.
    apply RFC3164_errors. by apply MatchString_iff, matches_trim, MatchString_iff.
Qed.

(** A registered parser reports invalid input only. *)
Lemma registered_errors name payload received loc :
  In name ["auto"; "rfc3164"; "rfc5424"]%string ->
  errors_in (fun e => ErrInvalid e = true) (Registry_Parse NewRegistry name payload received loc).
Proof.
  assert (Hweak : forall m : outcome error Event, errors_in expected m ->
    errors_in (fun e => ErrInvalid e = true) m) by (by intros [|e|]; [|intros [_ H]|]).
  intros [<-|[<-|[<-|[]]]].
  - apply Hweak, auto_errors.
  - unfold Registry_Parse. simpl. rewrite Registry_lookup_rfc3164. simpl.
    destruct (MatchString rfc3164Pattern (trim_right is_crlf payload)) eqn:Hm.
    + by apply Hweak, RFC3164_errors.
    + unfold RFC3164_Parse. apply bool_decide_eq_false in Hm.
      destruct (FindStringSubmatch _ _); [|done]. by destruct Hm.
  - apply Hweak. unfold Registry_Parse. simpl. rewrite Registry_lookup_rfc5424. apply RFC5424_errors.
Qed.

(** In automatic mode the only errors are a PRI out of range, a bad stamp,
    or a malformed RFC 5424 message: a payload detected as RFC 3164 always has
    an RFC 3164 header, and the detected name is always registered. *)
Theorem auto_mode_errors payload received loc e :
  Registry_Parse NewRegistry "auto" payload received loc = Err e ->
  e <> E3164Header /\ ErrInvalid e = true.
Proof.
  intros He. pose proof (auto_errors payload received loc) as H. rewrite He in H. apply H.
Qed.

Lemma auto_mode_errors_witness :
  E3164Timestamp <> E3164Header /\ ErrInvalid E3164Timestamp = true.
Proof.
  apply (auto_mode_errors "<34>Sep 31 14:30:00 host app: x" (mkTime 1789390800000000000 0) None).
  vm_compute. reflexivity.
Defined.
