(* ===== verification/Normalization.v ===== *)
(** * Normalization of parsed events

    [backend/internal/normalization/normalizer.go]: the time-ordered event
    identifier ([uuidV7]) and the canonical entry ([Normalize]). The random
    source is an argument, [rand]: the sixteen bytes [rand.Read] delivers, or
    [None] when it fails. *)
From S2P Require Import Prelude GoStrings GoUtf8 GoTime GoDuration GoRegexp Domain Parser ParserProps.

Definition facilityNames : list string :=
  ["kernel"; "user"; "mail"; "daemon"; "auth"; "syslog"; "lpr"; "news"; "uucp"; "clock";
   "authpriv"; "ftp"; "ntp"; "audit"; "alert"; "clock2"; "local0"; "local1"; "local2";
   "local3"; "local4"; "local5"; "local6"; "local7"]%string.
Definition severityNames : list string :=
  ["emergency"; "alert"; "critical"; "error"; "warning"; "notice"; "informational";
   "debug"]%string.

(** ** encoding/hex *)
Definition hex_digit (n : Z) : byte := if n <? 10 then chr (48 + n) else chr (87 + n).
Definition hex_byte (b : Z) : string :=
  String (hex_digit (b / 16)) (String (hex_digit (b mod 16)) "").
Definition hex (l : list Z) : string := foldr (fun b s => hex_byte b +:+ s) "" l.

(** ** Event identifiers *)
(** [byte(ms >> k)] *)
Definition byte_at (ms k : Z) : Z := Z.shiftr ms k mod 256.
Definition sub (lo hi : nat) (b : list Z) : list Z := take (hi - lo) (drop lo b).
Definition get (b : list Z) (i : nat) : Z := default 0 (b !! i).

(** The sixteen bytes of the identifier, before they are printed. *)
Definition uuid_bytes (b : list Z) (now : Time) : list Z :=
  let ms := uint64 (UnixMilli now) in
  let b := <[0%nat := byte_at ms 40]> b in
  let b := <[1%nat := byte_at ms 32]> b in
  let b := <[2%nat := byte_at ms 24]> b in
  let b := <[3%nat := byte_at ms 16]> b in
  let b := <[4%nat := byte_at ms 8]> b in
  let b := <[5%nat := byte_at ms 0]> b in
  let b := <[6%nat := Z.lor (Z.land (get b 6) 15) 112]> b in
  <[8%nat := Z.lor (Z.land (get b 8) 63) 128]> b.

Definition print_uuid (b : list Z) : string :=
  hex (sub 0 4 b) +:+ "-" +:+ hex (sub 4 6 b) +:+ "-" +:+ hex (sub 6 8 b) +:+ "-"
  +:+ hex (sub 8 10 b) +:+ "-" +:+ hex (sub 10 16 b).

Definition uuidV7 (rand : option (list Z)) (now : Time) : option string :=
  b ← rand; Some (print_uuid (uuid_bytes b now)).

(** ** The canonical entry *)
Inductive norm_error := EEventID.

(** The guarded table lookup of a code: no name for [nil] or a code past the
    table. *)
Definition name_of (names : list string) (v : option Z) : outcome norm_error string :=
  match v with
  | Some n => if n <? Z.of_nat (length names) then checked (names !! Z.to_nat n) else Ok ""%string
  | None => Ok ""%string
  end.

(** A nil [Fields] map is read and written like the empty one, which replaces
    it. *)
Definition Normalize (rand : option (list Z)) (frame : Frame) (event : Event)
    : outcome norm_error LogEntry :=
  match uuidV7 rand (f_ReceivedAt frame) with
  | None => Err EEventID
  | Some id =>
      facility ← name_of facilityNames (e_Facility event);
      severity ← name_of severityNames (e_Severity event);
      Ok {| le_ID := id;
            le_TenantID := if f_TenantID frame =s "" then "default" else f_TenantID frame;
            le_Timestamp := UTC (e_Timestamp event);
            le_ReceivedAt := UTC (f_ReceivedAt frame);
            le_Message := ToValidUTF8 (e_Message event) replacement;
            le_RawMessage := ToValidUTF8 (f_Payload frame) replacement;
            le_Hostname := e_Hostname event;
            le_SourceIP := f_SourceIP frame;
            le_SourcePort := f_SourcePort frame;
            le_Facility := e_Facility event;
            le_FacilityName := facility;
            le_Severity := e_Severity event;
            le_SeverityName := severity;
            le_Priority := e_Priority event;
            le_Protocol := f_Protocol frame;
            le_Format := e_Format event;
            le_AppName := e_AppName event;
            le_ProcessID := e_ProcessID event;
            le_MessageID := e_MessageID event;
            le_SourceID := f_SourceID frame;
            le_Source := f_SourceName frame;
            le_SourceType := "syslog";
            le_Fields := e_Fields event;
            le_Labels := ∅;
            le_ParseStatus := if e_Format event =s "unknown" then ParseStatusUnknown
                              else ParseStatusParsed;
            le_SchemaVersion := SchemaVersion;
            le_TimestampInferred := e_TimestampInferred event |}
  end.

(** ** Identifiers are ordered by millisecond *)

(** Go's [<] on strings: bytewise lexicographic order. *)
Fixpoint str_lt (a b : string) : bool :=
  match a, b with
  | _, EmptyString => false
  | EmptyString, String _ _ => true
  | String x a, String y b => (code x <? code y) || (x =c y) && str_lt a b
  end.
Fixpoint lex_lt (a b : list Z) : bool :=
  match a, b with
  | _, [] => false
  | [], _ :: _ => true
  | x :: a, y :: b => (x <? y) || (x =? y) && lex_lt a b
  end.

(** The [n] low bytes of [m], most significant first. *)
Fixpoint be (n : nat) (m : Z) : list Z :=
  match n with O => [] | S n => m / 256 ^ Z.of_nat n mod 256 :: be n m end.

Lemma be_lt n m m' :
  m mod 256 ^ Z.of_nat n < m' mod 256 ^ Z.of_nat n -> lex_lt (be n m) (be n m') = true.
Proof.
  induction n as [|n IH]; [rewrite !Z.mod_1_r; lia|]. cbn [be lex_lt].
  rewrite Nat2Z.inj_succ, Z.pow_succ_r by lia.
  assert (Hp : 0 < 256 ^ Z.of_nat n) by (apply Z.pow_pos_nonneg; lia).
  rewrite (Z.mul_comm 256), !Z.rem_mul_r by lia. revert IH.
  pose proof (Z.mod_pos_bound m _ Hp). pose proof (Z.mod_pos_bound m' _ Hp).
  set (q := m / _ mod 256). set (q' := m' / _ mod 256). intros IH Hlt.
  destruct (Z.ltb_spec q q'), (Z.eqb_spec q q'); [done..| |nia].
  simpl. apply IH. nia.
Qed.

Lemma str_lt_prefix p a b : str_lt (p +:+ a) (p +:+ b) = str_lt a b.
Proof.
  induction p as [|c p IH]; [done|]. cbn [String.append str_lt].
  by rewrite Z.ltb_irrefl, ch_eq_refl, IH.
Qed.

Lemma hex_digit_lt x y : 0 <= x < y -> y < 16 -> code (hex_digit x) < code (hex_digit y).
Proof.
  intros Hx Hy. unfold hex_digit.
  destruct (Z.ltb_spec x 10), (Z.ltb_spec y 10); rewrite !code_chr by lia; lia.
Qed.

Lemma str_lt_hex x y a b : 0 <= x < y -> y < 256 -> str_lt (hex_byte x +:+ a) (hex_byte y +:+ b) = true.
Proof.
  intros Hx Hy. unfold hex_byte. cbn [String.append str_lt].
  pose proof (Z.div_mod x 16 ltac:(lia)). pose proof (Z.div_mod y 16 ltac:(lia)).
  pose proof (Z.mod_pos_bound x 16 ltac:(lia)). pose proof (Z.mod_pos_bound y 16 ltac:(lia)).
  destruct (Z.eq_dec (x / 16) (y / 16)) as [E|Hne].
  - rewrite E, Z.ltb_irrefl, ch_eq_refl. simpl. apply orb_true_iff. left.
    apply Z.ltb_lt, hex_digit_lt; lia.
  - apply orb_true_iff. left. apply Z.ltb_lt, hex_digit_lt; lia.
Qed.

Lemma byte_at_be m i :
  0 <= i < 6 -> byte_at (uint64 m) (8 * i) = m / 256 ^ i mod 256.
Proof.
  intros Hi. change 256 with (2 ^ 8) at 1. rewrite <- Z.pow_mul_r, <- Z.shiftr_div_pow2 by lia.
  unfold byte_at, uint64. change 256 with (2 ^ 8). apply Z.bits_inj'. intros n Hn.
  destruct (Z.lt_ge_cases n 8).
  - by rewrite !Z.mod_pow2_bits_low, !Z.shiftr_spec, Z.mod_pow2_bits_low by lia.
  - by rewrite !Z.mod_pow2_bits_high by lia.
Qed.

Lemma uuid_bytes_spec b now :
  length b = 16%nat ->
  uuid_bytes b now
  = be 6 (UnixMilli now) ++ [Z.lor (Z.land (get b 6) 15) 112; get b 7;
      Z.lor (Z.land (get b 8) 63) 128] ++ drop 9 b.
Proof.
  intros Hl. do 16 (destruct b as [|? b]; [done|]). destruct b; [|done].
  unfold uuid_bytes. cbn [list_insert insert be app get default lookup list_lookup drop].
  pose proof (fun i Hi => byte_at_be (UnixMilli now) i Hi) as Hb.
  rewrite (Hb 5 ltac:(lia) : byte_at _ 40 = _), (Hb 4 ltac:(lia) : byte_at _ 32 = _), (Hb 3 ltac:(lia) : byte_at _ 24 = _),
    (Hb 2 ltac:(lia) : byte_at _ 16 = _), (Hb 1 ltac:(lia) : byte_at _ 8 = _), (Hb 0 ltac:(lia) : byte_at _ 0 = _).
  reflexivity.
Qed.

(** ** The identifier *)

Definition is_hex (c : byte) : bool := is_digit c || ((97 <=? code c) && (code c <=? 102)).
Definition hexs (n : nat) : regex := RRep is_hex n (Some n).
Definition is_byte (b : Z) : Prop := 0 <= b < 256.

Lemma is_hex_digit n : 0 <= n < 16 -> is_hex (hex_digit n) = true.
Proof.
  intros Hn. unfold is_hex, hex_digit, is_digit.
  destruct (Z.ltb_spec n 10); rewrite code_chr by lia; b2p; lia.
Qed.

Lemma hex_byte_hex b : is_byte b -> all_bytes is_hex (hex_byte b) = true.
Proof.
  intros Hb. unfold hex_byte, is_byte in *. cbn [all_bytes].
  rewrite !is_hex_digit; [done|pose proof (Z.mod_pos_bound b 16 ltac:(lia)); lia|].
  split; [apply Z.div_pos; lia|apply Z.div_lt_upper_bound; lia].
Qed.

Lemma hex_hexs l n :
  Forall is_byte l -> (n = 2 * length l)%nat -> matches (hexs n) (hex l).
Proof.
  intros Hl ->. assert (all_bytes is_hex (hex l) = true /\ String.length (hex l) = (2 * length l)%nat)
    as [Ha Hn].
  { induction Hl as [|b l Hb _ [IH1 IH2]]; [done|].
    change (hex (b :: l)) with (hex_byte b +:+ hex l). rewrite all_bytes_append, hex_byte_hex by done.
    split; [done|]. rewrite length_append, IH2. cbn. lia. }
  unfold hexs. cbn [matches]. unfold count_ok. rewrite Hn. by split_and!.
Qed.

Lemma be_bytes n m : Forall is_byte (be n m).
Proof. induction n; constructor; [apply Z.mod_pos_bound; lia|done]. Qed.

Lemma matches_seqs r r' rs a b :
  matches r a -> matches (RSeqs r' rs) b -> matches (RSeqs r (r' :: rs)) (a +:+ b).
Proof. intros. by exists a, b. Qed.

Lemma matches_char c : matches (RChar c) (String c "").
Proof. exists c. split; [done|apply ch_eq_refl]. Qed.

(** A decidable fact about bytes, checked on all of them. *)
Lemma forall_bytes (f : Z -> bool) :
  forallb f (map Z.of_nat (seq 0 256)) = true -> forall b, is_byte b -> f b = true.
Proof.
  intros H b [H0 H1]. rewrite forallb_forall in H. apply H, in_map_iff.
  exists (Z.to_nat b). split; [lia|]. apply in_seq. lia.
Qed.

(** The version byte prints as [7x], the variant byte as [8x] to [bx]. *)
Definition version_byte (v : Z) : Z := Z.lor (Z.land v 15) 112.
Definition variant_byte (v : Z) : Z := Z.lor (Z.land v 63) 128.
Definition is_variant (c : byte) : bool := (c =c "8") || (c =c "9") || (c =c "a") || (c =c "b").

(** [[0-9a-f]{8}-[0-9a-f]{4}-7[0-9a-f]{3}-[89ab][0-9a-f]{3}-[0-9a-f]{12}] *)
Definition uuid_pattern : regex :=
  RSeqs (hexs 8) [RChar "-"; hexs 4; RChar "-"; RChar "7"; hexs 3; RChar "-";
    RClass is_variant; hexs 3; RChar "-"; hexs 12].

Lemma version_byte_hex v :
  is_byte v -> exists d, is_hex d = true /\ hex_byte (version_byte v) = String "7" (String d "").
Proof.
  intros Hv. exists (hex_digit (version_byte v mod 16)). split.
  { apply is_hex_digit, Z.mod_pos_bound. lia. }
  assert (version_byte v / 16 = 7) as H7; [|unfold hex_byte; by rewrite H7].
  apply Z.eqb_eq. revert v Hv. by apply forall_bytes; vm_compute.
Qed.

Lemma variant_byte_hex v :
  is_byte v ->
  exists c d, is_variant c = true /\ is_hex d = true
    /\ hex_byte (variant_byte v) = String c (String d "").
Proof.
  intros Hv. exists (hex_digit (variant_byte v / 16)), (hex_digit (variant_byte v mod 16)).
  split; [|split; [apply is_hex_digit, Z.mod_pos_bound; lia|done]].
  revert v Hv. by apply (forall_bytes (fun v => is_variant (hex_digit (variant_byte v / 16)))); vm_compute.
Qed.

Lemma hex_cons b l : hex (b :: l) = hex_byte b +:+ hex l.
Proof. reflexivity. Qed.

Lemma hexs_append m n a b :
  matches (hexs m) a -> matches (hexs n) b -> matches (hexs (m + n)) (a +:+ b).
Proof.
  intros [Ha [H1 H2]] [Hb [H3 H4]]. split.
  - rewrite all_bytes_append, Ha. done.
  - unfold count_ok. rewrite length_append. lia.
Qed.

Lemma hexs_one c : is_hex c = true -> matches (hexs 1) (String c "").
Proof. intros H. split; [simpl; by rewrite H|split; simpl; lia]. Qed.

Ltac byte_list := repeat first [apply Forall_nil_2 | apply Forall_cons_2; [assumption|]].

Lemma print_uuid_pattern bs v6 v7 v8 r :
  length bs = 6%nat -> length r = 7%nat -> Forall is_byte bs -> Forall is_byte r ->
  is_byte v6 -> is_byte v7 -> is_byte v8 ->
  matches uuid_pattern (print_uuid (bs ++ [version_byte v6; v7; variant_byte v8] ++ r)).
Proof.
  intros Hbs Hr Fb Fr H6 H7 H8.
  do 6 (destruct bs as [|? bs]; [done|]). destruct bs; [|done].
  do 7 (destruct r as [|? r]; [done|]). destruct r; [|done].
  unfold print_uuid. cbn [app sub drop take Nat.sub].
  destruct (version_byte_hex v6 H6) as (d & Hd & E6).
  destruct (variant_byte_hex v8 H8) as (c & e & Hc & He & E8).
  rewrite (hex_cons (version_byte v6)), (hex_cons (variant_byte v8)), E6, E8.
  repeat match goal with H : Forall _ (_ :: _) |- _ => apply Forall_cons_1 in H as [? H] end.
  unfold uuid_pattern.
  change ((String "7" (String d "") +:+ ?h) +:+ ?t)
    with (String "7" "" +:+ ((String d "" +:+ h) +:+ t)).
  change ((String c (String e "") +:+ ?h) +:+ ?t)
    with (String c "" +:+ ((String e "" +:+ h) +:+ t)).
  repeat apply matches_seqs; try apply matches_char.
  - apply (hex_hexs _ 8); [|done]. byte_list.
  - apply (hex_hexs _ 4); [|done]. byte_list.
  - apply (hexs_append 1 2); [by apply hexs_one|]. apply (hex_hexs _ 2); [|done]. byte_list.
  - by exists c.
  - apply (hexs_append 1 2); [by apply hexs_one|].
    apply (hex_hexs _ 2); [|done]. byte_list.
  - apply (hex_hexs _ 12); [|done]. byte_list.
Qed.

(** An event identifier is a well-formed version 7, variant 10 UUID, for
    every sixteen random bytes and every time of arrival. *)
Theorem uuidV7_wellformed b now :
  length b = 16%nat -> Forall is_byte b ->
  exists id, uuidV7 (Some b) now = Some id /\ matches uuid_pattern id.
Proof.
  intros Hl Hb. eexists. split; [reflexivity|]. rewrite uuid_bytes_spec by done.
  assert (Hg : forall i, is_byte (get b i)).
  { intros i. unfold get. destruct (b !! i) eqn:E; [by eapply Forall_lookup_1|done]. }
  apply print_uuid_pattern; try done.
  - rewrite length_drop, Hl. done.
  - apply be_bytes.
  - by apply Forall_drop.
Qed.

Definition ids : list Z := map Z.of_nat (seq 10 16).
Lemma uuidV7_wellformed_witness :
  exists id, uuidV7 (Some ids) (mkTime 1767225600123456789 0) = Some id /\ matches uuid_pattern id.
Proof. apply uuidV7_wellformed; [done|]. unfold ids. cbn. repeat constructor; lia. Defined.

Lemma hex_lt_step x y rest a b :
  is_byte x -> is_byte y -> (rest = true -> str_lt a b = true) ->
  (x <? y) || (x =? y) && rest = true -> str_lt (hex_byte x +:+ a) (hex_byte y +:+ b) = true.
Proof.
  intros Hx Hy Hr [Hlt%Z.ltb_lt|[->%Z.eqb_eq H]%andb_true_iff]%orb_true_iff.
  - unfold is_byte in *. apply str_lt_hex; lia.
  - rewrite str_lt_prefix. auto.
Qed.

(** The print of equal-length identifiers keeps the order of their first six
    bytes. *)
Lemma print_uuid_lt a a' r r' :
  length a = 6%nat -> length a' = 6%nat -> Forall is_byte a -> Forall is_byte a' ->
  lex_lt a a' = true -> str_lt (print_uuid (a ++ r)) (print_uuid (a' ++ r')) = true.
Proof.
  intros Ha Ha' Fa Fa'. do 6 (destruct a as [|? a]; [done|]). destruct a; [|done].
  do 6 (destruct a' as [|? a']; [done|]). destruct a'; [|done].
  repeat match goal with H : Forall _ (_ :: _) |- _ => apply Forall_cons_1 in H as [? H] end.
  unfold print_uuid. cbn [app sub drop take Nat.sub lex_lt]. rewrite !hex_cons, !append_assoc.
  change (hex [] +:+ ?t) with t.
  do 4 (apply hex_lt_step; [done|done|]). rewrite str_lt_prefix.
  do 2 (apply hex_lt_step; [done|done|]). done.
Qed.

Definition arrival_ms_ok (t : Time) : Prop := 0 <= UnixMilli t < 2 ^ 48.

(** Identifiers sort by the millisecond of arrival, whatever the random
    bytes: an event that arrived in an earlier millisecond has the smaller
    identifier. *)
Theorem uuidV7_ordered b1 b2 t1 t2 id1 id2 :
  length b1 = 16%nat -> length b2 = 16%nat -> arrival_ms_ok t1 -> arrival_ms_ok t2 ->
  uuidV7 (Some b1) t1 = Some id1 -> uuidV7 (Some b2) t2 = Some id2 ->
  UnixMilli t1 < UnixMilli t2 -> str_lt id1 id2 = true.
Proof.
  intros Hl1 Hl2 [H1 H1'] [H2 H2'] [= <-] [= <-] Hlt. rewrite !uuid_bytes_spec by done.
  apply print_uuid_lt; try done; try apply be_bytes.
  apply be_lt. change (256 ^ Z.of_nat 6) with (2 ^ 48). by rewrite !Z.mod_small by lia.
Qed.

Lemma uuidV7_ordered_witness :
  str_lt "019b76da-a87b-7011-9213-141516171819" "019b76da-a87c-7011-9213-141516171819" = true.
Proof.
  apply (uuidV7_ordered ids ids (mkTime 1767225600123999999 0) (mkTime 1767225600124000000 0));
    try reflexivity; unfold arrival_ms_ok; vm_compute; split; congruence.
Defined.

(** ** What the parsers promise, and what the entry keeps *)

(** The three numbers of an event come from one PRI value. *)
Definition pri_ok (priority facility severity : option Z) : Prop :=
  exists p, priority = Some p /\ facility = Some (p / 8) /\ severity = Some (p mod 8)
    /\ 0 <= p <= 191.
Definition event_ok (ev : Event) : Prop :=
  t_off (e_Timestamp ev) = 0 /\
  (e_Format ev = "unknown"%string
    /\ e_Priority ev = None /\ e_Facility ev = None /\ e_Severity ev = None
  \/ (e_Format ev = "rfc3164"%string \/ e_Format ev = "rfc5424"%string)
    /\ pri_ok (e_Priority ev) (e_Facility ev) (e_Severity ev)).

Lemma priority_ensures v :
  ensures (fun '(p, f, s) => pri_ok (Some p) (Some f) (Some s)) (priority v).
Proof.
  unfold priority. destruct (Atoi v) as [n|]; [|done].
  destruct (Z.ltb_spec n 0), (Z.ltb_spec 191 n); try done. simpl. exists n.
  rewrite Z.quot_div_nonneg, Z.rem_mod_nonneg by lia.
  pose proof (Z.div_mod n 8 ltac:(lia)). pose proof (Z.mod_pos_bound n 8 ltac:(lia)).
  rewrite !uint8_small by lia. by split_and!.
Qed.

Lemma RFC3164_ensures payload received loc : ensures event_ok (RFC3164_Parse payload received loc).
Proof.
  unfold RFC3164_Parse. destruct (FindStringSubmatch _ _) as [caps|]; [|done].
  destruct caps as [|m1 [|m2 [|m3 [|m4 [|m5 [|m6 [|]]]]]]]; try done.
  apply (ensures_bind _ _ _ _ (priority_ensures m1)). intros [[p f] s] Hp.
  destruct (nearestRFC3164Time _ _ _ _ _); [|done].
  apply (ensures_bind _ _ _ _ (ensures_any _)). intros [[app pid] msg] _.
  split; [done|]. by right; split; [left|].
Qed.

Lemma RFC5424_ensures payload received : ensures event_ok (RFC5424_Parse payload received).
Proof.
  unfold RFC5424_Parse. split_if; [done|]. split_if; [done|].
  apply (ensures_bind _ _ _ _ (ensures_any _)). intros pri _.
  apply (ensures_bind _ _ _ _ (priority_ensures pri)). intros [[p f] s] Hp.
  do 2 (apply (ensures_bind _ _ _ _ (ensures_any _)); intros ? _). case_match.
  destruct l as [|? [|? [|? [|? [|? [|? [|]]]]]]]; try done. split_if; [done|].
  do 2 (apply (ensures_bind _ _ _ _ (ensures_any _)); intros ? _; case_match).
  split; [done|]. by right; split; [right|].
Qed.

Lemma Registry_ensures configured payload received loc :
  ensures event_ok (Registry_Parse NewRegistry configured payload received loc).
Proof.
  assert (Hd : forall name, ensures event_ok (match NewRegistry !! name with
      | None => Err (ENotRegistered name) | Some p => Parse p payload received loc end)).
  { intros name. destruct (NewRegistry !! name) as [p|] eqn:E; [|done].
    apply NewRegistry_lookup in E as [->| ->]; [apply RFC3164_ensures|apply RFC5424_ensures]. }
  unfold Registry_Parse. split_if; [|apply Hd].
  apply (ensures_bind _ _ _ _ (ensures_any _)). intros name _. split_if; [|apply Hd].
  split; [done|]. by left.
Qed.

(** The invariant of canonical entries. *)
Record entry_ok (frame : Frame) (event : Event) (e : LogEntry) : Prop := {
  ok_message : valid_utf8 (le_Message e) /\ (valid_utf8 (e_Message event) -> le_Message e = e_Message event);
  ok_raw : valid_utf8 (le_RawMessage e) /\ (valid_utf8 (f_Payload frame) -> le_RawMessage e = f_Payload frame);
  ok_tenant : le_TenantID e <> ""%string;
  ok_utc : t_off (le_Timestamp e) = 0 /\ t_off (le_ReceivedAt e) = 0;
  ok_times : t_ns (le_ReceivedAt e) = t_ns (f_ReceivedAt frame)
    /\ t_ns (le_Timestamp e) = t_ns (e_Timestamp event) /\ le_TimestampInferred e = e_TimestampInferred event;
  ok_origin : le_SourceIP e = f_SourceIP frame /\ le_SourcePort e = f_SourcePort frame
    /\ le_SourceID e = f_SourceID frame /\ le_Source e = f_SourceName frame
    /\ le_Protocol e = f_Protocol frame /\ le_SourceType e = "syslog"%string;
  ok_version : le_SchemaVersion e = 1;
  ok_status : le_ParseStatus e = ParseStatusUnknown <-> le_Format e = "unknown"%string;
  ok_unparsed : le_ParseStatus e = ParseStatusUnknown ->
    le_Facility e = None /\ le_FacilityName e = ""%string
    /\ le_Severity e = None /\ le_SeverityName e = ""%string /\ le_Priority e = None;
  ok_parsed : le_ParseStatus e = ParseStatusParsed ->
    exists f s, le_Facility e = Some f /\ facilityNames !! Z.to_nat f = Some (le_FacilityName e)
      /\ le_Severity e = Some s /\ severityNames !! Z.to_nat s = Some (le_SeverityName e)
      /\ le_Priority e = Some (8 * f + s);
  ok_content : le_Fields e = e_Fields event /\ le_Hostname e = e_Hostname event
    /\ le_AppName e = e_AppName event /\ le_ProcessID e = e_ProcessID event
    /\ le_MessageID e = e_MessageID event
}.

Lemma name_of_in names n :
  0 <= n < Z.of_nat (length names) ->
  exists name, name_of names (Some n) = Ok name /\ names !! Z.to_nat n = Some name.
Proof.
  intros Hn. unfold name_of. destruct (Z.ltb_spec n (Z.of_nat (length names))); [|lia].
  destruct (lookup_lt_is_Some_2 names (Z.to_nat n)) as [name E]; [lia|]. rewrite E. by exists name.
Qed.

(** C23. Parsing a frame with any configured parser and normalizing the event
    always gives a canonical entry, unless the parser reports an error: the
    message and the raw message are valid UTF-8, and unchanged when they were; the
    other texts and the fields are those of the event, valid or not; the times are
    the same instants in UTC, the origin is that of the frame, the tenant is set, the
    codes agree with the priority and with their names, and the status says whether
    the format was recognised. *)
Theorem Normalize_canonical configured frame loc event b :
  Registry_Parse NewRegistry configured (f_Payload frame) (f_ReceivedAt frame) loc = Ok event ->
  exists e, Normalize (Some b) frame event = Ok e /\ entry_ok frame event e.
Proof.
  intros Hp. pose proof (Registry_ensures configured (f_Payload frame) (f_ReceivedAt frame) loc) as He.
  rewrite Hp in He. destruct He as [Hoff Hcodes]. unfold Normalize. cbn [uuidV7 mbind option_bind].
  assert (Htenant : (if f_TenantID frame =s "" then "default"%string else f_TenantID frame) <> ""%string).
  { destruct (str_eq_spec (f_TenantID frame) ""); done. }
  destruct Hcodes as [(Hf & Hp' & Hfa & Hse)|[Hf (p & Hp' & Hfa & Hse & Hr)]].
  - rewrite Hfa, Hse. cbn [name_of]. bind_simpl. eexists. split; [reflexivity|].
    constructor; simpl; try done; try (by split; [apply ToValidUTF8_valid|apply ToValidUTF8_id]).
    + by rewrite Hf.
    + by rewrite Hf.
  - rewrite Hfa, Hse.
    pose proof (Z.div_mod p 8 ltac:(lia)). pose proof (Z.mod_pos_bound p 8 ltac:(lia)).
    destruct (name_of_in facilityNames (p / 8)) as (fn & -> & Ef); [simpl; lia|].
    destruct (name_of_in severityNames (p mod 8)) as (sn & -> & Es); [simpl; lia|].
    bind_simpl. eexists. split; [reflexivity|].
    assert ((e_Format event =s "unknown") = false) as Hu by by destruct Hf as [->| ->].
    constructor; simpl; rewrite ?Hu; try done; try (by split; [apply ToValidUTF8_valid|apply ToValidUTF8_id]).
    + split; [done|]. by destruct Hf as [->| ->].
    + intros _. exists (p / 8), (p mod 8). rewrite Hp'. split_and!; try done. f_equal. lia.
Qed.

Definition sample_frame : Frame :=
  mkFrame "<34>Sep  4 14:30:00 host app[7]: hello" (mkTime 1788532200000000000 0) "" "src" "edge"
    "udp" "192.0.2.1" 514.
Definition sample_event : Event :=
  match Registry_Parse NewRegistry "auto" (f_Payload sample_frame) (f_ReceivedAt sample_frame) None with
  | Ok ev => ev
  | _ => unknown_event "" zero_time
  end.

Lemma Normalize_canonical_witness :
  exists e, Normalize (Some ids) sample_frame sample_event = Ok e
    /\ entry_ok sample_frame sample_event e.
Proof. apply (Normalize_canonical "auto" sample_frame None). vm_compute. reflexivity. Defined.

(** Only the message and the raw message are made valid UTF-8: a byte that is not
    stands in the host name of the entry, as it does in its other texts. *)
Definition latin1_frame : Frame :=
  mkFrame ("<34>1 2024-01-01T00:00:00Z h" +:+ String (chr 255) " app - - - up") (mkTime 0 0) "" "src" "edge"
    "udp" "192.0.2.1" 514.
Theorem hostname_not_sanitised :
  exists event e,
    Registry_Parse NewRegistry "auto" (f_Payload latin1_frame) (f_ReceivedAt latin1_frame) None = Ok event
    /\ Normalize (Some ids) latin1_frame event = Ok e
    /\ le_Hostname e = "h" +:+ String (chr 255) "" /\ ~ valid_utf8 (le_Hostname e).
Proof.
  eexists _, _. split; [vm_compute; reflexivity|]. split; [vm_compute; reflexivity|]. split; [reflexivity|].
  intros H%ToValidUTF8_id. vm_compute in H. discriminate.
Qed.
