(* ===== verification/Config.v ===== *)
(** * Configuration

    [backend/internal/config/config.go]: the typed configuration, its
    defaults, the environment and command-line overrides, and the validation
    ([finalize]) that parses durations and completes the sources. What reads
    the machine is a parameter: opening and decoding the YAML file
    ([decode_file]), the time zone database ([LoadLocation]) and reading the
    DSN file ([ReadFile]). *)
From S2P Require Import Prelude GoStrings GoTime GoDuration GoUrl Domain GoRegexp Parser ParserProps Parser3164.

Record HTTPConfig := mkHTTP {
  h_Address : string;
  h_ReadTimeout : Z;
  h_WriteTimeout : Z;
  h_IdleTimeout : Z;
  h_ReadHeaderTimeout : Z;
  h_ReadTimeoutText : string;
  h_WriteTimeoutText : string;
  h_IdleTimeoutText : string;
  h_ReadHeaderTimeoutText : string
}.
Record QueueConfig := mkQueueConfig {
  qc_MaxEvents : Z;
  qc_MaxBytes : Z;
  qc_EnqueueTimeout : Z;
  qc_EnqueueTimeoutText : string
}.
Record BatchConfig := mkBatchConfig {
  bc_MaxEvents : Z;
  bc_MaxBytes : Z;
  bc_MaxAge : Z;
  bc_MaxAgeText : string
}.
Record RetryConfig := mkRetryConfig {
  rc_MaxAttempts : Z;
  rc_InitialBackoff : Z;
  rc_MaxBackoff : Z;
  rc_InitialBackoffText : string;
  rc_MaxBackoffText : string
}.
Record SourceConfig := mkSource {
  sc_ID : string;
  sc_Name : string;
  sc_Protocol : string;
  sc_Address : string;
  sc_Parser : string;
  sc_Enabled : bool;
  sc_MaxMessageBytes : Z;
  sc_MaxConnections : Z;
  sc_Framing : string;
  sc_TenantID : string;
  sc_Timezone : string
}.
Record IngestionConfig := mkIngestion {
  ic_Queue : QueueConfig;
  ic_Batch : BatchConfig;
  ic_Retry : RetryConfig;
  ic_Sources : list SourceConfig
}.
Record StorageConfig := mkStorage {
  st_Type : string;
  st_Endpoint : string;
  st_Timeout : Z;
  st_TimeoutText : string;
  st_StreamFields : list string
}.
Record ControlStoreConfig := mkControl {
  cs_Enabled : bool;
  cs_DSN : string;
  cs_DSNFile : string;
  cs_Timeout : Z;
  cs_TimeoutText : string
}.
Record Config := mkConfig {
  c_HTTP : HTTPConfig;
  c_Ingestion : IngestionConfig;
  c_Storage : StorageConfig;
  c_ControlStore : ControlStoreConfig;
  c_ShutdownTimeout : Z;
  c_ShutdownTimeoutText : string
}.
Record Overrides := mkOverrides { o_HTTPAddress : string; o_StorageEndpoint : string }.

Inductive config_error :=
  | EFile
  | EBoolean
  | EDuration (name : string)
  | ENotPositive (name : string)
  | EAddress
  | EQueueLimits
  | EBatchLimits
  | EBatchExceedsQueue
  | ERetryPolicy
  | EStorageType
  | EEndpoint
  | ESourceID
  | ESourceProtocol
  | ESourceLimits
  | ESourceParser
  | ESourceFraming
  | ESourceTimezone
  | EControlDSN
  | EDSNFile.

Definition Default : Config := {|
  c_HTTP := mkHTTP ":8080" 0 0 0 0 "15s" "30s" "60s" "5s";
  c_Ingestion := {|
    ic_Queue := mkQueueConfig 100000 (Z.shiftl 256 20) 0 "25ms";
    ic_Batch := mkBatchConfig 1000 (Z.shiftl 4 20) 0 "1s";
    ic_Retry := mkRetryConfig 5 0 0 "100ms" "5s";
    ic_Sources := [] |};
  c_Storage := mkStorage "victorialogs" "http://127.0.0.1:9428" 0 "10s"
    ["tenant_id"; "source_type"; "hostname"; "app_name"]%string;
  c_ControlStore := mkControl false "" "" 0 "5s";
  c_ShutdownTimeout := 0;
  c_ShutdownTimeoutText := "20s" |}.

(** ** Overrides *)

Definition set_address (v : string) (c : Config) : Config :=
  let h := c_HTTP c in
  mkConfig (mkHTTP v (h_ReadTimeout h) (h_WriteTimeout h) (h_IdleTimeout h) (h_ReadHeaderTimeout h)
      (h_ReadTimeoutText h) (h_WriteTimeoutText h) (h_IdleTimeoutText h) (h_ReadHeaderTimeoutText h))
    (c_Ingestion c) (c_Storage c) (c_ControlStore c) (c_ShutdownTimeout c) (c_ShutdownTimeoutText c).
Definition set_endpoint (v : string) (c : Config) : Config :=
  let s := c_Storage c in
  mkConfig (c_HTTP c) (c_Ingestion c)
    (mkStorage (st_Type s) v (st_Timeout s) (st_TimeoutText s) (st_StreamFields s))
    (c_ControlStore c) (c_ShutdownTimeout c) (c_ShutdownTimeoutText c).
Definition set_control (enabled : bool) (dsn file : string) (c : Config) : Config :=
  let s := c_ControlStore c in
  mkConfig (c_HTTP c) (c_Ingestion c) (c_Storage c)
    (mkControl enabled dsn file (cs_Timeout s) (cs_TimeoutText s))
    (c_ShutdownTimeout c) (c_ShutdownTimeoutText c).

(** The environment as a map: later assignments win, items without an equals
    sign are ignored. *)
Definition env_map (environ : list string) : gmap string string :=
  foldl (fun m item => match cut_byte item "=" with Some (k, v) => <[k := v]> m | None => m end)
    ∅ environ.

Definition applyEnv (cfg : Config) (environ : list string) : outcome config_error Config :=
  let values := env_map environ in
  let get name dflt := default dflt (values !! name) in
  let cfg := set_address (get "SYSLOGX_HTTP_ADDRESS"%string (h_Address (c_HTTP cfg))) cfg in
  let cfg := set_endpoint (get "SYSLOGX_STORAGE_ENDPOINT"%string (st_Endpoint (c_Storage cfg))) cfg in
  let s := c_ControlStore cfg in
  let dsn := get "SYSLOGX_CONTROL_STORE_DSN"%string (cs_DSN s) in
  let file := get "SYSLOGX_CONTROL_STORE_DSN_FILE"%string (cs_DSNFile s) in
  match values !! "SYSLOGX_CONTROL_STORE_ENABLED"%string with
  | Some v =>
      match ParseBool v with
      | Some b => Ok (set_control b dsn file cfg)
      | None => Err EBoolean
      end
  | None => Ok (set_control (cs_Enabled s) dsn file cfg)
  end.

(** ** Validation *)

Definition parseDuration (name value : string) : outcome config_error Z :=
  match ParseDuration value with
  | None => Err (EDuration name)
  | Some d => if d <=? 0 then Err (ENotPositive name) else Ok d
  end.

(** Fail with [e] when the condition holds. *)
Definition fail_if (b : bool) (e : config_error) : outcome config_error unit :=
  if b then Err e else Ok tt.

Definition or_default (dflt v : string) : string := if v =s "" then dflt else v.
Definition or_number (dflt v : Z) : Z := if v =? 0 then dflt else v.
Definition in_list (l : list string) (v : string) : bool := existsb (str_eq v) l.

Section Machine.
Context (LoadLocation : string -> option Location).

(** One iteration of the loop over the sources: the completed source. *)
Definition finalize_source (s : SourceConfig) : outcome config_error SourceConfig :=
  let s := mkSource (sc_ID s) (sc_Name s) (sc_Protocol s) (sc_Address s)
    (or_default "auto" (sc_Parser s)) (sc_Enabled s)
    (or_number (Z.shiftl 64 10) (sc_MaxMessageBytes s)) (or_number 1024 (sc_MaxConnections s))
    (or_default "auto" (sc_Framing s)) (or_default "default" (sc_TenantID s))
    (or_default "UTC" (sc_Timezone s)) in
  _ ← fail_if (negb (in_list ["udp"; "tcp"]%string (sc_Protocol s))) ESourceProtocol;
  _ ← fail_if ((sc_Address s =s "") || (sc_MaxMessageBytes s <=? 0) || (sc_MaxConnections s <=? 0))
        ESourceLimits;
  _ ← fail_if (negb (in_list ["auto"; "rfc3164"; "rfc5424"]%string (sc_Parser s))) ESourceParser;
  _ ← fail_if (negb (in_list ["auto"; "newline"; "octet_counting"]%string (sc_Framing s)))
        ESourceFraming;
  match LoadLocation (sc_Timezone s) with None => Err ESourceTimezone | Some _ => Ok s end.

Fixpoint finalize_sources (seen : gset string) (l : list SourceConfig)
    : outcome config_error (list SourceConfig) :=
  match l with
  | [] => Ok []
  | s :: l =>
      if (sc_ID s =s "") || bool_decide (sc_ID s ∈ seen) then Err ESourceID else
      s' ← finalize_source s;
      rest ← finalize_sources ({[sc_ID s]} ∪ seen) l;
      Ok (s' :: rest)
  end.

Definition http_endpoint (endpoint : string) : bool :=
  match url_Parse endpoint with
  | Some (scheme, host) => ((scheme =s "http") || (scheme =s "https")) && negb (host =s "")
  | None => false
  end.

Definition finalize (c : Config) : outcome config_error Config :=
  let h := c_HTTP c in
  let q := ic_Queue (c_Ingestion c) in
  let b := ic_Batch (c_Ingestion c) in
  let r := ic_Retry (c_Ingestion c) in
  let st := c_Storage c in
  let cs := c_ControlStore c in
  read ← parseDuration "server.http.read_timeout" (h_ReadTimeoutText h);
  write ← parseDuration "server.http.write_timeout" (h_WriteTimeoutText h);
  idle ← parseDuration "server.http.idle_timeout" (h_IdleTimeoutText h);
  header ← parseDuration "server.http.read_header_timeout" (h_ReadHeaderTimeoutText h);
  enqueue ← parseDuration "ingestion.queue.enqueue_timeout" (qc_EnqueueTimeoutText q);
  age ← parseDuration "ingestion.batch.max_age" (bc_MaxAgeText b);
  initial ← parseDuration "ingestion.retry.initial_backoff" (rc_InitialBackoffText r);
  maximum ← parseDuration "ingestion.retry.max_backoff" (rc_MaxBackoffText r);
  storage ← parseDuration "storage.timeout" (st_TimeoutText st);
  control ← parseDuration "control_store.timeout" (cs_TimeoutText cs);
  shutdown ← parseDuration "shutdown.timeout" (c_ShutdownTimeoutText c);
  _ ← fail_if (h_Address h =s "") EAddress;
  _ ← fail_if ((qc_MaxEvents q <=? 0) || (qc_MaxBytes q <=? 0)) EQueueLimits;
  _ ← fail_if ((bc_MaxEvents b <=? 0) || (bc_MaxBytes b <=? 0)) EBatchLimits;
  _ ← fail_if ((qc_MaxEvents q <? bc_MaxEvents b) || (qc_MaxBytes q <? bc_MaxBytes b))
        EBatchExceedsQueue;
  _ ← fail_if ((rc_MaxAttempts r <=? 0) || (maximum <? initial)) ERetryPolicy;
  _ ← fail_if (negb (st_Type st =s "victorialogs")) EStorageType;
  _ ← fail_if (negb (http_endpoint (st_Endpoint st))) EEndpoint;
  sources ← finalize_sources ∅ (ic_Sources (c_Ingestion c));
  _ ← fail_if (cs_Enabled cs && (cs_DSN cs =s "") && (cs_DSNFile cs =s "")) EControlDSN;
  Ok {| c_HTTP := mkHTTP (h_Address h) read write idle header (h_ReadTimeoutText h)
          (h_WriteTimeoutText h) (h_IdleTimeoutText h) (h_ReadHeaderTimeoutText h);
        c_Ingestion := {|
          ic_Queue := mkQueueConfig (qc_MaxEvents q) (qc_MaxBytes q) enqueue (qc_EnqueueTimeoutText q);
          ic_Batch := mkBatchConfig (bc_MaxEvents b) (bc_MaxBytes b) age (bc_MaxAgeText b);
          ic_Retry := mkRetryConfig (rc_MaxAttempts r) initial maximum (rc_InitialBackoffText r)
            (rc_MaxBackoffText r);
          ic_Sources := sources |};
        c_Storage := mkStorage (st_Type st) (st_Endpoint st) storage (st_TimeoutText st)
          (st_StreamFields st);
        c_ControlStore := mkControl (cs_Enabled cs) (cs_DSN cs) (cs_DSNFile cs) control
          (cs_TimeoutText cs);
        c_ShutdownTimeout := shutdown;
        c_ShutdownTimeoutText := c_ShutdownTimeoutText c |}.

(** [Load]: the file over the defaults, then the environment, then the command
    line, then validation. *)
Context (decode_file : string -> Config -> option Config).

Definition Load (path : string) (environ : list string) (overrides : Overrides)
    : outcome config_error Config :=
  cfg ← (if path =s "" then Ok Default
         else match decode_file path Default with Some c => Ok c | None => Err EFile end);
  cfg ← applyEnv cfg environ;
  let cfg := if o_HTTPAddress overrides =s "" then cfg else set_address (o_HTTPAddress overrides) cfg in
  let cfg := if o_StorageEndpoint overrides =s "" then cfg
             else set_endpoint (o_StorageEndpoint overrides) cfg in
  finalize cfg.

Context (ReadFile : string -> option string).

Definition ControlDSN (c : Config) : outcome config_error string :=
  let s := c_ControlStore c in
  if negb (cs_DSN s =s "") then Ok (cs_DSN s)
  else if cs_DSNFile s =s "" then Ok ""%string
  else match ReadFile (cs_DSNFile s) with
       | Some b => Ok (TrimSpace b)
       | None => Err EDSNFile
       end.
End Machine.

(** ** What a loaded configuration promises *)

Definition positive_duration (d : Z) : Prop := 0 < d <= max_int64.

Record source_ok (LoadLocation : string -> option Location) (s : SourceConfig) : Prop := {
  sok_id : sc_ID s <> ""%string;
  sok_tenant : sc_TenantID s <> ""%string;
  sok_protocol : In (sc_Protocol s) ["udp"; "tcp"]%string;
  sok_address : sc_Address s <> ""%string;
  sok_bytes : 0 < sc_MaxMessageBytes s;
  sok_connections : 0 < sc_MaxConnections s;
  sok_parser : In (sc_Parser s) ["auto"; "rfc3164"; "rfc5424"]%string;
  sok_framing : In (sc_Framing s) ["auto"; "newline"; "octet_counting"]%string;
  sok_timezone : is_Some (LoadLocation (sc_Timezone s));
  (* completed: completing it again changes nothing *)
  sok_complete : finalize_source LoadLocation s = Ok s
}.

Record config_ok (LoadLocation : string -> option Location) (c : Config) : Prop := {
  cok_http : positive_duration (h_ReadTimeout (c_HTTP c))
    /\ positive_duration (h_WriteTimeout (c_HTTP c))
    /\ positive_duration (h_IdleTimeout (c_HTTP c))
    /\ positive_duration (h_ReadHeaderTimeout (c_HTTP c)) /\ h_Address (c_HTTP c) <> ""%string;
  cok_queue : 0 < qc_MaxEvents (ic_Queue (c_Ingestion c))
    /\ 0 < qc_MaxBytes (ic_Queue (c_Ingestion c))
    /\ positive_duration (qc_EnqueueTimeout (ic_Queue (c_Ingestion c)));
  cok_batch : 0 < bc_MaxEvents (ic_Batch (c_Ingestion c)) <= qc_MaxEvents (ic_Queue (c_Ingestion c))
    /\ 0 < bc_MaxBytes (ic_Batch (c_Ingestion c)) <= qc_MaxBytes (ic_Queue (c_Ingestion c))
    /\ positive_duration (bc_MaxAge (ic_Batch (c_Ingestion c)));
  cok_retry : 0 < rc_MaxAttempts (ic_Retry (c_Ingestion c))
    /\ positive_duration (rc_InitialBackoff (ic_Retry (c_Ingestion c)))
    /\ positive_duration (rc_MaxBackoff (ic_Retry (c_Ingestion c)))
    /\ rc_InitialBackoff (ic_Retry (c_Ingestion c)) <= rc_MaxBackoff (ic_Retry (c_Ingestion c));
  cok_storage : st_Type (c_Storage c) = "victorialogs"%string
    /\ http_endpoint (st_Endpoint (c_Storage c)) = true
    /\ positive_duration (st_Timeout (c_Storage c));
  cok_sources : Forall (source_ok LoadLocation) (ic_Sources (c_Ingestion c));
  cok_ids : NoDup (map sc_ID (ic_Sources (c_Ingestion c)));
  cok_control : positive_duration (cs_Timeout (c_ControlStore c))
    /\ (cs_Enabled (c_ControlStore c) = true ->
        cs_DSN (c_ControlStore c) <> ""%string \/ cs_DSNFile (c_ControlStore c) <> ""%string);
  cok_shutdown : positive_duration (c_ShutdownTimeout c)
}.

Lemma in_list_In l v : in_list l v = true <-> In v l.
Proof.
  unfold in_list. rewrite existsb_exists. split.
  - intros (x & Hx & E). destruct (str_eq_spec v x); [by subst|done].
  - intros H. exists v. split; [done|apply str_eq_refl].
Qed.

Lemma str_eq_false a b : (a =s b) = false <-> a <> b.
Proof. by destruct (str_eq_spec a b). Qed.

Lemma fail_if_ok b e u : fail_if b e = Ok u <-> b = false.
Proof. unfold fail_if. destruct b, u; split; done. Qed.

Lemma parseDuration_ok name v d : parseDuration name v = Ok d -> positive_duration d.
Proof.
  unfold parseDuration, positive_duration. destruct (ParseDuration v) as [x|] eqn:E; [|done].
  apply ParseDuration_bound in E. destruct (Z.leb_spec x 0); [done|]. intros [= <-]. lia.
Qed.

Lemma bind_ok {E A B} (m : outcome E A) (f : A -> outcome E B) b :
  (m ≫= f) = Ok b -> exists a, m = Ok a /\ f a = Ok b.
Proof. destruct m; simpl; try done. eauto. Qed.

Lemma or_default_nonempty d v : d <> ""%string -> or_default d v <> ""%string.
Proof. unfold or_default. by destruct (str_eq_spec v ""). Qed.

Lemma or_default_again d v : or_default d (or_default d v) = or_default d v.
Proof. unfold or_default. destruct (v =s "") eqn:E; [by destruct (d =s "")|by rewrite E]. Qed.
Lemma or_number_again d v : or_number d (or_number d v) = or_number d v.
Proof. unfold or_number. destruct (v =? 0) eqn:E; [by destruct (d =? 0)|by rewrite E]. Qed.

(** Invert a chain of binds that returned. *)
Ltac inv_binds :=
  repeat match goal with
  | H : (_ ≫= _) = Ok _ |- _ =>
      let a := fresh "v" in let H1 := fresh "H" in apply bind_ok in H as (a & H1 & H)
  | H : fail_if _ _ = Ok _ |- _ => apply fail_if_ok in H
  | H : parseDuration _ _ = Ok _ |- _ => apply parseDuration_ok in H
  end.

Section Finalize.
Context (LoadLocation : string -> option Location).

Lemma finalize_source_complete s s' :
  finalize_source LoadLocation s = Ok s' -> finalize_source LoadLocation s' = Ok s'.
Proof.
  intros H. assert (s' = mkSource (sc_ID s) (sc_Name s) (sc_Protocol s) (sc_Address s)
    (or_default "auto" (sc_Parser s)) (sc_Enabled s)
    (or_number (Z.shiftl 64 10) (sc_MaxMessageBytes s)) (or_number 1024 (sc_MaxConnections s))
    (or_default "auto" (sc_Framing s)) (or_default "default" (sc_TenantID s))
    (or_default "UTC" (sc_Timezone s))) as ->.
  { unfold finalize_source in H. inv_binds. by destruct (LoadLocation _); [injection H as <-|]. }
  revert H. unfold finalize_source. cbn [sc_ID sc_Name sc_Protocol sc_Address sc_Parser sc_Enabled
    sc_MaxMessageBytes sc_MaxConnections sc_Framing sc_TenantID sc_Timezone].
  by rewrite !or_default_again, !or_number_again.
Qed.

Lemma finalize_source_ok s s' :
  sc_ID s <> ""%string -> finalize_source LoadLocation s = Ok s' ->
  source_ok LoadLocation s' /\ sc_ID s' = sc_ID s.
Proof.
  intros Hid H. pose proof (finalize_source_complete s s' H) as Hc.
  unfold finalize_source in H. inv_binds.
  cbn [sc_ID sc_Name sc_Protocol sc_Address sc_Parser sc_Enabled
    sc_MaxMessageBytes sc_MaxConnections sc_Framing sc_TenantID sc_Timezone] in *.
  destruct (LoadLocation _) as [l|] eqn:Hl; [|done]. injection H as <-.
  rewrite !negb_false_iff, !in_list_In, !orb_false_iff, str_eq_false, !Z.leb_gt in *.
  split; [|done]. constructor; cbn [sc_ID sc_Name sc_Protocol sc_Address sc_Parser sc_Enabled
    sc_MaxMessageBytes sc_MaxConnections sc_Framing sc_TenantID sc_Timezone]; try tauto.
  - by apply or_default_nonempty.
  - by rewrite Hl.
Qed.

Lemma finalize_sources_ok seen l l' :
  finalize_sources LoadLocation seen l = Ok l' ->
  Forall (source_ok LoadLocation) l' /\ NoDup (map sc_ID l')
  /\ (forall id, id ∈ seen -> id ∉ map sc_ID l')
  /\ finalize_sources LoadLocation seen l' = Ok l'.
Proof.
  revert seen l'. induction l as [|s l IH]; intros seen l'; cbn [finalize_sources].
  { intros [= <-]. split_and!; try constructor. set_solver. }
  destruct ((sc_ID s =s "") || bool_decide (sc_ID s ∈ seen)) eqn:Hs; [done|]. intros H. inv_binds.
  apply orb_false_iff in Hs as [Hid Hseen]. pose proof Hid as Hid'.
  apply str_eq_false in Hid'. pose proof Hseen as Hseen'. apply bool_decide_eq_false in Hseen'.
  injection H as <-.
  match goal with H : finalize_source _ _ = Ok _ |- _ =>
    pose proof H as Hf; apply finalize_source_ok in H as [Hok Hsame]; [|done] end.
  match goal with H : finalize_sources _ _ _ = Ok _ |- _ =>
    apply IH in H as (Hall & Hnd & Hfresh & Hagain) end.
  split; [by constructor|]. split; [|split].
  - cbn [map]. constructor; [|done]. rewrite Hsame. apply Hfresh. set_solver.
  - intros id Hin. cbn [map]. rewrite Hsame. pose proof (Hfresh id ltac:(set_solver)). set_solver.
  - cbn [finalize_sources]. rewrite Hsame, Hid, Hseen. cbn [orb].
    rewrite (sok_complete _ _ Hok). bind_simpl. by rewrite Hagain.
Qed.

Lemma finalize_ok c c' : finalize LoadLocation c = Ok c' -> config_ok LoadLocation c'.
Proof.
  unfold finalize. intros H. inv_binds. injection H as <-.
  match goal with H : finalize_sources _ _ _ = Ok _ |- _ =>
    apply finalize_sources_ok in H as (Hall & Hnd & _) end.
  rewrite ?orb_false_iff, ?Z.leb_gt, ?Z.ltb_ge, ?negb_false_iff, ?str_eq_false in *.
  constructor; simpl; try done; try (split_and!; tauto || lia).
  - split_and!; [|done..]. by destruct (str_eq_spec (st_Type (c_Storage c)) "victorialogs").
  - split; [done|]. intros He.
    match goal with H : _ && _ && _ = false |- _ => rewrite He in H; simpl in H;
      apply andb_false_iff in H; rewrite !str_eq_false in H; by destruct H; auto end.
Qed.

Lemma finalize_sources_ids seen l l' :
  finalize_sources LoadLocation seen l = Ok l' -> map sc_ID l' = map sc_ID l.
Proof.
  revert seen l'. induction l as [|s l IH]; intros seen l'; cbn [finalize_sources]; [by intros [= <-]|].
  destruct ((sc_ID s =s "") || _) eqn:Hs; [done|]. intros H. inv_binds. injection H as <-.
  apply orb_false_iff in Hs as [Hid%str_eq_false _]. cbn [map]. f_equal.
  - by eapply finalize_source_ok.
  - by eapply IH.
Qed.

(** Validation keeps the settings it does not complete. *)
Lemma finalize_keeps c c' :
  finalize LoadLocation c = Ok c' ->
  h_Address (c_HTTP c') = h_Address (c_HTTP c)
  /\ st_Endpoint (c_Storage c') = st_Endpoint (c_Storage c)
  /\ cs_DSN (c_ControlStore c') = cs_DSN (c_ControlStore c)
  /\ qc_MaxEvents (ic_Queue (c_Ingestion c')) = qc_MaxEvents (ic_Queue (c_Ingestion c))
  /\ map sc_ID (ic_Sources (c_Ingestion c')) = map sc_ID (ic_Sources (c_Ingestion c)).
Proof.
  unfold finalize. intros H. inv_binds. injection H as <-. split_and!; try done.
  by eapply finalize_sources_ids.
Qed.

(** A second validation of a valid configuration changes nothing. *)
Lemma finalize_again c c' :
  finalize LoadLocation c = Ok c' -> finalize LoadLocation c' = Ok c'.
Proof.
  intros H. unfold finalize in H.
  repeat match goal with
  | H : (?m ≫= _) = Ok _ |- _ =>
      let a := fresh "v" in let H1 := fresh "H" in apply bind_ok in H as (a & H1 & H)
  end. injection H as <-. unfold finalize. simpl.
  match goal with H : finalize_sources _ _ _ = Ok _ |- _ =>
    apply finalize_sources_ok in H as (_ & _ & _ & H) end.
  repeat (match goal with H : ?m = Ok _ |- context [?m] => rewrite H end; bind_simpl). done.
Qed.
End Finalize.

(** C22. A configuration that loads is valid: every duration is a positive
    [int64], limits are positive and ordered, the storage endpoint is an
    http(s) URL, and sources have distinct identifiers and complete, supported
    settings; validating it again returns it unchanged. *)
Theorem Load_valid LoadLocation decode_file path environ overrides c :
  Load LoadLocation decode_file path environ overrides = Ok c ->
  config_ok LoadLocation c /\ finalize LoadLocation c = Ok c.
Proof.
  unfold Load. intros H.
  apply bind_ok in H as (c0 & _ & H). apply bind_ok in H as (c1 & _ & H).
  split; [by eapply finalize_ok|by eapply finalize_again].
Qed.

Definition utc_only (name : string) : option Location :=
  if name =s "UTC" then Some loc_utc else None.
(** A decoder that adds one bare source to the configuration. *)
Definition one_source (_ : string) (c : Config) : option Config :=
  let i := c_Ingestion c in
  Some (mkConfig (c_HTTP c)
    (mkIngestion (ic_Queue i) (ic_Batch i) (ic_Retry i)
      [mkSource "edge" "" "udp" ":514" "" true 0 0 "" "" ""])
    (c_Storage c) (c_ControlStore c) (c_ShutdownTimeout c) (c_ShutdownTimeoutText c)).
Definition loaded : Config :=
  match Load utc_only one_source "config.yaml" ["SYSLOGX_HTTP_ADDRESS=:7001"]%string
      (mkOverrides ":7002" "") with
  | Ok c => c
  | _ => Default
  end.

Lemma Load_valid_witness : config_ok utc_only loaded /\ finalize utc_only loaded = Ok loaded.
Proof.
  apply (Load_valid utc_only one_source "config.yaml" ["SYSLOGX_HTTP_ADDRESS=:7001"]%string
    (mkOverrides ":7002" "")). vm_compute. reflexivity.
Defined.

(** The configuration before the overrides. *)
Definition base_config (decode_file : string -> Config -> option Config) (path : string) : Config :=
  if path =s "" then Default else default Default (decode_file path Default).

(** A setting: the flag if given, else the environment, else the file. *)
Definition overridden (flag : string) (env : option string) (file : string) : string :=
  if flag =s "" then default file env else flag.

(** Command-line flags take precedence over the environment, and the
    environment over the file, which is read over the defaults; nothing else
    of the file is overridden. *)
Theorem Load_precedence LoadLocation decode_file path environ overrides c :
  Load LoadLocation decode_file path environ overrides = Ok c ->
  let base := base_config decode_file path in
  h_Address (c_HTTP c)
    = overridden (o_HTTPAddress overrides) (env_map environ !! "SYSLOGX_HTTP_ADDRESS"%string)
        (h_Address (c_HTTP base))
  /\ st_Endpoint (c_Storage c)
    = overridden (o_StorageEndpoint overrides) (env_map environ !! "SYSLOGX_STORAGE_ENDPOINT"%string)
        (st_Endpoint (c_Storage base))
  /\ cs_DSN (c_ControlStore c)
    = default (cs_DSN (c_ControlStore base)) (env_map environ !! "SYSLOGX_CONTROL_STORE_DSN"%string)
  /\ qc_MaxEvents (ic_Queue (c_Ingestion c)) = qc_MaxEvents (ic_Queue (c_Ingestion base))
  /\ map sc_ID (ic_Sources (c_Ingestion c)) = map sc_ID (ic_Sources (c_Ingestion base)).
Proof.
  unfold Load. intros H. apply bind_ok in H as (c0 & H0 & H). apply bind_ok in H as (c1 & H1 & H).
  assert (base_config decode_file path = c0) as ->.
  { unfold base_config. destruct (path =s ""); [by injection H0|].
    destruct (decode_file path Default); [by injection H0|done]. }
  apply finalize_keeps in H as (-> & -> & -> & -> & ->). unfold overridden.
  assert (Henv : c1 = set_control (cs_Enabled (c_ControlStore c1))
    (default (cs_DSN (c_ControlStore c0)) (env_map environ !! "SYSLOGX_CONTROL_STORE_DSN"%string))
    (cs_DSNFile (c_ControlStore c1))
    (set_endpoint (default (st_Endpoint (c_Storage c0)) (env_map environ !! "SYSLOGX_STORAGE_ENDPOINT"%string))
      (set_address (default (h_Address (c_HTTP c0)) (env_map environ !! "SYSLOGX_HTTP_ADDRESS"%string)) c0))).
  { revert H1. unfold applyEnv.
    destruct (env_map environ !! "SYSLOGX_CONTROL_STORE_ENABLED"%string) as [v|];
      [destruct (ParseBool v); [|done]|]; by intros [= <-]. }
  rewrite Henv. by destruct (o_HTTPAddress overrides =s ""), (o_StorageEndpoint overrides =s "").
Qed.

Lemma Load_precedence_witness :
  h_Address (c_HTTP loaded) = ":7002"%string
  /\ st_Endpoint (c_Storage loaded) = "http://127.0.0.1:9428"%string
  /\ cs_DSN (c_ControlStore loaded) = ""%string
  /\ qc_MaxEvents (ic_Queue (c_Ingestion loaded)) = 100000
  /\ map sc_ID (ic_Sources (c_Ingestion loaded)) = ["edge"%string].
Proof.
  apply (Load_precedence utc_only one_source "config.yaml" ["SYSLOGX_HTTP_ADDRESS=:7001"]%string
    (mkOverrides ":7002" "")). vm_compute. reflexivity.
Defined.

(** The parser of a loaded source is always registered: whatever arrives,
    the only errors a worker sees are malformed messages. *)
Theorem loaded_parser_registered LoadLocation decode_file path environ overrides c s
    payload received loc e :
  Load LoadLocation decode_file path environ overrides = Ok c ->
  In s (ic_Sources (c_Ingestion c)) ->
  Registry_Parse NewRegistry (sc_Parser s) payload received loc = Err e ->
  ErrInvalid e = true.
Proof.
  unfold Load. intros H Hin He.
  apply bind_ok in H as (c0 & _ & H). apply bind_ok in H as (c1 & _ & H).
  apply finalize_ok in H. pose proof (cok_sources _ _ H) as Hs. rewrite List.Forall_forall in Hs.
  pose proof (registered_errors (sc_Parser s) payload received loc (sok_parser _ _ (Hs s Hin))) as Hr.
  by rewrite He in Hr.
Qed.

Lemma loaded_parser_registered_witness : ErrInvalid E5424Version = true.
Proof.
  apply (loaded_parser_registered utc_only one_source "config.yaml"
    ["SYSLOGX_HTTP_ADDRESS=:7001"]%string (mkOverrides ":7002" "") loaded
    (default (mkSource "" "" "" "" "" false 0 0 "" "" "") (head (ic_Sources (c_Ingestion loaded))))
    "<34>2 - host app - - -" (mkTime 0 0) None).
  - vm_compute. reflexivity.
  - vm_compute. left. reflexivity.
  - vm_compute. reflexivity.
Defined.
