(* ===== verification/Queue.v ===== *)
(** * The bounded ingestion queue

    [backend/internal/ingestion/queue.go]. Each method of [frameQueue] is a
    loop around one critical section; a section runs under the mutex, so it is
    a function of the queue's state. [q_changed] counts the generations of the
    broadcast channel [changed]: a waiter holds the generation it read, and
    its channel is closed once the queue is at a later one. *)
From S2P Require Import Prelude GoStrings GoTime Domain.

Record queuedFrame := mkQueued { qf_frame : Frame; qf_bytes : Z }.
(** The zero value a delivered slot is overwritten with. *)
Definition zero_queued : queuedFrame := mkQueued zero_frame 0.

Record frameQueue := mkQueue {
  q_items : list queuedFrame;
  q_head : nat;
  q_bytes : Z;
  q_maxEvents : Z;
  q_maxBytes : Z;
  q_closed : bool;
  q_changed : nat
}.

Inductive queue_error := ErrQueueClosed | ErrQueueFull | ErrContext.
#[export] Instance queue_error_eq_dec : EqDecision queue_error.
Proof. solve_decision. Defined.

Definition newFrameQueue (maxEvents maxBytes : Z) : frameQueue :=
  mkQueue [] 0 0 maxEvents maxBytes false 0.

Definition notifyLocked (q : frameQueue) : frameQueue :=
  mkQueue (q_items q) (q_head q) (q_bytes q) (q_maxEvents q) (q_maxBytes q) (q_closed q)
    (S (q_changed q)).

(** [len(q.items)-q.head] *)
Definition q_events (q : frameQueue) : Z := Z.of_nat (length (q_items q)) - Z.of_nat (q_head q).

(** One pass of [enqueue] under the lock: [true] when the frame is queued,
    [false] when the caller must wait for a change. *)
Definition enqueue_section (size : Z) (frame : Frame) (q : frameQueue)
    : outcome queue_error (bool * frameQueue) :=
  if q_closed q then Err ErrQueueClosed else
  if (q_events q <? q_maxEvents q) && (wrap64 (q_bytes q + size) <=? q_maxBytes q) then
    let q := mkQueue (q_items q ++ [mkQueued frame size]) (q_head q) (wrap64 (q_bytes q + size))
               (q_maxEvents q) (q_maxBytes q) (q_closed q) (q_changed q) in
    Ok (true, notifyLocked q)
  else Ok (false, q).

(** The compaction of [dequeue]: drop the delivered prefix once it is long and
    at least half of the slice. *)
Definition compact (q : frameQueue) : frameQueue :=
  if (1024 <? q_head q)%nat && (length (q_items q) <=? q_head q * 2)%nat then
    mkQueue (drop (q_head q) (q_items q)) 0 (q_bytes q) (q_maxEvents q) (q_maxBytes q)
      (q_closed q) (q_changed q)
  else q.

(** One pass of [dequeue] under the lock. *)
Definition dequeue_section (q : frameQueue)
    : outcome queue_error (option queuedFrame * frameQueue) :=
  if (q_head q <? length (q_items q))%nat then
    item ← checked (q_items q !! q_head q);
    let q := mkQueue (<[q_head q := zero_queued]> (q_items q)) (S (q_head q))
               (wrap64 (q_bytes q - qf_bytes item)) (q_maxEvents q) (q_maxBytes q)
               (q_closed q) (q_changed q) in
    Ok (Some item, notifyLocked (compact q))
  else if q_closed q then Err ErrQueueClosed
  else Ok (None, q).

Definition close_section (q : frameQueue) : frameQueue :=
  if q_closed q then q else
    notifyLocked (mkQueue (q_items q) (q_head q) (q_bytes q) (q_maxEvents q) (q_maxBytes q)
      true (q_changed q)).

Definition usage (q : frameQueue) : Z * Z := (q_events q, q_bytes q).

(** [int64(len(frame.Payload))] *)
Definition frame_size (frame : Frame) : Z := len (f_Payload frame).

(** ** Callers

    A call of [enqueue] or [dequeue] is a thread: before its critical section,
    blocked in [select] on the generation it read, or returned. *)
Inductive call := Enqueue (frame : Frame) | Dequeue.
Inductive result := RQueued | RItem (item : queuedFrame) | RError (e : queue_error).
Inductive thread :=
  | Running (c : call)
  | Waiting (c : call) (generation : nat)
  | Returned (c : call) (r : result).

(** The entry of a call: [enqueue] refuses a frame larger than the queue
    before it takes the lock. *)
Definition start (c : call) (q : frameQueue) : thread :=
  match c with
  | Enqueue frame =>
      if q_maxBytes q <? frame_size frame then Returned c (RError ErrQueueFull) else Running c
  | Dequeue => Running c
  end.

(** One critical section of a call, and where it leaves the thread. *)
Definition attempt (c : call) (q : frameQueue) : outcome queue_error (thread * frameQueue) :=
  match c with
  | Enqueue frame =>
      '(queued, q') ← enqueue_section (frame_size frame) frame q;
      Ok (if queued : bool then Returned c RQueued else Waiting c (q_changed q), q')
  | Dequeue =>
      '(item, q') ← dequeue_section q;
      Ok (match item with
          | Some item => Returned c (RItem item)
          | None => Waiting c (q_changed q)
          end, q')
  end.

(** What a step shows: a frame admitted, a frame delivered, or neither. *)
Inductive label := LAccept (item : queuedFrame) | LDeliver (item : queuedFrame) | LSilent.
Definition label_of (t : thread) : label :=
  match t with
  | Returned (Enqueue frame) RQueued => LAccept (mkQueued frame (frame_size frame))
  | Returned Dequeue (RItem item) => LDeliver item
  | _ => LSilent
  end.

Record system := mkSystem { s_queue : frameQueue; s_threads : gmap nat thread }.

(** The errors [select] can return for a blocked call: the context for both,
    the timer for [enqueue] only. *)
Definition give_up_error (c : call) (e : queue_error) : bool :=
  match c, e with
  | _, ErrContext => true
  | Enqueue _, ErrQueueFull => true
  | _, _ => false
  end.

Inductive step : system -> label -> system -> Prop :=
  | step_start q ts i c :
      ts !! i = None -> step (mkSystem q ts) LSilent (mkSystem q (<[i := start c q]> ts))
  | step_attempt q ts i c t q' :
      ts !! i = Some (Running c) -> attempt c q = Ok (t, q') ->
      step (mkSystem q ts) (label_of t) (mkSystem q' (<[i := t]> ts))
  | step_refused q ts i c e :
      ts !! i = Some (Running c) -> attempt c q = Err e ->
      step (mkSystem q ts) LSilent (mkSystem q (<[i := Returned c (RError e)]> ts))
  | step_woken q ts i c g :
      ts !! i = Some (Waiting c g) -> (g < q_changed q)%nat ->
      step (mkSystem q ts) LSilent (mkSystem q (<[i := Running c]> ts))
  | step_give_up q ts i c g e :
      ts !! i = Some (Waiting c g) -> give_up_error c e = true ->
      step (mkSystem q ts) LSilent (mkSystem q (<[i := Returned c (RError e)]> ts))
  | step_close q ts : step (mkSystem q ts) LSilent (mkSystem (close_section q) ts).

(** Executions from a state, with the labels in order. *)
Inductive steps : system -> list label -> system -> Prop :=
  | steps_nil s : steps s [] s
  | steps_snoc s tr s' l s'' : steps s tr s' -> step s' l s'' -> steps s (tr ++ [l]) s''.

Definition initial (maxEvents maxBytes : Z) : system :=
  mkSystem (newFrameQueue maxEvents maxBytes) ∅.

(** Executable schedules: which thread moves, and how. *)
Inductive action :=
  | AStart (i : nat) (c : call)
  | AAttempt (i : nat)
  | AWake (i : nat)
  | AGiveUp (i : nat) (e : queue_error)
  | AClose.

Definition perform (a : action) (s : system) : option (label * system) :=
  let (q, ts) := s in
  match a with
  | AStart i c =>
      match ts !! i with
      | None => Some (LSilent, mkSystem q (<[i := start c q]> ts))
      | Some _ => None
      end
  | AAttempt i =>
      match ts !! i with
      | Some (Running c) =>
          match attempt c q with
          | Ok (t, q') => Some (label_of t, mkSystem q' (<[i := t]> ts))
          | Err e => Some (LSilent, mkSystem q (<[i := Returned c (RError e)]> ts))
          | Panic => None
          end
      | _ => None
      end
  | AWake i =>
      match ts !! i with
      | Some (Waiting c g) =>
          if (g <? q_changed q)%nat then Some (LSilent, mkSystem q (<[i := Running c]> ts)) else None
      | _ => None
      end
  | AGiveUp i e =>
      match ts !! i with
      | Some (Waiting c g) =>
          if give_up_error c e
          then Some (LSilent, mkSystem q (<[i := Returned c (RError e)]> ts)) else None
      | _ => None
      end
  | AClose => Some (LSilent, mkSystem (close_section q) ts)
  end.

Fixpoint schedule (l : list action) (tr : list label) (s : system) : option (list label * system) :=
  match l with
  | [] => Some (tr, s)
  | a :: l => '(x, s') ← perform a s; schedule l (tr ++ [x]) s'
  end.

(** ** The abstract queue

    A first-in first-out list with a bound on its length and on its bytes,
    open or closed. *)
Definition total (l : list queuedFrame) : Z := foldr (fun i n => qf_bytes i + n) 0 l.

Record fifo := mkFifo { fifo_items : list queuedFrame; fifo_closed : bool }.

Inductive fifo_step (maxEvents maxBytes : Z) : fifo -> label -> fifo -> Prop :=
  | fifo_accept l i :
      Z.of_nat (length l) < maxEvents -> total l + qf_bytes i <= maxBytes ->
      qf_bytes i = frame_size (qf_frame i) ->
      fifo_step maxEvents maxBytes (mkFifo l false) (LAccept i) (mkFifo (l ++ [i]) false)
  | fifo_deliver l i c :
      fifo_step maxEvents maxBytes (mkFifo (i :: l) c) (LDeliver i) (mkFifo l c)
  | fifo_silent f : fifo_step maxEvents maxBytes f LSilent f
  | fifo_close l c : fifo_step maxEvents maxBytes (mkFifo l c) LSilent (mkFifo l true).

Definition live (q : frameQueue) : list queuedFrame := drop (q_head q) (q_items q).
Definition abstraction (s : system) : fifo :=
  mkFifo (live (s_queue s)) (q_closed (s_queue s)).

Definition accepted (tr : list label) : list queuedFrame :=
  omap (fun l => match l with LAccept i => Some i | _ => None end) tr.
Definition delivered (tr : list label) : list queuedFrame :=
  omap (fun l => match l with LDeliver i => Some i | _ => None end) tr.

(** ** Arithmetic and list facts *)

Lemma total_app a b : total (a ++ b) = total a + total b.
Proof. induction a as [|i a IH]; simpl; [lia|]. rewrite IH. lia. Qed.

Definition sized (i : queuedFrame) : Prop := qf_bytes i = frame_size (qf_frame i).

Lemma total_nonneg l : Forall sized l -> 0 <= total l.
Proof.
  induction 1 as [|i l Hi _ IH]; [done|]. simpl. unfold sized, frame_size in Hi.
  pose proof (len_nonneg (f_Payload (qf_frame i))). lia.
Qed.

Lemma wrap64_small z : min_int64 <= z <= max_int64 -> wrap64 z = z.
Proof.
  unfold wrap64, min_int64, max_int64. change (2 ^ 64) with 18446744073709551616.
  change (2 ^ 63) with 9223372036854775808. intros. rewrite Z.mod_small; lia.
Qed.

Lemma drop_insert_head {A} (l : list A) n x : drop (S n) (<[n := x]> l) = drop (S n) l.
Proof. apply drop_insert_lt. lia. Qed.

(** ** The invariant *)
Section Bounded.
Context (maxEvents maxBytes : Z).
Context (Hmax : 0 <= maxBytes < 2 ^ 62).

Record queue_ok (q : frameQueue) : Prop := {
  ok_limits : q_maxEvents q = maxEvents /\ q_maxBytes q = maxBytes;
  ok_head : (q_head q <= length (q_items q))%nat;
  ok_cleared : take (q_head q) (q_items q) = replicate (q_head q) zero_queued;
  ok_sized : Forall sized (live q);
  ok_bytes : q_bytes q = total (live q);
  ok_total : total (live q) <= maxBytes;
  ok_events : Z.of_nat (length (live q)) <= Z.max 0 maxEvents;
  ok_compact : (q_head q <= 1024)%nat \/ (q_head q * 2 < length (q_items q))%nat
}.

Definition fits (c : call) : Prop :=
  match c with Enqueue frame => frame_size frame <= maxBytes | Dequeue => True end.

(** A waiter on the current generation would block again; a consumer told
    that the queue is closed has seen its end. *)
Definition thread_ok (q : frameQueue) (t : thread) : Prop :=
  match t with
  | Running c => fits c
  | Waiting c g =>
      fits c /\ (g <= q_changed q)%nat
      /\ (g = q_changed q -> attempt c q = Ok (Waiting c g, q))
  | Returned Dequeue (RError ErrQueueClosed) => q_closed q = true /\ live q = []
  | Returned _ _ => True
  end.

Definition system_ok (s : system) : Prop :=
  queue_ok (s_queue s) /\ map_Forall (fun _ => thread_ok (s_queue s)) (s_threads s).

Lemma live_events q : queue_ok q -> q_events q = Z.of_nat (length (live q)).
Proof. intros [? Hh]. unfold q_events, live. rewrite length_drop. lia. Qed.

Lemma bytes_range q size :
  queue_ok q -> 0 <= size <= maxBytes -> wrap64 (q_bytes q + size) = total (live q) + size.
Proof using Hmax.
  intros Hq Hs. rewrite (ok_bytes q Hq). pose proof (total_nonneg _ (ok_sized q Hq)).
  pose proof (ok_total q Hq). apply wrap64_small. unfold min_int64, max_int64.
  change (2 ^ 62) with 4611686018427387904 in Hmax. change (2 ^ 63) with 9223372036854775808. lia.
Qed.

Lemma enqueue_section_cases q frame b q' :
  queue_ok q -> frame_size frame <= maxBytes ->
  enqueue_section (frame_size frame) frame q = Ok (b, q') ->
  b = false /\ q' = q \/
  b = true /\ queue_ok q' /\ live q' = live q ++ [mkQueued frame (frame_size frame)]
  /\ q_changed q' = S (q_changed q) /\ q_closed q = false /\ q_closed q' = false
  /\ Z.of_nat (length (live q)) < maxEvents /\ total (live q) + frame_size frame <= maxBytes.
Proof using Hmax.
  intros Hq Hsize. assert (0 <= frame_size frame) as H0 by apply len_nonneg.
  unfold enqueue_section. destruct (q_closed q) eqn:Hc; [done|].
  rewrite bytes_range, live_events by done. destruct (ok_limits q Hq) as [-> ->].
  destruct (Z.ltb_spec (Z.of_nat (length (live q))) maxEvents) as [He|];
    [|intros [= <- <-]; by left].
  destruct (Z.leb_spec (total (live q) + frame_size frame) maxBytes) as [Hb|];
    [|intros [= <- <-]; by left].
  intros [= <- <-]. right. pose proof (ok_head q Hq) as Hh.
  set (item := mkQueued frame (frame_size frame)).
  assert (Hl : drop (q_head q) (q_items q ++ [item]) = live q ++ [item]).
  { unfold live. rewrite drop_app_le by done. done. }
  split_and!; try done. unfold live in *. constructor; unfold notifyLocked, live; simpl.
  - done.
  - rewrite length_app. simpl. lia.
  - rewrite take_app_le by done. apply (ok_cleared q Hq).
  - rewrite Hl. apply Forall_app_2; [apply (ok_sized q Hq)|by constructor].
  - rewrite Hl, total_app. simpl. lia.
  - rewrite Hl, total_app. simpl. lia.
  - rewrite Hl, length_app. simpl. lia.
  - rewrite length_app. simpl. destruct (ok_compact q Hq); [by left|right; lia].
Qed.

Lemma compact_ok q :
  (q_head q <= length (q_items q))%nat ->
  take (q_head q) (q_items q) = replicate (q_head q) zero_queued ->
  let q' := compact q in
  live q' = live q /\ (q_head q' <= length (q_items q'))%nat
  /\ take (q_head q') (q_items q') = replicate (q_head q') zero_queued
  /\ ((q_head q' <= 1024)%nat \/ (q_head q' * 2 < length (q_items q'))%nat)
  /\ q_bytes q' = q_bytes q /\ q_maxEvents q' = q_maxEvents q /\ q_maxBytes q' = q_maxBytes q
  /\ q_closed q' = q_closed q /\ q_changed q' = q_changed q.
Proof.
  intros Hh Ht. unfold compact.
  destruct (Nat.ltb_spec 1024 (q_head q)); simpl; [|by split_and!; auto].
  destruct (Nat.leb_spec (length (q_items q)) (q_head q * 2)); simpl; [|by split_and!; auto].
  split_and!; try done; [lia|left; lia].
Qed.

Lemma dequeue_section_cases q item q' :
  queue_ok q -> dequeue_section q = Ok (item, q') ->
  item = None /\ q' = q /\ live q = [] /\ q_closed q = false \/
  exists i, item = Some i /\ queue_ok q' /\ live q = i :: live q'
  /\ q_changed q' = S (q_changed q) /\ q_closed q' = q_closed q.
Proof using Hmax.
  intros Hq. unfold dequeue_section. destruct (Nat.ltb_spec (q_head q) (length (q_items q))) as [Hlt|Hge].
  - destruct (lookup_lt_is_Some_2 _ _ Hlt) as [i Hi]. rewrite Hi. bind_simpl.
    intros [= <- <-]. right. exists i. split; [done|].
    assert (Hlive : live q = i :: drop (S (q_head q)) (q_items q)) by (by apply drop_S).
    set (q1 := mkQueue _ _ _ _ _ _ _).
    assert (Hl1 : live q1 = drop (S (q_head q)) (q_items q)) by apply drop_insert_head.
    destruct (compact_ok q1) as (Hl & Hh & Hc & Hcomp & Eb & E1 & E2 & E3 & E4); simpl.
    { rewrite length_insert. lia. }
    { rewrite (take_S_r _ _ zero_queued) by (apply list_lookup_insert_eq; lia).
      rewrite take_insert_ge by lia. by rewrite (ok_cleared q Hq), <- replicate_S_end. }
    pose proof (ok_sized q Hq) as Hs. rewrite Hlive in Hs. apply Forall_cons in Hs as [Hsi Hs].
    pose proof (total_nonneg _ Hs). pose proof (ok_total q Hq) as Ht. rewrite Hlive in Ht. simpl in Ht.
    assert (0 <= qf_bytes i) by (rewrite Hsi; apply len_nonneg).
    pose proof (ok_events q Hq) as He. rewrite Hlive in He. simpl in He.
    rewrite Hl1 in Hl. split_and!; try done.
    + constructor; unfold notifyLocked, live in *; simpl; rewrite ?E1, ?E2, ?Hl; try done.
      * apply (ok_limits q Hq).
      * rewrite Eb. simpl. rewrite (ok_bytes q Hq). unfold live. rewrite Hlive. simpl.
        rewrite wrap64_small; [lia|]. unfold min_int64, max_int64.
        change (2 ^ 62) with 4611686018427387904 in Hmax.
        change (2 ^ 63) with 9223372036854775808. lia.
      * lia.
      * lia.
    + rewrite Hlive. f_equal. symmetry. apply Hl.
    + simpl. by rewrite E4.
  - destruct (q_closed q) eqn:Hc; [done|]. intros [= <- <-]. left.
    split_and!; try done. apply drop_ge. lia.
Qed.

(** ** Attempts *)

Lemma attempt_cases q c t q' :
  queue_ok q -> fits c -> attempt c q = Ok (t, q') ->
  t = Waiting c (q_changed q) /\ q' = q /\ label_of t = LSilent \/
  queue_ok q' /\ q_changed q' = S (q_changed q) /\ thread_ok q' t
  /\ fifo_step maxEvents maxBytes (mkFifo (live q) (q_closed q)) (label_of t)
       (mkFifo (live q') (q_closed q'))
  /\ (q_closed q = true -> q_closed q' = true /\ (live q = [] -> live q' = [])).
Proof using Hmax.
  intros Hq Hfit. destruct c as [frame|]; unfold attempt.
  - destruct (enqueue_section _ _ _) as [[b q1]|e|] eqn:E; [|done..]. bind_simpl.
    intros [= <- <-].
    destruct (enqueue_section_cases q frame b q1 Hq Hfit E)
      as [[-> ->]|(-> & Hq1 & Hl & Hch & Hc & Hc1 & He & Hb)]; [by left|right].
    rewrite Hc, Hc1, Hl. split_and!; try done. by apply fifo_accept.
  - destruct (dequeue_section _) as [[o q1]|e|] eqn:E; [|done..]. bind_simpl. intros [= <- <-].
    destruct (dequeue_section_cases q o q1 Hq E)
      as [(-> & -> & _ & _)|(i & -> & Hq1 & Hl & Hch & Hc)]; [by left|right].
    rewrite Hc, Hl. split_and!; try done. apply fifo_deliver.
Qed.

Lemma attempt_no_panic q c : attempt c q <> Panic.
Proof.
  destruct c as [frame|]; unfold attempt, enqueue_section, dequeue_section.
  - destruct (q_closed q); [done|]. by destruct (_ && _).
  - destruct (Nat.ltb_spec (q_head q) (length (q_items q))) as [Hlt|].
    + by destruct (lookup_lt_is_Some_2 _ _ Hlt) as [i ->].
    + by destruct (q_closed q).
Qed.

(** Only a closed queue refuses, and a consumer only when it is drained. *)
Lemma attempt_refused q c e :
  queue_ok q -> attempt c q = Err e ->
  e = ErrQueueClosed /\ q_closed q = true /\ (c = Dequeue -> live q = []).
Proof.
  intros Hq. destruct c as [frame|]; unfold attempt, enqueue_section, dequeue_section.
  - destruct (q_closed q); [|by destruct (_ && _)]. by intros [= <-].
  - destruct (Nat.ltb_spec (q_head q) (length (q_items q))) as [Hlt|Hge].
    + by destruct (lookup_lt_is_Some_2 _ _ Hlt) as [i ->].
    + destruct (q_closed q); [|done]. intros [= <-]. split_and!; try done.
      intros _. apply drop_ge. lia.
Qed.

(** A change of the queue keeps the other threads right: their generation is
    now an old one. *)
Lemma thread_ok_changed q q' t :
  thread_ok q t -> q_changed q' = S (q_changed q) ->
  (q_closed q = true -> q_closed q' = true /\ (live q = [] -> live q' = [])) ->
  thread_ok q' t.
Proof.
  destruct t as [c|c g|[f|] [|i|[]]]; simpl; try done.
  - intros (Hf & Hg & _) -> _. split; [done|]. split; lia.
  - intros [Hc Hl] _ H. naive_solver.
Qed.

Lemma close_section_cases q :
  queue_ok q ->
  close_section q = q \/
  queue_ok (close_section q) /\ q_changed (close_section q) = S (q_changed q)
  /\ live (close_section q) = live q /\ q_closed (close_section q) = true.
Proof.
  intros []. unfold close_section. destruct (q_closed q); [by left|right]. by split_and!.
Qed.

Lemma start_ok q c : queue_ok q -> thread_ok q (start c q).
Proof.
  intros Hq. destruct c as [frame|]; [|done]. unfold start.
  destruct (ok_limits q Hq) as [_ ->].
  by destruct (Z.ltb_spec maxBytes (frame_size frame)).
Qed.

Lemma threads_insert q (ts : gmap nat thread) i t :
  map_Forall (fun _ => thread_ok q) ts -> thread_ok q t ->
  map_Forall (fun _ => thread_ok q) (<[i := t]> ts).
Proof. intros. by apply map_Forall_insert_2. Qed.

Lemma system_changed q q' (ts : gmap nat thread) :
  map_Forall (fun _ => thread_ok q) ts -> q_changed q' = S (q_changed q) ->
  (q_closed q = true -> q_closed q' = true /\ (live q = [] -> live q' = [])) ->
  map_Forall (fun _ => thread_ok q') ts.
Proof. intros H ? ? i t Ht. eapply thread_ok_changed; [apply (H i t Ht)|done..]. Qed.

(** Every step keeps the invariant and is a step of the abstract queue. *)
Lemma step_ok s l s' :
  system_ok s -> step s l s' ->
  system_ok s' /\ fifo_step maxEvents maxBytes (abstraction s) l (abstraction s').
Proof using Hmax.
  unfold system_ok, abstraction. intros [Hq Hts] Hstep.
  destruct Hstep as [q ts i c Hi|q ts i c t q' Hi Ha|q ts i c e Hi Ha|q ts i c g Hi Hg
    |q ts i c g e Hi He|q ts]; simpl in *.
  - split; [|constructor]. split; [done|]. apply threads_insert; [done|by apply start_ok].
  - pose proof (Hts i _ Hi) as Hfit. simpl in Hfit.
    destruct (attempt_cases q c t q' Hq Hfit Ha)
      as [(-> & -> & Hl)|(Hq' & Hch & Ht & Hf & Hmono)].
    + rewrite Hl. split; [|constructor]. split; [done|]. apply threads_insert; [done|].
      simpl. by split_and!.
    + split; [|done]. split; [done|]. apply threads_insert; [|done]. by eapply system_changed.
  - split; [|constructor]. split; [done|]. apply threads_insert; [done|].
    destruct (attempt_refused q c e Hq Ha) as (-> & Hc & Hl). destruct c; simpl; auto.
  - split; [|constructor]. split; [done|]. apply threads_insert; [done|]. apply (Hts i _ Hi).
  - split; [|constructor]. split; [done|]. apply threads_insert; [done|]. by destruct c, e.
  - destruct (close_section_cases q Hq) as [->|(Hq' & Hch & Hl & Hc)]; [split; [done|constructor]|].
    rewrite Hl, Hc. split; [|constructor]. split; [done|]. apply (system_changed q _ ts Hts Hch).
    by rewrite Hl.
Qed.

Lemma queue_ok_initial : queue_ok (newFrameQueue maxEvents maxBytes).
Proof using Hmax. constructor; simpl; try done; lia. Qed.

Lemma steps_ok tr s :
  steps (initial maxEvents maxBytes) tr s -> system_ok s.
Proof using Hmax.
  remember (initial maxEvents maxBytes) as s0 eqn:E0. induction 1 as [s|s tr s1 l s2 _ IH Hstep].
  - subst s. split; [apply queue_ok_initial|apply map_Forall_empty].
  - by apply (step_ok s1 l s2); [apply IH|].
Qed.

(** Executions of the abstract queue. *)
Inductive fifo_steps : fifo -> list label -> fifo -> Prop :=
  | fifo_steps_nil f : fifo_steps f [] f
  | fifo_steps_snoc f tr f' l f'' :
      fifo_steps f tr f' -> fifo_step maxEvents maxBytes f' l f'' -> fifo_steps f (tr ++ [l]) f''.

Lemma accepted_app a b : accepted (a ++ b) = accepted a ++ accepted b.
Proof. apply omap_app. Qed.
Lemma delivered_app a b : delivered (a ++ b) = delivered a ++ delivered b.
Proof. apply omap_app. Qed.

Lemma fifo_order f tr f' :
  fifo_steps f tr f' ->
  fifo_items f ++ accepted tr = delivered tr ++ fifo_items f'.
Proof.
  induction 1 as [f|f tr f1 l f2 _ IH Hs]; [by rewrite app_nil_r|].
  rewrite accepted_app, delivered_app, app_assoc, IH, <- !app_assoc. f_equal.
  destruct Hs; simpl; by rewrite ?app_nil_r.
Qed.

(** A closed, empty queue admits and delivers nothing more. *)
Lemma fifo_drained f tr f' :
  fifo_steps f tr f' -> fifo_closed f = true -> fifo_items f = [] ->
  accepted tr = [] /\ delivered tr = [].
Proof.
  intros H Hc Hi.
  enough ((fifo_closed f' = true /\ fifo_items f' = []) /\ accepted tr = [] /\ delivered tr = [])
    as [_ ?] by done.
  induction H as [f|f tr f1 l f2 _ IH Hs]; [done|].
  destruct (IH Hc Hi) as ([Hc1 Hi1] & Ha & Hd). rewrite accepted_app, delivered_app, Ha, Hd.
  by destruct Hs; simpl in *; simplify_eq.
Qed.

Lemma steps_simulated s tr s' :
  system_ok s -> steps s tr s' ->
  system_ok s' /\ fifo_steps (abstraction s) tr (abstraction s').
Proof using Hmax.
  intros Hok. induction 1 as [s|s tr s1 l s2 _ IH Hs]; [split; [done|constructor]|].
  destruct (IH Hok) as [Hok1 Hf]. destruct (step_ok s1 l s2 Hok1 Hs) as [Hok2 Hf2].
  split; [done|]. by econstructor.
Qed.
End Bounded.

(** ** Schedules are executions *)

Lemma perform_step a s l s' : perform a s = Some (l, s') -> step s l s'.
Proof.
  destruct s as [q ts]. destruct a as [i c|i|i|i e|]; simpl.
  - destruct (ts !! i) eqn:Hi; [done|]. intros [= <- <-]. by constructor.
  - destruct (ts !! i) as [[c|c g|c r]|] eqn:Hi; try done.
    destruct (attempt c q) as [[t q']|e|] eqn:Ha; [| |done]; intros [= <- <-].
    + by eapply step_attempt.
    + by eapply step_refused.
  - destruct (ts !! i) as [[c|c g|c r]|] eqn:Hi; try done.
    destruct (Nat.ltb_spec g (q_changed q)); [|done]. intros [= <- <-]. by eapply step_woken.
  - destruct (ts !! i) as [[c|c g|c r]|] eqn:Hi; try done.
    destruct (give_up_error c e) eqn:He; [|done]. intros [= <- <-]. by eapply step_give_up.
  - intros [= <- <-]. constructor.
Qed.

Lemma schedule_steps l tr s0 s tr' s' :
  steps s0 tr s -> schedule l tr s = Some (tr', s') -> steps s0 tr' s'.
Proof.
  revert tr s. induction l as [|a l IH]; intros tr s Hs; simpl; [by intros [= <- <-]|].
  destruct (perform a s) as [[x s1]|] eqn:E; [|done]. simpl. apply IH.
  econstructor; [done|by eapply perform_step].
Qed.

(** ** The promises of the queue *)

(** C18. In every reachable state the byte counter is the payload size of the
    queued frames, both limits hold, the slots of delivered frames are cleared
    (no payload is retained), and compaction keeps the slice within twice the
    queued frames plus 1024 slots. *)
Theorem queue_invariant maxEvents maxBytes tr s :
  0 <= maxBytes < 2 ^ 62 -> steps (initial maxEvents maxBytes) tr s ->
  let q := s_queue s in
  usage q = (Z.of_nat (length (live q)), total (live q))
  /\ 0 <= q_events q <= Z.max 0 maxEvents /\ 0 <= q_bytes q <= maxBytes
  /\ take (q_head q) (q_items q) = replicate (q_head q) zero_queued
  /\ Z.of_nat (length (q_items q)) <= 2 * q_events q + 1024.
Proof.
  intros Hmax Hs q. destruct (steps_ok maxEvents maxBytes Hmax tr s Hs) as [Hq _]. fold q in Hq.
  pose proof (live_events _ _ q Hq) as He. pose proof (ok_bytes _ _ q Hq) as Hb.
  pose proof (total_nonneg _ (ok_sized _ _ q Hq)). pose proof (ok_total _ _ q Hq).
  pose proof (ok_events _ _ q Hq). pose proof (ok_head _ _ q Hq) as Hh.
  assert (length (live q) = length (q_items q) - q_head q)%nat as Hl by apply length_drop.
  unfold usage. rewrite He, Hb. split_and!; try done; try lia; [apply (ok_cleared _ _ q Hq)|].
  destruct (ok_compact _ _ q Hq); lia.
Qed.

(** C6. The queue with its mutex, its broadcast channel and its callers
    refines the abstract bounded queue: every execution is an execution of the
    abstract queue with the same admissions and deliveries, so frames are
    delivered exactly once, in order of admission. *)
Theorem queue_refines_fifo maxEvents maxBytes tr s :
  0 <= maxBytes < 2 ^ 62 -> steps (initial maxEvents maxBytes) tr s ->
  fifo_steps maxEvents maxBytes (mkFifo [] false) tr (abstraction s)
  /\ accepted tr = delivered tr ++ live (s_queue s).
Proof.
  intros Hmax Hs.
  assert (system_ok maxEvents maxBytes (initial maxEvents maxBytes)) as Hok.
  { by apply (steps_ok _ _ Hmax []); [constructor]. }
  destruct (steps_simulated _ _ Hmax _ _ _ Hok Hs) as [_ Hf]. split; [done|].
  by apply fifo_order in Hf.
Qed.

(** C31. No wake-up is lost: a caller blocked in [select] whose operation could
    now make progress (room, a frame, or a closed queue) finds its channel
    closed, so it can run again. *)
Theorem no_lost_wakeup maxEvents maxBytes tr s i c g :
  0 <= maxBytes < 2 ^ 62 -> steps (initial maxEvents maxBytes) tr s ->
  s_threads s !! i = Some (Waiting c g) ->
  attempt c (s_queue s) <> Ok (Waiting c (q_changed (s_queue s)), s_queue s) ->
  step s LSilent (mkSystem (s_queue s) (<[i := Running c]> (s_threads s))).
Proof.
  intros Hmax Hs Hi Ha. destruct (steps_ok _ _ Hmax tr s Hs) as [_ Hts].
  destruct (Hts i _ Hi) as (_ & Hg & Hb). destruct s as [q ts]. simpl in *.
  apply (step_woken q ts i c g); [done|]. destruct (decide (g = q_changed q)) as [->|]; [|lia].
  by destruct (Ha (Hb eq_refl)).
Qed.

(** A consumer is told that the queue is closed only once every admitted
    frame has been delivered, and no frame is admitted afterwards. *)
Theorem closed_means_drained maxEvents maxBytes tr s i tr' s' :
  0 <= maxBytes < 2 ^ 62 -> steps (initial maxEvents maxBytes) tr s ->
  s_threads s !! i = Some (Returned Dequeue (RError ErrQueueClosed)) ->
  steps s tr' s' ->
  accepted tr = delivered tr /\ accepted tr' = [] /\ delivered tr' = [].
Proof.
  intros Hmax Hs Hi Hs'. pose proof (steps_ok _ _ Hmax tr s Hs) as Hok.
  pose proof Hok as [_ Hts]. destruct (Hts i _ Hi) as [Hc Hl].
  destruct (queue_refines_fifo maxEvents maxBytes tr s Hmax Hs) as [_ ->].
  destruct (steps_simulated _ _ Hmax _ _ _ Hok Hs') as [_ Hf].
  rewrite Hl, app_nil_r. split; [done|]. by eapply fifo_drained.
Qed.

(** ** The interface the pipeline is verified against

    What a bounded queue does in one critical section, and what the pipeline
    relies on: admission appends, delivery takes the oldest frame, refusal on
    delivery means closed and drained. *)
Class QueueOps (Q : Type) := {
  bq_live : Q -> list queuedFrame;
  bq_closed : Q -> bool;
  bq_enqueue : Frame -> Q -> outcome queue_error (bool * Q);
  bq_dequeue : Q -> outcome queue_error (option queuedFrame * Q);
  bq_close : Q -> Q
}.

Class QueueLaws (Q : Type) `{QueueOps Q} := {
  bq_ok : Q -> Prop;
  bq_enqueue_law f q b q' :
    bq_ok q -> bq_enqueue f q = Ok (b, q') ->
    bq_ok q' /\ bq_closed q' = bq_closed q
    /\ bq_live q' = bq_live q ++ (if b then [mkQueued f (frame_size f)] else []);
  bq_dequeue_law q o q' :
    bq_ok q -> bq_dequeue q = Ok (o, q') ->
    bq_ok q' /\ bq_closed q' = bq_closed q /\ bq_live q = option_list o ++ bq_live q';
  bq_dequeue_refused q e :
    bq_ok q -> bq_dequeue q = Err e -> bq_closed q = true /\ bq_live q = [];
  bq_enqueue_closed f q b q' :
    bq_ok q -> bq_closed q = true -> bq_enqueue f q <> Ok (b, q');
  bq_close_law q :
    bq_ok q -> bq_ok (bq_close q) /\ bq_closed (bq_close q) = true
    /\ bq_live (bq_close q) = bq_live q
}.

(** The entry check of [enqueue], with its first critical section. *)
Definition enqueue_once (frame : Frame) (q : frameQueue) : outcome queue_error (bool * frameQueue) :=
  if q_maxBytes q <? frame_size frame then Err ErrQueueFull
  else enqueue_section (frame_size frame) frame q.

#[export] Instance frameQueue_ops : QueueOps frameQueue := {
  bq_live := live;
  bq_closed := q_closed;
  bq_enqueue := enqueue_once;
  bq_dequeue := dequeue_section;
  bq_close := close_section
}.

Definition some_limits (q : frameQueue) : Prop :=
  exists maxEvents maxBytes, 0 <= maxBytes < 2 ^ 62 /\ queue_ok maxEvents maxBytes q.

#[export] Instance frameQueue_laws : QueueLaws frameQueue.
Proof.
  refine {| bq_ok := some_limits |}.
  - intros f q b q' (me & mb & Hm & Hq). cbn [bq_enqueue bq_closed bq_live frameQueue_ops]. unfold enqueue_once.
    destruct (ok_limits _ _ q Hq) as [_ ->].
    destruct (Z.ltb_spec mb (frame_size f)) as [|Hs]; [done|]. intros E.
    destruct (enqueue_section_cases me mb Hm q f b q' Hq Hs E)
      as [[-> ->]|(-> & Hq' & Hl & _ & Hc & Hc' & _)].
    + rewrite app_nil_r. split_and!; try done. by exists me, mb.
    + split_and!; [by exists me, mb|by rewrite Hc, Hc'|done].
  - intros q o q' (me & mb & Hm & Hq) E.
    destruct (dequeue_section_cases me mb Hm q o q' Hq E)
      as [(-> & -> & _ & _)|(i & -> & Hq' & Hl & _ & Hc)]; split_and!; try done; by exists me, mb.
  - intros q e (me & mb & Hm & Hq) E.
    destruct (attempt_refused me mb q Dequeue e Hq) as (_ & Hc & Hl); [|auto].
    unfold attempt. simpl in E. by rewrite E.
  - intros f q b q' _ Hc. simpl in *. unfold enqueue_once, enqueue_section. rewrite Hc. by destruct (_ <? _).
  - intros q (me & mb & Hm & Hq). simpl.
    destruct (close_section_cases me mb q Hq) as [E|(Hq' & _ & Hl & Hc)].
    + rewrite E. split_and!; [by exists me, mb| |done].
      revert E. unfold close_section. destruct (q_closed q) eqn:Hc; [done|].
      intros E. apply (f_equal q_changed) in E. simpl in E. lia.
    + split_and!; try done. by exists me, mb.
Defined.

Lemma newFrameQueue_ok maxEvents maxBytes :
  0 <= maxBytes < 2 ^ 62 -> bq_ok (newFrameQueue maxEvents maxBytes).
Proof. intros. exists maxEvents, maxBytes. split; [done|by apply queue_ok_initial]. Qed.

(** ** Concrete executions *)

Definition frame_of (payload : string) : Frame :=
  mkFrame payload zero_time "" "src" "" "udp" "192.0.2.1" 514.
Definition empty_system : system := initial 1 100.
Definition run (l : list action) : list label * system :=
  default ([], empty_system) (schedule l [] empty_system).

Lemma run_steps l :
  match schedule l [] empty_system with Some _ => true | None => false end = true ->
  steps empty_system (run l).1 (run l).2.
Proof.
  unfold run. destruct (schedule l [] empty_system) as [[tr s]|] eqn:E; [|done]. intros _.
  eapply schedule_steps; [constructor|done].
Qed.

(** A producer blocks on a full queue; a delivery makes room for it. *)
Definition full_then_room : list action :=
  [AStart 0 (Enqueue (frame_of "first")); AAttempt 0;
   AStart 1 (Enqueue (frame_of "second")); AAttempt 1;
   AStart 2 Dequeue; AAttempt 2].
(** The producer runs again, the queue closes, and the consumers drain it. *)
Definition then_drain : list action :=
  [AWake 1; AAttempt 1; AClose; AStart 3 Dequeue; AAttempt 3; AStart 4 Dequeue; AAttempt 4].

Lemma queue_invariant_witness :
  let q := s_queue (run full_then_room).2 in
  usage q = (Z.of_nat (length (live q)), total (live q))
  /\ 0 <= q_events q <= Z.max 0 1 /\ 0 <= q_bytes q <= 100
  /\ take (q_head q) (q_items q) = replicate (q_head q) zero_queued
  /\ Z.of_nat (length (q_items q)) <= 2 * q_events q + 1024.
Proof.
  apply (queue_invariant 1 100 (run full_then_room).1); [lia|]. apply run_steps. by vm_compute.
Defined.

Lemma queue_refines_fifo_witness :
  let s := (run full_then_room).2 in
  fifo_steps 1 100 (mkFifo [] false) (run full_then_room).1 (abstraction s)
  /\ accepted (run full_then_room).1 = delivered (run full_then_room).1 ++ live (s_queue s).
Proof. apply (queue_refines_fifo 1 100); [lia|]. apply run_steps. by vm_compute. Defined.

Lemma no_lost_wakeup_witness :
  let s := (run full_then_room).2 in
  step s LSilent (mkSystem (s_queue s) (<[1%nat := Running (Enqueue (frame_of "second"))]> (s_threads s))).
Proof.
  apply (no_lost_wakeup 1 100 (run full_then_room).1 _ 1 _ 1); [lia| | |].
  - apply run_steps. by vm_compute.
  - by vm_compute.
  - by vm_compute.
Defined.

Lemma closed_means_drained_witness :
  accepted (run (full_then_room ++ then_drain)).1 = delivered (run (full_then_room ++ then_drain)).1
  /\ accepted [] = [] /\ delivered [] = [].
Proof.
  apply (closed_means_drained 1 100 _ (run (full_then_room ++ then_drain)).2 4 []
    (run (full_then_room ++ then_drain)).2); [lia| | |constructor].
  - apply run_steps. by vm_compute.
  - by vm_compute.
Defined.
