(* ===== verification/Metrics.v ===== *)
(** * Metrics

    [backend/internal/metrics/metrics.go]: the counters and gauges the
    components update. A counter vector is a map from label values to its
    count; the latency histogram keeps its number of observations. *)
From S2P Require Import Prelude.

Record Metrics := mkMetrics {
  m_Received : gmap string Z;
  m_Accepted : gmap string Z;
  m_Parsed : gmap string Z;
  m_ParseErrors : gmap (string * string) Z;
  m_Stored : gmap string Z;
  m_Dropped : gmap (string * string) Z;
  m_Retried : gmap string Z;
  m_BytesReceived : gmap string Z;
  m_BytesStored : Z;
  m_QueueEvents : Z;
  m_QueueBytes : Z;
  m_ActiveConnections : gmap string Z;
  m_StorageDuration : gmap (string * string) Z
}.

Definition New : Metrics := mkMetrics ∅ ∅ ∅ ∅ ∅ ∅ ∅ ∅ 0 0 0 ∅ ∅.

(** [vec.WithLabelValues(k).Add(n)] *)
Definition add {K} `{Countable K} (k : K) (n : Z) (m : gmap K Z) : gmap K Z :=
  <[k := default 0 (m !! k) + n]> m.

(** The sum of a vector over the labels that satisfy [P]. *)
Definition count_if {K} `{Countable K} (P : K -> bool) (m : gmap K Z) : Z :=
  map_fold (fun k v acc => (if P k then v else 0) + acc) 0 m.
Definition count {K} `{Countable K} (m : gmap K Z) : Z := count_if (fun _ => true) m.

(** Updates of one metric, by name. *)
Definition received (k : string) (n : Z) (m : Metrics) : Metrics :=
  mkMetrics (add k n (m_Received m)) (m_Accepted m) (m_Parsed m) (m_ParseErrors m) (m_Stored m)
    (m_Dropped m) (m_Retried m) (m_BytesReceived m) (m_BytesStored m) (m_QueueEvents m)
    (m_QueueBytes m) (m_ActiveConnections m) (m_StorageDuration m).
Definition accepted_one (k : string) (m : Metrics) : Metrics :=
  mkMetrics (m_Received m) (add k 1 (m_Accepted m)) (m_Parsed m) (m_ParseErrors m) (m_Stored m)
    (m_Dropped m) (m_Retried m) (m_BytesReceived m) (m_BytesStored m) (m_QueueEvents m)
    (m_QueueBytes m) (m_ActiveConnections m) (m_StorageDuration m).
Definition parsed_one (k : string) (m : Metrics) : Metrics :=
  mkMetrics (m_Received m) (m_Accepted m) (add k 1 (m_Parsed m)) (m_ParseErrors m) (m_Stored m)
    (m_Dropped m) (m_Retried m) (m_BytesReceived m) (m_BytesStored m) (m_QueueEvents m)
    (m_QueueBytes m) (m_ActiveConnections m) (m_StorageDuration m).
Definition parse_error (k : string * string) (m : Metrics) : Metrics :=
  mkMetrics (m_Received m) (m_Accepted m) (m_Parsed m) (add k 1 (m_ParseErrors m)) (m_Stored m)
    (m_Dropped m) (m_Retried m) (m_BytesReceived m) (m_BytesStored m) (m_QueueEvents m)
    (m_QueueBytes m) (m_ActiveConnections m) (m_StorageDuration m).
Definition stored (k : string) (n bytes : Z) (m : Metrics) : Metrics :=
  mkMetrics (m_Received m) (m_Accepted m) (m_Parsed m) (m_ParseErrors m) (add k n (m_Stored m))
    (m_Dropped m) (m_Retried m) (m_BytesReceived m) (m_BytesStored m + bytes) (m_QueueEvents m)
    (m_QueueBytes m) (m_ActiveConnections m) (m_StorageDuration m).
Definition dropped (k : string * string) (n : Z) (m : Metrics) : Metrics :=
  mkMetrics (m_Received m) (m_Accepted m) (m_Parsed m) (m_ParseErrors m) (m_Stored m)
    (add k n (m_Dropped m)) (m_Retried m) (m_BytesReceived m) (m_BytesStored m) (m_QueueEvents m)
    (m_QueueBytes m) (m_ActiveConnections m) (m_StorageDuration m).
Definition retried (k : string) (m : Metrics) : Metrics :=
  mkMetrics (m_Received m) (m_Accepted m) (m_Parsed m) (m_ParseErrors m) (m_Stored m)
    (m_Dropped m) (add k 1 (m_Retried m)) (m_BytesReceived m) (m_BytesStored m) (m_QueueEvents m)
    (m_QueueBytes m) (m_ActiveConnections m) (m_StorageDuration m).
Definition bytes_received (k : string) (n : Z) (m : Metrics) : Metrics :=
  mkMetrics (m_Received m) (m_Accepted m) (m_Parsed m) (m_ParseErrors m) (m_Stored m)
    (m_Dropped m) (m_Retried m) (add k n (m_BytesReceived m)) (m_BytesStored m) (m_QueueEvents m)
    (m_QueueBytes m) (m_ActiveConnections m) (m_StorageDuration m).
Definition queue_gauges (events bytes : Z) (m : Metrics) : Metrics :=
  mkMetrics (m_Received m) (m_Accepted m) (m_Parsed m) (m_ParseErrors m) (m_Stored m)
    (m_Dropped m) (m_Retried m) (m_BytesReceived m) (m_BytesStored m) events bytes
    (m_ActiveConnections m) (m_StorageDuration m).
Definition connections (k : string) (n : Z) (m : Metrics) : Metrics :=
  mkMetrics (m_Received m) (m_Accepted m) (m_Parsed m) (m_ParseErrors m) (m_Stored m)
    (m_Dropped m) (m_Retried m) (m_BytesReceived m) (m_BytesStored m) (m_QueueEvents m)
    (m_QueueBytes m) (add k n (m_ActiveConnections m)) (m_StorageDuration m).
Definition observed (k : string * string) (m : Metrics) : Metrics :=
  mkMetrics (m_Received m) (m_Accepted m) (m_Parsed m) (m_ParseErrors m) (m_Stored m)
    (m_Dropped m) (m_Retried m) (m_BytesReceived m) (m_BytesStored m) (m_QueueEvents m)
    (m_QueueBytes m) (m_ActiveConnections m) (add k 1 (m_StorageDuration m)).

(** ** Sums *)

Lemma count_if_empty {K} `{Countable K} (P : K -> bool) : count_if P (∅ : gmap K Z) = 0.
Proof. apply map_fold_empty. Qed.

Lemma count_if_insert_fresh {K} `{Countable K} (P : K -> bool) (m : gmap K Z) k v :
  m !! k = None -> count_if P (<[k := v]> m) = (if P k then v else 0) + count_if P m.
Proof.
  intros Hk. unfold count_if. rewrite map_fold_insert_L; [done| |done].
  intros. destruct (P j1), (P j2); lia.
Qed.

Lemma count_if_add {K} `{Countable K} (P : K -> bool) (m : gmap K Z) k n :
  count_if P (add k n m) = count_if P m + (if P k then n else 0).
Proof.
  unfold add. destruct (m !! k) as [v|] eqn:Hk; simpl.
  - rewrite <- (insert_delete_id m k v Hk) at 2. rewrite <- insert_delete_eq.
    rewrite !count_if_insert_fresh by apply lookup_delete_eq. destruct (P k); lia.
  - rewrite count_if_insert_fresh by done. destruct (P k); lia.
Qed.

Create Rewrite HintDb counts.
#[export] Hint Rewrite @count_if_add @count_if_empty : counts.
