(* ===== verification/Pipeline.v ===== *)
(** * The ingestion pipeline

    [backend/internal/ingestion/pipeline.go]: admission ([Submit] and [Reject],
    the calls in [submission]), the parse workers, the batch worker and the
    storage append with retries; first what each computes, then the steps by
    which they run together.
    The storage backend, the clock and the random source answer through
    arguments; the queue is any implementation of the interface of [Queue]. *)
From S2P Require Import Prelude GoStrings GoTime Domain GoRegexp Parser ParserProps Parser3164 Normalization Config Queue Metrics.

(** [storage.AppendResult] *)
Record AppendResult := mkAppendResult { ar_Accepted : Z; ar_Bytes : Z }.

(** What [NewPipeline] keeps of the configuration. *)
Record Pipeline := mkPipeline {
  p_cfg : IngestionConfig;
  p_locations : gmap string Location;
  p_parserNames : gmap string string;
  p_backendName : string
}.

(** The two maps are filled source by source; an unknown time zone stops the
    construction. *)
Fixpoint source_tables (LoadLocation : string -> option Location) (l : list SourceConfig)
    (locations : gmap string Location) (names : gmap string string)
    : option (gmap string Location * gmap string string) :=
  match l with
  | [] => Some (locations, names)
  | s :: l =>
      loc ← LoadLocation (sc_Timezone s);
      source_tables LoadLocation l (<[sc_ID s := loc]> locations) (<[sc_ID s := sc_Parser s]> names)
  end.
Definition NewPipeline (LoadLocation : string -> option Location) (cfg : IngestionConfig)
    (backend : string) : option Pipeline :=
  '(locations, names) ← source_tables LoadLocation (ic_Sources cfg) ∅ ∅;
  Some (mkPipeline cfg locations names backend).

(** ** Admission *)

Definition protocol (f : Frame) : string := f_Protocol f.

(** Why [Submit] counts a refused frame: the error of [enqueue]. *)
Definition refusal_reason (e : queue_error) : string :=
  if bool_decide (e = ErrQueueClosed) then "closed" else "full".

(** ** The parse worker *)

(** The body of the loop for one frame: the entry to hand on, if any. *)
Definition parse_frame (p : Pipeline) (rand : option (list Z)) (frame : Frame) (m : Metrics)
    : outcome error (option LogEntry * Metrics) :=
  let loc := p_locations p !! f_SourceID frame in
  let configured := default ""%string (p_parserNames p !! f_SourceID frame) in
  let name := if configured =s "" then "auto"%string else configured in
  match Registry_Parse NewRegistry name (f_Payload frame) (f_ReceivedAt frame) loc with
  | Panic => Panic
  | Err _ => Ok (None, dropped ("parser", "invalid")%string 1 (parse_error (name, "invalid"%string) m))
  | Ok event =>
      match Normalize rand frame event with
      | Panic => Panic
      | Err _ => Ok (None, dropped ("normalization", "internal")%string 1 m)
      | Ok entry => Ok (Some entry, parsed_one (le_Format entry) m)
      end
  end.

(** ** Batches *)

(** [int64(len(entry.RawMessage) + len(entry.Message))] *)
Definition entry_size (e : LogEntry) : Z := len (le_RawMessage e) + len (le_Message e).

(** The batch being built, and its byte count. *)
Definition batch_state : Type := list LogEntry * Z.
Definition blen (b : list LogEntry) : Z := Z.of_nat (length b).

(** [flush]: the batch to append, if it is not empty; the state is reset. *)
Definition flush (s : batch_state) : list (list LogEntry) * batch_state :=
  match s.1 with [] => ([], s) | _ => ([s.1], ([], 0)) end.

(** One entry received from the parse workers. *)
Definition batch_entry (cfg : BatchConfig) (s : batch_state) (e : LogEntry)
    : list (list LogEntry) * batch_state :=
  let size := entry_size e in
  let (out, s) :=
    if (0 <? blen s.1) && ((bc_MaxEvents cfg <=? blen s.1) || (bc_MaxBytes cfg <? wrap64 (s.2 + size)))
    then flush s else ([], s) in
  let s := (s.1 ++ [e], wrap64 (s.2 + size)) in
  if (bc_MaxEvents cfg <=? blen s.1) || (bc_MaxBytes cfg <=? s.2)
  then let (out', s) := flush s in (out ++ out', s)
  else (out, s).

(** What the batch worker waits for: an entry, its timer, the end of the
    channel, or the end of the context, after which it takes the [rest] of the
    channel until that is closed. *)
Inductive batch_event := BEntry (e : LogEntry) | BTimer | BClosed | BCancelled (rest : list LogEntry).
Definition batch_step (cfg : BatchConfig) (s : batch_state) (ev : batch_event)
    : list (list LogEntry) * batch_state :=
  match ev with
  | BEntry e => batch_entry cfg s e
  | BTimer | BClosed => flush s
  | BCancelled rest => flush (s.1 ++ rest, s.2)
  end.
(** The worker returns once the channel is closed or the context has ended. *)
Definition batch_returns (ev : batch_event) : bool :=
  match ev with BClosed | BCancelled _ => true | BEntry _ | BTimer => false end.
Fixpoint batch_run (cfg : BatchConfig) (s : batch_state) (evs : list batch_event)
    : list (list LogEntry) * batch_state :=
  match evs with
  | [] => ([], s)
  | ev :: evs =>
      let (out, s) := batch_step cfg s ev in
      if batch_returns ev then (out, s) else
      let (out', s) := batch_run cfg s evs in
      (out ++ out', s)
  end.

(** ** Appending with retries *)

(** What an attempt meets: the answer of [Append], whether the context had
    ended after a failure, the random number drawn below a bound, and whether
    the wait ended with its timer. *)
Record attempt_env := mkAttempt {
  at_result : option AppendResult;
  at_ctx_err : bool;
  at_rand : Z -> Z;
  at_timer : bool
}.

Inductive append_end :=
  | Stored (attempts : Z) (r : AppendResult)
  | Dropped (attempts : Z)
  | NoAttempt.

(** The jittered wait after a failure. *)
Definition retry_wait (env : attempt_env) (backoff : Z) : Z :=
  wrap64 (backoff + at_rand env (Z.max 1 (Z.quot backoff 2))).

(** Whether a failed attempt is the last one, and the backoff after the wait
    that follows it otherwise. *)
Definition gives_up (cfg : RetryConfig) (attempt : Z) (ctx_err : bool) : bool :=
  (attempt =? rc_MaxAttempts cfg) || ctx_err.
Definition next_backoff (cfg : RetryConfig) (timer : bool) (backoff : Z) : Z :=
  if timer then Z.min (wrap64 (backoff * 2)) (rc_MaxBackoff cfg) else backoff.

(** What an attempt counts: a success, the failure that drops a batch of [n]
    entries, or one that is retried. *)
Definition append_success (backend : string) (r : AppendResult) (m : Metrics) : Metrics :=
  stored backend (ar_Accepted r) (ar_Bytes r) (observed (backend, "success"%string) m).
Definition append_exhausted (backend : string) (n : Z) (m : Metrics) : Metrics :=
  dropped ("storage", "retry_exhausted")%string n (observed (backend, "error"%string) m).
Definition append_retried (backend : string) (m : Metrics) : Metrics :=
  retried backend (observed (backend, "error"%string) m).

(** The loop from [attempt] on, with the waits it makes. [None] is out of
    fuel. *)
Fixpoint retry_loop (cfg : RetryConfig) (backend : string) (n : Z) (env : Z -> attempt_env)
    (fuel : nat) (attempt backoff : Z) (waits : list Z) (m : Metrics)
    : option (append_end * list Z * Metrics) :=
  if negb (attempt <=? rc_MaxAttempts cfg) then Some (NoAttempt, waits, m) else
  match fuel with
  | O => None
  | S fuel =>
      match at_result (env attempt) with
      | Some r => Some (Stored attempt r, waits, append_success backend r m)
      | None =>
          if gives_up cfg attempt (at_ctx_err (env attempt))
          then Some (Dropped attempt, waits, append_exhausted backend n m)
          else
            retry_loop cfg backend n env fuel (attempt + 1)
              (next_backoff cfg (at_timer (env attempt)) backoff)
              (waits ++ [retry_wait (env attempt) backoff]) (append_retried backend m)
      end
  end.

Definition appendWithRetry (cfg : RetryConfig) (backend : string) (env : Z -> attempt_env)
    (batch : list LogEntry) (m : Metrics) : option (append_end * list Z * Metrics) :=
  retry_loop cfg backend (blen batch) env (Z.to_nat (rc_MaxAttempts cfg)) 1
    (rc_InitialBackoff cfg) [] m.

(** ** Lemmas on retries *)

(** The waits ended by their timer among the first [i] attempts. *)
Fixpoint fired (env : Z -> attempt_env) (i : nat) : nat :=
  match i with
  | O => O
  | S i => (fired env i + if at_timer (env (Z.of_nat (S i))) then 1 else 0)%nat
  end.
(** The backoff after [k] of them: doubling, capped. *)
Definition backoff_at (cfg : RetryConfig) (k : nat) : Z :=
  Z.min (rc_MaxBackoff cfg) (rc_InitialBackoff cfg * 2 ^ Z.of_nat k).

Definition retry_ok (cfg : RetryConfig) : Prop :=
  1 <= rc_MaxAttempts cfg /\ 0 < rc_InitialBackoff cfg <= rc_MaxBackoff cfg
  /\ rc_MaxBackoff cfg < 2 ^ 61.
Definition rand_ok (env : Z -> attempt_env) : Prop :=
  forall a n, 0 < n -> 0 <= at_rand (env a) n < n.

(** A wait of the schedule: the backoff and at most half of it again. *)
Definition in_schedule (cfg : RetryConfig) (env : Z -> attempt_env) (i : nat) (w : Z) : Prop :=
  let b := backoff_at cfg (fired env i) in b <= w < b + Z.max 1 (b / 2).

Lemma backoff_bounds cfg k :
  retry_ok cfg -> rc_InitialBackoff cfg <= backoff_at cfg k <= rc_MaxBackoff cfg.
Proof.
  intros (_ & Hi & _). unfold backoff_at. assert (1 <= 2 ^ Z.of_nat k).
  { rewrite <- (Z.pow_0_r 2). apply Z.pow_le_mono_r; lia. }
  nia.
Qed.

Lemma backoff_next cfg k :
  retry_ok cfg -> Z.min (wrap64 (backoff_at cfg k * 2)) (rc_MaxBackoff cfg) = backoff_at cfg (S k).
Proof.
  intros Hok. pose proof (backoff_bounds cfg k Hok) as Hb. destruct Hok as (_ & Hi & Hm).
  rewrite wrap64_small.
  - unfold backoff_at. rewrite Nat2Z.inj_succ, Z.pow_succ_r by lia. lia.
  - unfold min_int64, max_int64. change (2 ^ 61) with 2305843009213693952 in Hm.
    change (2 ^ 63) with 9223372036854775808. lia.
Qed.

Lemma retry_wait_schedule cfg env a i :
  retry_ok cfg -> rand_ok env ->
  in_schedule cfg env i (retry_wait (env a) (backoff_at cfg (fired env i))).
Proof.
  intros Hok Hr. pose proof (backoff_bounds cfg (fired env i) Hok) as Hb.
  destruct Hok as (_ & Hi & Hm). unfold in_schedule, retry_wait.
  set (b := backoff_at cfg (fired env i)) in *. rewrite Z.quot_div_nonneg by lia.
  pose proof (Hr a (Z.max 1 (b / 2)) ltac:(lia)) as Hrand.
  assert (b / 2 <= b) by (apply Z.div_le_upper_bound; lia).
  rewrite wrap64_small; [lia|]. unfold min_int64, max_int64.
  change (2 ^ 61) with 2305843009213693952 in Hm. change (2 ^ 63) with 9223372036854775808. lia.
Qed.

(** What the loop promises when it ends after [k] attempts. *)
Record retry_end (cfg : RetryConfig) (backend : string) (n : Z) (env : Z -> attempt_env)
    (waits : list Z) (m m' : Metrics) (k : Z) (r : option AppendResult) : Prop := {
  re_attempts : 1 <= k <= rc_MaxAttempts cfg;
  re_failures : forall j, 1 <= j < k -> at_result (env j) = None;
  re_last : at_result (env k) = r;
  re_waits : Z.of_nat (length waits) = k - 1;
  re_schedule : forall i w, waits !! i = Some w -> in_schedule cfg env i w;
  re_outcome : match r with
    | Some a => m_Stored m' = add backend (ar_Accepted a) (m_Stored m) /\ m_Dropped m' = m_Dropped m
    | None => m_Stored m' = m_Stored m
        /\ m_Dropped m' = add ("storage", "retry_exhausted")%string n (m_Dropped m)
        /\ (k = rc_MaxAttempts cfg \/ at_ctx_err (env k) = true)
    end;
  re_rest : m_Received m' = m_Received m /\ m_Accepted m' = m_Accepted m
    /\ m_Parsed m' = m_Parsed m /\ m_BytesReceived m' = m_BytesReceived m
}.
Arguments retry_end : clear implicits.

Definition ends_with (e : append_end) (k : Z) (r : option AppendResult) : Prop :=
  e = match r with Some a => Stored k a | None => Dropped k end.

Lemma retry_loop_spec cfg backend n env fuel attempt waits m0 m :
  retry_ok cfg -> rand_ok env ->
  1 <= attempt <= rc_MaxAttempts cfg -> rc_MaxAttempts cfg - attempt < Z.of_nat fuel ->
  (forall j, 1 <= j < attempt -> at_result (env j) = None) ->
  Z.of_nat (length waits) = attempt - 1 ->
  (forall i w, waits !! i = Some w -> in_schedule cfg env i w) ->
  m_Stored m = m_Stored m0 -> m_Dropped m = m_Dropped m0 ->
  m_Received m = m_Received m0 /\ m_Accepted m = m_Accepted m0
    /\ m_Parsed m = m_Parsed m0 /\ m_BytesReceived m = m_BytesReceived m0 ->
  exists e waits' m' k r,
    retry_loop cfg backend n env fuel attempt (backoff_at cfg (fired env (length waits))) waits m
      = Some (e, waits', m')
    /\ ends_with e k r /\ retry_end cfg backend n env waits' m0 m' k r.
Proof.
  intros Hok Hrand. revert attempt waits m.
  induction fuel as [|fuel IH]; intros attempt waits m Ha Hfuel Hfail Hlen Hsched Hs Hd Hrest; [lia|].
  cbn [retry_loop]. destruct (Z.leb_spec attempt (rc_MaxAttempts cfg)); [|lia]. cbn [negb].
  destruct (at_result (env attempt)) as [r|] eqn:Er.
  - eexists _, _, _, attempt, (Some r). split; [done|]. split; [done|].
    constructor; simpl; try done. by rewrite Hs.
  - unfold gives_up, next_backoff. destruct (_ || _) eqn:Estop.
    + eexists _, _, _, attempt, None. split; [done|]. split; [done|].
      constructor; simpl; try done. split; [done|]. split; [by rewrite Hd|].
      apply orb_true_iff in Estop as [->%Z.eqb_eq|]; auto.
    + apply orb_false_iff in Estop as [Hne%Z.eqb_neq _].
      set (w := retry_wait _ _).
      assert (Hnext : (if at_timer (env attempt)
          then Z.min (wrap64 (backoff_at cfg (fired env (length waits)) * 2)) (rc_MaxBackoff cfg)
          else backoff_at cfg (fired env (length waits)))
        = backoff_at cfg (fired env (length (waits ++ [w])))).
      { rewrite length_app, Nat.add_1_r. cbn [fired].
        replace (Z.of_nat (S (length waits))) with attempt by lia.
        destruct (at_timer (env attempt)); [by rewrite backoff_next, Nat.add_1_r|by rewrite Nat.add_0_r]. }
      rewrite Hnext. apply IH; try done; try lia.
      * intros j Hj. destruct (Z.eq_dec j attempt) as [->|]; [done|]. apply Hfail. lia.
      * rewrite length_app. simpl. lia.
      * intros i x [Hx|[Hi Hx]]%lookup_app_Some; [by apply Hsched|].
        apply list_lookup_singleton_Some in Hx as [Hi0 <-].
        replace i with (length waits) by lia. by apply retry_wait_schedule.
Qed.

Lemma append_spec cfg backend env batch m :
  retry_ok cfg -> rand_ok env ->
  exists e waits m' k r,
    appendWithRetry cfg backend env batch m = Some (e, waits, m')
    /\ ends_with e k r /\ retry_end cfg backend (blen batch) env waits m m' k r.
Proof.
  intros Hok Hrand. pose proof Hok as (Hmax & Hi & _).
  unfold appendWithRetry.
  replace (rc_InitialBackoff cfg) with (backoff_at cfg (fired env (length (@nil Z)))).
  - apply retry_loop_spec; try done; simpl; lia.
  - unfold backoff_at. simpl. rewrite Z.mul_1_r. lia.
Qed.

(** C21. A flush always ends, after at most [MaxAttempts] appends. Either the
    last append succeeded, all earlier ones having failed, and the stored
    counter grows by what the backend accepted; or every append failed, the
    attempts ran out or the context ended, and the whole batch is counted as
    dropped. The [i]-th wait lies within half again of the capped, doubling
    backoff. *)
Theorem appendWithRetry_ends cfg backend env batch m :
  retry_ok cfg -> rand_ok env ->
  exists e waits m' k r,
    appendWithRetry cfg backend env batch m = Some (e, waits, m')
    /\ ends_with e k r /\ retry_end cfg backend (blen batch) env waits m m' k r.
Proof. apply append_spec. Qed.

Definition sample_retry : RetryConfig := mkRetryConfig 5 100000000 5000000000 "100ms" "5s".
(** A backend that recovers at the third attempt. *)
Definition recovering (a : Z) : attempt_env :=
  mkAttempt (if a <? 3 then None else Some (mkAppendResult 2 512)) false (fun n => n - 1) true.

Lemma appendWithRetry_ends_witness :
  exists e waits m' k r,
    appendWithRetry sample_retry "victorialogs" recovering [] New = Some (e, waits, m')
    /\ ends_with e k r
    /\ retry_end sample_retry "victorialogs" 0 recovering waits New m' k r.
Proof.
  apply (appendWithRetry_ends sample_retry "victorialogs" recovering []).
  - unfold retry_ok. simpl. lia.
  - intros a n Hn. simpl. lia.
Defined.

(** ** Lemmas on batches *)

(** The entries the worker takes before it returns. *)
Fixpoint entries (evs : list batch_event) : list LogEntry :=
  match evs with
  | [] | BClosed :: _ => []
  | BEntry e :: evs => e :: entries evs
  | BTimer :: evs => entries evs
  | BCancelled rest :: _ => rest
  end.
Definition bsize (b : list LogEntry) : Z := foldr (fun e n => entry_size e + n) 0 b.

Lemma bsize_app a b : bsize (a ++ b) = bsize a + bsize b.
Proof. induction a as [|e a IH]; simpl; [lia|]. rewrite IH. lia. Qed.
Lemma entry_size_nonneg e : 0 <= entry_size e.
Proof. unfold entry_size. pose proof (len_nonneg (le_RawMessage e)). pose proof (len_nonneg (le_Message e)). lia. Qed.
Lemma bsize_nonneg b : 0 <= bsize b.
Proof. induction b as [|e b IH]; simpl; [lia|]. pose proof (entry_size_nonneg e). lia. Qed.

Lemma flush_concat s : concat (flush s).1 ++ (flush s).2.1 = s.1.
Proof. destruct s as [[|e b] n]; [done|]. simpl. by rewrite !app_nil_r. Qed.

Lemma batch_step_concat cfg s ev :
  concat (batch_step cfg s ev).1 ++ (batch_step cfg s ev).2.1 = s.1 ++ entries [ev].
Proof.
  destruct ev as [e| | |rest]; simpl; [|by rewrite flush_concat, ?app_nil_r..].
  unfold batch_entry.
  assert (Hfirst : forall b : bool, let (out, s1) := if b then flush s else ([], s) in
    concat out ++ s1.1 = s.1).
  { intros []; [|done]. pose proof (flush_concat s). by destruct (flush s). }
  specialize (Hfirst ((0 <? blen s.1) && ((bc_MaxEvents cfg <=? blen s.1)
    || (bc_MaxBytes cfg <? wrap64 (s.2 + entry_size e))))).
  destruct (if (0 <? blen s.1) && _ then flush s else ([], s)) as [out s1]. rewrite <- Hfirst.
  set (s2 := (s1.1 ++ [e], wrap64 (s1.2 + entry_size e))).
  destruct (_ || _).
  - pose proof (flush_concat s2) as Hf. destruct (flush s2) as [out' s3]. cbn [fst snd] in *.
    rewrite concat_app, <- !app_assoc. f_equal. exact Hf.
  - cbn [fst snd]. subst s2. cbn [fst]. by rewrite app_assoc.
Qed.

(** Batching neither loses, duplicates nor reorders entries: the batches
    appended, followed by the one being built, are exactly the entries
    received, whatever the timer does. *)
Theorem batch_run_preserves cfg b n evs :
  concat (batch_run cfg (b, n) evs).1 ++ (batch_run cfg (b, n) evs).2.1 = b ++ entries evs.
Proof.
  change b with ((b, n) : batch_state).1 at 3. generalize ((b, n) : batch_state). clear b n.
  induction evs as [|ev evs IH]; intros s; simpl; [by rewrite app_nil_r|].
  pose proof (batch_step_concat cfg s ev) as Hs. destruct (batch_step cfg s ev) as [out s1].
  pose proof (IH s1) as Hr. destruct (batch_run cfg s1 evs) as [out' s2]. cbn [fst snd] in *.
  destruct ev; cbn [batch_returns entries fst snd] in *; try exact Hs;
    rewrite concat_app, <- app_assoc, Hr, app_assoc, Hs, <- app_assoc; done.
Qed.

Section Bounds.
Context (cfg : BatchConfig).
Context (Hcfg : 1 <= bc_MaxEvents cfg /\ 0 < bc_MaxBytes cfg < 2 ^ 62).

Definition small (e : LogEntry) : Prop := entry_size e < 2 ^ 62.
(** The state between two events: below both limits, the count exact. *)
Definition pending_ok (s : batch_state) : Prop :=
  blen s.1 < bc_MaxEvents cfg /\ s.2 = bsize s.1 /\ s.2 < bc_MaxBytes cfg.
Definition batch_ok (b : list LogEntry) : Prop :=
  1 <= blen b <= bc_MaxEvents cfg /\ (bsize b <= bc_MaxBytes cfg \/ blen b = 1).

Lemma pending_nil : pending_ok ([], 0).
Proof using Hcfg. unfold pending_ok, blen. simpl. lia. Qed.

Lemma flush_ok s :
  pending_ok s \/ batch_ok s.1 -> Forall batch_ok (flush s).1 /\ pending_ok (flush s).2.
Proof using Hcfg.
  intros H. destruct s as [[|e b] n]; simpl.
  - split; [done|]. destruct H as [H|[Hb _]]; [done|]. unfold blen in Hb. simpl in Hb. lia.
  - split; [|apply pending_nil]. constructor; [|done]. destruct H as [(Hl & Hn & Hb)|H]; [|done].
    unfold batch_ok. simpl fst in *. simpl snd in *. subst n. split; [|left; lia].
    unfold blen in *. simpl in *. lia.
Qed.

Lemma batch_entry_ok s e :
  pending_ok s -> small e ->
  Forall batch_ok (batch_entry cfg s e).1 /\ pending_ok (batch_entry cfg s e).2.
Proof using Hcfg.
  intros Hp He. unfold batch_entry, small in *. change (2 ^ 62) with 4611686018427387904 in *.
  pose proof (entry_size_nonneg e) as H0.
  assert (Hwrap : forall s', pending_ok s' -> wrap64 (s'.2 + entry_size e) = s'.2 + entry_size e).
  { intros s' (_ & -> & Hb). pose proof (bsize_nonneg s'.1). apply wrap64_small.
    unfold min_int64, max_int64. change (2 ^ 63) with 9223372036854775808. lia. }
  rewrite (Hwrap s Hp).
  assert (Hfirst : let (out, s1) := if (0 <? blen s.1) && ((bc_MaxEvents cfg <=? blen s.1)
        || (bc_MaxBytes cfg <? s.2 + entry_size e)) then flush s else ([], s) in
    Forall batch_ok out /\ pending_ok s1
    /\ (s1.1 = [] \/ s1.2 + entry_size e <= bc_MaxBytes cfg)).
  { destruct (_ && _) eqn:Ec.
    - destruct (flush_ok s (or_introl Hp)) as [H1 H2].
      destruct s as [[|x b] n]; [by vm_compute in Ec|]. split_and!; try done. by left.
    - split_and!; try done. apply andb_false_iff in Ec as [Ec%Z.ltb_ge|Ec].
      + left. unfold blen in Ec. destruct s.1; [done|]. simpl in Ec. lia.
      + apply orb_false_iff in Ec as [_ Ec%Z.ltb_ge]. by right. }
  destruct (if (0 <? blen s.1) && _ then flush s else ([], s)) as [out s1]. destruct Hfirst as (Hout & Hp1 & Hfit).
  rewrite (Hwrap s1 Hp1). destruct Hp1 as (Hl & Hn & Hb).
  set (s2 := (s1.1 ++ [e], s1.2 + entry_size e)).
  assert (Hlen : blen s2.1 = blen s1.1 + 1).
  { unfold blen. simpl. rewrite length_app. simpl. lia. }
  assert (Hsize : bsize s2.1 = s2.2) by (simpl; rewrite bsize_app; simpl; lia).
  assert (Hbatch : batch_ok s2.1).
  { split; [unfold blen in *; lia|]. rewrite Hsize. destruct Hfit as [E|]; [right|by left].
    rewrite Hlen, E. done. }
  destruct (_ || _) eqn:Ec.
  - destruct (flush_ok s2 (or_intror Hbatch)) as [H1 H2]. destruct (flush s2) as [out' s3].
    split; [by apply Forall_app_2|done].
  - split; [done|]. apply orb_false_iff in Ec as [Ec1%Z.leb_gt Ec2%Z.leb_gt].
    change (pending_ok s2). unfold pending_ok. by rewrite Hsize.
Qed.

(** The channel's rest, when the context ends. *)
Fixpoint cancellation (evs : list batch_event) : option (list LogEntry) :=
  match evs with
  | [] | BClosed :: _ => None
  | BCancelled rest :: _ => Some rest
  | (BEntry _ | BTimer) :: evs => cancellation evs
  end.

(** The batches of a run: those within the limits, and the last one, which is
    flushed on cancellation with all that was pending. *)
Definition run_bounded (evs : list batch_event) (x : list (list LogEntry) * batch_state) : Prop :=
  exists regular final, x.1 = regular ++ final /\ Forall batch_ok regular /\ pending_ok x.2
  /\ match cancellation evs with
     | None => final = []
     | Some rest => exists pending, pending_ok pending /\ final = (flush (pending.1 ++ rest, pending.2)).1
     end.

Lemma batch_run_ok s evs :
  pending_ok s -> Forall small (entries evs) -> run_bounded evs (batch_run cfg s evs).
Proof using Hcfg.
  revert s. induction evs as [|ev evs IH]; intros s Hp Hs; [by exists [], []|].
  assert (Hstep : batch_returns ev = false -> Forall small (entries evs)
      /\ Forall batch_ok (batch_step cfg s ev).1 /\ pending_ok (batch_step cfg s ev).2).
  { destruct ev; try done; intros _; cbn [entries] in Hs.
    - apply Forall_cons in Hs as [He Hs]. split; [done|by apply batch_entry_ok].
    - split; [done|]. apply flush_ok. by left. }
  destruct ev as [e| | |rest]; cbn [batch_run batch_returns] in *.
  1, 2: destruct (Hstep eq_refl) as (Hs' & H1 & H2); destruct (batch_step _ _ _) as [out s1];
    destruct (IH s1 H2 Hs') as (regular & final & E & H3 & H4 & H5); destruct (batch_run cfg s1 evs) as [out' s2];
    exists (out ++ regular), final; cbn [fst snd] in *; rewrite E, app_assoc; split_and!; try done; by apply Forall_app_2.
  - destruct (flush_ok s (or_introl Hp)) as [H1 H2]. destruct (batch_step _ _ _) as [out s1] eqn:E.
    cbn [batch_step] in E. rewrite E in H1, H2. exists out, []. by rewrite app_nil_r.
  - destruct (batch_step _ _ _) as [out s1] eqn:E. cbn [batch_step] in E. exists [], out. split_and!; try done.
    + unfold flush in E. cbn [fst] in E. destruct (s.1 ++ rest) as [|x l] eqn:Es; injection E as <- <-.
      * apply app_eq_nil in Es as [Es _]. cbn [fst snd]. destruct s as [b n]. cbn in Es. by subst b.
      * apply pending_nil.
    + exists s. by rewrite E.
Qed.
End Bounds.

(** C25. Every batch the worker appends holds between one entry and [MaxEvents],
    and at most [MaxBytes] of text unless it is a single oversized entry; the
    batch being built is always below both limits, and its byte count is exact.
    The only exception is the end of the context: what was pending, itself below
    the limits, is then appended in one batch with the rest of the channel. *)
Theorem batch_run_bounded cfg evs :
  1 <= bc_MaxEvents cfg -> 0 < bc_MaxBytes cfg < 2 ^ 62 -> Forall small (entries evs) ->
  run_bounded cfg evs (batch_run cfg ([], 0) evs).
Proof.
  intros H1 H2 Hs. apply batch_run_ok; [done| |done]. by apply pending_nil.
Qed.

Definition sample_entry : LogEntry :=
  match Normalize (Some ids) sample_frame sample_event with
  | Ok e => e
  | _ => mkLogEntry "" "" zero_time zero_time "" "" "" "" 0 None "" None "" None "" "" "" "" "" "" ""
           "" ∅ ∅ ParseStatusInvalid 0 false
  end.
Definition sample_batch : BatchConfig := mkBatchConfig 2 1000 1000000000 "1s".

Definition sample_events : list batch_event :=
  [BEntry sample_entry; BEntry sample_entry; BEntry sample_entry; BTimer; BEntry sample_entry;
   BCancelled [sample_entry; sample_entry; sample_entry]].

Lemma batch_run_bounded_witness : run_bounded sample_batch sample_events (batch_run sample_batch ([], 0) sample_events).
Proof.
  apply (batch_run_bounded sample_batch sample_events).
  - vm_compute. congruence.
  - split; vm_compute; congruence.
  - repeat constructor; vm_compute; congruence.
Defined.

(** When the context ends, the limits do not hold: with at most two entries a
    batch, four are appended at once. *)
Theorem cancelled_batch_unlimited :
  bc_MaxEvents sample_batch = 2 /\ map blen (batch_run sample_batch ([], 0) sample_events).1 = [2; 1; 4].
Proof. split; vm_compute; reflexivity. Qed.

(** ** The running pipeline

    Submitters, parse workers, the channel between them, the batch worker and
    what stops them, as a transition system over any queue. Every access to what
    the goroutines share is a step of its own: a section of the queue, the flag
    [accepting], a send or a receive, the answer of an append, and each update of
    a counter that the accounting compares. What a goroutine computes on its own
    is part of the step before or after; counters that no claim compares move
    with the one next to them. *)

(** A call of [Submit] or [Reject], after what it has done last. *)
Inductive submission :=
  | SReceived (frame : Frame)
  | SLoading (frame : Frame)
  | SEnqueueing (frame : Frame)
  | SQueued (frame : Frame)
  | SAccepted (frame : Frame)
  | SUsage (usage : Z * Z) (frame : Frame)
  | SRefused (reason : string) (err : queue_error) (frame : Frame)
  | SReturned (frame : Frame) (answer : option queue_error)
  | SRejecting (proto reason : string) (bytes : Z)
  | SDropping (reason : string)
  | SRejected.

(** A parse worker: waiting in [dequeue], updating the gauges, parsing, handing
    over an entry, past its loop, or counted down in the wait group. *)
Inductive worker :=
  | WIdle
  | WDequeued (item : queuedFrame)
  | WUsage (usage : Z * Z) (item : queuedFrame)
  | WParsing (item : queuedFrame)
  | WSending (e : LogEntry)
  | WLeaving
  | WExited.

(** [appendWithRetry] of a batch: before an attempt, after its failure, in the
    wait, or acknowledged and not yet counted. *)
Inductive appending :=
  | ATry (attempt backoff : Z) (batch : list LogEntry)
  | AFailed (attempt backoff : Z) (batch : list LogEntry)
  | AWaiting (attempt backoff : Z) (batch : list LogEntry)
  | AStored (batch : list LogEntry) (r : AppendResult).

(** The batch worker serves events, drains after cancellation, has seen the end
    of the channel, or has closed [done]. *)
Inductive batch_mode := BServing | BDraining | BClosing | BDone.

(** [ps_flushes] are the appends the batch worker still has to make before its
    next event, the current one first. *)
Record state (Q : Type) := mkState {
  ps_queue : Q;
  ps_submissions : list submission;
  ps_workers : list worker;
  ps_parsed : list LogEntry;
  ps_closed : bool;
  ps_batch : batch_state;
  ps_flushes : list appending;
  ps_mode : batch_mode;
  ps_accepting : bool;
  ps_cancelled : bool;
  ps_store : list (list LogEntry);
  ps_metrics : Metrics
}.
Arguments mkState {Q}.
Arguments ps_queue {Q}. Arguments ps_submissions {Q}. Arguments ps_workers {Q}.
Arguments ps_parsed {Q}. Arguments ps_closed {Q}. Arguments ps_batch {Q}. Arguments ps_flushes {Q}.
Arguments ps_mode {Q}. Arguments ps_accepting {Q}. Arguments ps_cancelled {Q}. Arguments ps_store {Q}.
Arguments ps_metrics {Q}.

(** The capacity of [parsed]. *)
Definition parsed_capacity : nat := 64.

(** What [rand.Read] puts into its array of sixteen bytes, when it does not fail. *)
Definition random_bytes (rand : option (list Z)) : Prop :=
  match rand with Some b => length b = 16%nat /\ Forall is_byte b | None => True end.
#[export] Instance random_bytes_dec rand : Decision (random_bytes rand).
Proof. destruct rand; cbn; unfold is_byte; apply _. Defined.

Definition all_exited (ws : list worker) : bool :=
  forallb (fun w => match w with WExited => true | _ => false end) ws.

Section System.
Context {Q : Type} `{QueueLaws Q}.
Context (p : Pipeline).
Context (usage_of : Q -> Z * Z).

Abbreviation retry := (ic_Retry (p_cfg p)).
Abbreviation backend := (p_backendName p).

(** The appends of the batches a flush hands over. *)
Definition new_flushes (out : list (list LogEntry)) : list appending :=
  map (ATry 1 (rc_InitialBackoff retry)) out.

Inductive pstep : state Q -> state Q -> Prop :=
  (* Submit *)
  | p_submit q ss ws ch cl b fl md acc can st m frame :
      pstep (mkState q ss ws ch cl b fl md acc can st m)
        (mkState q (ss ++ [SReceived frame]) ws ch cl b fl md acc can st (received (protocol frame) 1 m))
  | p_submit_bytes q ss i ws ch cl b fl md acc can st m frame :
      ss !! i = Some (SReceived frame) ->
      pstep (mkState q ss ws ch cl b fl md acc can st m)
        (mkState q (<[i := SLoading frame]> ss) ws ch cl b fl md acc can st
           (bytes_received (protocol frame) (frame_size frame) m))
  | p_submit_loaded q ss i ws ch cl b fl md acc can st m frame :
      ss !! i = Some (SLoading frame) ->
      pstep (mkState q ss ws ch cl b fl md acc can st m)
        (mkState q (<[i := if acc then SEnqueueing frame else SRefused "draining" ErrQueueClosed frame]> ss)
           ws ch cl b fl md acc can st m)
  | p_submit_queued q q' ss i ws ch cl b fl md acc can st m frame :
      ss !! i = Some (SEnqueueing frame) -> bq_enqueue frame q = Ok (true, q') ->
      pstep (mkState q ss ws ch cl b fl md acc can st m)
        (mkState q' (<[i := SQueued frame]> ss) ws ch cl b fl md acc can st m)
  | p_submit_failed q ss i ws ch cl b fl md acc can st m frame e :
      ss !! i = Some (SEnqueueing frame) ->
      pstep (mkState q ss ws ch cl b fl md acc can st m)
        (mkState q (<[i := SRefused (refusal_reason e) e frame]> ss) ws ch cl b fl md acc can st m)
  | p_submit_accepted q ss i ws ch cl b fl md acc can st m frame :
      ss !! i = Some (SQueued frame) ->
      pstep (mkState q ss ws ch cl b fl md acc can st m)
        (mkState q (<[i := SAccepted frame]> ss) ws ch cl b fl md acc can st (accepted_one (protocol frame) m))
  | p_submit_usage q ss i ws ch cl b fl md acc can st m frame :
      ss !! i = Some (SAccepted frame) ->
      pstep (mkState q ss ws ch cl b fl md acc can st m)
        (mkState q (<[i := SUsage (usage_of q) frame]> ss) ws ch cl b fl md acc can st m)
  | p_submit_gauges q ss i ws ch cl b fl md acc can st m frame events bytes :
      ss !! i = Some (SUsage (events, bytes) frame) ->
      pstep (mkState q ss ws ch cl b fl md acc can st m)
        (mkState q (<[i := SReturned frame None]> ss) ws ch cl b fl md acc can st (queue_gauges events bytes m))
  | p_submit_refused q ss i ws ch cl b fl md acc can st m reason e frame :
      ss !! i = Some (SRefused reason e frame) ->
      pstep (mkState q ss ws ch cl b fl md acc can st m)
        (mkState q (<[i := SReturned frame (Some e)]> ss) ws ch cl b fl md acc can st
           (dropped ("admission"%string, reason) 1 m))
  (* Reject *)
  | p_reject q ss ws ch cl b fl md acc can st m proto reason bytes :
      pstep (mkState q ss ws ch cl b fl md acc can st m)
        (mkState q (ss ++ [SRejecting proto reason bytes]) ws ch cl b fl md acc can st (received proto 1 m))
  | p_reject_bytes q ss i ws ch cl b fl md acc can st m proto reason bytes :
      ss !! i = Some (SRejecting proto reason bytes) ->
      pstep (mkState q ss ws ch cl b fl md acc can st m)
        (mkState q (<[i := SDropping reason]> ss) ws ch cl b fl md acc can st (bytes_received proto bytes m))
  | p_reject_dropped q ss i ws ch cl b fl md acc can st m reason :
      ss !! i = Some (SDropping reason) ->
      pstep (mkState q ss ws ch cl b fl md acc can st m)
        (mkState q (<[i := SRejected]> ss) ws ch cl b fl md acc can st
           (dropped ("admission"%string, reason) 1 m))
  (* parse workers *)
  | p_dequeue q q' ss ws i item ch cl b fl md acc can st m :
      ws !! i = Some WIdle -> bq_dequeue q = Ok (Some item, q') ->
      pstep (mkState q ss ws ch cl b fl md acc can st m)
        (mkState q' ss (<[i := WDequeued item]> ws) ch cl b fl md acc can st m)
  | p_queue_closed q ss ws i ch cl b fl md acc can st m e :
      ws !! i = Some WIdle -> bq_dequeue q = Err e ->
      pstep (mkState q ss ws ch cl b fl md acc can st m)
        (mkState q ss (<[i := WLeaving]> ws) ch cl b fl md acc can st m)
  | p_worker_cancelled q q' ss ws i ch cl b fl md acc st m :
      ws !! i = Some WIdle -> bq_dequeue q = Ok (None, q') ->
      pstep (mkState q ss ws ch cl b fl md acc true st m)
        (mkState q ss (<[i := WLeaving]> ws) ch cl b fl md acc true st m)
  | p_worker_usage q ss ws i item ch cl b fl md acc can st m :
      ws !! i = Some (WDequeued item) ->
      pstep (mkState q ss ws ch cl b fl md acc can st m)
        (mkState q ss (<[i := WUsage (usage_of q) item]> ws) ch cl b fl md acc can st m)
  | p_worker_gauges q ss ws i events bytes item ch cl b fl md acc can st m :
      ws !! i = Some (WUsage (events, bytes) item) ->
      pstep (mkState q ss ws ch cl b fl md acc can st m)
        (mkState q ss (<[i := WParsing item]> ws) ch cl b fl md acc can st (queue_gauges events bytes m))
  | p_parse_dropped q ss ws i item ch cl b fl md acc can st m rand m' :
      ws !! i = Some (WParsing item) -> random_bytes rand ->
      parse_frame p rand (qf_frame item) m = Ok (None, m') ->
      pstep (mkState q ss ws ch cl b fl md acc can st m)
        (mkState q ss (<[i := WIdle]> ws) ch cl b fl md acc can st m')
  | p_parse_done q ss ws i item ch cl b fl md acc can st m rand e m' :
      ws !! i = Some (WParsing item) -> random_bytes rand ->
      parse_frame p rand (qf_frame item) m = Ok (Some e, m') ->
      pstep (mkState q ss ws ch cl b fl md acc can st m)
        (mkState q ss (<[i := WSending e]> ws) ch cl b fl md acc can st m')
  | p_send q ss ws i e ch cl b fl md acc can st m :
      ws !! i = Some (WSending e) -> (length ch < parsed_capacity)%nat ->
      pstep (mkState q ss ws ch cl b fl md acc can st m)
        (mkState q ss (<[i := WIdle]> ws) (ch ++ [e]) cl b fl md acc can st m)
  | p_send_cancelled q ss ws i e ch cl b fl md acc st m :
      ws !! i = Some (WSending e) ->
      pstep (mkState q ss ws ch cl b fl md acc true st m)
        (mkState q ss (<[i := WLeaving]> ws) ch cl b fl md acc true st
           (dropped ("normalization", "shutdown")%string 1 m))
  | p_worker_done q ss ws i ch cl b fl md acc can st m :
      ws !! i = Some WLeaving ->
      pstep (mkState q ss ws ch cl b fl md acc can st m)
        (mkState q ss (<[i := WExited]> ws) ch cl b fl md acc can st m)
  | p_close_parsed q ss ws ch b fl md acc can st m :
      all_exited ws = true ->
      pstep (mkState q ss ws ch false b fl md acc can st m)
        (mkState q ss ws ch true b fl md acc can st m)
  (* the batch worker *)
  | p_batch_entry q ss ws e ch cl b acc can st m out b' :
      batch_step (ic_Batch (p_cfg p)) b (BEntry e) = (out, b') ->
      pstep (mkState q ss ws (e :: ch) cl b [] BServing acc can st m)
        (mkState q ss ws ch cl b' (new_flushes out) BServing acc can st m)
  | p_batch_timer q ss ws ch cl b acc can st m out b' :
      batch_step (ic_Batch (p_cfg p)) b BTimer = (out, b') ->
      pstep (mkState q ss ws ch cl b [] BServing acc can st m)
        (mkState q ss ws ch cl b' (new_flushes out) BServing acc can st m)
  | p_batch_closed q ss ws b md acc can st m out b' :
      md = BServing \/ md = BDraining ->
      batch_step (ic_Batch (p_cfg p)) b BClosed = (out, b') ->
      pstep (mkState q ss ws [] true b [] md acc can st m)
        (mkState q ss ws [] true b' (new_flushes out) BClosing acc can st m)
  | p_batch_cancelled q ss ws ch cl b acc st m :
      pstep (mkState q ss ws ch cl b [] BServing acc true st m)
        (mkState q ss ws ch cl b [] BDraining acc true st m)
  | p_drain q ss ws e ch cl b acc can st m :
      pstep (mkState q ss ws (e :: ch) cl b [] BDraining acc can st m)
        (mkState q ss ws ch cl (b.1 ++ [e], b.2) [] BDraining acc can st m)
  | p_done q ss ws ch cl b acc can st m :
      pstep (mkState q ss ws ch cl b [] BClosing acc can st m)
        (mkState q ss ws ch cl b [] BDone acc can st m)
  (* appendWithRetry *)
  | p_append_acknowledged q ss ws ch cl b a backoff batch r fl md acc can st m :
      a <= rc_MaxAttempts retry -> ar_Accepted r = blen batch ->
      pstep (mkState q ss ws ch cl b (ATry a backoff batch :: fl) md acc can st m)
        (mkState q ss ws ch cl b (AStored batch r :: fl) md acc can (st ++ [batch]) m)
  | p_append_failed q ss ws ch cl b a backoff batch fl md acc can st m :
      a <= rc_MaxAttempts retry ->
      pstep (mkState q ss ws ch cl b (ATry a backoff batch :: fl) md acc can st m)
        (mkState q ss ws ch cl b (AFailed a backoff batch :: fl) md acc can st m)
  | p_append_stored q ss ws ch cl b batch r fl md acc can st m :
      pstep (mkState q ss ws ch cl b (AStored batch r :: fl) md acc can st m)
        (mkState q ss ws ch cl b fl md acc can st (append_success backend r m))
  | p_append_exhausted q ss ws ch cl b a backoff batch fl md acc can st m :
      gives_up retry a can = true ->
      pstep (mkState q ss ws ch cl b (AFailed a backoff batch :: fl) md acc can st m)
        (mkState q ss ws ch cl b fl md acc can st (append_exhausted backend (blen batch) m))
  | p_append_retried q ss ws ch cl b a backoff batch fl md acc can st m :
      gives_up retry a can = false ->
      pstep (mkState q ss ws ch cl b (AFailed a backoff batch :: fl) md acc can st m)
        (mkState q ss ws ch cl b (AWaiting a backoff batch :: fl) md acc can st (append_retried backend m))
  | p_append_waited q ss ws ch cl b a backoff batch fl md acc can st m timer :
      timer = true \/ can = true ->
      pstep (mkState q ss ws ch cl b (AWaiting a backoff batch :: fl) md acc can st m)
        (mkState q ss ws ch cl b (ATry (a + 1) (next_backoff retry timer backoff) batch :: fl) md acc can st m)
  | p_append_out q ss ws ch cl b a backoff batch fl md acc can st m :
      rc_MaxAttempts retry < a ->
      pstep (mkState q ss ws ch cl b (ATry a backoff batch :: fl) md acc can st m)
        (mkState q ss ws ch cl b fl md acc can st m)
  (* Stop, which closes admission and then the queue, and the end of the context *)
  | p_stop_accepting q ss ws ch cl b fl md acc can st m :
      pstep (mkState q ss ws ch cl b fl md acc can st m)
        (mkState q ss ws ch cl b fl md false can st m)
  | p_stop_queue q ss ws ch cl b fl md acc can st m :
      pstep (mkState q ss ws ch cl b fl md acc can st m)
        (mkState (bq_close q) ss ws ch cl b fl md acc can st m)
  | p_cancel q ss ws ch cl b fl md acc can st m :
      pstep (mkState q ss ws ch cl b fl md acc can st m)
        (mkState q ss ws ch cl b fl md acc true st m).

(** [Start] with [n] workers on an empty queue. *)
Definition started (q : Q) (n : nat) : state Q :=
  mkState q [] (replicate (Nat.max 1 n) WIdle) [] false ([], 0) [] BServing true false [] New.

Inductive reaches (s0 : state Q) : state Q -> Prop :=
  | reaches_refl : reaches s0 s0
  | reaches_step s s' : reaches s0 s -> pstep s s' -> reaches s0 s'.

(** ** Accounting *)

Definition admission (k : string * string) : bool := k.1 =s "admission".
Definition later (k : string * string) : bool := negb (admission k).

(** A message received that is neither accepted nor counted as refused yet, and
    one that is in the queue or further, but not yet counted as accepted. *)
Definition undecided (x : submission) : Z :=
  match x with
  | SReceived _ | SLoading _ | SEnqueueing _ | SRefused _ _ _ | SRejecting _ _ _ | SDropping _ => 1
  | _ => 0
  end.
Definition uncounted (x : submission) : Z := match x with SQueued _ => 1 | _ => 0 end.
(** What a worker holds, what an append holds that is not stored, and what it
    has stored without counting it yet. *)
Definition weight (w : worker) : Z :=
  match w with WDequeued _ | WUsage _ _ | WParsing _ | WSending _ => 1 | _ => 0 end.
Definition unstored (a : appending) : list LogEntry :=
  match a with ATry _ _ b | AFailed _ _ b | AWaiting _ _ b => b | AStored _ _ => [] end.
Definition to_store (fl : list appending) : list LogEntry := fl ≫= unstored.
#[global] Arguments to_store : simpl never.
Definition acknowledged (a : appending) : Z := match a with AStored b _ => blen b | _ => 0 end.

Definition in_store (st : list (list LogEntry)) : Z := sum_by blen st.
Definition size {A} (l : list A) : Z := Z.of_nat (length l).

(** Every message received is being submitted, accepted, or counted as refused;
    every accepted one is queued, in a worker, between the workers, in the
    batch, being appended, stored, or counted as dropped. *)
Record accounts (s : state Q) : Prop := {
  ac_received : count (m_Received (ps_metrics s))
    = sum_by undecided (ps_submissions s) + sum_by uncounted (ps_submissions s)
      + count (m_Accepted (ps_metrics s)) + count_if admission (m_Dropped (ps_metrics s));
  ac_accepted : sum_by uncounted (ps_submissions s) + count (m_Accepted (ps_metrics s))
    = size (bq_live (ps_queue s)) + sum_by weight (ps_workers s) + size (ps_parsed s)
      + size (ps_batch s).1 + size (to_store (ps_flushes s)) + in_store (ps_store s)
      + count_if later (m_Dropped (ps_metrics s));
  ac_stored : in_store (ps_store s)
    = sum_by acknowledged (ps_flushes s) + count (m_Stored (ps_metrics s))
}.

Lemma size_app {A} (a b : list A) : size (a ++ b) = size a + size b.
Proof. unfold size. rewrite length_app. lia. Qed.
Lemma size_cons {A} (x : A) l : size (x :: l) = 1 + size l.
Proof. unfold size. simpl. lia. Qed.
Lemma size_nil {A} : size (@nil A) = 0.
Proof. done. Qed.
Lemma in_store_app a b : in_store (a ++ b) = in_store a + in_store b.
Proof. apply sum_by_app. Qed.
Lemma in_store_concat l : size (concat l) = in_store l.
Proof. unfold in_store. induction l as [|b l IH]; [done|]. simpl. rewrite size_app, IH. done. Qed.

Lemma batch_step_size cfg s ev out s' :
  batch_step cfg s ev = (out, s') -> in_store out + size s'.1 = size s.1 + size (entries [ev]).
Proof.
  intros E. pose proof (batch_step_concat cfg s ev) as Hc. rewrite E in Hc.
  rewrite <- in_store_concat, <- !size_app. by rewrite <- Hc.
Qed.

Lemma new_flushes_to_store out : to_store (new_flushes out) = concat out.
Proof. induction out as [|b out IH]; [done|]. unfold to_store in *. cbn. f_equal. exact IH. Qed.
Lemma new_flushes_acknowledged out : sum_by acknowledged (new_flushes out) = 0.
Proof.
  induction out as [|b out IH]; [done|].
  change (0 + sum_by acknowledged (new_flushes out) = 0). lia.
Qed.
Lemma to_store_cons a fl : to_store (a :: fl) = unstored a ++ to_store fl.
Proof. done. Qed.

Lemma parse_frame_counts rand frame m o m' :
  parse_frame p rand frame m = Ok (o, m') ->
  m_Received m' = m_Received m /\ m_Accepted m' = m_Accepted m /\ m_Stored m' = m_Stored m
  /\ count_if admission (m_Dropped m') = count_if admission (m_Dropped m)
  /\ count_if later (m_Dropped m')
     = count_if later (m_Dropped m) + match o with None => 1 | Some _ => 0 end.
Proof.
  unfold parse_frame. destruct (Registry_Parse _ _ _ _ _) as [ev|e|]; [|intros [= <- <-]|done].
  - destruct (Normalize _ _ _) as [en|e|]; [| |done]; intros [= <- <-]; simpl;
      autorewrite with counts; simpl; split_and!; try done; lia.
  - simpl. autorewrite with counts. simpl. split_and!; try done; lia.
Qed.

(** ** The invariant of reachable states *)

Definition attempt_ok (a : appending) : Prop :=
  match a with
  | ATry k _ _ | AFailed k _ _ => 1 <= k <= rc_MaxAttempts retry
  | AWaiting k _ _ => 1 <= k < rc_MaxAttempts retry
  | AStored b r => ar_Accepted r = blen b
  end.
Definition leaves (w : worker) : bool := match w with WLeaving | WExited => true | _ => false end.

Record shape (s : state Q) : Prop := {
  sh_queue : bq_ok (ps_queue s);
  sh_workers : ps_workers s <> [];
  sh_closed : ps_closed s = true -> all_exited (ps_workers s) = true;
  sh_flushes : Forall attempt_ok (ps_flushes s);
  sh_ended : ps_mode s = BClosing \/ ps_mode s = BDone ->
    ps_closed s = true /\ ps_parsed s = [] /\ (ps_batch s).1 = [];
  sh_done : ps_mode s = BDone -> ps_flushes s = [];
  sh_left : ps_cancelled s = false -> existsb leaves (ps_workers s) = true ->
    bq_closed (ps_queue s) = true /\ bq_live (ps_queue s) = []
}.

Hint Rewrite @size_app @size_cons @size_nil in_store_app @sum_by_app new_flushes_to_store
  new_flushes_acknowledged in_store_concat to_store_cons : counts.

Lemma step_accounts s s' : shape s -> pstep s s' -> accounts s -> accounts s'.
Proof.
  intros Hsh Hstep [Hacc1 Hacc2 Hacc3]. pose proof (sh_queue _ Hsh) as Hq. pose proof (sh_flushes _ Hsh) as Hfl.
  destruct Hstep; simpl in Hq, Hfl;
    try match goal with H : @lookup nat submission _ _ _ _ = _ |- _ =>
      pose proof (fun y => sum_by_insert undecided _ _ _ y H) as Hu;
      pose proof (fun y => sum_by_insert uncounted _ _ _ y H) as Hn end;
    try match goal with H : @lookup nat worker _ _ _ _ = _ |- _ =>
      pose proof (fun w' => sum_by_insert weight _ _ _ w' H) as Hw end;
    try match goal with H : parse_frame _ _ _ _ = _ |- _ =>
      apply parse_frame_counts in H as (E1 & E2 & E3 & E4 & E5) end;
    try match goal with H : bq_enqueue _ _ = _ |- _ =>
      apply bq_enqueue_law in H as (_ & _ & El); [|done] end;
    try match goal with H : bq_dequeue _ = Ok _ |- _ =>
      apply bq_dequeue_law in H as (_ & _ & El); [|done] end;
    try match goal with H : batch_step _ _ _ = _ |- _ => apply batch_step_size in H end;
    try (apply Forall_cons_1 in Hfl as [Ha _]; cbn [attempt_ok] in Ha);
    constructor; simpl in *; unfold count in *; autorewrite with counts in *;
    rewrite ?El, ?Hu, ?Hn, ?Hw, ?E1, ?E2, ?E3, ?E4, ?E5 in *;
    autorewrite with counts in *; simpl in *; unfold size, blen in *; try lia.
  1, 2: destruct acc; simpl; lia.
  destruct (bq_close_law q Hq) as (_ & _ & ->). lia.
Qed.

Lemma all_exited_spec ws : all_exited ws = true <-> forall w, In w ws -> w = WExited.
Proof.
  unfold all_exited. rewrite forallb_forall. split; intros Hws w Hw; specialize (Hws w Hw).
  - by destruct w.
  - by subst w.
Qed.

Lemma flush_empty s : (flush s).2.1 = [].
Proof. by destruct s as [[|e b] n]. Qed.

Lemma insert_worker ws i w : ws <> [] -> <[i := w]> ws <> ([] : list worker).
Proof. destruct ws, i; simpl; done. Qed.

(** A worker that has left was there before, unless it is the one that changed. *)
Lemma leaves_insert ws i w :
  leaves w = false -> existsb leaves (<[i := w]> ws) = true -> existsb leaves ws = true.
Proof.
  intros Hw. revert i. induction ws as [|x ws IH]; intros [|i]; simpl; [done|done| |].
  - rewrite Hw. simpl. intros ->. by rewrite orb_true_r.
  - intros [->|Hin]%orb_true_iff; [done|]. apply orb_true_iff. right. by apply (IH i).
Qed.
Lemma leaves_lookup ws i w : ws !! i = Some w -> leaves w = true -> existsb leaves ws = true.
Proof.
  intros Hi Hw. apply existsb_exists. exists w. split; [|done].
  apply list_elem_of_In. by eapply list_elem_of_lookup_2.
Qed.

(** A worker that is still running keeps the channel open. *)
Lemma running_worker ws i w : all_exited ws = true -> ws !! i = Some w -> w = WExited.
Proof.
  intros Ha Hw. eapply all_exited_spec; [done|]. rewrite <- list_elem_of_In.
  by eapply list_elem_of_lookup_2.
Qed.

(** The easy obligations of a step: what it does not touch, a channel that
    cannot be closed while a worker runs, a worker that did not leave. *)
Ltac shape_easy :=
  first
  [ assumption
  | by apply insert_worker
  | by intros; match goal with Hno : _ = true -> False |- _ => destruct Hno; auto; tauto end
  | by intros; match goal with Hno : _ = true -> False |- _ => destruct Hno; intuition end
  | match goal with
    | Hleft : ?can = false -> existsb leaves ?ws = true -> _
      |- ?can = false -> existsb leaves (<[_ := _]> ?ws) = true -> _ =>
        intros Hcan Hin; apply Hleft; [done|revert Hin; by apply leaves_insert]
    end
  | by intros [] | by intros; intuition
  | done ].

Lemma new_flushes_ok out : retry_ok retry -> Forall attempt_ok (new_flushes out).
Proof.
  intros [Hmax _]. unfold new_flushes. induction out as [|b out IH]; constructor; [cbn; lia|exact IH].
Qed.

Lemma step_shape s s' : retry_ok retry -> pstep s s' -> shape s -> shape s'.
Proof.
  intros Hok Hstep Hs.
  destruct Hstep; destruct Hs as [Hq Hw Hcl Hfl Hend Hdone Hleft]; simpl in *;
    try (match goal with
      | H : ?ws !! _ = Some ?w |- _ =>
        assert (Hno : cl = true -> False) by (intros Hc; by pose proof (running_worker _ _ _ (Hcl Hc) H))
      end);
    try (apply Forall_cons_1 in Hfl as [Ha Hfl]; cbn [attempt_ok] in Ha);
    constructor; simpl; try shape_easy; try (by apply new_flushes_ok);
    try (constructor; [cbn; lia|done]).
  - by destruct (bq_enqueue_law _ _ _ _ Hq H2) as (? & _).
  - intros Hcan Hin. destruct (Hleft Hcan Hin) as [Hc _].
    by destruct (bq_enqueue_closed _ _ _ _ Hq Hc H2).
  - by destruct (bq_dequeue_law _ _ _ Hq H2) as (? & _).
  - intros Hcan Hin%leaves_insert; [|done]. destruct (Hleft Hcan Hin) as [_ Hl].
    destruct (bq_dequeue_law _ _ _ Hq H2) as (_ & _ & El). by rewrite Hl in El.
  - intros _ _. by apply (bq_dequeue_refused q e).
  - intros Hcan _. apply Hleft; [done|by eapply leaves_lookup].
  - intros _. split_and!; try done. pose proof (flush_empty b) as Hf.
    match goal with H : flush b = _ |- _ => by rewrite H in Hf end.
  - constructor; [|done]. cbn. unfold gives_up in *.
    match goal with H : _ || _ = false |- _ => apply orb_false_iff in H as [?%Z.eqb_neq _] end. lia.
  - by apply bq_close_law.
  - intros Hcan Hin. destruct (Hleft Hcan Hin) as [_ Hl].
    destruct (bq_close_law q Hq) as (_ & Hc & El). by rewrite El.
Qed.

(** ** Reachable states *)

Lemma reaches_invariant q n s :
  retry_ok retry -> bq_ok q -> bq_live q = [] ->
  reaches (started q n) s -> shape s /\ accounts s.
Proof.
  intros Hok Hq Hl. induction 1 as [|s s' _ [Hs Ha] Hstep].
  - assert (Hidle : forall k, sum_by weight (replicate k WIdle) = 0 /\ existsb leaves (replicate k WIdle) = false)
      by (induction k as [|k [IH1 IH2]]; [done|]; split; [exact IH1|exact IH2]).
    destruct (Hidle (Nat.max 1 n)) as [Hheld Hleaves].
    split; constructor; unfold started; cbn [ps_queue ps_submissions ps_workers ps_parsed ps_closed ps_batch
      ps_flushes ps_mode ps_accepting ps_cancelled ps_store ps_metrics]; try done.
    + by destruct n.
    + by intros [].
    + rewrite Hleaves. done.
    + rewrite Hl, Hheld. done.
  - split; [by eapply step_shape|by eapply step_accounts].
Qed.

(** What is left when the batch worker is done: the frames in the queue, none
    of them in a run that was not cancelled. *)
Lemma done_left q n s :
  retry_ok retry -> bq_ok q -> bq_live q = [] -> reaches (started q n) s -> ps_mode s = BDone ->
  all_exited (ps_workers s) = true /\ ps_parsed s = [] /\ (ps_batch s).1 = [] /\ ps_flushes s = []
  /\ (ps_cancelled s = false -> bq_closed (ps_queue s) = true /\ bq_live (ps_queue s) = []).
Proof.
  intros Hr Hq Hl Hs Hd. destruct (reaches_invariant q n s Hr Hq Hl Hs) as [Hsh _].
  destruct (sh_ended _ Hsh (or_intror Hd)) as (Hcl & Hch & Hb). pose proof (sh_closed _ Hsh Hcl) as Hall.
  split_and!; try done; [by apply (sh_done _ Hsh)|]. intros Hcan.
  apply (sh_left _ Hsh Hcan). destruct (ps_workers s) as [|w ws] eqn:Ew; [by destruct (sh_workers _ Hsh)|].
  assert (w = WExited) as -> by (eapply all_exited_spec; [exact Hall|by left]). done.
Qed.

Lemma exited_weight ws : all_exited ws = true -> sum_by weight ws = 0.
Proof.
  induction ws as [|w ws IH]; [done|]. intros [Hw Hws]%andb_true_iff. destruct w; try done. exact (IH Hws).
Qed.

(** What the accounting says once the batch worker is done. *)
Lemma done_accounts q n s :
  retry_ok retry -> bq_ok q -> bq_live q = [] -> reaches (started q n) s -> ps_mode s = BDone ->
  sum_by uncounted (ps_submissions s) + count (m_Accepted (ps_metrics s))
  = size (bq_live (ps_queue s)) + count (m_Stored (ps_metrics s)) + count_if later (m_Dropped (ps_metrics s))
  /\ count (m_Stored (ps_metrics s)) = in_store (ps_store s).
Proof.
  intros Hr Hq Hl Hs Hd. destruct (reaches_invariant q n s Hr Hq Hl Hs) as [_ [_ Ha2 Ha3]].
  destruct (done_left q n s Hr Hq Hl Hs Hd) as (Hall & Hch & Hb & Hfl & _).
  rewrite Hch, Hb, Hfl, (exited_weight _ Hall) in Ha2. rewrite Hfl in Ha3.
  rewrite Ha2. change (sum_by acknowledged []) with 0 in Ha3. change (to_store []) with (@nil LogEntry).
  unfold size in *. simpl length. lia.
Qed.

(** ** The steps of an append

    With a context that has not ended, the steps of a flush are those of
    [appendWithRetry]: they end with its store, its counters and its outcome. *)
Definition steady (batch : list LogEntry) (env : Z -> attempt_env) : Prop :=
  forall a, at_ctx_err (env a) = false /\ at_timer (env a) = true
    /\ forall r, at_result (env a) = Some r -> ar_Accepted r = blen batch.

Lemma retry_steps s0 q ss ws ch cl b batch fl md acc st env fuel a backoff waits m e waits' m' :
  steady batch env ->
  retry_loop retry backend (blen batch) env fuel a backoff waits m = Some (e, waits', m') ->
  reaches s0 (mkState q ss ws ch cl b (ATry a backoff batch :: fl) md acc false st m) ->
  reaches s0 (mkState q ss ws ch cl b fl md acc false
    (match e with Stored _ _ => st ++ [batch] | _ => st end) m').
Proof.
  intros Henv. revert a backoff waits m. induction fuel as [|fuel IH]; intros a backoff waits m; cbn [retry_loop].
  all: destruct (Z.leb_spec a (rc_MaxAttempts retry)) as [Ha|Ha]; cbn [negb]; [|intros [= <- <- <-] Hs; cbn;
    eapply reaches_step; [exact Hs|by constructor]].
  { done. }
  destruct (Henv a) as (Hctx & Htimer & Hack). destruct (at_result (env a)) as [r|] eqn:Er.
  - intros [= <- <- <-] Hs. eapply reaches_step; [|constructor].
    eapply reaches_step; [exact Hs|constructor; [done|by apply Hack]].
  - rewrite Hctx, Htimer. destruct (gives_up retry a false) eqn:Eg.
    + intros [= <- <- <-] Hs. eapply reaches_step; [|by constructor]. eapply reaches_step; [exact Hs|by constructor].
    + intros E Hs. apply (IH _ _ _ _ E). eapply reaches_step; [|by constructor; left].
      eapply reaches_step; [|by constructor]. eapply reaches_step; [exact Hs|by constructor].
Qed.
End System.

(** The steps by which the batch worker appends a batch are those of
    [appendWithRetry]: while the context has not ended, they lead to the store
    and the counters it leaves, whatever the backend answers. *)
Theorem append_steps_follow {Q} `{QueueLaws Q} p usage_of q ss ws ch cl b batch fl md acc st (m : Metrics) env e waits m' :
  steady batch env ->
  appendWithRetry (ic_Retry (p_cfg p)) (p_backendName p) env batch m = Some (e, waits, m') ->
  reaches p usage_of (mkState (q : Q) ss ws ch cl b (new_flushes p [batch] ++ fl) md acc false st m)
    (mkState q ss ws ch cl b fl md acc false (match e with Stored _ _ => st ++ [batch] | _ => st end) m').
Proof. intros Henv E. eapply retry_steps; [exact Henv|exact E|constructor]. Qed.

(** C4. No event disappears: in every reachable state each message received
    is still being submitted, was refused and counted, or was accepted; and
    each accepted one is queued, in a worker, between the workers, in the
    batch, being appended, acknowledged by storage, or counted as dropped. A
    message counts as accepted from the section of the queue that admits it on,
    and the counter says so up to the calls that have not counted it yet; the
    counter of stored messages lags behind storage by the appends that have not
    counted theirs. Once the batch worker is done, whatever stopped it, only
    messages left in the queue are neither stored nor counted as dropped. This
    holds for any queue that keeps the interface, any number of workers and
    submitters, and any interleaving, storage outage or cancellation. *)
Theorem pipeline_accounts {Q} `{QueueLaws Q} p usage_of q n (s : state Q) :
  retry_ok (ic_Retry (p_cfg p)) -> bq_ok q -> bq_live q = [] ->
  reaches p usage_of (started q n) s ->
  accounts s
  /\ (ps_mode s = BDone ->
      sum_by uncounted (ps_submissions s) + count (m_Accepted (ps_metrics s))
      = size (bq_live (ps_queue s)) + count (m_Stored (ps_metrics s)) + count_if later (m_Dropped (ps_metrics s))
      /\ count (m_Stored (ps_metrics s)) = in_store (ps_store s)).
Proof.
  intros Hr Hq Hl Hs. split; [by destruct (reaches_invariant p usage_of q n s Hr Hq Hl Hs)|].
  by apply (done_accounts p usage_of q n).
Qed.

(** A graceful stop loses nothing: when the batch worker has closed [done]
    and the pipeline was not cancelled, nothing is left in the queue, the
    workers' channel or the batch, and every accepted message was acknowledged
    by storage or counted as dropped. *)
Theorem graceful_stop_complete {Q} `{QueueLaws Q} p usage_of q n (s : state Q) :
  retry_ok (ic_Retry (p_cfg p)) -> bq_ok q -> bq_live q = [] ->
  reaches p usage_of (started q n) s -> ps_mode s = BDone -> ps_cancelled s = false ->
  bq_closed (ps_queue s) = true /\ bq_live (ps_queue s) = [] /\ ps_parsed s = []
  /\ (ps_batch s).1 = [] /\ ps_flushes s = []
  /\ sum_by uncounted (ps_submissions s) + count (m_Accepted (ps_metrics s))
     = in_store (ps_store s) + count_if later (m_Dropped (ps_metrics s)).
Proof.
  intros Hr Hq Hl Hs Hd Hcan.
  destruct (done_left p usage_of q n s Hr Hq Hl Hs Hd) as (_ & Hch & Hb & Hfl & Hqueue).
  destruct (Hqueue Hcan) as [Hqc Hql]. destruct (done_accounts p usage_of q n s Hr Hq Hl Hs Hd) as [Ha Hst].
  split_and!; try done. rewrite Ha, Hql, Hst. done.
Qed.

(** ** Executable schedules

    An action names a step; [PCall i] and [PWorker i] are the next step of a call
    or of a worker that the state determines, [PFlush ok] the next step of the
    append under way, whose attempt the backend acknowledges or not. *)
Inductive paction :=
  | PSubmit (frame : Frame)
  | PReject (proto reason : string) (bytes : Z)
  | PCall (i : nat)
  | PDequeue (i : nat)
  | PWorker (i : nat)
  | PParse (i : nat) (rand : option (list Z))
  | PSend (i : nat)
  | PAbandon (i : nat)
  | PCloseParsed
  | PReceive
  | PTick
  | PChannelClosed
  | PBatchCancelled
  | PDrain
  | PFlush (ok : bool)
  | PDone
  | PStopAccepting
  | PStopQueue
  | PCancel.

Section Run.
Context {Q : Type} `{QueueLaws Q} (p : Pipeline) (usage_of : Q -> Z * Z).

Abbreviation retry := (ic_Retry (p_cfg p)).

(** The next step of a call. *)
Definition perform_call (i : nat) (s : state Q) : option (state Q) :=
  let '(mkState q ss ws ch cl b fl md acc can st m) := s in
  let next q x m := Some (mkState q (<[i := x]> ss) ws ch cl b fl md acc can st m) in
  match ss !! i with
  | Some (SReceived f) => next q (SLoading f) (bytes_received (protocol f) (frame_size f) m)
  | Some (SLoading f) =>
      next q (if acc then SEnqueueing f else SRefused "draining" ErrQueueClosed f) m
  | Some (SEnqueueing f) =>
      match bq_enqueue f q with
      | Ok (true, q') => next q' (SQueued f) m
      | Ok (false, _) => next q (SRefused (refusal_reason ErrQueueFull) ErrQueueFull f) m
      | Err e => next q (SRefused (refusal_reason e) e f) m
      | Panic => None
      end
  | Some (SQueued f) => next q (SAccepted f) (accepted_one (protocol f) m)
  | Some (SAccepted f) => next q (SUsage (usage_of q) f) m
  | Some (SUsage (events, bytes) f) => next q (SReturned f None) (queue_gauges events bytes m)
  | Some (SRefused reason e f) => next q (SReturned f (Some e)) (dropped ("admission"%string, reason) 1 m)
  | Some (SRejecting proto reason bytes) => next q (SDropping reason) (bytes_received proto bytes m)
  | Some (SDropping reason) => next q SRejected (dropped ("admission"%string, reason) 1 m)
  | Some (SReturned _ _) | Some SRejected | None => None
  end.

(** The next step of the append under way. *)
Definition perform_flush (ok : bool) (s : state Q) : option (state Q) :=
  let '(mkState q ss ws ch cl b fl md acc can st m) := s in
  let next fl st m := Some (mkState q ss ws ch cl b fl md acc can st m) in
  match fl with
  | [] => None
  | ATry a backoff batch :: fl =>
      if rc_MaxAttempts retry <? a then next fl st m
      else if ok then next (AStored batch (mkAppendResult (blen batch) 0) :: fl) (st ++ [batch]) m
      else next (AFailed a backoff batch :: fl) st m
  | AFailed a backoff batch :: fl =>
      if gives_up retry a can then next fl st (append_exhausted (p_backendName p) (blen batch) m)
      else next (AWaiting a backoff batch :: fl) st (append_retried (p_backendName p) m)
  | AWaiting a backoff batch :: fl =>
      next (ATry (a + 1) (next_backoff retry (negb can) backoff) batch :: fl) st m
  | AStored batch r :: fl => next fl st (append_success (p_backendName p) r m)
  end.

Definition pperform (a : paction) (s : state Q) : option (state Q) :=
  let '(mkState q ss ws ch cl b fl md acc can st m) := s in
  let batch ev ch md :=
    let (out, b') := batch_step (ic_Batch (p_cfg p)) b ev in
    Some (mkState q ss ws ch cl b' (new_flushes p out) md acc can st m) in
  match a with
  | PSubmit f => Some (mkState q (ss ++ [SReceived f]) ws ch cl b fl md acc can st (received (protocol f) 1 m))
  | PReject proto reason bytes =>
      Some (mkState q (ss ++ [SRejecting proto reason bytes]) ws ch cl b fl md acc can st (received proto 1 m))
  | PCall i => perform_call i s
  | PDequeue i =>
      match ws !! i, bq_dequeue q with
      | Some WIdle, Ok (Some item, q') =>
          Some (mkState q' ss (<[i := WDequeued item]> ws) ch cl b fl md acc can st m)
      | Some WIdle, Err _ => Some (mkState q ss (<[i := WLeaving]> ws) ch cl b fl md acc can st m)
      | Some WIdle, Ok (None, _) =>
          if can then Some (mkState q ss (<[i := WLeaving]> ws) ch cl b fl md acc true st m) else None
      | _, _ => None
      end
  | PWorker i =>
      match ws !! i with
      | Some (WDequeued item) =>
          Some (mkState q ss (<[i := WUsage (usage_of q) item]> ws) ch cl b fl md acc can st m)
      | Some (WUsage (events, bytes) item) =>
          Some (mkState q ss (<[i := WParsing item]> ws) ch cl b fl md acc can st (queue_gauges events bytes m))
      | Some WLeaving => Some (mkState q ss (<[i := WExited]> ws) ch cl b fl md acc can st m)
      | _ => None
      end
  | PParse i rand =>
      match ws !! i with
      | Some (WParsing item) =>
          match bool_decide (random_bytes rand), parse_frame p rand (qf_frame item) m with
          | true, Ok (o, m') =>
              let w := match o with Some e => WSending e | None => WIdle end in
              Some (mkState q ss (<[i := w]> ws) ch cl b fl md acc can st m')
          | _, _ => None
          end
      | _ => None
      end
  | PSend i =>
      match ws !! i with
      | Some (WSending e) =>
          if (length ch <? parsed_capacity)%nat
          then Some (mkState q ss (<[i := WIdle]> ws) (ch ++ [e]) cl b fl md acc can st m) else None
      | _ => None
      end
  | PAbandon i =>
      match ws !! i with
      | Some (WSending e) =>
          if can then Some (mkState q ss (<[i := WLeaving]> ws) ch cl b fl md acc true st
                             (dropped ("normalization", "shutdown")%string 1 m)) else None
      | _ => None
      end
  | PCloseParsed =>
      if all_exited ws && negb cl then Some (mkState q ss ws ch true b fl md acc can st m) else None
  | PReceive => match ch, fl, md with e :: ch, [], BServing => batch (BEntry e) ch BServing | _, _, _ => None end
  | PTick => match fl, md with [], BServing => batch BTimer ch BServing | _, _ => None end
  | PChannelClosed =>
      match ch, cl, fl, md with
      | [], true, [], (BServing | BDraining) => batch BClosed [] BClosing
      | _, _, _, _ => None
      end
  | PBatchCancelled =>
      match can, fl, md with
      | true, [], BServing => Some (mkState q ss ws ch cl b [] BDraining acc true st m)
      | _, _, _ => None
      end
  | PDrain =>
      match ch, fl, md with
      | e :: ch, [], BDraining => Some (mkState q ss ws ch cl (b.1 ++ [e], b.2) [] BDraining acc can st m)
      | _, _, _ => None
      end
  | PFlush ok => perform_flush ok s
  | PDone => match fl, md with [], BClosing => Some (mkState q ss ws ch cl b [] BDone acc can st m) | _, _ => None end
  | PStopAccepting => Some (mkState q ss ws ch cl b fl md false can st m)
  | PStopQueue => Some (mkState (bq_close q) ss ws ch cl b fl md acc can st m)
  | PCancel => Some (mkState q ss ws ch cl b fl md acc true st m)
  end.

Definition pschedule (l : list paction) (s : state Q) : option (state Q) :=
  foldl (fun o a => s ← o; pperform a s) (Some s) l.

Lemma perform_call_step i s s' : perform_call i s = Some s' -> pstep p usage_of s s'.
Proof.
  destruct s as [q ss ws ch cl b fl md acc can st m]. cbn [perform_call].
  destruct (ss !! i) as [[f|f|f|f|f|[events bytes] f|reason e f| |proto reason bytes|reason|]|] eqn:Hi;
    try done; try (intros [= <-]; econstructor; exact Hi).
  destruct (bq_enqueue f q) as [[[] q']|e|] eqn:E; [| | |done]; intros [= <-]; econstructor; eassumption.
Qed.

Lemma perform_flush_step ok s s' : perform_flush ok s = Some s' -> pstep p usage_of s s'.
Proof.
  destruct s as [q ss ws ch cl b [|[a backoff batch|a backoff batch|a backoff batch|batch r] fl] md acc can st m];
    cbn [perform_flush]; [done|..].
  - destruct (Z.ltb_spec (rc_MaxAttempts retry) a); [|destruct ok]; intros [= <-]; by constructor.
  - destruct (gives_up retry a can) eqn:E; intros [= <-]; by constructor.
  - intros [= <-]. constructor. destruct can; auto.
  - intros [= <-]. constructor.
Qed.

Lemma pperform_step a s s' : pperform a s = Some s' -> pstep p usage_of s s'.
Proof.
  destruct s as [q ss ws ch cl b fl md acc can st m]. destruct a; cbn [pperform];
    try (apply perform_call_step); try (apply perform_flush_step);
    try (intros [= <-]; constructor).
  - destruct (ws !! i) as [[]|] eqn:Hw; try done.
    destruct (bq_dequeue q) as [[[item|] q']|e|] eqn:E; [|destruct can; [|done]| |done];
      intros [= <-]; econstructor; eassumption.
  - destruct (ws !! i) as [[|item|[events bytes] item|item|e| |]|] eqn:Hw; try done;
      intros [= <-]; econstructor; exact Hw.
  - destruct (ws !! i) as [[]|] eqn:Hw; try done.
    destruct (bool_decide (random_bytes rand)) eqn:Hr; [|done]. apply bool_decide_eq_true in Hr.
    destruct (parse_frame _ _ _ _) as [[[e|] m']|e|] eqn:E; try done; intros [= <-].
    + by eapply p_parse_done.
    + by eapply p_parse_dropped.
  - destruct (ws !! i) as [[]|] eqn:Hw; try done.
    destruct (Nat.ltb_spec (length ch) parsed_capacity); [|done]. intros [= <-]. by apply p_send.
  - destruct (ws !! i) as [[]|] eqn:Hw; try done. destruct can; [|done]. intros [= <-].
    by eapply p_send_cancelled.
  - destruct (all_exited ws) eqn:Hw, cl; try done. intros [= <-]. by apply p_close_parsed.
  - destruct ch, fl, md; try done. destruct (batch_step _ _ _) eqn:E. intros [= <-]. by constructor.
  - destruct fl, md; try done. destruct (batch_step _ _ _) eqn:E. intros [= <-]. by constructor.
  - destruct ch, cl, fl, md; try done; destruct (batch_step _ _ _) eqn:E; intros [= <-]; constructor; auto.
  - destruct can, fl, md; try done. intros [= <-]. constructor.
  - destruct ch, fl, md; try done. intros [= <-]. constructor.
  - destruct fl, md; try done. intros [= <-]. constructor.
Qed.

Lemma pperform_reaches a s0 s s' :
  reaches p usage_of s0 s -> pperform a s = Some s' -> reaches p usage_of s0 s'.
Proof. intros Hr Hs. eapply reaches_step; [done|by eapply pperform_step]. Qed.

Lemma pschedule_reaches l s0 s s' :
  reaches p usage_of s0 s -> pschedule l s = Some s' -> reaches p usage_of s0 s'.
Proof.
  revert s. induction l as [|a l IH]; intros s Hr; unfold pschedule; cbn [foldl mbind option_bind].
  - by intros [= <-].
  - destruct (pperform a s) as [s1|] eqn:E; [apply IH; by eapply pperform_reaches|].
    intros Hx. exfalso. revert Hx. clear. induction l; [done|]. exact IHl.
Qed.
End Run.

(** ** Concrete runs *)

Definition sample_pipeline : Pipeline :=
  mkPipeline (mkIngestion (mkQueueConfig 4 1000 25000000 "25ms") sample_batch sample_retry []) ∅ ∅
    "victorialogs".
Definition sample_start : state frameQueue := started (newFrameQueue 4 1000) 1.
Definition run_pipeline (l : list paction) : state frameQueue :=
  default sample_start (pschedule sample_pipeline usage l sample_start).

Lemma run_pipeline_reaches l :
  match pschedule sample_pipeline usage l sample_start with Some _ => true | None => false end = true ->
  reaches sample_pipeline usage sample_start (run_pipeline l).
Proof.
  unfold run_pipeline. destruct (pschedule _ _ l sample_start) as [s|] eqn:E; [|done]. intros _.
  eapply pschedule_reaches; [apply reaches_refl|exact E].
Qed.

Lemma sample_retry_ok : retry_ok sample_retry.
Proof. unfold retry_ok. simpl. lia. Qed.

(** A whole call of [Submit], the [i]-th, and the steps of a worker up to parsing. *)
Definition submit_all (i : nat) (f : Frame) : list paction := PSubmit f :: repeat (PCall i) 6.
Definition take_and_parse (i : nat) : list paction := [PDequeue i; PWorker i; PWorker i; PParse i (Some ids)].
(** A graceful stop, once the queue is empty, with one worker. *)
Definition graceful_end : list paction := [PStopAccepting; PStopQueue; PDequeue 0; PWorker 0; PCloseParsed].

(** One message, stored by the second append, then a graceful stop. *)
Definition graceful : list paction :=
  submit_all 0 sample_frame ++ take_and_parse 0 ++ [PSend 0] ++ graceful_end
  ++ [PReceive; PChannelClosed; PFlush false; PFlush true; PFlush true; PFlush true; PFlush true; PDone].

(** The worker can be ahead of the counter: a message is stored and counted so
    while its call of [Submit] has not counted it as accepted. *)
Definition ahead : list paction :=
  (PSubmit sample_frame :: repeat (PCall 0) 3) ++ take_and_parse 0
  ++ [PSend 0; PReceive; PTick; PFlush true; PFlush true].
Example ahead_of_accepted :
  let s := run_pipeline ahead in
  (ps_submissions s, count (m_Accepted (ps_metrics s)), count (m_Stored (ps_metrics s)))
  = ([SQueued sample_frame], 0, 1).
Proof. vm_compute. reflexivity. Qed.

Lemma pipeline_accounts_witness :
  let s := run_pipeline graceful in
  accounts s
  /\ (ps_mode s = BDone ->
      sum_by uncounted (ps_submissions s) + count (m_Accepted (ps_metrics s))
      = size (bq_live (ps_queue s)) + count (m_Stored (ps_metrics s)) + count_if later (m_Dropped (ps_metrics s))
      /\ count (m_Stored (ps_metrics s)) = in_store (ps_store s)).
Proof.
  apply (pipeline_accounts sample_pipeline usage (newFrameQueue 4 1000) 1).
  - apply sample_retry_ok.
  - apply newFrameQueue_ok. lia.
  - reflexivity.
  - apply run_pipeline_reaches. vm_compute. reflexivity.
Defined.

Lemma graceful_stop_complete_witness :
  let s := run_pipeline graceful in
  bq_closed (ps_queue s) = true /\ bq_live (ps_queue s) = [] /\ ps_parsed s = []
  /\ (ps_batch s).1 = [] /\ ps_flushes s = []
  /\ sum_by uncounted (ps_submissions s) + count (m_Accepted (ps_metrics s))
     = in_store (ps_store s) + count_if later (m_Dropped (ps_metrics s)).
Proof.
  apply (graceful_stop_complete sample_pipeline usage (newFrameQueue 4 1000) 1).
  - apply sample_retry_ok.
  - apply newFrameQueue_ok. lia.
  - reflexivity.
  - apply run_pipeline_reaches. vm_compute. reflexivity.
  - vm_compute. reflexivity.
  - vm_compute. reflexivity.
Defined.

(** Two messages are accepted; the deadline passes while the only worker hands
    over the first, which it drops and counts; the second stays in the queue. *)
Definition forced : list paction :=
  submit_all 0 sample_frame ++ submit_all 1 sample_frame ++ take_and_parse 0
  ++ [PStopAccepting; PStopQueue; PCancel; PAbandon 0; PWorker 0; PCloseParsed; PBatchCancelled; PChannelClosed; PDone].

(** A stop whose deadline passes can leave accepted messages uncounted: a
    run ends with the batch worker done, two messages accepted, none stored,
    one counted as dropped and the other still in the queue. *)
Theorem forced_stop_unaccounted :
  exists s, reaches sample_pipeline usage sample_start s
    /\ ps_mode s = BDone /\ size (bq_live (ps_queue s)) = 1
    /\ count (m_Accepted (ps_metrics s)) = 2
    /\ in_store (ps_store s) = 0 /\ count_if later (m_Dropped (ps_metrics s)) = 1.
Proof.
  exists (run_pipeline forced). split; [apply run_pipeline_reaches; vm_compute; reflexivity|].
  vm_compute. tauto.
Qed.

(** ** Sources *)

Lemma source_tables_spec LoadLocation l locations names :
  Forall (source_ok LoadLocation) l -> NoDup (map sc_ID l) ->
  exists locations' names',
    source_tables LoadLocation l locations names = Some (locations', names')
    /\ (forall s, In s l -> locations' !! sc_ID s = LoadLocation (sc_Timezone s)
                            /\ names' !! sc_ID s = Some (sc_Parser s))
    /\ (forall id, ~ In id (map sc_ID l) ->
          locations' !! id = locations !! id /\ names' !! id = names !! id).
Proof.
  revert locations names. induction l as [|s l IH]; intros locations names Hok Hnd; simpl.
  { exists locations, names. by split_and!. }
  apply Forall_cons in Hok as [Hs Hok]. apply NoDup_cons in Hnd as [Hfresh Hnd].
  rewrite list_elem_of_In in Hfresh.
  destruct (sok_timezone _ _ Hs) as [loc Hloc]. rewrite Hloc. simpl.
  destruct (IH (<[sc_ID s := loc]> locations) (<[sc_ID s := sc_Parser s]> names) Hok Hnd)
    as (locations' & names' & E & Hin & Hout).
  exists locations', names'. split; [done|]. split.
  - intros s' [<-|Hs']; [|by apply Hin]. destruct (Hout _ Hfresh) as [-> ->].
    by rewrite !lookup_insert_eq.
  - intros id Hid. destruct (Hout id) as [-> ->]; [tauto|].
    by rewrite !lookup_insert_ne by tauto.
Qed.

(** A loaded configuration always makes a pipeline, which parses the
    frames of each source with that source's parser and in its time zone. *)
Theorem NewPipeline_tables LoadLocation decode_file path environ overrides c backend :
  Load LoadLocation decode_file path environ overrides = Ok c ->
  exists p, NewPipeline LoadLocation (c_Ingestion c) backend = Some p
    /\ p_cfg p = c_Ingestion c
    /\ forall s, In s (ic_Sources (c_Ingestion c)) ->
         p_parserNames p !! sc_ID s = Some (sc_Parser s)
         /\ p_locations p !! sc_ID s = LoadLocation (sc_Timezone s).
Proof.
  unfold Load. intros H. apply bind_ok in H as (c0 & _ & H). apply bind_ok in H as (c1 & _ & H).
  apply finalize_ok in H as [_ _ _ _ _ Hs Hn _ _].
  destruct (source_tables_spec LoadLocation _ ∅ ∅ Hs Hn) as (ls & ns & E & Hin & _).
  unfold NewPipeline. rewrite E. simpl. eexists. split; [reflexivity|]. split; [done|].
  intros s Hs'. simpl. destruct (Hin s Hs'). done.
Qed.

Lemma NewPipeline_tables_witness :
  exists p, NewPipeline utc_only (c_Ingestion loaded) "victorialogs" = Some p
    /\ p_cfg p = c_Ingestion loaded
    /\ forall s, In s (ic_Sources (c_Ingestion loaded)) ->
         p_parserNames p !! sc_ID s = Some (sc_Parser s)
         /\ p_locations p !! sc_ID s = utc_only (sc_Timezone s).
Proof.
  apply (NewPipeline_tables utc_only one_source "config.yaml" ["SYSLOGX_HTTP_ADDRESS=:7001"]%string
    (mkOverrides ":7002" "")). vm_compute. reflexivity.
Defined.
