(* ===== verification/PipelineContents.v ===== *)
(** * What the pipeline does with the messages themselves

    A client of [Pipeline]: its counters say how many messages are where, this
    file says which. The messages accepted along a run are read off the steps;
    an invariant follows each of them through the queue, the workers, the batch
    and the store. *)
From S2P Require Import Prelude GoStrings GoTime Domain GoRegexp Parser ParserProps Parser3164 Normalization Config Queue Metrics Pipeline.

(** The parse worker makes the entry [e] of the frame, or drops it. *)
Definition parses (p : Pipeline) (f : Frame) (e : LogEntry) : Prop :=
  exists rand m m', random_bytes rand /\ parse_frame p rand f m = Ok (Some e, m').
Definition unparsed (p : Pipeline) (f : Frame) : Prop :=
  exists rand m m', random_bytes rand /\ parse_frame p rand f m = Ok (None, m').

(** What a worker holds. *)
Definition parsing (w : worker) : list Frame :=
  match w with WDequeued item | WUsage _ item | WParsing item => [qf_frame item] | _ => [] end.
Definition sending (w : worker) : list LogEntry := match w with WSending e => [e] | _ => [] end.

Section Contents.
Context {Q : Type} `{QueueLaws Q}.
Context (p : Pipeline) (usage_of : Q -> Z * Z).

Definition waiting (s : state Q) : list Frame := qf_frame <$> bq_live (ps_queue s).

(** The frames a step admits: what it puts behind the queue. *)
Definition admitted (s s' : state Q) : list Frame := drop (length (waiting s)) (waiting s').

(** [s] is reached from [s0] after the frames [fs] were accepted, in that order. *)
Inductive accepts (s0 : state Q) : list Frame -> state Q -> Prop :=
  | accepts_start : accepts s0 [] s0
  | accepts_step fs s s' :
      accepts s0 fs s -> pstep p usage_of s s' -> accepts s0 (fs ++ admitted s s') s'.

Lemma accepts_reaches s0 fs s : accepts s0 fs s -> reaches p usage_of s0 s.
Proof. induction 1; [constructor|by eapply reaches_step]. Qed.
Lemma reaches_accepts s0 s : reaches p usage_of s0 s -> exists fs, accepts s0 fs s.
Proof.
  induction 1 as [|s s' _ [fs Hfs] Hs]; [by exists []; constructor|].
  exists (fs ++ admitted s s'). by constructor.
Qed.

(** ** Where the messages are *)

(** [fates]: the frames that were parsed, with their entries; [lost]: those the
    parser or the normalizer refused; [dropped]: entries storage never took. *)
Record contents (fs : list Frame) (s : state Q) (fates : list (Frame * LogEntry)) (lost : list Frame)
    (dropped : list LogEntry) : Prop := {
  ct_frames : fs ≡ₚ waiting s ++ (ps_workers s ≫= parsing) ++ fates.*1 ++ lost;
  ct_entries : fates.*2 ≡ₚ
    (ps_workers s ≫= sending) ++ ps_parsed s ++ (ps_batch s).1 ++ to_store (ps_flushes s)
    ++ concat (ps_store s) ++ dropped;
  ct_parses : Forall (fun fe => parses p fe.1 fe.2) fates;
  ct_lost : Forall (unparsed p) lost;
  ct_dropped : size lost + size dropped = count_if later (m_Dropped (ps_metrics s))
}.

Lemma admitted_nothing (s s' : state Q) : ps_queue s' = ps_queue s -> admitted s s' = [].
Proof. intros E. unfold admitted, waiting. by rewrite E, drop_all. Qed.

Lemma admitted_taken (s s' : state Q) x : waiting s = x :: waiting s' -> admitted s s' = [].
Proof. intros E. unfold admitted. rewrite E. apply drop_ge. simpl. lia. Qed.

(** What the workers, or the calls, hold when one of them changes. *)
Lemma held_change {A B} (g : B -> list A) ws i w :
  ws !! i = Some w -> exists rest, ws ≫= g ≡ₚ g w ++ rest /\ forall w', <[i := w']> ws ≫= g ≡ₚ g w' ++ rest.
Proof.
  intros Hi. pose proof (lookup_lt_Some _ _ _ Hi). exists ((take i ws ≫= g) ++ (drop (S i) ws ≫= g)). split.
  - rewrite <- (take_drop_middle ws i w Hi) at 1. rewrite bind_app. simpl. solve_Permutation.
  - intros w'. rewrite insert_take_drop by done. rewrite bind_app. simpl. solve_Permutation.
Qed.

(** A step that admits nothing and keeps what is parsed and lost. *)
Lemma contents_move fs s s' fates lost dropped :
  contents fs s fates lost dropped -> admitted s s' = [] ->
  waiting s' ++ (ps_workers s' ≫= parsing) ≡ₚ waiting s ++ (ps_workers s ≫= parsing) ->
  (ps_workers s' ≫= sending) ++ ps_parsed s' ++ (ps_batch s').1 ++ to_store (ps_flushes s') ++ concat (ps_store s')
    ≡ₚ (ps_workers s ≫= sending) ++ ps_parsed s ++ (ps_batch s).1 ++ to_store (ps_flushes s) ++ concat (ps_store s) ->
  count_if later (m_Dropped (ps_metrics s')) = count_if later (m_Dropped (ps_metrics s)) ->
  contents (fs ++ admitted s s') s' fates lost dropped.
Proof.
  intros [Hf He Hp Hl Hd] -> Hw Hs Hc. rewrite app_nil_r. constructor; try done.
  - rewrite Hf, !app_assoc, Hw. done.
  - rewrite He. repeat (rewrite app_assoc in Hs || rewrite app_assoc). by rewrite Hs.
  - by rewrite Hc.
Qed.

(** The batch worker's computation moves entries from the batch to its appends. *)
Lemma batch_step_moves cfg b ev out b' :
  batch_step cfg b ev = (out, b') -> b'.1 ++ to_store (new_flushes p out) ≡ₚ b.1 ++ entries [ev].
Proof.
  intros E. pose proof (batch_step_concat cfg b ev) as Hb. rewrite E in Hb. cbn [fst snd] in Hb.
  rewrite new_flushes_to_store, <- Hb. solve_Permutation.
Qed.
Lemma moved_perm {A} (s ch b b' fl x st : list A) :
  b' ++ fl ≡ₚ b ++ x -> s ++ ch ++ b' ++ fl ++ st ≡ₚ s ++ (x ++ ch) ++ b ++ [] ++ st.
Proof. intros E. rewrite (app_assoc b'), E. solve_Permutation. Qed.

Lemma step_contents fs s s' fates lost dropped :
  shape p s -> pstep p usage_of s s' ->
  contents fs s fates lost dropped ->
  exists fates' lost' dropped', contents (fs ++ admitted s s') s' fates' lost' dropped'.
Proof.
  intros Hsh Hstep Hc. pose proof (sh_queue _ _ Hsh) as Hq. pose proof (sh_flushes _ _ Hsh) as Hfl.
  destruct Hstep; simpl in Hq, Hfl;
    try (match goal with E : batch_step _ _ _ = _ |- _ => apply batch_step_moves in E; simpl entries in E end);
    try (match goal with Hi : ?ws !! ?i = Some ?w |- _ =>
      destruct (held_change parsing ws i w Hi) as (rp & Hp1 & Hp2);
      destruct (held_change sending ws i w Hi) as (rs & Hs1 & Hs2) end);
    try (exists fates, lost, dropped; apply contents_move; [done|by apply admitted_nothing| | |];
      simpl; rewrite ?Hp1, ?Hp2, ?Hs1, ?Hs2; simpl; autorewrite with counts; simpl; rewrite ?concat_app; simpl;
      solve [done|lia|solve_Permutation]).
  all: try (match goal with E : _ ++ to_store _ ≡ₚ _ |- _ =>
    exists fates, lost, dropped; apply contents_move; [done|by apply admitted_nothing|done|exact (moved_perm _ _ _ _ _ _ _ E)|done] end).
  all: destruct Hc as [Hf He Hp Hl Hd]; cbn in Hf, He, Hd; unfold waiting in Hf; cbn in Hf.
  - (* admitted *)
    destruct (bq_enqueue_law _ _ _ _ Hq H2) as (_ & _ & El).
    exists fates, lost, dropped. unfold admitted, waiting. simpl. rewrite El, fmap_app, drop_app_length.
    constructor; simpl; try done.
    unfold waiting. simpl. rewrite El, fmap_app, Hf. simpl. solve_Permutation.
  - (* taken by a worker *)
    destruct (bq_dequeue_law _ _ _ Hq H2) as (_ & _ & El). cbn in El.
    exists fates, lost, dropped. rewrite admitted_taken with (x := qf_frame item), app_nil_r
      by (unfold waiting; simpl; by rewrite El). constructor; simpl; try done.
    + unfold waiting. simpl. rewrite Hf, El, Hp1, Hp2. simpl. solve_Permutation.
    + rewrite He, Hs1, Hs2. done.
  - (* refused by the parser or the normalizer *)
    destruct (parse_frame_counts p _ _ _ _ _ H3) as (_ & _ & _ & _ & Hd').
    exists fates, (lost ++ [qf_frame item]), dropped. rewrite admitted_nothing, app_nil_r by done.
    constructor; simpl; try done.
    + rewrite Hf, Hp1, Hp2. unfold waiting. simpl. solve_Permutation.
    + rewrite He, Hs1, Hs2. done.
    + apply Forall_app_2; [done|]. constructor; [by exists rand, m, m'|constructor].
    + rewrite Hd', size_app. simpl. unfold size in *. simpl. lia.
  - (* parsed *)
    destruct (parse_frame_counts p _ _ _ _ _ H3) as (_ & _ & _ & _ & Hd').
    exists (fates ++ [(qf_frame item, e)]), lost, dropped. rewrite admitted_nothing, app_nil_r by done.
    constructor; simpl; try done.
    + rewrite Hf, Hp1, Hp2, fmap_app. unfold waiting. simpl. solve_Permutation.
    + rewrite fmap_app, He, Hs1, Hs2. simpl. solve_Permutation.
    + apply Forall_app_2; [done|]. constructor; [by exists rand, m, m'|constructor].
    + rewrite Hd'. lia.
  - (* abandoned by a cancelled worker *)
    exists fates, lost, (dropped ++ [e]). rewrite admitted_nothing, app_nil_r by done.
    constructor; simpl; try done.
    + rewrite Hf, Hp1, Hp2. done.
    + rewrite He, Hs1, Hs2. simpl. solve_Permutation.
    + autorewrite with counts. rewrite size_app. unfold size in *. simpl. lia.
  - (* the batch that storage refused to the end *)
    exists fates, lost, (dropped ++ batch). rewrite admitted_nothing, app_nil_r by done.
    constructor; simpl; try done.
    + rewrite He, to_store_cons. simpl. solve_Permutation.
    + autorewrite with counts. rewrite size_app. unfold size, blen in *. simpl. lia.
  - (* an append is never out of attempts *)
    apply Forall_cons_1 in Hfl as [Ha _]. cbn [attempt_ok] in Ha. lia.
  - (* the queue is closed *)
    destruct (bq_close_law q Hq) as (_ & _ & El).
    exists fates, lost, dropped. unfold admitted, waiting. simpl. rewrite El, drop_all, app_nil_r.
    constructor; simpl; try done. unfold waiting. simpl. by rewrite El.
Qed.

Lemma idle_workers {A} (g : worker -> list A) k : g WIdle = [] -> replicate k WIdle ≫= g = [].
Proof. intros Hg. induction k as [|k IH]; [done|]. cbn. rewrite Hg. exact IH. Qed.

Lemma accepts_contents q n fs s :
  retry_ok (ic_Retry (p_cfg p)) -> bq_ok q -> bq_live q = [] -> accepts (started q n) fs s ->
  exists fates lost dropped, contents fs s fates lost dropped.
Proof.
  intros Hok Hq Hl. induction 1 as [|fs s s' Hs (fates & lost & dropped & IH) Hstep].
  - exists [], [], []. constructor; try done.
    + unfold waiting, started. cbn [ps_queue ps_workers]. by rewrite Hl, idle_workers.
    + unfold started. cbn [ps_workers]. by rewrite idle_workers.
  - destruct (reaches_invariant p usage_of q n s Hok Hq Hl (accepts_reaches _ _ _ Hs)) as [Hsh _].
    by apply (step_contents fs s s' fates lost dropped).
Qed.

(** ** What the calls were answered *)

(** The frames of the calls of [Submit] that the queue has admitted, and the
    calls that have counted a refusal. *)
Definition admitted_frame (x : submission) : list Frame :=
  match x with SQueued f | SAccepted f | SUsage _ f | SReturned f None => [f] | _ => [] end.
Definition refused_call (x : submission) : Z :=
  match x with SReturned _ (Some _) | SRejected => 1 | _ => 0 end.

(** The frames accepted are those of the calls admitted; the counter of
    refusals is the number of the calls refused. *)
Record answers (fs : list Frame) (s : state Q) : Prop := {
  an_admitted : fs ≡ₚ ps_submissions s ≫= admitted_frame;
  an_refused : count_if admission (m_Dropped (ps_metrics s)) = sum_by refused_call (ps_submissions s)
}.

Lemma step_answers fs s s' :
  bq_ok (ps_queue s) -> pstep p usage_of s s' -> answers fs s -> answers (fs ++ admitted s s') s'.
Proof.
  intros Hq Hstep [Ha Hr].
  destruct Hstep; simpl in Hq, Ha, Hr;
    try (match goal with Hi : ?l !! ?i = Some ?x, Ha : fs ≡ₚ ?l ≫= admitted_frame |- _ =>
      destruct (held_change admitted_frame l i x Hi) as (rest & Hp1 & Hp2);
      pose proof (fun y => sum_by_insert refused_call l i x y Hi) as Hs end);
    try match goal with H : parse_frame _ _ _ _ = _ |- _ =>
      apply parse_frame_counts in H as (_ & _ & _ & E4 & _) end;
    try (rewrite admitted_nothing, app_nil_r by done;
      constructor; simpl; autorewrite with counts; rewrite ?bind_app, ?sum_by_app, ?Hp2, ?Hs, ?E4; simpl;
      rewrite ?Ha, ?Hp1, ?app_nil_r; simpl; solve [done|lia|destruct acc; simpl; done || lia]).
  - destruct (bq_enqueue_law _ _ _ _ Hq H2) as (_ & _ & El). unfold admitted, waiting. simpl.
    rewrite El, fmap_app, drop_app_length. constructor; simpl.
    + rewrite Ha, Hp1, Hp2. simpl. solve_Permutation.
    + rewrite Hs, Hr. simpl. lia.
  - destruct (bq_dequeue_law _ _ _ Hq H2) as (_ & _ & El). cbn in El.
    rewrite admitted_taken with (x := qf_frame item), app_nil_r by (unfold waiting; simpl; by rewrite El).
    by constructor.
  - destruct (bq_close_law q Hq) as (_ & _ & El). unfold admitted, waiting. simpl. rewrite El, drop_all, app_nil_r.
    by constructor.
Qed.

Lemma accepts_answers q n fs s :
  retry_ok (ic_Retry (p_cfg p)) -> bq_ok q -> bq_live q = [] -> accepts (started q n) fs s -> answers fs s.
Proof.
  intros Hok Hq Hl. induction 1 as [|fs s s' Hs IH Hstep]; [done|].
  destruct (reaches_invariant p usage_of q n s Hok Hq Hl (accepts_reaches _ _ _ Hs)) as [Hsh _].
  by apply step_answers; [apply (sh_queue _ _ Hsh)| |].
Qed.
End Contents.

(** C11. The pipeline keeps track of every message: along every run, whatever the
    interleaving, outages and cancellation, each accepted message is exactly one
    of queued, being parsed, refused by the parser, or parsed into its entry;
    each of these entries is exactly one of being handed over, in the channel, in
    the batch, being appended, stored or dropped; and the refused and dropped
    ones are counted. A message is accepted when a section of the queue admits
    it. *)
Theorem messages_followed {Q} `{QueueLaws Q} p usage_of q n fs (s : state Q) :
  retry_ok (ic_Retry (p_cfg p)) -> bq_ok q -> bq_live q = [] -> accepts p usage_of (started q n) fs s ->
  exists fates lost dropped, contents p fs s fates lost dropped.
Proof. apply accepts_contents. Qed.

Lemma exited_workers {A} (g : worker -> list A) ws : g WExited = [] -> all_exited ws = true -> ws ≫= g = [].
Proof.
  intros Hg. induction ws as [|w ws IH]; [done|]. cbn. intros [Hw Hws]%andb_true_iff.
  destruct w; try done. rewrite Hg. by apply IH.
Qed.

(** What storage holds after a graceful stop. *)
Lemma graceful_contents {Q} `{QueueLaws Q} p usage_of q n fs (s : state Q) :
  retry_ok (ic_Retry (p_cfg p)) -> bq_ok q -> bq_live q = [] -> accepts p usage_of (started q n) fs s ->
  ps_mode s = BDone -> ps_cancelled s = false ->
  exists parsed lost dropped,
    fs ≡ₚ parsed ++ lost /\ Forall2 (parses p) parsed (concat (ps_store s) ++ dropped)
    /\ Forall (unparsed p) lost /\ size lost + size dropped = count_if later (m_Dropped (ps_metrics s)).
Proof.
  intros Hr Hq Hl Hs Hd Hcan.
  destruct (done_left p usage_of q n s Hr Hq Hl (accepts_reaches p usage_of _ _ _ Hs) Hd)
    as (Hall & Hch & Hb & Hfl & Hqueue). destruct (Hqueue Hcan) as [_ Hlive].
  destruct (accepts_contents p usage_of q n fs s Hr Hq Hl Hs) as (fates & lost & dropped & [Hf He Hp Hlost Hcount]).
  unfold waiting in Hf. rewrite Hlive, exited_workers in Hf by done. rewrite Hch, Hb, Hfl, (exited_workers sending) in He by done. change (to_store []) with (@nil LogEntry) in He.
  cbn in Hf, He. symmetry in He. apply Permutation_map_inv in He as (fates' & E & Hperm).
  exists fates'.*1, lost, dropped. rewrite E. split_and!; try done.
  - rewrite Hf. by rewrite Hperm.
  - apply Forall2_fmap_l, Forall2_fmap_r, Forall_Forall2_diag. by rewrite <- Hperm.
Qed.


(** ** Concrete runs *)

Section AcceptRun.
Context {Q : Type} `{QueueLaws Q} (p : Pipeline) (usage_of : Q -> Z * Z).

(** A schedule, with the frames it has accepted. *)
Definition accept_run (l : list paction) (s0 : state Q) : option (list Frame * state Q) :=
  foldl (fun o a => '(fs, s) ← o; s' ← pperform p usage_of a s; Some (fs ++ admitted s s', s')) (Some ([], s0)) l.

Lemma accept_run_accepts l s0 fs s : accept_run l s0 = Some (fs, s) -> accepts p usage_of s0 fs s.
Proof.
  revert fs s. induction l as [|a l IH] using rev_ind; intros fs s Hl.
  - injection Hl as <- <-. constructor.
  - unfold accept_run in Hl. rewrite foldl_app in Hl. cbn [foldl] in Hl. fold (accept_run l s0) in Hl.
    destruct (accept_run l s0) as [[fs1 s1]|] eqn:E; [|done]. cbn in Hl.
    destruct (pperform p usage_of a s1) as [s2|] eqn:Ea; [|done]. injection Hl as <- <-.
    apply accepts_step; [by apply IH|by apply (pperform_step p usage_of a)].
Qed.
End AcceptRun.

Definition graceful_run : list Frame * state frameQueue :=
  default ([], sample_start) (accept_run sample_pipeline usage graceful sample_start).

Lemma graceful_accepts : accepts sample_pipeline usage sample_start graceful_run.1 graceful_run.2.
Proof. apply (accept_run_accepts sample_pipeline usage graceful). vm_compute. reflexivity. Qed.

Lemma messages_followed_witness :
  exists fates lost dropped, contents sample_pipeline [sample_frame] graceful_run.2 fates lost dropped.
Proof.
  apply (messages_followed sample_pipeline usage (newFrameQueue 4 1000) 1).
  - apply sample_retry_ok.
  - apply newFrameQueue_ok. lia.
  - reflexivity.
  - exact graceful_accepts.
Defined.

