(* ===== verification/BatchTimer.v ===== *)
(** * The age of a batch

    The loop of [batchWorker] of [backend/internal/ingestion/pipeline.go] with the
    clock: its timer, [resetTimer], and how long entries wait. [Pipeline] has the
    same loop with a timer that may fire at any moment; the rounds here are those
    until the channel of entries is closed or the context ends. *)
From S2P Require Import Prelude GoStrings GoTime Domain Config Metrics Pipeline.

(** ** [time.Timer]

    When the tick can be received; nothing, when it was received or the timer was
    stopped: after [Stop] no tick that was already due is received (the module is
    of Go 1.27). What [Stop] reports for a tick that is due is not used. *)
Definition Timer : Type := option Z.
Definition NewTimer (now d : Z) : Timer := Some (now + d).
Definition ready (now : Z) (t : Timer) : bool := match t with Some at_ => at_ <=? now | None => false end.
Definition Stop (reported : bool) (t : Timer) : bool * Timer := (reported, None).
Definition Reset (now d : Z) (t : Timer) : Timer := Some (now + d).
Definition drain (now : Z) (t : Timer) : Timer := if ready now t then None else t.

Definition resetTimer (reported : bool) (now d : Z) (t : Timer) : Timer :=
  let (active, t) := Stop reported t in
  let t := if negb active then drain now t else t in
  Reset now d t.

(** ** The loop *)

(** The clock, the timer, the batch, and when its entries were received. *)
Record worker := mkWorker { w_now : Z; w_timer : Timer; w_batch : batch_state; w_received : list Z }.
(** A batch given to [appendWithRetry], when, because of a tick or not, and when
    it returned. *)
Record flushed := mkFlushed { f_at : Z; f_tick : bool; f_batch : list LogEntry; f_received : list Z; f_end : Z }.

(** [flush], when the append takes [took]. *)
Definition flush_at (tick : bool) (took : Z) (w : worker) : list flushed * worker :=
  match (w_batch w).1 with
  | [] => ([], w)
  | b => ([mkFlushed (w_now w) tick b (w_received w) (w_now w + took)],
          mkWorker (w_now w + took) (w_timer w) ([], 0) [])
  end.
Definition reset_worker (reported : bool) (maxAge : Z) (w : worker) : worker :=
  mkWorker (w_now w) (resetTimer reported (w_now w) maxAge (w_timer w)) (w_batch w) (w_received w).
Definition flush_full (full reported : bool) (maxAge took : Z) (w : worker) : list flushed * worker :=
  if full then let (out, w) := flush_at false took w in (out, reset_worker reported maxAge w) else ([], w).

(** What the worker receives: an entry or a tick, at a time; how long its appends
    take and what [Stop] reports. *)
Inductive timed_event :=
  | TEntry (now : Z) (e : LogEntry) (took1 took2 : Z) (reported : bool)
  | TTick (now : Z) (took : Z).
Definition event_time (ev : timed_event) : Z := match ev with TEntry now _ _ _ _ => now | TTick now _ => now end.

Definition at_time (now : Z) (w : worker) : worker := mkWorker now (w_timer w) (w_batch w) (w_received w).
Definition add_entry (now : Z) (e : LogEntry) (w : worker) : worker :=
  mkWorker (w_now w) (w_timer w) ((w_batch w).1 ++ [e], wrap64 ((w_batch w).2 + entry_size e)) (w_received w ++ [now]).

(** A round of the loop, [None] when it cannot be: the clock does not go back, and
    a tick is received only when it is due. *)
Definition timed_step (cfg : BatchConfig) (w : worker) (ev : timed_event) : option (list flushed * worker) :=
  if event_time ev <? w_now w then None else
  match ev with
  | TEntry now e took1 took2 reported =>
      let w := at_time now w in
      let s := w_batch w in
      let (out, w) := flush_full
        ((0 <? blen s.1) && ((bc_MaxEvents cfg <=? blen s.1) || (bc_MaxBytes cfg <? wrap64 (s.2 + entry_size e))))
        reported (bc_MaxAge cfg) took1 w in
      let w := add_entry now e w in
      let s := w_batch w in
      let (out', w) := flush_full ((bc_MaxEvents cfg <=? blen s.1) || (bc_MaxBytes cfg <=? s.2))
        reported (bc_MaxAge cfg) took2 w in
      Some (out ++ out', w)
  | TTick now took =>
      if negb (ready now (w_timer w)) then None else
      let (out, w) := flush_at true took (mkWorker now None (w_batch w) (w_received w)) in
      Some (out, mkWorker (w_now w) (Reset (w_now w) (bc_MaxAge cfg) (w_timer w)) (w_batch w) (w_received w))
  end.
Fixpoint timed_run (cfg : BatchConfig) (w : worker) (evs : list timed_event) : option (list flushed * worker) :=
  match evs with
  | [] => Some ([], w)
  | ev :: evs =>
      '(out, w) ← timed_step cfg w ev;
      '(out', w) ← timed_run cfg w evs;
      Some (out ++ out', w)
  end.
Definition started (cfg : BatchConfig) (now : Z) : worker := mkWorker now (NewTimer now (bc_MaxAge cfg)) ([], 0) [].

(** ** The same batches as without the clock *)

Definition untimed (ev : timed_event) : batch_event := match ev with TEntry _ e _ _ _ => BEntry e | TTick _ _ => BTimer end.

Lemma flush_at_untimed tick took w :
  (map f_batch (flush_at tick took w).1, w_batch (flush_at tick took w).2) = flush (w_batch w).
Proof. unfold flush_at, flush. destruct w as [now t [[|e b] n] l]; done. Qed.
Lemma flush_full_untimed full reported age took w :
  (map f_batch (flush_full full reported age took w).1, w_batch (flush_full full reported age took w).2)
  = if full then flush (w_batch w) else ([], w_batch w).
Proof.
  unfold flush_full. destruct full; [|done]. rewrite <- (flush_at_untimed false took w).
  by destruct (flush_at false took w).
Qed.

Lemma timed_step_untimed cfg w ev out w' :
  timed_step cfg w ev = Some (out, w') -> batch_step cfg (w_batch w) (untimed ev) = (map f_batch out, w_batch w').
Proof.
  unfold timed_step. destruct (_ <? _); [done|]. destruct ev as [now e took1 took2 reported|now took]; cbn [untimed batch_step].
  - cbv zeta. unfold batch_entry. cbn [at_time w_batch].
    set (full := (0 <? blen (w_batch w).1) && _).
    pose proof (flush_full_untimed full reported (bc_MaxAge cfg) took1 (at_time now w)) as H1.
    destruct (flush_full full reported (bc_MaxAge cfg) took1 (at_time now w)) as [out1 w1]. cbn [fst snd at_time w_batch] in H1.
    rewrite <- H1. cbn [add_entry w_batch fst snd].
    set (full' := (bc_MaxEvents cfg <=? _) || _).
    pose proof (flush_full_untimed full' reported (bc_MaxAge cfg) took2 (add_entry now e w1)) as H2.
    destruct (flush_full full' reported (bc_MaxAge cfg) took2 (add_entry now e w1)) as [out2 w2].
    cbn [fst snd add_entry w_batch] in H2. intros [= <- <-]. rewrite map_app. destruct full'.
    + by rewrite <- H2.
    + by injection H2 as -> ->; rewrite app_nil_r.
  - destruct (negb _); [done|].
    pose proof (flush_at_untimed true took (mkWorker now None (w_batch w) (w_received w))) as H.
    destruct (flush_at true took _) as [o w1]. cbn [fst snd w_batch] in H. by intros [= <- <-].
Qed.

Lemma timed_run_untimed cfg w evs out w' :
  timed_run cfg w evs = Some (out, w') ->
  batch_run cfg (w_batch w) (map untimed evs) = (map f_batch out, w_batch w').
Proof.
  revert w out. induction evs as [|ev evs IH]; intros w out H; [by injection H as <- <-|].
  cbn [timed_run] in H. destruct (timed_step cfg w ev) as [[o1 w1]|] eqn:E; [|done]. cbn [mbind option_bind] in H.
  destruct (timed_run cfg w1 evs) as [[o2 w2]|] eqn:E2; [|done]. injection H as <- <-.
  cbn [map batch_run]. rewrite (timed_step_untimed _ _ _ _ _ E), (IH _ _ E2). replace (batch_returns (untimed ev)) with false by (by destruct ev).
  by rewrite map_app.
Qed.

(** ** When batches are flushed *)

Section Timing.
Context (age slack longest : Z).

(** A tick comes no sooner than [age] after the end of the flush before, which
    was at [last]. *)
Fixpoint spaced (last : Z) (out : list flushed) : Prop :=
  match out with
  | [] => True
  | f :: out => last <= f_at f /\ (f_tick f = true -> last + age <= f_at f) /\ spaced (f_end f) out
  end.
Fixpoint last_end (last : Z) (out : list flushed) : Z :=
  match out with [] => last | f :: out => last_end (f_end f) out end.

(** No entry of a flushed batch, or of the one being built, is older than [b]. *)
Definition not_older (b now : Z) (l : list Z) : Prop := Forall (fun a => now - a <= b) l.
Definition aged (b : Z) (out : list flushed) : Prop := Forall (fun f => not_older b (f_at f) (f_received f)) out.

(** The timer was set at [r], after the last flush and not long after the entries
    of the batch came. *)
Definition timer_ok (last : Z) (w : worker) : Prop :=
  ((w_batch w).1 = [] -> w_received w = [])
  /\ exists r, w_timer w = Some (r + age) /\ last <= r <= w_now w
     /\ Forall (fun a => r <= a + longest) (w_received w).

Lemma last_end_app last a b : last_end last (a ++ b) = last_end (last_end last a) b.
Proof. revert last. induction a as [|f a IH]; intros last; [done|]. apply IH. Qed.
Lemma spaced_app last a b : spaced last (a ++ b) <-> spaced last a /\ spaced (last_end last a) b.
Proof. revert last. induction a as [|f a IH]; intros last; cbn; [naive_solver|]. rewrite IH. naive_solver. Qed.

Lemma flush_full_spec full reported took last w out w' :
  flush_full full reported age took w = (out, w') -> timer_ok last w -> 0 <= took <= longest ->
  timer_ok (last_end last out) w' /\ spaced last out /\ w_now w <= w_now w' <= w_now w + longest
  /\ forall b, not_older b (w_now w) (w_received w) -> aged b out /\ not_older b (w_now w') (w_received w').
Proof.
  destruct w as [now t [b0 n] l]. unfold flush_full, timer_ok. cbn [w_now w_timer w_batch w_received fst].
  intros H (He & r & -> & Hr & Hl) Ht.
  destruct full; [|injection H as <- <-; cbn; split_and!; [done|by exists r|done|lia|lia|by split; [constructor|]]].
  unfold flush_at in H. cbn [w_now w_timer w_batch w_received fst snd] in H. destruct b0 as [|e b0].
  - injection H as <- <-. rewrite (He eq_refl). cbn. split_and!; [done| |done|lia|lia|by split; constructor].
    exists now. by split_and!; [|lia|lia|constructor].
  - injection H as <- <-. cbn. split_and!; [done| |lia|done|done|lia|lia|].
    + exists (now + took). split_and!; [done|lia|lia|constructor].
    + intros b Hb. split; [|constructor]. by repeat constructor.
Qed.

(** Of a round that takes a tick that is due within [slack]. *)
Definition in_time (w : worker) (ev : timed_event) : Prop :=
  match w_timer w with Some d => event_time ev <= d + slack | None => True end.
Definition takes (ev : timed_event) : Prop :=
  match ev with
  | TEntry _ _ took1 took2 _ => 0 <= took1 <= longest /\ 0 <= took2 <= longest
  | TTick _ took => 0 <= took <= longest
  end.
End Timing.

Section Run.
Context (cfg : BatchConfig) (slack longest : Z).
Context (Hslack : 0 <= slack) (Hage : 0 <= bc_MaxAge cfg).
Local Abbreviation age := (bc_MaxAge cfg).
Local Abbreviation oldest := (age + longest + slack).

Lemma received_age last w ev :
  timer_ok age longest last w -> in_time slack w ev -> not_older oldest (event_time ev) (w_received w).
Proof.
  intros (_ & r & Hr & _ & Hl) Ht. unfold in_time in Ht. rewrite Hr in Ht. eapply List.Forall_impl; [|exact Hl]. intros a Ha. cbn in Ha. lia.
Qed.

Lemma timed_step_spec last w ev out w' :
  timed_step cfg w ev = Some (out, w') -> timer_ok age longest last w -> takes longest ev ->
  timer_ok age longest (last_end last out) w' /\ spaced age last out
  /\ (in_time slack w ev -> aged oldest out).
Proof.
  intros H Hw Ht. unfold timed_step in H. destruct (Z.ltb_spec (event_time ev) (w_now w)) as [|Hnow]; [done|].
  pose proof (received_age last w ev Hw) as Hold.
  destruct ev as [now e took1 took2 reported|now took]; cbn [event_time takes] in *.
  - destruct Ht as [Ht1 Ht2]. cbv zeta in H. destruct (flush_full _ _ _ took1 _) as [out1 w1] eqn:E1.
    destruct (flush_full _ _ _ took2 _) as [out2 w2] eqn:E2. injection H as <- <-.
    apply flush_full_spec with (longest := longest) (last := last) in E1 as (H1 & H2 & H3 & H4); [| |done].
    2:{ destruct Hw as (He & r & Hr & Hb & Hl). split; [done|]. exists r. cbn. split_and!; [done|lia|lia|done]. }
    cbn [at_time w_now w_received] in H3, H4.
    apply flush_full_spec with (longest := longest) (last := last_end last out1) in E2 as (H5 & H6 & _ & H8); [| |done].
    2:{ destruct H1 as (He & r & Hr & Hb & Hl). split.
        - cbn. intros Hn. by destruct (w_batch w1).1.
        - exists r. cbn. split_and!; [done|lia|lia|]. apply Forall_app. split; [done|]. repeat constructor. lia. }
    rewrite last_end_app, spaced_app. split; [done|]. split; [done|]. intros Hin.
    destruct (H4 oldest (Hold Hin)) as [Ha Hn]. apply Forall_app. split; [done|]. apply H8. cbn.
    apply Forall_app. split; [done|]. repeat constructor. lia.
  - destruct (ready now (w_timer w)) eqn:Er; [|done]. cbn [negb] in H.
    destruct Hw as (He & r & Hr & Hb & Hl). rewrite Hr in Er. cbn [ready] in Er. apply Z.leb_le in Er.
    unfold flush_at in H. destruct w as [now0 t [b0 n] l]. cbn [w_now w_timer w_batch w_received fst snd] in *.
    destruct b0 as [|e b0]; injection H as <- <-; cbn.
    + rewrite (He eq_refl). split_and!; [|done|constructor]. split; [done|]. exists now. cbn. split_and!; [done|lia|lia|constructor].
    + split_and!; [|lia|lia|done|].
      * split; [done|]. exists (now + took). cbn. split_and!; [done|lia|lia|constructor].
      * intros Hin. repeat constructor. by apply Hold.
Qed.

(** Every round takes a tick in time. *)
Fixpoint prompt (w : worker) (evs : list timed_event) : Prop :=
  match evs with
  | [] => True
  | ev :: evs => in_time slack w ev /\ match timed_step cfg w ev with Some (_, w) => prompt w evs | None => True end
  end.

Lemma timed_run_spec last w evs out w' :
  timed_run cfg w evs = Some (out, w') -> timer_ok age longest last w -> Forall (takes longest) evs ->
  spaced age last out /\ (prompt w evs -> aged oldest out).
Proof.
  revert last w out. induction evs as [|ev evs IH]; intros last w out H Hw Ht.
  { injection H as <- <-. by split; [|constructor]. }
  cbn [timed_run] in H. destruct (timed_step cfg w ev) as [[o1 w1]|] eqn:E; [|done]. cbn [mbind option_bind] in H.
  destruct (timed_run cfg w1 evs) as [[o2 w2]|] eqn:E2; [|done]. injection H as <- <-.
  pose proof (Forall_cons_1 _ _ _ Ht) as [Ht1 Ht2].
  destruct (timed_step_spec last w ev o1 w1 E Hw Ht1) as (H1 & H2 & H3). destruct (IH _ _ _ E2 H1 Ht2) as [H4 H5].
  rewrite spaced_app. split; [done|]. cbn [prompt]. rewrite E. intros [Hi Hp]. apply Forall_app. split; [by apply H3|by apply H5].
Qed.
End Run.

(** C17. With the clock the worker makes the batches it makes without it. A tick
    flushes a batch no sooner than [max_age] after the append before it ended,
    however late that append was; and when due ticks are taken within [slack] and
    appends take at most [longest], no entry waits longer than [max_age] and
    these two. *)
Theorem batch_timing cfg start evs out w longest :
  0 <= bc_MaxAge cfg -> timed_run cfg (started cfg start) evs = Some (out, w) ->
  Forall (takes longest) evs ->
  batch_run cfg ([], 0) (map untimed evs) = (map f_batch out, w_batch w)
  /\ spaced (bc_MaxAge cfg) start out
  /\ forall slack, 0 <= slack -> prompt cfg slack (started cfg start) evs -> aged (bc_MaxAge cfg + longest + slack) out.
Proof.
  intros Hage H Ht. split; [exact (timed_run_untimed cfg (started cfg start) evs out w H)|].
  assert (Hok : timer_ok (bc_MaxAge cfg) longest start (started cfg start)).
  { split; [done|]. exists start. cbn. split_and!; [done|lia|lia|constructor]. }
  split.
  - by apply (timed_run_spec cfg 0 longest ltac:(lia) Hage start _ evs out w H Hok Ht).
  - intros slack Hs. by apply (timed_run_spec cfg slack longest Hs Hage start _ evs out w H Hok Ht).
Qed.

(** Two entries a batch and a second: the tick after a full batch counts from the
    end of its append, which took a second and a half. *)
Definition sample_rounds : list timed_event :=
  [TEntry 100 sample_entry 0 0 true; TEntry 900 sample_entry 0 1500 true;
   TEntry 2500 sample_entry 0 0 true; TTick 3410 20; TTick 4430 0].
Definition sample_timed : BatchConfig := mkBatchConfig 2 1000 1000 "1s".
Lemma batch_timing_witness :
  exists out w, timed_run sample_timed (started sample_timed 0) sample_rounds = Some (out, w)
  /\ map f_at out = [900; 3410] /\ map f_received out = [[100; 900]; [2500]]
  /\ spaced 1000 0 out /\ aged (1000 + 1500 + 10) out.
Proof.
  destruct (timed_run sample_timed (started sample_timed 0) sample_rounds) as [[out w]|] eqn:E; [|by vm_compute in E].
  destruct (batch_timing sample_timed 0 sample_rounds out w 1500) as (_ & Hs & Ha);
    [vm_compute; discriminate|exact E|repeat constructor; discriminate|].
  exists out, w. split; [done|].
  assert (H : map f_at out = [900; 3410] /\ map f_received out = [[100; 900]; [2500]]).
  { vm_compute in E. injection E as <- _. by split. }
  destruct H as [H1 H2]. split_and!; [done|done|exact Hs|]. apply (Ha 10); [discriminate|].
  vm_compute. repeat split; discriminate.
Defined.
