(* ===== verification/Framing.v ===== *)
(** * Syslog framing over TCP and UDP

    [backend/internal/transport/syslog/manager.go]: how a byte stream is cut
    into frames. A connection is the bytes still to arrive and the error its
    reads end with; a [bufio.Reader] of [size] bytes shows up only in
    [ReadSlice], which returns at most a full buffer at a time. *)
From S2P Require Import Prelude GoStrings GoTime Domain Config Queue Metrics Pipeline.

Inductive frame_error :=
  | EEOF
  | EUnexpectedEOF
  | EClosed
  | ETimeout
  | ERead
  | ErrFrameTooLarge
  | EInvalidCount.
#[export] Instance frame_error_eq_dec : EqDecision frame_error.
Proof. solve_decision. Defined.

Record reader := mkReader { rd_data : string; rd_err : frame_error }.

Definition newline : byte := chr 10.

(** ** Reads *)

(** [Peek(i)] for the byte [i-1]. *)
Definition peek_byte (r : reader) (i : nat) : outcome frame_error byte :=
  match str_nth (rd_data r) (i - 1) with Some b => Ok b | None => Err (rd_err r) end.

Definition ReadByte (r : reader) : outcome frame_error (byte * reader) :=
  match rd_data r with
  | String b s => Ok (b, mkReader s (rd_err r))
  | EmptyString => Err (rd_err r)
  end.

(** [io.ReadFull] of [n] bytes. *)
Definition ReadFull (r : reader) (n : Z) : outcome frame_error (string * reader) :=
  if n <=? len (rd_data r)
  then Ok (str_take (Z.to_nat n) (rd_data r), mkReader (str_drop (Z.to_nat n) (rd_data r)) (rd_err r))
  else if (rd_data r =s "") || negb (bool_decide (rd_err r = EEOF)) then Err (rd_err r)
  else Err EUnexpectedEOF.

(** The prefix up to and including the first newline, if there is one. *)
Fixpoint line_split (s : string) : option (string * string) :=
  match s with
  | EmptyString => None
  | String c s =>
      if c =c newline then Some (String c "", s)
      else match line_split s with Some (a, b) => Some (String c a, b) | None => None end
  end.

(** How [ReadSlice] ends: at the delimiter, with a full buffer, or with the
    error of the stream. *)
Inductive slice_end := SDelim | SFull | SError (e : frame_error).
Definition ReadSlice (size : nat) (r : reader) : string * slice_end * reader :=
  match line_split (str_take size (rd_data r)) with
  | Some (part, _) =>
      (part, SDelim, mkReader (str_drop (String.length part) (rd_data r)) (rd_err r))
  | None =>
      if (size <=? String.length (rd_data r))%nat
      then (str_take size (rd_data r), SFull, mkReader (str_drop size (rd_data r)) (rd_err r))
      else (rd_data r, SError (rd_err r), mkReader "" (rd_err r))
  end.

(** ** Frames *)

Definition bytesTrimLine (b : string) : string :=
  TrimSuffix (TrimSuffix b (String newline "")) (String (chr 13) "").

(** The loop of [looksOctetCounted] from position [i], [k] positions left. *)
Fixpoint looks_from (r : reader) (i k : nat) : outcome frame_error bool :=
  match k with
  | O => Err ErrFrameTooLarge
  | S k =>
      ch ← peek_byte r i;
      if ch =c " " then Ok (1 <? i)%nat
      else if negb (is_digit ch) then Ok false
      else looks_from r (S i) k
  end.
Definition looksOctetCounted (r : reader) : outcome frame_error bool := looks_from r 1 10.

(** The count: at most eleven digits, up to a space. *)
Fixpoint read_count (k : nat) (digits : string) (r : reader)
    : outcome frame_error (string * reader) :=
  match k with
  | O => Ok (digits, r)
  | S k =>
      '(b, r) ← ReadByte r;
      if b =c " " then Ok (digits, r)
      else if negb (is_digit b) then Err EInvalidCount
      else read_count k (digits +:+ String b "") r
  end.

Definition readOctetCounted (r : reader) (maxBytes : Z) : outcome frame_error (string * reader) :=
  '(digits, r) ← read_count 11 "" r;
  match Atoi digits with
  | None => Err EInvalidCount
  | Some n =>
      if n <? 0 then Err EInvalidCount else
      if maxBytes <? n then Err ErrFrameTooLarge else
      ReadFull r n
  end.

(** The loop of [readNewline]; every [SFull] consumes a buffer, so the length
    of the data bounds the iterations. *)
Fixpoint newline_loop (fuel : nat) (size : nat) (payload : string) (r : reader) (maxBytes : Z)
    : outcome frame_error (string * reader) :=
  match fuel with
  | O => Panic
  | S fuel =>
      let '(part, e, r) := ReadSlice size r in
      let payload := payload +:+ part in
      if maxBytes <? len payload then Err ErrFrameTooLarge else
      match e with
      | SDelim => Ok (bytesTrimLine payload, r)
      | SFull => newline_loop fuel size payload r maxBytes
      | SError e =>
          if bool_decide (e = EEOF) && (0 <? len payload) then Ok (bytesTrimLine payload, r)
          else Err e
      end
  end.
Definition readNewline (size : nat) (r : reader) (maxBytes : Z) : outcome frame_error (string * reader) :=
  newline_loop (S (String.length (rd_data r))) size "" r maxBytes.

Definition readFrame (size : nat) (r : reader) (framing : string) (maxBytes : Z)
    : outcome frame_error (string * reader) :=
  mode ← (if framing =s "auto" then
            octet ← looksOctetCounted r;
            Ok (if octet : bool then "octet_counting" else "newline")%string
          else Ok framing);
  if mode =s "octet_counting" then readOctetCounted r maxBytes else readNewline size r maxBytes.

(** ** Connections *)

Definition uint16 (z : Z) : Z := z mod 65536.
Definition makeFrame (source : SourceConfig) (protocol payload ip : string) (port : Z) (now : Time) : Frame :=
  mkFrame payload (UTC now) (sc_TenantID source) (sc_ID source) (sc_Name source) protocol ip (uint16 port).

(** [net.SplitHostPort]; its errors are one. *)
Definition SplitHostPort (hostport : string) : option (string * string) :=
  let i := LastIndexByte hostport ":" in
  if i <? 0 then None
  else if starts (fun c => c =c "[") hostport then
    let end_ := IndexByte hostport "]" in
    if negb (end_ + 1 =? i) then None
    else
      host ← slice hostport 1 end_; rest ← slice hostport 1 (len hostport); tail ← slice hostport i (len hostport);
      if 0 <=? IndexByte rest "[" then None
      else if 0 <=? IndexByte tail "]" then None
      else port ← slice hostport (i + 1) (len hostport); Some (host, port)
  else
    host ← slice hostport 0 i;
    if 0 <=? IndexByte host ":" then None
    else if 0 <=? IndexByte hostport "[" then None
    else if 0 <=? IndexByte hostport "]" then None
    else port ← slice hostport (i + 1) (len hostport); Some (host, port).

(** The number [strconv.Atoi] returns next to its error: none for a syntax error,
    the nearest one out of range. *)
Definition Atoi_number (s : string) : Z :=
  match Atoi s with
  | Some n => n
  | None =>
      match dec_value 0 (if starts (fun c => (c =c "-") || (c =c "+")) s then str_drop 1 s else s) with
      | Some n => if n =? 0 then 0 else if HasPrefix s "-" then min_int64 else max_int64
      | None => 0
      end
  end.

Definition peerAddress (addr : string) : string * Z :=
  match SplitHostPort addr with
  | Some (host, port) => (host, Atoi_number port)
  | None => (addr, 0)
  end.

(** The frame [handleTCP] submits for a payload read at [now]. *)
Definition tcp_frame (source : SourceConfig) (addr payload : string) (now : Time) : Frame :=
  let (ip, port) := peerAddress addr in makeFrame source "syslog_tcp" payload ip port now.

(** [min(source.MaxMessageBytes+1, 256<<10)], at least the smallest buffer
    [bufio] makes. *)
Definition buffer_size (source : SourceConfig) : nat :=
  Z.to_nat (Z.max 16 (Z.min (sc_MaxMessageBytes source + 1) (Z.shiftl 256 10))).

(** How the loop of [handleTCP] ends. *)
Inductive tcp_end := TEnded (e : frame_error) | TRejected | TRefused.

(** The frames submitted, in order, and the end; [submit] answers [Submit] for a
    frame, given those submitted before.
    Each frame consumes a byte, so the length of the data bounds the
    iterations; [None] is out of fuel. *)
Fixpoint tcp_loop (fuel : nat) (source : SourceConfig) (submit : list string -> string -> bool) (r : reader)
    (frames : list string) : option (list string * tcp_end) :=
  match fuel with
  | O => None
  | S fuel =>
      match readFrame (buffer_size source) r (sc_Framing source) (sc_MaxMessageBytes source) with
      | Panic => None
      | Err e =>
          Some (frames, if bool_decide (e = ErrFrameTooLarge) then TRejected else TEnded e)
      | Ok (payload, r) =>
          if len payload =? 0 then tcp_loop fuel source submit r frames
          else if submit frames payload then tcp_loop fuel source submit r (frames ++ [payload])
          else Some (frames ++ [payload], TRefused)
      end
  end.
Definition handleTCP (source : SourceConfig) (submit : list string -> string -> bool) (r : reader)
    : option (list string * tcp_end) :=
  tcp_loop (S (String.length (rd_data r))) source submit r [].

(** One datagram of [startUDP]: read into a buffer one byte larger than the
    limit, so that a longer one is seen to be too long. *)
Inductive udp_action := UReject (bytes : Z) | USubmit (frame : Frame).
Definition udp_datagram (source : SourceConfig) (datagram ip : string) (port : Z) (now : Time) : udp_action :=
  let n := Z.min (len datagram) (sc_MaxMessageBytes source + 1) in
  if sc_MaxMessageBytes source <? n then UReject n
  else USubmit (makeFrame source "syslog_udp" (str_take (Z.to_nat n) datagram) ip port now).

(** ** Newline framing does not depend on the buffer *)

Lemma line_split_spec s a b :
  line_split s = Some (a, b) ->
  s = a +:+ b /\ exists l, a = l +:+ String newline "" /\ lacks newline l = true.
Proof.
  revert a. induction s as [|c s IH]; intros a; simpl; [done|].
  destruct (ch_eq_spec c newline) as [->|Hc].
  - intros [= <- <-]. split; [done|]. by exists "".
  - destruct (line_split s) as [[x y]|] eqn:E; [|done]. intros [= <- <-].
    destruct (IH x eq_refl) as (-> & l & -> & Hl). split; [done|]. exists (String c l).
    split; [done|]. unfold lacks in *. simpl. rewrite Hl.
    by destruct (ch_eq_spec c newline).
Qed.

Lemma line_split_append l rest :
  lacks newline l = true -> line_split (l +:+ String newline rest) = Some (l +:+ String newline "", rest).
Proof.
  induction l as [|c l IH]; simpl; [done|]. unfold lacks. simpl.
  intros [Hc Hl]%andb_true_iff. apply negb_true_iff in Hc. rewrite Hc.
  by rewrite (IH Hl).
Qed.

Lemma line_split_none s : line_split s = None <-> lacks newline s = true.
Proof.
  induction s as [|c s IH]; simpl; [done|]. unfold lacks in *. simpl.
  destruct (c =c newline) eqn:Hc; simpl; [done|].
  destruct (line_split s) as [[]|]; rewrite <- IH; split; done.
Qed.

(** A delimiter in the first [n] bytes is the delimiter of the whole. *)
Lemma line_split_take n s :
  match line_split (str_take n s) with
  | Some (a, _) => line_split s = Some (a, str_drop (String.length a) s)
  | None => line_split s = match line_split (str_drop n s) with
                           | Some (a, b) => Some (str_take n s +:+ a, b)
                           | None => None
                           end
  end.
Proof.
  revert s. induction n as [|n IH]; intros s.
  - simpl. by destruct (line_split s) as [[]|].
  - destruct s as [|c s]; [done|]. cbn [str_take str_drop line_split].
    destruct (c =c newline) eqn:Hc; [done|]. specialize (IH s).
    destruct (line_split (str_take n s)) as [[a b]|]; rewrite IH; [done|].
    by destruct (line_split (str_drop n s)) as [[]|].
Qed.

(** What [readNewline] computes, without a buffer: the rest of the line after
    the bytes already read. *)
Definition newline_from (payload : string) (r : reader) (maxBytes : Z)
    : outcome frame_error (string * reader) :=
  match line_split (rd_data r) with
  | Some (line, rest) =>
      if maxBytes <? len (payload +:+ line) then Err ErrFrameTooLarge
      else Ok (bytesTrimLine (payload +:+ line), mkReader rest (rd_err r))
  | None =>
      let whole := payload +:+ rd_data r in
      if maxBytes <? len whole then Err ErrFrameTooLarge
      else if bool_decide (rd_err r = EEOF) && (0 <? len whole)
      then Ok (bytesTrimLine whole, mkReader "" (rd_err r))
      else Err (rd_err r)
  end.

Lemma newline_loop_from fuel size payload r maxBytes :
  (0 < size)%nat -> (String.length (rd_data r) < fuel)%nat ->
  newline_loop fuel size payload r maxBytes = newline_from payload r maxBytes.
Proof.
  intros Hsize. revert payload r. induction fuel as [|fuel IH]; intros payload [s e] Hf; [lia|].
  cbn [newline_loop]. unfold ReadSlice, newline_from. cbn [rd_data rd_err] in *.
  pose proof (line_split_take size s) as Hsplit.
  destruct (line_split (str_take size s)) as [[a b]|] eqn:Ea.
  { rewrite Hsplit. done. }
  destruct (Nat.leb_spec size (String.length s)) as [Hle|Hlt].
  - set (r' := mkReader (str_drop size s) e).
    assert (Hw : payload +:+ s = (payload +:+ str_take size s) +:+ rd_data r').
    { simpl. by rewrite append_assoc, str_take_drop. }
    pose proof (len_nonneg (rd_data r')) as Hn.
    destruct (Z.ltb_spec maxBytes (len (payload +:+ str_take size s))) as [Hbig|Hsmall].
    + rewrite Hsplit. rewrite Hw. fold (rd_data r'). change (str_drop size s) with (rd_data r').
      destruct (line_split (rd_data r')) as [[x y]|].
      * rewrite <- append_assoc, len_append. pose proof (len_nonneg x).
        destruct (Z.ltb_spec maxBytes (len (payload +:+ str_take size s) + len x)); [done|lia].
      * rewrite len_append.
        destruct (Z.ltb_spec maxBytes (len (payload +:+ str_take size s) + len (rd_data r'))); [done|lia].
    + rewrite IH by (simpl; rewrite length_str_drop; lia). unfold newline_from.
      rewrite Hsplit, Hw. change (str_drop size s) with (rd_data r').
      destruct (line_split (rd_data r')) as [[x y]|]; [|done]. by rewrite append_assoc.
  - assert (Hall : str_take size s = s) by (apply str_take_all; lia).
    assert (line_split s = None) as -> by (by rewrite <- Hall). done.
Qed.

Lemma readNewline_from size r maxBytes :
  (0 < size)%nat -> readNewline size r maxBytes = newline_from "" r maxBytes.
Proof. intros. apply newline_loop_from; [done|lia]. Qed.

(** ** Senders *)

(** A message as a sender frames it: RFC 6587 octet counting, or a line. *)
Inductive message := MOctet (payload : string) | MLine (payload : string).
Definition payload_of (m : message) : string := match m with MOctet p | MLine p => p end.
Definition print_message (m : message) : string :=
  match m with
  | MOctet p => Itoa (len p) +:+ String " " p
  | MLine p => p +:+ String newline ""
  end.
Definition print_messages (l : list message) : string :=
  foldr (fun m s => print_message m +:+ s) "" l.

Definition cr : string := String (chr 13) "".

(** The messages a source with this framing and limit accepts. *)
Definition message_ok (framing : string) (maxBytes : Z) (m : message) : Prop :=
  match m with
  | MOctet p =>
      (framing = "octet_counting"%string \/ framing = "auto"%string)
      /\ 0 < len p <= maxBytes /\ len p < 10 ^ 9
  | MLine p =>
      (framing = "newline"%string \/ framing = "auto"%string /\ starts is_digit p = false)
      /\ p <> ""%string /\ lacks newline p = true /\ HasSuffix p cr = false /\ len p < maxBytes
  end.

Lemma str_nth_append a c b : str_nth (a +:+ String c b) (String.length a) = Some c.
Proof. induction a; [done|]. exact IHa. Qed.

Lemma peek_append a c b e : peek_byte (mkReader (a +:+ String c b) e) (S (String.length a)) = Ok c.
Proof. unfold peek_byte. simpl. by rewrite Nat.sub_0_r, str_nth_append. Qed.

Lemma digit_not_blank c : is_digit c = true -> (c =c " ") = false.
Proof. intros H. by destruct (ch_eq_spec c " ") as [->|]. Qed.

(** Digits followed by a space look like a count; a first byte that is not a
    digit looks like a line. *)
Lemma looks_digits pre ds rest e k :
  all_bytes is_digit ds = true -> (String.length ds < k)%nat -> pre +:+ ds <> "" ->
  looks_from (mkReader (pre +:+ ds +:+ String " " rest) e) (S (String.length pre)) k = Ok true.
Proof.
  revert pre k. induction ds as [|c ds IH]; intros pre [|k] Hd Hk Hne; simpl in Hk; try lia;
    cbn [looks_from].
  - change ("" +:+ String " " rest) with (String " " rest). rewrite peek_append. bind_simpl.
    rewrite ch_eq_refl. destruct pre; [done|]. done.
  - rewrite append_cons, peek_append. bind_simpl. simpl in Hd. apply andb_true_iff in Hd as [Hc Hd].
    rewrite digit_not_blank, Hc by done. simpl.
    assert (Hl : S (S (String.length pre)) = S (String.length (pre +:+ String c ""))).
    { rewrite length_append. simpl. lia. }
    rewrite Hl. rewrite <- (IH (pre +:+ String c "") k); [|done|lia|by destruct pre].
    by rewrite append_assoc.
Qed.

Lemma looks_line s rest e :
  s <> "" -> starts is_digit s = false ->
  looksOctetCounted (mkReader (s +:+ rest) e) = Ok false.
Proof.
  intros Hne Hs. destruct s as [|c s]; [done|]. unfold looksOctetCounted. simpl in *.
  unfold peek_byte. simpl. destruct (c =c " "); [done|]. by rewrite Hs.
Qed.

Lemma read_count_digits k acc ds rest e :
  all_bytes is_digit ds = true -> (String.length ds < k)%nat ->
  read_count k acc (mkReader (ds +:+ String " " rest) e) = Ok (acc +:+ ds, mkReader rest e).
Proof.
  revert k acc. induction ds as [|c ds IH]; intros [|k] acc Hd Hk; simpl in Hk; try lia; cbn [read_count].
  - simpl. by rewrite append_nil_r.
  - simpl in Hd. apply andb_true_iff in Hd as [Hc Hd]. unfold ReadByte. cbn [rd_data].
    rewrite append_cons. bind_simpl. rewrite digit_not_blank, Hc by done. simpl.
    rewrite IH by (done || lia). by rewrite append_assoc.
Qed.

Lemma count_digits n :
  0 < n < 10 ^ 9 ->
  Itoa n = digits n /\ all_bytes is_digit (digits n) = true
  /\ (String.length (digits n) <= 9)%nat /\ digits n <> "" /\ Atoi (digits n) = Some n.
Proof.
  intros Hn. assert (Itoa n = digits n) as E by (unfold Itoa; destruct (Z.ltb_spec n 0); [lia|done]).
  split; [done|]. split; [apply digits_digits; lia|]. split; [apply (digits_length 8); cbn; lia|].
  split; [apply digits_nonempty|]. rewrite <- E. apply Atoi_Itoa. unfold in_int64.
  rewrite andb_true_iff, !Z.leb_le. cbn in Hn. unfold min_int64, max_int64. lia.
Qed.

Lemma readOctetCounted_print p rest e maxBytes :
  0 < len p <= maxBytes -> len p < 10 ^ 9 ->
  readOctetCounted (mkReader (Itoa (len p) +:+ String " " (p +:+ rest)) e) maxBytes
  = Ok (p, mkReader rest e).
Proof.
  intros Hp Hl. destruct (count_digits (len p)) as (-> & Hd & Hlen & Hne & Ha); [lia|].
  unfold readOctetCounted. rewrite read_count_digits by (done || lia). bind_simpl.
  change ("" +:+ ?d) with d. rewrite Ha. destruct (Z.ltb_spec (len p) 0); [lia|].
  destruct (Z.ltb_spec maxBytes (len p)); [lia|]. unfold ReadFull. cbn [rd_data rd_err].
  rewrite len_append. pose proof (len_nonneg rest). destruct (Z.leb_spec (len p) (len p + len rest)); [|lia].
  unfold len. rewrite Nat2Z.id. by rewrite str_take_append, str_drop_append.
Qed.

Lemma bytesTrimLine_print p : HasSuffix p cr = false -> bytesTrimLine (p +:+ String newline "") = p.
Proof.
  intros H. unfold bytesTrimLine, TrimSuffix. rewrite strip_suffix_append. cbn [default]. unfold id.
  unfold HasSuffix in H. apply bool_decide_eq_false in H. fold cr.
  destruct (strip_suffix cr p); [|done]. by destruct H.
Qed.

Lemma readNewline_print size p rest e maxBytes :
  (0 < size)%nat -> lacks newline p = true -> HasSuffix p cr = false -> len p < maxBytes ->
  readNewline size (mkReader (p +:+ String newline rest) e) maxBytes = Ok (p, mkReader rest e).
Proof.
  intros Hs Hl Hc Hm. rewrite readNewline_from by done. unfold newline_from. cbn [rd_data rd_err].
  rewrite line_split_append by done. change ("" +:+ ?x) with x. rewrite len_append.
  change (len (String newline "")) with 1. destruct (Z.ltb_spec maxBytes (len p + 1)); [lia|].
  by rewrite bytesTrimLine_print.
Qed.

Lemma readFrame_print size framing maxBytes m rest e :
  (0 < size)%nat -> message_ok framing maxBytes m ->
  readFrame size (mkReader (print_message m +:+ rest) e) framing maxBytes
  = Ok (payload_of m, mkReader rest e).
Proof.
  intros Hs Hm. unfold readFrame. destruct m as [p|p]; cbn [print_message payload_of].
  - destruct Hm as (Hf & Hp & Hl). rewrite append_assoc, append_cons.
    destruct Hf as [->| ->]; simpl str_eq; cbv iota.
    + bind_simpl. by rewrite readOctetCounted_print.
    + destruct (count_digits (len p)) as (E & Hd & Hlen & Hne & _); [lia|].
      unfold looksOctetCounted. rewrite E.
      pose proof (looks_digits "" (digits (len p)) (p +:+ rest) e 10 Hd ltac:(lia) Hne) as Hlook.
      change (S (String.length "")) with 1%nat in Hlook. change ("" +:+ ?x) with x in Hlook.
      rewrite Hlook. bind_simpl. simpl str_eq. cbv iota. rewrite <- E. by apply readOctetCounted_print.
  - destruct Hm as (Hf & Hne & Hl & Hc & Hmax). rewrite append_assoc, append_cons.
    change ("" +:+ rest) with rest.
    destruct Hf as [->|[-> Hd]]; simpl str_eq; cbv iota.
    + bind_simpl. by apply readNewline_print.
    + rewrite looks_line by done. bind_simpl. by apply readNewline_print.
Qed.

(** ** Every frame consumes input and respects the limit *)

Definition frame_bounded (maxBytes : Z) (r : reader) (x : string * reader) : Prop :=
  len x.1 <= maxBytes /\ (String.length (rd_data x.2) < String.length (rd_data r))%nat
  /\ rd_err x.2 = rd_err r.

Lemma TrimSuffix_len s p : len (TrimSuffix s p) <= len s.
Proof.
  unfold TrimSuffix. destruct (strip_suffix p s) as [r|] eqn:E; simpl; [|unfold id; lia].
  apply strip_suffix_Some in E as ->. rewrite len_append. pose proof (len_nonneg p). lia.
Qed.

Lemma bytesTrimLine_len b : len (bytesTrimLine b) <= len b.
Proof. unfold bytesTrimLine. etransitivity; apply TrimSuffix_len. Qed.

Lemma readNewline_bounded size r maxBytes :
  (0 < size)%nat ->
  no_panic (readNewline size r maxBytes)
  /\ ensures (frame_bounded maxBytes r) (readNewline size r maxBytes).
Proof.
  intros Hs. rewrite readNewline_from by done. unfold newline_from. destruct r as [s e]. cbn [rd_data rd_err].
  destruct (line_split s) as [[line rest]|] eqn:E.
  - destruct (Z.ltb_spec maxBytes (len ("" +:+ line))) as [|Hl]; [done|]. split; [done|].
    apply line_split_spec in E as (-> & l & -> & _). unfold frame_bounded. cbn [ensures fst snd rd_data rd_err].
    split_and!; [pose proof (bytesTrimLine_len ("" +:+ l +:+ String newline "")); lia| |done].
    rewrite !length_append. simpl. lia.
  - destruct (Z.ltb_spec maxBytes (len ("" +:+ s))) as [|Hl]; [done|].
    destruct (_ && _) eqn:Ec; [|done]. apply andb_true_iff in Ec as [_ Hpos%Z.ltb_lt]. split; [done|].
    change ("" +:+ s) with s in *. unfold frame_bounded. cbn [ensures fst snd rd_data rd_err].
    pose proof (bytesTrimLine_len s). unfold len in *. simpl. split_and!; [lia|lia|done].
Qed.

Lemma ReadByte_shrinks r :
  ensures (fun x => (String.length (rd_data x.2) < String.length (rd_data r))%nat
                    /\ rd_err x.2 = rd_err r) (ReadByte r).
Proof. destruct r as [[|b s] e]; simpl; [done|]. split; [lia|done]. Qed.

Lemma read_count_shrinks k acc r :
  no_panic (read_count k acc r)
  /\ ensures (fun x => (String.length (rd_data x.2) + (if (0 <? k)%nat then 1 else 0)
                        <= String.length (rd_data r))%nat /\ rd_err x.2 = rd_err r) (read_count k acc r).
Proof.
  revert acc r. induction k as [|k IH]; intros acc r; cbn [read_count]; [simpl; split; [done|]; split; [lia|done]|].
  destruct r as [[|b s] e]; simpl; [done|]. destruct (b =c " "); [simpl; split; [done|]; split; [lia|done]|].
  destruct (is_digit b); [|done]. simpl. destruct (IH (acc +:+ String b "") (mkReader s e)) as [H1 H2].
  split; [done|]. destruct (read_count k _ _) as [x| |]; simpl in *; [|done..]. destruct H2 as [H2 ->].
  split; [lia|done].
Qed.

Lemma readOctetCounted_bounded r maxBytes :
  no_panic (readOctetCounted r maxBytes)
  /\ ensures (frame_bounded maxBytes r) (readOctetCounted r maxBytes).
Proof.
  unfold readOctetCounted. destruct (read_count_shrinks 11 "" r) as [H1 H2].
  destruct (read_count 11 "" r) as [[ds [s e]]| |]; simpl in *; [|done..]. destruct H2 as [H2 He].
  destruct (Atoi ds) as [n|]; [|done]. destruct (Z.ltb_spec n 0); [done|].
  destruct (Z.ltb_spec maxBytes n); [done|]. unfold ReadFull. cbn [rd_data rd_err].
  destruct (Z.leb_spec n (len s)) as [Hn|]; [|by destruct (_ || _)].
  split; [done|]. unfold frame_bounded, len in *. simpl.
  rewrite length_str_take, length_str_drop. split_and!; [lia|lia|done].
Qed.

Lemma looks_from_no_panic r i k : no_panic (looks_from r i k).
Proof.
  revert i. induction k as [|k IH]; intros i; [done|]. cbn [looks_from]. unfold peek_byte.
  destruct (str_nth _ _) as [c|]; [|done]. simpl. destruct (c =c " "); [done|].
  destruct (is_digit c); [apply IH|done].
Qed.

Lemma readFrame_bounded size r framing maxBytes :
  (0 < size)%nat ->
  no_panic (readFrame size r framing maxBytes)
  /\ ensures (frame_bounded maxBytes r) (readFrame size r framing maxBytes).
Proof.
  intros Hs. unfold readFrame.
  assert (Hmode : forall mode : string,
    no_panic (if mode =s "octet_counting" then readOctetCounted r maxBytes else readNewline size r maxBytes)
    /\ ensures (frame_bounded maxBytes r)
         (if mode =s "octet_counting" then readOctetCounted r maxBytes else readNewline size r maxBytes)).
  { intros mode. destruct (_ =s _); [exact (readOctetCounted_bounded r maxBytes)|exact (readNewline_bounded size r maxBytes Hs)]. }
  destruct (framing =s "auto"); [|apply Hmode].
  pose proof (looks_from_no_panic r 1 10) as Hl. unfold looksOctetCounted.
  destruct (looks_from r 1 10) as [[]| |]; bind_simpl; try done; apply Hmode.
Qed.

Lemma buffer_size_pos source : (0 < buffer_size source)%nat.
Proof. unfold buffer_size. lia. Qed.

Definition frame_ok (maxBytes : Z) (p : string) : Prop := 0 < len p <= maxBytes.

Lemma tcp_loop_total fuel source submit r frames :
  (String.length (rd_data r) < fuel)%nat -> Forall (frame_ok (sc_MaxMessageBytes source)) frames ->
  exists frames' e, tcp_loop fuel source submit r frames = Some (frames', e)
    /\ Forall (frame_ok (sc_MaxMessageBytes source)) frames'.
Proof.
  revert r frames. induction fuel as [|fuel IH]; intros r frames Hf Hok; [lia|]. cbn [tcp_loop].
  destruct (readFrame_bounded (buffer_size source) r (sc_Framing source) (sc_MaxMessageBytes source)
    (buffer_size_pos source)) as [Hp Hb].
  destruct (readFrame _ _ _ _) as [[p r']|e|]; [|by eexists _, _|done].
  destruct Hb as (Hl & Hs & _). cbn [fst snd] in *.
  destruct (Z.eqb_spec (len p) 0); [apply IH; [lia|done]|].
  assert (Hp' : Forall (frame_ok (sc_MaxMessageBytes source)) (frames ++ [p])).
  { apply Forall_app_2; [done|]. constructor; [|done]. pose proof (len_nonneg p). unfold frame_ok. lia. }
  destruct (submit frames p); [apply IH; [lia|done]|by eexists _, _].
Qed.

(** C34. Whatever bytes arrive on a connection, in whatever framing mode, its
    handler ends, and every frame it submits is non-empty and within the
    source's limit. *)
Theorem handleTCP_total source submit r :
  exists frames e, handleTCP source submit r = Some (frames, e)
    /\ Forall (frame_ok (sc_MaxMessageBytes source)) frames.
Proof. apply tcp_loop_total; [lia|constructor]. Qed.

(** The buffered newline reader computes the unbuffered reference: the
    size of the buffer, and so where the reads of a long line are split, does
    not matter. *)
Theorem readNewline_exact size r maxBytes :
  (0 < size)%nat -> readNewline size r maxBytes = newline_from "" r maxBytes.
Proof. apply readNewline_from. Qed.

Definition sample_reader : reader := mkReader ("<34>line one" +:+ String newline "<34>two") EEOF.
Lemma readNewline_exact_witness : readNewline 4 sample_reader 64 = newline_from "" sample_reader 64.
Proof. apply readNewline_exact. lia. Defined.

(** What the handler submits of messages sent: it stops at the first refusal. *)
Fixpoint offer (submit : list string -> string -> bool) (frames l : list string) : list string * bool :=
  match l with
  | [] => (frames, true)
  | x :: l => if submit frames x then offer submit (frames ++ [x]) l else (frames ++ [x], false)
  end.

Lemma offer_all frames l : offer (fun _ _ => true) frames l = (frames ++ l, true).
Proof.
  revert frames. induction l as [|x l IH]; intros frames; [by rewrite app_nil_r|].
  cbn. by rewrite IH, <- app_assoc.
Qed.

Lemma handleTCP_offer source submit l frames fuel e :
  Forall (message_ok (sc_Framing source) (sc_MaxMessageBytes source)) l ->
  (String.length (print_messages l) < fuel)%nat -> e <> ErrFrameTooLarge ->
  readFrame (buffer_size source) (mkReader "" e) (sc_Framing source) (sc_MaxMessageBytes source) = Err e ->
  tcp_loop fuel source submit (mkReader (print_messages l) e) frames
  = (let (frames', all) := offer submit frames (map payload_of l) in
     Some (frames', if all then TEnded e else TRefused)).
Proof.
  intros Hl Hf He Hend. revert frames fuel Hf. induction Hl as [|m l Hm _ IH]; intros frames [|fuel] Hf; try lia.
  - cbn [tcp_loop print_messages foldr map offer]. by rewrite Hend, bool_decide_eq_false_2 by done.
  - cbn [tcp_loop map offer]. change (print_messages (m :: l)) with (print_message m +:+ print_messages l) in *.
    rewrite readFrame_print by (done || apply buffer_size_pos).
    assert (Hne : 0 < len (payload_of m)).
    { destruct m as [p|p]; simpl in *; [tauto|]. destruct Hm as (_ & Hne & _).
      destruct p; [done|]. rewrite len_cons. pose proof (len_nonneg p). lia. }
    destruct (Z.eqb_spec (len (payload_of m)) 0); [lia|]. destruct (submit frames (payload_of m)); [|done].
    rewrite IH; [done|]. rewrite length_append in Hf. assert (0 < String.length (print_message m))%nat; [|lia].
    destruct m as [p|p]; simpl; rewrite length_append; simpl; lia.
Qed.

Lemma handleTCP_print source l frames fuel e :
  Forall (message_ok (sc_Framing source) (sc_MaxMessageBytes source)) l ->
  (String.length (print_messages l) < fuel)%nat -> e <> ErrFrameTooLarge ->
  readFrame (buffer_size source) (mkReader "" e) (sc_Framing source) (sc_MaxMessageBytes source) = Err e ->
  tcp_loop fuel source (fun _ _ => true) (mkReader (print_messages l) e) frames
  = Some (frames ++ map payload_of l, TEnded e).
Proof. intros. rewrite handleTCP_offer by done. by rewrite offer_all. Qed.

(** At the end of the stream a reader ends with it. *)
Lemma readFrame_end source : 1 <= sc_MaxMessageBytes source ->
  readFrame (buffer_size source) (mkReader "" EEOF) (sc_Framing source) (sc_MaxMessageBytes source) = Err EEOF.
Proof.
  intros Hmax. unfold readFrame. destruct (sc_Framing source =s "auto"); [done|]. bind_simpl.
  destruct (_ =s _); [done|]. rewrite readNewline_from by apply buffer_size_pos. unfold newline_from. simpl.
  rewrite len_nil. destruct (Z.ltb_spec (sc_MaxMessageBytes source) 0); [lia|done].
Qed.

(** C12. Messages sent over a connection, octet-counted or as lines, mixed when
    the framing is detected, are submitted exactly as sent and in order; then
    the end of the stream ends the handler. *)
Theorem handleTCP_roundtrip source l :
  1 <= sc_MaxMessageBytes source ->
  Forall (message_ok (sc_Framing source) (sc_MaxMessageBytes source)) l ->
  handleTCP source (fun _ _ => true) (mkReader (print_messages l) EEOF)
  = Some (map payload_of l, TEnded EEOF).
Proof.
  intros Hmax Hl. apply (handleTCP_print source l [] _ EEOF); [done|cbn [rd_data]; lia|done|by apply readFrame_end].
Qed.

Definition auto_source : SourceConfig :=
  mkSource "edge" "edge" "tcp" ":514" "auto" true 64 8 "auto" "default" "UTC".
Definition mixed : list message :=
  [MOctet "<34>one"; MLine "<34>two"; MOctet ("<34>" +:+ String newline "three")].

Lemma handleTCP_roundtrip_witness :
  handleTCP auto_source (fun _ _ => true) (mkReader (print_messages mixed) EEOF)
  = Some (map payload_of mixed, TEnded EEOF).
Proof.
  apply (handleTCP_roundtrip auto_source mixed); [vm_compute; congruence|].
  unfold mixed. repeat (apply Forall_cons_2; [cbn [message_ok]; split_and!;
    first [right; split; reflexivity|right; reflexivity|vm_compute; congruence]|]). apply Forall_nil_2.
Defined.

(** The delimiter counts against the limit of a line: a line of exactly
    [maxBytes] bytes is refused as too large, although the same payload is
    accepted with octet counting. *)
Theorem newline_limit_counts_delimiter size p rest e maxBytes :
  (0 < size)%nat -> 0 < len p < 10 ^ 9 -> len p = maxBytes -> lacks newline p = true ->
  readNewline size (mkReader (p +:+ String newline rest) e) maxBytes = Err ErrFrameTooLarge
  /\ readOctetCounted (mkReader (Itoa (len p) +:+ String " " (p +:+ rest)) e) maxBytes
     = Ok (p, mkReader rest e).
Proof.
  intros Hs Hp Hm Hl. split; [|apply readOctetCounted_print; lia].
  rewrite readNewline_from by done. unfold newline_from. cbn [rd_data rd_err].
  rewrite line_split_append by done. change ("" +:+ ?x) with x. rewrite len_append.
  change (len (String newline "")) with 1. destruct (Z.ltb_spec maxBytes (len p + 1)); [done|lia].
Qed.

Lemma newline_limit_counts_delimiter_witness :
  readNewline 16 (mkReader ("<34>12345678" +:+ String newline "") EEOF) 12 = Err ErrFrameTooLarge
  /\ readOctetCounted (mkReader ("12" +:+ String " " ("<34>12345678" +:+ "")) EEOF) 12
     = Ok ("<34>12345678"%string, mkReader "" EEOF).
Proof.
  apply (newline_limit_counts_delimiter 16 "<34>12345678" "" EEOF 12); [lia| |reflexivity|reflexivity].
  vm_compute. done.
Defined.

(** ** Peer addresses *)

(** [net.JoinHostPort], which prints a [TCPAddr]. *)
Definition JoinHostPort (host port : string) : string :=
  if lacks ":" host then host +:+ String ":" port else String "[" (host +:+ String "]" (String ":" port)).

(** A port of digits after the last colon. *)
Lemma digits_lack c s : is_digit c = false -> all_bytes is_digit s = true -> lacks c s = true.
Proof.
  intros Hc. apply all_bytes_impl. intros x Hx. destruct (ch_eq_spec x c) as [->|]; [congruence|done].
Qed.

Lemma lacks_index c s : lacks c s = true -> IndexByte s c = -1.
Proof. intros H. unfold IndexByte. by rewrite index_nat_lacks. Qed.
Lemma last_colon a p : lacks ":" p = true -> LastIndexByte (a +:+ String ":" p) ":" = len a.
Proof. intros H. unfold LastIndexByte. by rewrite last_index_nat_append. Qed.

Lemma slice_tail a b lo : len a = lo -> slice (a +:+ b) lo (len (a +:+ b)) = Some b.
Proof. intros H. rewrite <- (append_nil_r b) at 1. apply slice_append; [done|]. by rewrite len_append, H. Qed.

Lemma SplitHostPort_join host port :
  lacks "[" host = true -> lacks "]" host = true -> all_bytes is_digit port = true ->
  SplitHostPort (JoinHostPort host port) = Some (host, port).
Proof.
  intros Ho Hc Hp. unfold JoinHostPort, SplitHostPort.
  assert (Hpc : lacks ":" port = true) by (by apply digits_lack).
  assert (Hpo : lacks "[" port = true) by (by apply digits_lack).
  assert (Hpe : lacks "]" port = true) by (by apply digits_lack).
  destruct (lacks ":" host) eqn:Hcolon.
  - rewrite last_colon by done. pose proof (len_nonneg host).
    destruct (Z.ltb_spec (len host) 0); [lia|].
    replace (starts _ _) with false.
    2: { destruct host as [|c h]; [done|]. cbn. unfold lacks in Ho. cbn in Ho. by destruct (c =c "["). }
    pose proof (slice_append "" host (String ":" port) 0 (len host) eq_refl eq_refl) as Eh.
    cbn [String.append] in Eh. rewrite Eh. cbn [mbind option_bind].
    rewrite !lacks_index by (done || (unfold lacks in *; rewrite all_bytes_append; cbn [all_bytes]; by rewrite ?Ho, ?Hc, ?Hpo, ?Hpe)).
    change (0 <=? -1) with false.
    replace (host +:+ String ":" port) with ((host +:+ ":") +:+ port) by (by rewrite append_assoc).
    by rewrite slice_tail by (by rewrite len_append).
  - set (s := String "[" (host +:+ String "]" (String ":" port))).
    assert (E1 : s = String "[" host +:+ String "]" (String ":" port)) by done.
    assert (E2 : s = (String "[" host +:+ "]") +:+ String ":" port) by (by rewrite append_assoc).
    assert (E3 : s = (String "[" host +:+ "]:") +:+ port) by (by rewrite append_assoc).
    assert (Hl : LastIndexByte s ":" = len host + 2).
    { rewrite E2, last_colon, len_append, len_cons by done. change (len "]") with 1. lia. }
    assert (Hi : IndexByte s "]" = len host + 1).
    { rewrite E1, IndexByte_append, len_cons; [lia|]. unfold lacks in *. cbn. by rewrite Hc. }
    assert (S1 : slice s 1 (len host + 1) = Some host) by (apply (slice_append "[" host); [done|lia]).
    assert (S2 : slice s 1 (len s) = Some (host +:+ String "]" (String ":" port))) by (by apply (slice_tail "[")).
    assert (S3 : slice s (len host + 2) (len s) = Some (String ":" port)).
    { rewrite E2. apply slice_tail. rewrite len_append, len_cons. change (len "]") with 1. lia. }
    assert (S4 : slice s (len host + 3) (len s) = Some port).
    { rewrite E3. apply slice_tail. rewrite len_append, len_cons. change (len "]:") with 2. lia. }
    rewrite Hl, Hi. pose proof (len_nonneg host). destruct (Z.ltb_spec (len host + 2) 0); [lia|].
    replace (starts _ s) with true by done. replace (len host + 1 + 1 =? len host + 2) with true by lia. cbn [negb].
    rewrite S1, S2, S3. cbn [mbind option_bind].
    rewrite !lacks_index.
    + change (0 <=? -1) with false. cbv iota. replace (len host + 2 + 1) with (len host + 3) by lia. by rewrite S4.
    + by unfold lacks in *.
    + unfold lacks in *. rewrite all_bytes_append. cbn. by rewrite Ho.
Qed.

(** A connection's peer reaches the frame as the address and port it has, IPv4 or
    IPv6. *)
Lemma peerAddress_join host port :
  lacks "[" host = true -> lacks "]" host = true -> 0 <= port < 2 ^ 16 ->
  peerAddress (JoinHostPort host (Itoa port)) = (host, port) /\ uint16 port = port.
Proof.
  intros Ho Hc Hp. unfold peerAddress.
  assert (E : Itoa port = digits port) by (unfold Itoa; by destruct (Z.ltb_spec port 0); [lia|]).
  rewrite SplitHostPort_join; [|done|done|rewrite E; apply digits_digits; lia].
  unfold Atoi_number. rewrite Atoi_Itoa; [|apply andb_true_iff; unfold min_int64, max_int64; lia].
  split; [done|]. unfold uint16. apply Z.mod_small. lia.
Qed.

Example peerAddress_ipv6 : peerAddress "[fe80::1%eth0]:514" = ("fe80::1%eth0", 514).
Proof. vm_compute. reflexivity. Qed.
Example peerAddress_unix : peerAddress "/run/peer" = ("/run/peer", 0).
Proof. vm_compute. reflexivity. Qed.
