(* ===== verification/Transport.v ===== *)
(** * Listeners, connections and their shutdown

    [backend/internal/transport/syslog/manager.go]: the goroutines of every
    started source (the read loop of UDP, the accept loop of TCP with its
    semaphore), the connection handlers, and [Manager.Close], as a transition
    system over atomic actions. What is read is the subject of [Framing]; here a
    handler serves until its connection ends. *)
From S2P Require Import Prelude.

(** The accept goroutine: in [Accept], holding a new connection, holding one it
    has a semaphore slot for, holding one it has tracked, or returned. *)
Inductive accept_state :=
  | AWaiting
  | AGot (c : nat)
  | AAdmitted (c : nat)
  | ATracked (c : nat)
  | AExited.

(** The read goroutine of UDP: in [ReadFromUDP], handing a datagram over, or
    returned. *)
Inductive read_state := UReading | UHandling | UExited.

(** The goroutine of a started source; the semaphore is the local of [startTCP]. *)
Inductive listener :=
  | LUdp (u : read_state)
  | LTcp (a : accept_state) (sem : Z).

(** A handler that has not released its slot: serving, connection closed by its
    [defer], or untracked. *)
Inductive handler := HServing | HEnded | HUntracked.

(** [Manager.Close]: not called, closing the listeners it took, waiting for their
    goroutines, closing the connections it collected, waiting for the handlers,
    returned. *)
Inductive close_phase :=
  | CIdle
  | CListeners (pending : list nat)
  | CWaitAccept
  | CClosing (pending : list nat)
  | CWaitConns
  | CReturned.

(** [Manager], with what its goroutines hold. Sources and connections are
    numbered; a handler knows its source. *)
Record manager := mkManager {
  m_closers : list nat;
  m_open : gset nat;
  m_listeners : gmap nat listener;
  m_conns : gset nat;
  m_handlers : gmap nat (nat * handler);
  m_finishing : Z;
  m_closed : gset nat;
  m_seen : gset nat;
  m_phase : close_phase;
  m_refused : Z
}.
Definition NewManager : manager := mkManager [] ∅ ∅ ∅ ∅ 0 ∅ ∅ CIdle 0.

Definition set_listener (i : nat) (l : listener) (s : manager) : manager :=
  mkManager (m_closers s) (m_open s) (<[i := l]> (m_listeners s)) (m_conns s) (m_handlers s) (m_finishing s)
    (m_closed s) (m_seen s) (m_phase s) (m_refused s).
Definition set_phase (p : close_phase) (s : manager) : manager :=
  mkManager (m_closers s) (m_open s) (m_listeners s) (m_conns s) (m_handlers s) (m_finishing s)
    (m_closed s) (m_seen s) p (m_refused s).
Definition set_handlers (hs : gmap nat (nat * handler)) (finishing : Z) (s : manager) : manager :=
  mkManager (m_closers s) (m_open s) (m_listeners s) (m_conns s) hs finishing (m_closed s) (m_seen s) (m_phase s)
    (m_refused s).
Definition set_handler (c i : nat) (h : handler) (s : manager) : manager :=
  set_handlers (<[c := (i, h)]> (m_handlers s)) (m_finishing s) s.
Definition set_conns (conns : gset nat) (s : manager) : manager :=
  mkManager (m_closers s) (m_open s) (m_listeners s) conns (m_handlers s) (m_finishing s) (m_closed s) (m_seen s)
    (m_phase s) (m_refused s).
Definition see (c : nat) (s : manager) : manager :=
  mkManager (m_closers s) (m_open s) (m_listeners s) (m_conns s) (m_handlers s) (m_finishing s) (m_closed s)
    ({[c]} ∪ m_seen s) (m_phase s) (m_refused s).
Definition close_conn (c : nat) (s : manager) : manager :=
  mkManager (m_closers s) (m_open s) (m_listeners s) (m_conns s) (m_handlers s) (m_finishing s) ({[c]} ∪ m_closed s)
    (m_seen s) (m_phase s) (m_refused s).
Definition count_refused (s : manager) : manager :=
  mkManager (m_closers s) (m_open s) (m_listeners s) (m_conns s) (m_handlers s) (m_finishing s) (m_closed s)
    (m_seen s) (m_phase s) (m_refused s + 1).
Definition set_open (closers : list nat) (open : gset nat) (s : manager) : manager :=
  mkManager closers open (m_listeners s) (m_conns s) (m_handlers s) (m_finishing s) (m_closed s) (m_seen s)
    (m_phase s) (m_refused s).

(** [addCloser], [trackConnection] and [untrackConnection] *)
Definition addCloser (i : nat) (s : manager) : manager := set_open (m_closers s ++ [i]) ({[i]} ∪ m_open s) s.
Definition trackConnection (c : nat) (s : manager) : manager := set_conns ({[c]} ∪ m_conns s) s.
Definition untrackConnection (c : nat) (s : manager) : manager := set_conns (m_conns s ∖ {[c]}) s.

(** [startUDP] and [startTCP], once the socket is open. *)
Definition startUDP (i : nat) (s : manager) : manager := set_listener i (LUdp UReading) (addCloser i s).
Definition startTCP (i : nat) (s : manager) : manager := set_listener i (LTcp AWaiting 0) (addCloser i s).

Inductive action :=
  | AStart (i : nat) (udp : bool)
  (* the read loop of a UDP source *)
  | ADatagram (i : nat) | ASubmitted (i : nat) | AReadError (i : nat)
  (* the accept loop of a TCP source *)
  | AAccept (i c : nat) | AAcceptError (i : nat) | AAdmit (i : nat) | ATrack (i : nat) | ASpawn (i : nat)
  (* a handler *)
  | AEnd (c : nat) | AUntrack (c : nat) | ARelease (c : nat) | ADone
  (* Close *)
  | AClose | ACloseListener | AListenersClosed | ACollect (l : list nat) | ACloseConn | AAllClosed | AReturn.

Definition exited (l : listener) : bool :=
  match l with LUdp UExited | LTcp AExited _ => true | _ => false end.
Definition all_exited (s : manager) : bool := bool_decide (map_Forall (fun _ l => exited l = true) (m_listeners s)).

Section Step.
Context (MaxConnections : nat -> Z).

(** A step of the goroutine of source [i], which is in state [l]. *)
Definition listener_step (a : action) (i : nat) (l : listener) (s : manager) : option manager :=
  match a, l with
  | ADatagram _, LUdp UReading => if bool_decide (i ∈ m_open s) then Some (set_listener i (LUdp UHandling) s) else None
  | ASubmitted _, LUdp UHandling => Some (set_listener i (LUdp UReading) s)
  | AReadError _, LUdp UReading => Some (set_listener i (LUdp UExited) s)
  | AAccept _ c, LTcp AWaiting sem =>
      if bool_decide (i ∈ m_open s) && negb (bool_decide (c ∈ m_seen s))
      then Some (set_listener i (LTcp (AGot c) sem) (see c s)) else None
  | AAcceptError _, LTcp AWaiting sem => Some (set_listener i (LTcp AExited sem) s)
  | AAdmit _, LTcp (AGot c) sem =>
      if sem <? MaxConnections i then Some (set_listener i (LTcp (AAdmitted c) (sem + 1)) s)
      else Some (set_listener i (LTcp AWaiting sem) (count_refused (close_conn c s)))
  | ATrack _, LTcp (AAdmitted c) sem => Some (set_listener i (LTcp (ATracked c) sem) (trackConnection c s))
  | ASpawn _, LTcp (ATracked c) sem => Some (set_listener i (LTcp AWaiting sem) (set_handler c i HServing s))
  | _, _ => None
  end.

(** A step of the handler of [c], which serves source [i]. *)
Definition handler_step (a : action) (c i : nat) (h : handler) (s : manager) : option manager :=
  match a, h with
  | AEnd _, HServing => Some (close_conn c (set_handler c i HEnded s))
  | AUntrack _, HEnded => Some (untrackConnection c (set_handler c i HUntracked s))
  | ARelease _, HUntracked =>
      match m_listeners s !! i with
      | Some (LTcp a sem) =>
          Some (set_listener i (LTcp a (sem - 1)) (set_handlers (delete c (m_handlers s)) (m_finishing s + 1) s))
      | _ => None
      end
  | _, _ => None
  end.

(** A step of [Close]; it collects the connections in any order. *)
Definition close_step (a : action) (s : manager) : option manager :=
  match a, m_phase s with
  | AClose, CIdle => Some (set_phase (CListeners (m_closers s)) (set_open [] (m_open s) s))
  | ACloseListener, CListeners (i :: pending) => Some (set_phase (CListeners pending) (set_open [] (m_open s ∖ {[i]}) s))
  | AListenersClosed, CListeners [] => Some (set_phase CWaitAccept s)
  | ACollect l, CWaitAccept =>
      if all_exited s && bool_decide (NoDup l) && bool_decide (list_to_set l = m_conns s)
      then Some (set_phase (CClosing l) s) else None
  | ACloseConn, CClosing (c :: pending) => Some (set_phase (CClosing pending) (close_conn c s))
  | AAllClosed, CClosing [] => Some (set_phase CWaitConns s)
  | AReturn, CWaitConns =>
      if bool_decide (m_handlers s = ∅) && (m_finishing s =? 0) then Some (set_phase CReturned s) else None
  | _, _ => None
  end.

(** One action of one goroutine, when it is enabled. *)
Definition step (a : action) (s : manager) : option manager :=
  match a with
  | AStart i udp =>
      match m_phase s, m_listeners s !! i with
      | CIdle, None => Some (if udp : bool then startUDP i s else startTCP i s)
      | _, _ => None
      end
  | ADatagram i | ASubmitted i | AReadError i | AAccept i _ | AAcceptError i | AAdmit i | ATrack i | ASpawn i =>
      l ← m_listeners s !! i; listener_step a i l s
  | AEnd c | AUntrack c | ARelease c => '(i, h) ← m_handlers s !! c; handler_step a c i h s
  | ADone => if 0 <? m_finishing s then Some (set_handlers (m_handlers s) (m_finishing s - 1) s) else None
  | _ => close_step a s
  end.

Inductive reaches : manager -> Prop :=
  | reaches_start : reaches NewManager
  | reaches_next a s s' : reaches s -> step a s = Some s' -> reaches s'.
End Step.

(** ** The owner of a connection *)

(** The cases of an enabled step. *)
Ltac step_cases H :=
  cbn [step] in H; unfold listener_step, handler_step, close_step, mbind, option_bind in H;
  repeat (case_match; try discriminate H); simplify_eq H; intros;
  repeat match goal with
  | E : Some ?x = Some ?y |- _ => injection E; clear E; intros
  | E : (_, _) = (_, _) |- _ => injection E; clear E; intros
  | E : ?x = ?x |- _ => clear E
  end; subst; try discriminate.

(** Who owns a connection that was accepted: the accept goroutine of a source,
    which may have tracked it, a handler, or nobody any more. *)
Inductive owner := OAccept (i : nat) (tracked : bool) | OHandler (i : nat) (h : handler) | OGone.

Definition tracked (o : owner) : bool :=
  match o with OAccept _ b => b | OHandler _ HUntracked => false | OHandler _ _ => true | OGone => false end.
Definition over (o : owner) : bool :=
  match o with OHandler _ HEnded | OHandler _ HUntracked | OGone => true | _ => false end.

(** The connection a goroutine holds, and whether it is tracked. *)
Definition holding (l : listener) : option (nat * bool) :=
  match l with
  | LTcp (AGot c) _ | LTcp (AAdmitted c) _ => Some (c, false)
  | LTcp (ATracked c) _ => Some (c, true)
  | _ => None
  end.

Record owned_by (ow : gmap nat owner) (s : manager) : Prop := {
  ow_seen c : c ∈ m_seen s <-> is_Some (ow !! c);
  ow_conns c : c ∈ m_conns s <-> exists o, ow !! c = Some o /\ tracked o = true;
  ow_handlers c i h : m_handlers s !! c = Some (i, h) <-> ow !! c = Some (OHandler i h);
  ow_accept c i b : (l ← m_listeners s !! i; holding l) = Some (c, b) <-> ow !! c = Some (OAccept i b);
  ow_closed c o : ow !! c = Some o -> over o = true -> c ∈ m_closed s
}.

Lemma owned_start : owned_by ∅ NewManager.
Proof.
  constructor; cbn; intros *; rewrite ?lookup_empty; try done.
  split; [set_solver|by intros (o & Ho & _)].
Qed.

(** [s'] differs from [s] in the ownership of [c] only, which is now [o]. *)
Lemma owned_set ow c o s s' :
  owned_by ow s ->
  (forall x, x ∈ m_seen s' <-> x = c \/ x ∈ m_seen s) ->
  (forall x, x <> c -> (x ∈ m_conns s' <-> x ∈ m_conns s)) -> (c ∈ m_conns s' <-> tracked o = true) ->
  (forall x, x <> c -> m_handlers s' !! x = m_handlers s !! x) ->
  (forall i h, m_handlers s' !! c = Some (i, h) <-> o = OHandler i h) ->
  (forall i x b, x <> c ->
    (l ← m_listeners s' !! i; holding l) = Some (x, b) <-> (l ← m_listeners s !! i; holding l) = Some (x, b)) ->
  (forall i b, (l ← m_listeners s' !! i; holding l) = Some (c, b) <-> o = OAccept i b) ->
  m_closed s ⊆ m_closed s' -> (over o = true -> c ∈ m_closed s') ->
  owned_by (<[c := o]> ow) s'.
Proof.
  intros [Hseen Hconns Hhand Hacc Hclosed] Hs Hc1 Hc2 Hx Hh Ha1 Ha2 Hcl Ho.
  constructor; intros x; destruct (decide (x = c)) as [->|Hne];
    rewrite ?lookup_insert_eq, ?lookup_insert_ne by done.
  - rewrite Hs. naive_solver.
  - rewrite Hs, <- Hseen. naive_solver.
  - rewrite Hc2. naive_solver.
  - by rewrite Hc1, Hconns.
  - intros i h. rewrite Hh. naive_solver.
  - intros i h. by rewrite Hx, Hhand.
  - intros i b. rewrite Ha2. naive_solver.
  - intros i b. by rewrite Ha1, Hacc.
  - intros o' [=]. subst o'. exact Ho.
  - intros o' Ho' Hover. apply Hcl. by apply (Hclosed x o').
Qed.

(** What the owner of [c] says about the state. *)
Lemma owned_tracked ow c s : owned_by ow s -> (c ∈ m_conns s <-> from_option tracked false (ow !! c) = true).
Proof.
  intros How. rewrite (ow_conns ow s How). destruct (ow !! c) as [o|]; cbn; [naive_solver|].
  split; [by intros (o & Ho & _)|done].
Qed.
Lemma owned_served ow c s :
  owned_by ow s -> m_handlers s !! c = match ow !! c with Some (OHandler i h) => Some (i, h) | _ => None end.
Proof.
  intros How. destruct (m_handlers s !! c) as [[i h]|] eqn:E.
  - apply (ow_handlers ow s How) in E. by rewrite E.
  - destruct (ow !! c) as [[]|] eqn:E'; try done. apply (ow_handlers ow s How) in E'. congruence.
Qed.

(** Nothing changes hands. *)
Lemma owned_keep ow s s' :
  owned_by ow s -> m_seen s' = m_seen s -> m_conns s' = m_conns s -> m_handlers s' = m_handlers s ->
  (forall i, (l ← m_listeners s' !! i; holding l) = (l ← m_listeners s !! i; holding l)) ->
  m_closed s ⊆ m_closed s' -> owned_by ow s'.
Proof.
  intros [Hseen Hconns Hhand Hacc Hclosed] Hs Hc Hh Ha Hcl. constructor; rewrite ?Hs, ?Hc, ?Hh; try done.
  - intros c i b. by rewrite Ha, Hacc.
  - intros c o Ho Hover. apply Hcl. by apply (Hclosed c o).
Qed.


(** A connection is held by the accept goroutine of [i] in state [l]. *)
Lemma owned_held ow i l c b s :
  owned_by ow s -> m_listeners s !! i = Some l -> holding l = Some (c, b) -> ow !! c = Some (OAccept i b).
Proof. intros How Hl Hh. apply (ow_accept ow s How). by rewrite Hl. Qed.

(** The accept goroutine of [i] moves from [l] to [l'], the connection [c] to [o]. *)
Lemma owned_listener ow i l l' c o s s' :
  owned_by ow s -> m_listeners s !! i = Some l -> m_listeners s' = <[i := l']> (m_listeners s) ->
  match holding l with Some (x, _) => x = c | None => ow !! c = None end ->
  match holding l' with Some (x, b) => x = c /\ o = OAccept i b | None => forall j b, o <> OAccept j b end ->
  (forall x, x ∈ m_seen s' <-> x = c \/ x ∈ m_seen s) ->
  (forall x, x <> c -> (x ∈ m_conns s' <-> x ∈ m_conns s)) -> (c ∈ m_conns s' <-> tracked o = true) ->
  (forall x, x <> c -> m_handlers s' !! x = m_handlers s !! x) ->
  (forall j h, m_handlers s' !! c = Some (j, h) <-> o = OHandler j h) ->
  m_closed s ⊆ m_closed s' -> (over o = true -> c ∈ m_closed s') ->
  owned_by (<[c := o]> ow) s'.
Proof.
  intros How Hi Hls Hold Hnew. intros. apply (owned_set ow c o s s'); try done; rewrite Hls.
  - intros j x b Hx. destruct (decide (i = j)) as [<-|]; [|by rewrite lookup_insert_ne].
    rewrite lookup_insert_eq, Hi. cbn. destruct (holding l) as [[]|], (holding l') as [[]|]; naive_solver.
  - intros j b. destruct (decide (i = j)) as [<-|Hne].
    + rewrite lookup_insert_eq. cbn. destruct (holding l') as [[]|]; naive_solver.
    + rewrite lookup_insert_ne by done. rewrite (ow_accept ow s How).
      destruct (holding l) as [[x b']|] eqn:El.
      * subst x. rewrite (owned_held ow i l c b' s How Hi El). destruct (holding l') as [[]|]; naive_solver.
      * destruct (holding l') as [[]|]; naive_solver.
Qed.

(** The handler of [c] moves to [h']. *)
Lemma owned_handler ow c i h h' s s' :
  owned_by ow s -> m_handlers s !! c = Some (i, h) ->
  m_listeners s' = m_listeners s -> m_seen s' = m_seen s -> m_handlers s' = <[c := (i, h')]> (m_handlers s) ->
  (forall x, x <> c -> (x ∈ m_conns s' <-> x ∈ m_conns s)) -> (c ∈ m_conns s' <-> tracked (OHandler i h') = true) ->
  m_closed s ⊆ m_closed s' -> (over (OHandler i h') = true -> c ∈ m_closed s') ->
  owned_by (<[c := OHandler i h']> ow) s'.
Proof.
  intros How Hc Hls Hseen Hhs. intros. pose proof Hc as Hc'. apply (ow_handlers ow s How) in Hc'.
  apply (owned_set ow c _ s s'); try done; rewrite ?Hls, ?Hseen, ?Hhs; try done.
  - intros x. assert (c ∈ m_seen s) by (apply (ow_seen ow s How); by rewrite Hc'). naive_solver.
  - intros x Hx. by rewrite lookup_insert_ne.
  - intros j h0. rewrite lookup_insert_eq. naive_solver.
  - intros j b. rewrite (ow_accept ow s How), Hc'. naive_solver.
Qed.

Lemma owned_fresh ow c s : owned_by ow s -> bool_decide (c ∈ m_seen s) = false -> ow !! c = None.
Proof.
  intros How Hc%bool_decide_eq_false. destruct (ow !! c) as [o|] eqn:E; [|done].
  destruct Hc. apply (ow_seen ow s How). by rewrite E.
Qed.

(** What the state says of [c], whose owner is known. *)
Ltac owner_is ow c v :=
  match goal with
  | HX : owned_by ow ?st |- _ =>
      let Ho := fresh "Ho" in
      assert (ow !! c = v) as Ho;
      [first [by eapply owned_held|by apply (ow_handlers ow st HX)|by apply (owned_fresh ow c st)]|
      let H1 := fresh in let H2 := fresh in let H3 := fresh in
      pose proof (owned_tracked ow c st HX) as H1; pose proof (owned_served ow c st HX) as H2;
      pose proof (ow_seen ow st HX c) as H3; rewrite Ho in H1, H2, H3; cbn in H1]
  end.

Ltac own_solve :=
  try done; cbn; try done; intros;
  rewrite ?lookup_insert_eq, ?lookup_insert_ne, ?lookup_delete_eq, ?lookup_delete_ne by done;
  repeat match goal with H : m_handlers ?st !! ?c = _ |- context [m_handlers ?st !! ?c] => rewrite H end;
  first [done|split; congruence|set_solver-|set_solver|idtac].

Lemma owned_step M a ow s s' : owned_by ow s -> step M a s = Some s' -> exists ow', owned_by ow' s'.
Proof.
  intros How Hs. destruct a; step_cases Hs.
  all: try (exists ow; refine (owned_keep ow s _ How _ _ _ _ _); cbn; try done; try set_solver;
    intros j; destruct (decide (i = j)) as [<-|]; rewrite ?lookup_insert_eq, ?lookup_insert_ne by done;
      solve [done|by simplify_option_eq]).
  all: try match goal with H : _ && negb _ = true |- _ => apply andb_true_iff in H as [_ ?%negb_true_iff] end.
  all: try match goal with
    | Hl : m_listeners ?st !! ?j = Some (LTcp (ATracked ?k) _) |- _ => owner_is ow k (Some (OAccept j true))
    | Hl : m_listeners ?st !! ?j = Some (LTcp (AGot ?k) _) |- _ => owner_is ow k (Some (OAccept j false))
    | Hl : m_listeners ?st !! ?j = Some (LTcp (AAdmitted ?k) _) |- _ => owner_is ow k (Some (OAccept j false))
    | Hc : m_handlers ?st !! ?k = Some (?j, ?h) |- _ => owner_is ow k (Some (OHandler j h))
    | Hl : m_listeners ?st !! ?j = Some (LTcp AWaiting _) |- context [see ?k] => owner_is ow k (@None owner)
    end.
  - exists (<[c := OAccept i false]> ow). eapply (owned_listener ow i _ _ c _ s); own_solve.
  - exists (<[c := OGone]> ow). eapply (owned_listener ow i _ _ c _ s); own_solve.
  - exists (<[c := OAccept i true]> ow). eapply (owned_listener ow i _ _ c _ s); own_solve.
  - exists (<[c := OHandler i HServing]> ow). eapply (owned_listener ow i _ _ c _ s); own_solve.
  - exists (<[c := OHandler n HEnded]> ow). eapply (owned_handler ow c n _ _ s); own_solve.
  - exists (<[c := OHandler n HUntracked]> ow). eapply (owned_handler ow c n _ _ s); own_solve.
    by apply (ow_closed ow s How c _ Ho).
  - exists (<[c := OGone]> ow).
    assert (Hold : forall j, (l ← <[n := LTcp a (sem - 1)]> (m_listeners s) !! j; holding l)
      = (l ← m_listeners s !! j; holding l)).
    { intros j. destruct (decide (n = j)) as [<-|]; [|by rewrite lookup_insert_ne].
      rewrite lookup_insert_eq. by simplify_option_eq. }
    apply (owned_set ow c _ s); cbn; try done.
    all: try setoid_rewrite Hold; try done.
    + intros x. assert (c ∈ m_seen s) as Hin by (by apply H3). clear -Hin. set_solver.
    + intros x Hx. by rewrite lookup_delete_ne.
    + intros i h. rewrite lookup_delete_eq. split; congruence.
    + intros i b. rewrite (ow_accept ow s How), Ho. split; congruence.
    + intros _. by apply (ow_closed ow s How c _ Ho).
Qed.

Lemma reaches_owned M s : reaches M s -> exists ow, owned_by ow s.
Proof.
  induction 1 as [|a s s' _ [ow How] Hs]; [exists ∅; apply owned_start|].
  by apply (owned_step M a ow s s').
Qed.

(** ** Semaphores *)

(** The slots of source [i]: one per handler, one the accept goroutine holds. *)
Definition of_source (i : nat) (p : nat * (nat * handler)) : Prop := p.2.1 = i.
#[local] Instance of_source_dec i p : Decision (of_source i p).
Proof. unfold of_source. apply _. Defined.
Definition serving (i : nat) (hs : gmap nat (nat * handler)) : Z := Z.of_nat (size (filter (of_source i) hs)).
Definition holds_slot (a : accept_state) : Z := match a with AAdmitted _ | ATracked _ => 1 | _ => 0 end.

Definition one_if (b : bool) : Z := if b then 1 else 0.

Lemma serving_insert i c j h hs :
  hs !! c = None -> serving i (<[c := (j, h)]> hs) = serving i hs + one_if (bool_decide (j = i)).
Proof.
  intros Hc. unfold serving. case_bool_decide as Hj; cbn [one_if].
  - rewrite map_filter_insert_True by done.
    rewrite map_size_insert_None; [lia|]. apply map_lookup_filter_None. by left.
  - rewrite map_filter_insert_False by done. rewrite delete_id by done. lia.
Qed.

Lemma serving_delete i c j h hs :
  hs !! c = Some (j, h) -> serving i (delete c hs) = serving i hs - one_if (bool_decide (j = i)).
Proof.
  intros Hc. rewrite <- (insert_delete_id hs c (j, h) Hc) at 2.
  rewrite serving_insert by apply lookup_delete_eq. lia.
Qed.

Lemma serving_update i c j h h' hs :
  hs !! c = Some (j, h) -> serving i (<[c := (j, h')]> hs) = serving i hs.
Proof.
  intros Hc. rewrite <- insert_delete_eq, serving_insert by apply lookup_delete_eq.
  rewrite (serving_delete i c j h) by done. lia.
Qed.

Lemma serving_empty i : serving i ∅ = 0.
Proof. unfold serving. by rewrite map_filter_empty, map_size_empty. Qed.

Record slots_ok (MaxConnections : nat -> Z) (s : manager) : Prop := {
  sl_sem i a sem : m_listeners s !! i = Some (LTcp a sem) ->
    sem = serving i (m_handlers s) + holds_slot a /\ sem <= Z.max 0 (MaxConnections i);
  sl_source c i h : m_handlers s !! c = Some (i, h) -> exists a sem, m_listeners s !! i = Some (LTcp a sem)
}.

Lemma slots_listener M i l l' s s' :
  slots_ok M s -> m_handlers s' = m_handlers s -> m_listeners s' = <[i := l']> (m_listeners s) -> m_listeners s !! i = Some l ->
  match l, l' with
  | LUdp _, LUdp _ => True
  | LTcp a sem, LTcp a' sem' => sem' - holds_slot a' = sem - holds_slot a /\ sem' <= Z.max 0 (M i)
  | _, _ => False
  end -> slots_ok M s'.
Proof.
  intros [Hsem Hsrc] Hhs Hls Hi Hl. constructor; rewrite Hls, Hhs.
  - intros j a sem [[-> ->]|[Hne Hj]]%lookup_insert_Some; [|by apply Hsem].
    destruct l as [|a0 sem0]; [done|]. destruct (Hsem _ _ _ Hi). lia.
  - intros c j h Hc. destruct (Hsrc _ _ _ Hc) as (a & sem & Hj).
    destruct (decide (i = j)) as [<-|]; [|rewrite lookup_insert_ne by done; eauto].
    rewrite lookup_insert_eq. rewrite Hi in Hj. injection Hj as ->. destruct l'; [done|eauto].
Qed.

(** The other components of the state do not matter to the slots. *)
Lemma slots_frame M s s' :
  m_listeners s' = m_listeners s -> m_handlers s' = m_handlers s -> slots_ok M s -> slots_ok M s'.
Proof. intros Hl Hh [Hsem Hsrc]. constructor; rewrite Hl, Hh; [apply Hsem|apply Hsrc]. Qed.

Lemma slots_start M : slots_ok M NewManager.
Proof. constructor; cbn; intros *; by rewrite lookup_empty. Qed.

Lemma slots_update M c i h h' s s' :
  slots_ok M s -> m_listeners s' = m_listeners s -> m_handlers s' = <[c := (i, h')]> (m_handlers s) ->
  m_handlers s !! c = Some (i, h) -> slots_ok M s'.
Proof.
  intros [Hsem Hsrc] Hl Hh Hc. constructor; rewrite Hl, Hh.
  - intros j a sem Hj. rewrite (serving_update j c i h) by done. by apply Hsem.
  - intros c' j h2 [[<- [= <- <-]]|[Hne Hc']]%lookup_insert_Some; [by apply (Hsrc c i h)|by apply (Hsrc c' j h2)].
Qed.

(** A handler starts and takes over the slot, or gives it back. *)
Lemma slots_spawn M i c sem s :
  slots_ok M s -> m_listeners s !! i = Some (LTcp (ATracked c) sem) -> m_handlers s !! c = None ->
  slots_ok M (set_listener i (LTcp AWaiting sem) (set_handler c i HServing s)).
Proof.
  intros [Hsem Hsrc] Hi Hc. constructor; cbn.
  - intros j a sem' Hj. rewrite serving_insert by done. case_bool_decide as Hij; cbn [one_if].
    + subst j. rewrite lookup_insert_eq in Hj. injection Hj as <- <-. destruct (Hsem _ _ _ Hi). cbn in *. lia.
    + rewrite lookup_insert_ne in Hj by done. destruct (Hsem _ _ _ Hj). lia.
  - intros c' j h [[<- [= <- <-]]|[Hne Hc']]%lookup_insert_Some; [rewrite lookup_insert_eq; eauto|].
    destruct (Hsrc _ _ _ Hc') as (a & sem' & Hj).
    destruct (decide (i = j)) as [<-|]; [rewrite lookup_insert_eq; eauto|rewrite lookup_insert_ne by done; eauto].
Qed.

Lemma slots_release M i c h a sem fin s :
  slots_ok M s -> m_listeners s !! i = Some (LTcp a sem) -> m_handlers s !! c = Some (i, h) ->
  slots_ok M (set_listener i (LTcp a (sem - 1)) (set_handlers (delete c (m_handlers s)) fin s)).
Proof.
  intros [Hsem Hsrc] Hi Hc. constructor; cbn.
  - intros j a' sem' Hj. rewrite (serving_delete j c i h) by done. case_bool_decide as Hij; cbn [one_if].
    + subst j. rewrite lookup_insert_eq in Hj. injection Hj as <- <-. destruct (Hsem _ _ _ Hi). lia.
    + rewrite lookup_insert_ne in Hj by done. destruct (Hsem _ _ _ Hj). lia.
  - intros c' j h' [Hne Hc']%lookup_delete_Some. destruct (Hsrc _ _ _ Hc') as (a' & sem' & Hj).
    destruct (decide (i = j)) as [<-|]; [rewrite lookup_insert_eq; eauto|rewrite lookup_insert_ne by done; eauto].
Qed.

Lemma slots_fresh M i l s s' :
  slots_ok M s -> m_handlers s' = m_handlers s -> m_listeners s' = <[i := l]> (m_listeners s) ->
  m_listeners s !! i = None ->
  match l with LUdp _ => True | LTcp a sem => sem = holds_slot a /\ sem = 0 end -> slots_ok M s'.
Proof.
  intros [Hsem Hsrc] Hhs Hls Hi Hl. constructor; rewrite Hls, Hhs.
  - intros j a sem [[<- ->]|[Hne Hj]]%lookup_insert_Some; [|by apply Hsem].
    enough (serving i (m_handlers s) = 0) by lia. unfold serving.
    enough (filter (of_source i) (m_handlers s) = ∅) as -> by (by rewrite map_size_empty).
    apply map_empty_filter. intros c [j h] Hc Hj. unfold of_source in Hj. cbn in Hj. subst j.
    destruct (Hsrc _ _ _ Hc) as (? & ? & Hi'). congruence.
  - intros c j h Hc. destruct (Hsrc _ _ _ Hc) as (a & sem & Hj). exists a, sem.
    rewrite lookup_insert_ne; [done|]. intros <-. congruence.
Qed.

Lemma slots_step M a ow s s' : owned_by ow s -> slots_ok M s -> step M a s = Some s' -> slots_ok M s'.
Proof.
  intros How Hok Hs. destruct a; step_cases Hs.
  all: try (apply (slots_frame M s); done).
  all: try match goal with
    | Hi : m_listeners ?st !! ?j = None |- _ => eapply (slots_fresh M j _ st); done
    | Hi : m_listeners ?st !! ?j = Some (LTcp (ATracked ?c) _) |- _ =>
        apply slots_spawn; [done|done|by rewrite (owned_served ow c st How), (owned_held ow j _ c true st How Hi)]
    | Hi : m_listeners ?st !! ?j = Some ?l, Hc : m_handlers ?st !! _ = Some _ |- _ => by eapply slots_release
    | Hi : m_listeners ?st !! ?j = Some ?l |- _ =>
        eapply (slots_listener M j l _ s); [done..|]; cbn; try destruct (sl_sem M st Hok _ _ _ Hi); cbn in *; lia
    | Hc : m_handlers ?st !! _ = Some _ |- _ => by eapply (slots_update M _ _ _ _ st)
    end.
Qed.


(** ** The phases of [Close] *)

Record phases_ok (s : manager) : Prop := {
  ph_finishing : 0 <= m_finishing s;
  ph_open : match m_phase s with
    | CIdle => forall i, i ∈ m_open s -> i ∈ m_closers s
    | CListeners l => forall i, i ∈ m_open s -> i ∈ l
    | _ => m_open s = ∅
    end;
  ph_exited : match m_phase s with
    | CClosing _ | CWaitConns | CReturned => all_exited s = true
    | _ => True
    end;
  ph_pending : match m_phase s with
    | CClosing l => forall c, c ∈ m_conns s -> c ∈ m_closed s \/ c ∈ l
    | CWaitConns | CReturned => forall c, c ∈ m_conns s -> c ∈ m_closed s
    | _ => True
    end;
  ph_returned : m_phase s = CReturned -> m_handlers s = ∅ /\ m_finishing s = 0
}.

Lemma phases_start : phases_ok NewManager.
Proof. constructor; cbn; try done; lia. Qed.

Lemma all_exited_at s i l : all_exited s = true -> m_listeners s !! i = Some l -> exited l = true.
Proof. intros Hex%bool_decide_eq_true Hi. by apply (Hex i l). Qed.

(** An accept goroutine that has not returned moves while [Close] has not
    passed [acceptWG.Wait]. *)
Lemma phases_listener i l s s' :
  phases_ok s -> m_listeners s !! i = Some l -> exited l = false ->
  m_phase s' = m_phase s -> m_closers s' = m_closers s -> m_open s' = m_open s -> m_finishing s' = m_finishing s ->
  phases_ok s'.
Proof.
  intros [Hfin Hopen Hex Hpend Hret] Hi Hl Hph Hcl Hop Hfi. constructor; rewrite ?Hph, ?Hcl, ?Hop, ?Hfi; try done.
  all: destruct (m_phase s); try done.
  all: pose proof (all_exited_at s i l Hex Hi); congruence.
Qed.

(** A handler moves: [Close] has not returned. *)
Lemma phases_handler c x s s' :
  phases_ok s -> m_handlers s !! c = Some x ->
  m_phase s' = m_phase s -> m_closers s' = m_closers s -> m_open s' = m_open s -> 0 <= m_finishing s' ->
  (all_exited s = true -> all_exited s' = true) -> m_conns s' ⊆ m_conns s -> m_closed s ⊆ m_closed s' ->
  phases_ok s'.
Proof.
  intros [Hfin Hopen Hex Hpend Hret] Hc Hph Hcs Hop Hfi Hls Hconns Hcl.
  constructor; rewrite ?Hph, ?Hcs, ?Hop; try done.
  - destruct (m_phase s); auto.
  - destruct (m_phase s); set_solver.
  - intros E. destruct (Hret E) as [E' _]. by rewrite E', lookup_empty in Hc.
Qed.

Lemma all_exited_sem s i a sem sem' fin hs :
  m_listeners s !! i = Some (LTcp a sem) -> all_exited s = true ->
  all_exited (set_listener i (LTcp a sem') (set_handlers hs fin s)) = true.
Proof.
  intros Hi Hex. apply bool_decide_eq_true. cbn. apply map_Forall_insert_2.
  - pose proof (all_exited_at s i _ Hex Hi) as Ha. by destruct a.
  - by apply bool_decide_eq_true in Hex.
Qed.

Lemma phases_step M a s s' : phases_ok s -> step M a s = Some s' -> phases_ok s'.
Proof.
  intros Hok Hs. destruct a; step_cases Hs.
  all: try match goal with
    | Hi : m_listeners ?st !! ?j = Some ?l, Hc : m_handlers ?st !! ?c = Some ?x |- _ =>
        apply (phases_handler c x st); cbn; try done; [pose proof (ph_finishing st Hok); lia|by apply (all_exited_sem _ _ _ _ _ _ _ Hi)]
    | Hi : m_listeners ?st !! ?j = Some ?l |- _ => by apply (phases_listener j l st)
    | Hc : m_handlers ?st !! ?c = Some ?x |- _ =>
        apply (phases_handler c x st); cbn; try done; try apply (ph_finishing st Hok); set_solver-
    end.
  all: destruct Hok as [Hfin Hopen Hex Hpend Hret].
  all: try match goal with H : m_phase ?st = _ |- _ => rewrite H in * end.
  all: repeat match goal with H : _ && _ = true |- _ => apply andb_true_iff in H as [? ?] end.
  all: repeat match goal with H : bool_decide _ = true |- _ => apply bool_decide_eq_true in H end.
  all: constructor; cbn; rewrite ?H; try done; try lia.
  - set_solver.
  - set_solver.
  - intros E. destruct (Hret E) as [_ Hz]. lia.
  - set_solver.
  - apply set_eq. intros i. split; [intros Hi; by apply Hopen, elem_of_nil in Hi|set_solver].
  - set_solver.
  - set_solver.
  - set_solver.
  - split; [done|by apply Z.eqb_eq].
Qed.

Lemma reaches_slots M s : reaches M s -> slots_ok M s.
Proof.
  induction 1 as [|a s s' Hr IH Hs]; [apply slots_start|].
  destruct (reaches_owned M s Hr) as [ow How]. by apply (slots_step M a ow s s').
Qed.
Lemma reaches_phases M s : reaches M s -> phases_ok s.
Proof. induction 1 as [|a s s' Hr IH Hs]; [apply phases_start|by apply (phases_step M a s s')]. Qed.

(** ** The promises of the manager *)

(** C19. At most [MaxConnections] handlers of a source run at any time, in every
    interleaving of starts, accepts, disconnections and [Close] over all sources. *)
Theorem connection_limit MaxConnections s i :
  0 <= MaxConnections i -> reaches MaxConnections s -> serving i (m_handlers s) <= MaxConnections i.
Proof.
  intros HM Hs. destruct (reaches_slots _ _ Hs) as [Hsem Hsrc].
  destruct (m_listeners s !! i) as [[u|a sem]|] eqn:Hi.
  2: { destruct (Hsem _ _ _ Hi). assert (0 <= holds_slot a) by (by destruct a). lia. }
  all: enough (serving i (m_handlers s) = 0) by lia; unfold serving;
    enough (filter (of_source i) (m_handlers s) = ∅) as -> by (by rewrite map_size_empty);
    apply map_empty_filter; intros c [j h] Hc Hj; unfold of_source in Hj; cbn in Hj; subst j;
    destruct (Hsrc _ _ _ Hc) as (? & ? & Hi'); congruence.
Qed.

(** C20. When [Close] returns, every socket is closed, the goroutines of every
    source and every handler have ended, every connection ever accepted is
    closed, none is tracked and every semaphore slot is free. *)
Theorem close_complete MaxConnections s :
  reaches MaxConnections s -> m_phase s = CReturned ->
  m_open s = ∅ /\ m_handlers s = ∅ /\ m_finishing s = 0 /\ m_conns s = ∅ /\ m_seen s ⊆ m_closed s
  /\ (forall i l, m_listeners s !! i = Some l -> l = LUdp UExited \/ l = LTcp AExited 0).
Proof.
  intros Hs Hp. destruct (reaches_owned _ _ Hs) as [ow How].
  destruct (reaches_slots _ _ Hs) as [Hsem _]. destruct (reaches_phases _ _ Hs) as [_ Hopen Hex Hpend Hret].
  rewrite Hp in *. destruct (Hret eq_refl) as [Hh Hf].
  assert (Hgone : forall c o, ow !! c = Some o -> o = OGone).
  { intros c [i b|i h|] Hc; [|apply (ow_handlers ow s How) in Hc; by rewrite Hh, lookup_empty in Hc|done].
    apply (ow_accept ow s How) in Hc. destruct (m_listeners s !! i) as [l|] eqn:Hi; [|done].
    pose proof (all_exited_at s i l Hex Hi). destruct l as [[]|[]]; done. }
  split_and!; try done.
  - apply set_eq. intros c. rewrite (ow_conns ow s How). split; [|set_solver].
    intros (o & Ho & Ht). by rewrite (Hgone c o Ho) in Ht.
  - intros c Hc. apply (ow_seen ow s How) in Hc as [o Ho].
    apply (ow_closed ow s How c o Ho). by rewrite (Hgone c o Ho).
  - intros i l Hi. pose proof (all_exited_at s i l Hex Hi). destruct l as [[]|[] sem]; try done; [by left|right].
    destruct (Hsem i _ _ Hi) as [-> _]. by rewrite Hh, serving_empty.
Qed.

(** Some action of the goroutines [Close] waits for, or of [Close] itself: not a
    new source, datagram or connection. *)
Definition close_progress (MaxConnections : nat -> Z) (s : manager) : Prop :=
  exists a s', match a with AStart _ _ | ADatagram _ | AAccept _ _ | AClose => False | _ => True end
    /\ step MaxConnections a s = Some s'.

(** A goroutine of a source that has not returned can move. *)
Lemma listener_moves M i l s :
  m_listeners s !! i = Some l -> exited l = false -> close_progress M s.
Proof.
  intros Hi Hl. destruct l as [[| |]|[|c|c|c|] sem]; try done;
    [exists (AReadError i)|exists (ASubmitted i)|exists (AAcceptError i)|exists (AAdmit i)|exists (ATrack i)
    |exists (ASpawn i)]; cbn; rewrite Hi; cbn; try case_match; by eexists.
Qed.
Lemma handler_moves M c x s : slots_ok M s -> m_handlers s !! c = Some x -> close_progress M s.
Proof.
  intros [_ Hsrc] Hc. destruct x as [i []];
    [exists (AEnd c)|exists (AUntrack c)|exists (ARelease c)]; cbn; rewrite Hc; cbn; try by eexists.
  destruct (Hsrc _ _ _ Hc) as (a & sem & ->). by eexists.
Qed.

(** C32. [Close] never waits for nothing: from its call to its return some
    action is enabled that does not need a peer. While it waits for the loops of
    the sources their sockets are closed, and while it waits for the handlers
    the connection of each that still serves has been closed under it. *)
Theorem close_never_stuck MaxConnections s :
  reaches MaxConnections s -> m_phase s <> CIdle -> m_phase s <> CReturned ->
  close_progress MaxConnections s
  /\ (m_phase s = CWaitAccept -> m_open s = ∅)
  /\ (m_phase s = CWaitConns -> forall c i, m_handlers s !! c = Some (i, HServing) -> c ∈ m_closed s).
Proof.
  intros Hs Hi Hr. destruct (reaches_owned _ _ Hs) as [ow How].
  pose proof (reaches_slots _ _ Hs) as Hslots. destruct (reaches_phases _ _ Hs) as [Hfin Hopen Hex Hpend Hret].
  split_and!.
  2: { intros Hp. by rewrite Hp in Hopen. }
  2: { intros Hp c i Hc. rewrite Hp in Hpend. apply Hpend, (ow_conns ow s How).
       apply (ow_handlers ow s How) in Hc. by exists (OHandler i HServing). }
  destruct (m_phase s) as [|[|i p]| |[|c p]| |] eqn:Hp; try done.
  1: exists AListenersClosed. 2: exists ACloseListener. 4: exists AAllClosed. 5: exists ACloseConn.
  1, 2, 4, 5: cbn; rewrite Hp; by eexists.
  - destruct (all_exited s) eqn:Hall.
    + exists (ACollect (elements (m_conns s))). cbn. rewrite Hp, Hall.
      rewrite !bool_decide_true by first [apply NoDup_elements|apply list_to_set_elements_L]. by eexists.
    + apply bool_decide_eq_false in Hall. apply map_not_Forall in Hall as (i & l & Hl & He); [|apply _].
      apply (listener_moves _ i l); [done|by destruct (exited l)].
  - destruct (decide (m_handlers s = ∅)) as [Hh|(c & x & Hc)%map_choose]; [|by apply (handler_moves _ c x)].
    destruct (Z.eqb_spec (m_finishing s) 0) as [Hz|Hz].
    + exists AReturn. cbn. rewrite Hp, Hz, bool_decide_true by done. by eexists.
    + exists ADone. cbn. destruct (Z.ltb_spec 0 (m_finishing s)); [by eexists|lia].
Qed.

(** ** Concrete runs *)

Definition run (M : nat -> Z) (l : list action) : option manager :=
  foldl (fun o a => s ← o; step M a s) (Some NewManager) l.

Lemma run_reaches M l s : run M l = Some s -> reaches M s.
Proof.
  revert s. induction l as [|a l IH] using rev_ind; intros s Hl.
  - injection Hl as <-. constructor.
  - unfold run in Hl. rewrite foldl_app in Hl. cbn [foldl] in Hl. fold (run M l) in Hl.
    destruct (run M l) as [s'|] eqn:E; [|done]. econstructor; [by apply IH|exact Hl].
Qed.

(** A UDP source and two TCP sources of one connection each; a peer is beyond
    the limit; [Close] is called while two others are still connected and a
    third is on its way in. *)
Definition three_sources : list action :=
  [AStart 0 true; AStart 1 false; AStart 2 false; ADatagram 0;
   AAccept 1 10; AAdmit 1; ATrack 1; ASpawn 1; AAccept 1 11; AAdmit 1; AAccept 2 12; AClose; ACloseListener;
   ASubmitted 0; AReadError 0; ACloseListener; AAcceptError 1; ACloseListener; AListenersClosed;
   AAdmit 2; ATrack 2; ASpawn 2; AAcceptError 2; ACollect [12; 10]%nat; ACloseConn; ACloseConn; AAllClosed].
Definition then_return : list action :=
  [AEnd 10; AEnd 12; AUntrack 10; ARelease 10; AUntrack 12; ADone; ARelease 12; ADone; AReturn].
Definition state_after (l : list action) : manager := default NewManager (run (fun _ => 1) l).

Lemma state_after_reaches l :
  match run (fun _ => 1) l with Some _ => true | None => false end = true -> reaches (fun _ => 1) (state_after l).
Proof.
  unfold state_after. destruct (run (fun _ => 1) l) as [s|] eqn:E; [|done]. intros _.
  by apply (run_reaches _ l).
Qed.

Lemma connection_limit_witness :
  serving 1 (m_handlers (state_after three_sources)) <= 1.
Proof. apply (connection_limit (fun _ => 1)); [lia|]. apply state_after_reaches. vm_compute. reflexivity. Defined.

Lemma close_complete_witness :
  let s := state_after (three_sources ++ then_return) in
  m_open s = ∅ /\ m_handlers s = ∅ /\ m_finishing s = 0 /\ m_conns s = ∅ /\ m_seen s ⊆ m_closed s
  /\ (forall i l, m_listeners s !! i = Some l -> l = LUdp UExited \/ l = LTcp AExited 0).
Proof.
  apply (close_complete (fun _ => 1)); [apply state_after_reaches; vm_compute; reflexivity|].
  vm_compute. reflexivity.
Defined.

Lemma close_never_stuck_witness :
  let s := state_after three_sources in
  close_progress (fun _ => 1) s /\ (m_phase s = CWaitAccept -> m_open s = ∅)
  /\ (m_phase s = CWaitConns -> forall c i, m_handlers s !! c = Some (i, HServing) -> c ∈ m_closed s).
Proof.
  apply (close_never_stuck (fun _ => 1)); [apply state_after_reaches; vm_compute; reflexivity|..];
    vm_compute; congruence.
Defined.
