(* ===== verification/GoStrconv.v ===== *)
(** * Go's [strconv.Quote], [fmt.Sprint] and [base64.RawURLEncoding]

    The encoders the query builder relies on, with the decoders that read them
    back. Whether a rune past ASCII is printable ([unicode.IsPrint]) and how a
    [float64] prints are arguments: the results hold for any answer. *)
From S2P Require Import Prelude GoStrings GoUtf8 Domain.

Definition lower_hex (n : Z) : byte := if n <? 10 then chr (48 + n) else chr (87 + n).
(** [n] in [k] hexadecimal digits. *)
Fixpoint hex_digits (k : nat) (n : Z) (acc : string) : string :=
  match k with
  | O => acc
  | S k => hex_digits k (n / 16) (String (lower_hex (n mod 16)) acc)
  end.

(** [utf8.AppendRune] of a valid rune. *)
Definition encode_rune (r : Z) : string :=
  if r <? 128 then of_codes [r]
  else if r <? 2048 then of_codes [192 + r / 64; 128 + r mod 64]
  else if r <? 65536 then of_codes [224 + r / 4096; 128 + r / 64 mod 64; 128 + r mod 64]
  else of_codes [240 + r / 262144; 128 + r / 4096 mod 64; 128 + r / 64 mod 64; 128 + r mod 64].

Section Quote.
Context (is_print : Z -> bool).

(** [strconv.IsPrint] *)
Definition IsPrint (r : Z) : bool := if r <? 128 then (32 <=? r) && (r <? 127) else is_print r.

Definition escaped_rune (r : Z) : string :=
  if (r =? 34) || (r =? 92) then String (chr 92) (encode_rune r)
  else if IsPrint r then encode_rune r
  else if r =? 7 then of_codes [92; 97]
  else if r =? 8 then of_codes [92; 98]
  else if r =? 12 then of_codes [92; 102]
  else if r =? 10 then of_codes [92; 110]
  else if r =? 13 then of_codes [92; 114]
  else if r =? 9 then of_codes [92; 116]
  else if r =? 11 then of_codes [92; 118]
  else if (r <? 32) || (r =? 127) then of_codes [92; 120] +:+ hex_digits 2 r ""
  else if r <? 65536 then of_codes [92; 117] +:+ hex_digits 4 r ""
  else of_codes [92; 85] +:+ hex_digits 8 r "".

(** The loop of [Quote]; each step consumes at least one byte. *)
Fixpoint quote_body (fuel : nat) (s : string) : string :=
  match fuel, s with
  | S fuel, String c s' =>
      let (r, w) := decode_rune s in
      if (w =? 1)%nat && (r =? rune_error)
      then of_codes [92; 120] +:+ hex_digits 2 (code c) "" +:+ quote_body fuel s'
      else escaped_rune r +:+ quote_body fuel (str_drop w s)
  | _, _ => ""
  end.
Definition Quote (s : string) : string :=
  String (chr 34) (quote_body (String.length s) s +:+ String (chr 34) "").
End Quote.

(** ** Reading a quoted string back *)

Definition hex_value (c : byte) : option Z :=
  let x := code c in
  if (48 <=? x) && (x <=? 57) then Some (x - 48)
  else if (97 <=? x) && (x <=? 102) then Some (x - 87)
  else if (65 <=? x) && (x <=? 70) then Some (x - 55)
  else None.
Fixpoint read_hex (k : nat) (acc : Z) (s : string) : option (Z * string) :=
  match k, s with
  | O, _ => Some (acc, s)
  | S k, String c s => v ← hex_value c; read_hex k (acc * 16 + v) s
  | S _, EmptyString => None
  end.

Definition simple_escape (c : byte) : option Z :=
  if c =c "a" then Some 7 else if c =c "b" then Some 8 else if c =c "f" then Some 12
  else if c =c "n" then Some 10 else if c =c "r" then Some 13 else if c =c "t" then Some 9
  else if c =c "v" then Some 11 else if (c =c chr 34) || (c =c chr 92) then Some (code c) else None.

(** The content of a quoted string after its opening quote, and what follows
    its closing quote. *)
Fixpoint unquote_body (fuel : nat) (s : string) : option (string * string) :=
  match fuel, s with
  | S fuel, String c s =>
      if c =c chr 34 then Some (""%string, s)
      else if c =c chr 10 then None
      else if c =c chr 92 then
        match s with
        | String e s =>
            '(bytes, s) ←
              (if e =c "x" then '(n, s) ← read_hex 2 0 s; Some (of_codes [n], s)
               else if e =c "u" then '(n, s) ← read_hex 4 0 s; Some (encode_rune n, s)
               else if e =c "U" then '(n, s) ← read_hex 8 0 s; Some (encode_rune n, s)
               else n ← simple_escape e; Some (of_codes [n], s));
            '(v, rest) ← unquote_body fuel s;
            Some (bytes +:+ v, rest)
        | EmptyString => None
        end
      else '(v, rest) ← unquote_body fuel s; Some (String c v, rest)
  | _, _ => None
  end.
Definition Unquote (s : string) : option (string * string) :=
  match s with
  | String c s => if c =c chr 34 then unquote_body (S (String.length s)) s else None
  | EmptyString => None
  end.

(** ** Runes and their encodings *)

Lemma of_codes_cons z l : of_codes (z :: l) = String (chr z) (of_codes l).
Proof. reflexivity. Qed.

(** The encoding of [d] digits base 64 above a leading byte. *)
Lemma encode_two x y :
  192 <= x -> (194 <= x <= 223) -> 128 <= y <= 191 ->
  encode_rune ((x - 192) * 64 + (y - 128)) = of_codes [x; y].
Proof.
  intros _ Hx Hy. unfold encode_rune. set (r := _ + _).
  assert (r / 64 = x - 192 /\ r mod 64 = y - 128) as [E1 E2].
  { split; [symmetry; apply (Z.div_unique r 64 _ (y - 128)); lia|].
    symmetry. apply (Z.mod_unique r 64 (x - 192)); lia. }
  rewrite E1, E2. destruct (Z.ltb_spec r 128); [lia|]. destruct (Z.ltb_spec r 2048); [|lia].
  by replace (192 + (x - 192)) with x by lia; replace (128 + (y - 128)) with y by lia.
Qed.

Lemma encode_three x y z :
  224 <= x <= 239 -> 128 <= y <= 191 -> 128 <= z <= 191 -> (x = 224 -> 160 <= y) ->
  encode_rune ((x - 224) * 4096 + (y - 128) * 64 + (z - 128)) = of_codes [x; y; z].
Proof.
  intros Hx Hy Hz Hlow. unfold encode_rune. set (r := _ + _).
  assert (r / 64 = (x - 224) * 64 + (y - 128) /\ r mod 64 = z - 128) as [E1 E2].
  { split; [symmetry; apply (Z.div_unique r 64 _ (z - 128)); lia|].
    symmetry. apply (Z.mod_unique r 64 ((x - 224) * 64 + (y - 128))); lia. }
  assert (r / 4096 = x - 224) as E3.
  { symmetry. apply (Z.div_unique r 4096 _ ((y - 128) * 64 + (z - 128))); lia. }
  assert (r / 64 mod 64 = y - 128) as E4.
  { rewrite E1. symmetry. apply (Z.mod_unique _ 64 (x - 224)); lia. }
  destruct (Z.ltb_spec r 128); [lia|]. destruct (Z.ltb_spec r 2048); [lia|].
  destruct (Z.ltb_spec r 65536); [|lia]. rewrite E2, E3, E4.
  by replace (224 + (x - 224)) with x by lia; replace (128 + (y - 128)) with y by lia;
    replace (128 + (z - 128)) with z by lia.
Qed.

Lemma encode_four x y z u :
  240 <= x <= 244 -> 128 <= y <= 191 -> 128 <= z <= 191 -> 128 <= u <= 191 ->
  (x = 240 -> 144 <= y) ->
  encode_rune ((x - 240) * 262144 + (y - 128) * 4096 + (z - 128) * 64 + (u - 128))
  = of_codes [x; y; z; u].
Proof.
  intros Hx Hy Hz Hu Hlow. unfold encode_rune. set (r := _ + _).
  assert (r / 64 = (x - 240) * 4096 + (y - 128) * 64 + (z - 128) /\ r mod 64 = u - 128) as [E1 E2].
  { split; [symmetry; apply (Z.div_unique r 64 _ (u - 128)); lia|].
    symmetry. apply (Z.mod_unique r 64 ((x - 240) * 4096 + (y - 128) * 64 + (z - 128))); lia. }
  assert (r / 4096 = (x - 240) * 64 + (y - 128)) as E3.
  { symmetry. apply (Z.div_unique r 4096 _ ((z - 128) * 64 + (u - 128))); lia. }
  assert (r / 262144 = x - 240) as E4.
  { symmetry. apply (Z.div_unique r 262144 _ ((y - 128) * 4096 + (z - 128) * 64 + (u - 128))); lia. }
  assert (r / 64 mod 64 = z - 128) as E5.
  { rewrite E1. symmetry. apply (Z.mod_unique _ 64 ((x - 240) * 64 + (y - 128))); lia. }
  assert (r / 4096 mod 64 = y - 128) as E6.
  { rewrite E3. symmetry. apply (Z.mod_unique _ 64 (x - 240)); lia. }
  destruct (Z.ltb_spec r 128); [lia|]. destruct (Z.ltb_spec r 2048); [lia|].
  destruct (Z.ltb_spec r 65536); [lia|]. rewrite E2, E4, E5, E6.
  by replace (240 + (x - 240)) with x by lia; replace (128 + (y - 128)) with y by lia;
    replace (128 + (z - 128)) with z by lia; replace (128 + (u - 128)) with u by lia.
Qed.

(** Decoding then encoding gives the bytes back. *)
Lemma encode_decode c s r w :
  decode_rune (String c s) = (r, w) -> ~ (w = 1%nat /\ r = rune_error) ->
  encode_rune r = str_take w (String c s) /\ 0 <= r < 1114112.
Proof.
  pose proof (code_bound c) as Hc0. unfold decode_rune, in_range, is_cont, in_range.
  destruct (Z.ltb_spec (code c) 128).
  { intros [= <- <-] _. unfold encode_rune. destruct (Z.ltb_spec (code c) 128); [|lia].
    simpl. rewrite chr_code. split; [by destruct s|lia]. }
  destruct (Z.ltb_spec (code c) 194); [by intros [= <- <-] []|].
  destruct (Z.leb_spec (code c) 223).
  { destruct s as [|c1 s]; [by intros [= <- <-] []|].
    destruct (_ && _) eqn:E; intros [= <- <-] Hn; [|by destruct Hn]. b2p.
    rewrite encode_two by lia. simpl. rewrite !chr_code. split; [by destruct s|lia]. }
  destruct (Z.leb_spec (code c) 239).
  { destruct s as [|c1 [|c2 s]]; [by intros [= <- <-] []..|].
    destruct (_ && _) eqn:E; intros [= <- <-] Hn; [|by destruct Hn]. b2p.
    assert (code c = 224 -> 160 <= code c1) by (intros Hx; rewrite Hx in *; simpl in *; lia).
    assert (128 <= code c1 <= 191).
    { destruct (code c =? 224), (code c =? 237); lia. }
    rewrite encode_three by lia. simpl. rewrite !chr_code. split; [by destruct s|lia]. }
  destruct (Z.leb_spec (code c) 244); [|by intros [= <- <-] []].
  destruct s as [|c1 [|c2 [|c3 s]]]; [by intros [= <- <-] []..|].
  destruct (_ && _) eqn:E; intros [= <- <-] Hn; [|by destruct Hn]. b2p.
  assert (code c = 240 -> 144 <= code c1) by (intros Hx; rewrite Hx in *; simpl in *; lia).
  assert (code c = 244 -> code c1 <= 143) by (intros Hx; rewrite Hx in *; simpl in *; lia).
  assert (128 <= code c1 <= 191).
  { destruct (code c =? 240), (code c =? 244); lia. }
  rewrite encode_four by lia. simpl. rewrite !chr_code. split; [by destruct s|lia].
Qed.

(** ** Hexadecimal escapes *)

Lemma hex_value_lower n : 0 <= n < 16 -> hex_value (lower_hex n) = Some n.
Proof.
  intros Hn. unfold hex_value, lower_hex. destruct (Z.ltb_spec n 10); rewrite code_chr by lia.
  - replace ((48 <=? 48 + n) && (48 + n <=? 57)) with true by lia. f_equal. lia.
  - replace ((48 <=? 87 + n) && (87 + n <=? 57)) with false by lia.
    replace ((97 <=? 87 + n) && (87 + n <=? 102)) with true by lia. f_equal. lia.
Qed.

Lemma read_hex_digits k j a n acc :
  0 <= n < 16 ^ Z.of_nat k ->
  read_hex (k + j) a (hex_digits k n acc) = read_hex j (a * 16 ^ Z.of_nat k + n) acc.
Proof.
  revert j a n acc. induction k as [|k IH]; intros j a n acc Hn.
  - simpl in *. f_equal. lia.
  - rewrite Nat2Z.inj_succ, Z.pow_succ_r in Hn by lia. cbn [hex_digits].
    rewrite Nat.add_succ_comm, IH.
    + cbn [read_hex]. rewrite hex_value_lower by (apply Z.mod_pos_bound; lia). cbn [mbind option_bind].
      f_equal. rewrite Nat2Z.inj_succ, Z.pow_succ_r by lia.
      pose proof (Z.div_mod n 16 ltac:(lia)). lia.
    + split; [apply Z.div_pos; lia|apply Z.div_lt_upper_bound; lia].
Qed.

Lemma hex_digits_append k n acc t : hex_digits k n acc +:+ t = hex_digits k n (acc +:+ t).
Proof. revert n acc. induction k as [|k IH]; intros n acc; [done|]. simpl. by rewrite IH. Qed.

Lemma read_hex_print k n t :
  0 <= n < 16 ^ Z.of_nat k -> read_hex k 0 (hex_digits k n "" +:+ t) = Some (n, t).
Proof.
  intros Hn. rewrite hex_digits_append, <- (Nat.add_0_r k) at 1. rewrite read_hex_digits by done.
  simpl. f_equal.
Qed.

Lemma read_hex_length k a s n r : read_hex k a s = Some (n, r) -> (String.length r <= String.length s)%nat.
Proof.
  revert a s. induction k as [|k IH]; intros a s; [by intros [= _ <-]|]. destruct s as [|c s]; [done|].
  cbn [read_hex]. destruct (hex_value c); [|done]. intros H%IH. simpl. lia.
Qed.

(** ** Fuel of the reader *)

(** What follows a backslash: the bytes it stands for. *)
Definition read_escape (e : byte) (s : string) : option (string * string) :=
  if e =c "x" then '(n, s) ← read_hex 2 0 s; Some (of_codes [n], s)
  else if e =c "u" then '(n, s) ← read_hex 4 0 s; Some (encode_rune n, s)
  else if e =c "U" then '(n, s) ← read_hex 8 0 s; Some (encode_rune n, s)
  else n ← simple_escape e; Some (of_codes [n], s).

Lemma read_escape_length e s b r :
  read_escape e s = Some (b, r) -> (String.length r <= String.length s)%nat.
Proof.
  unfold read_escape. repeat case_match; try done; intros Hr;
    repeat match type of Hr with
    | (?o ≫= _) = Some _ => destruct o as [[]|] eqn:Ho; [|done]; cbn [mbind option_bind] in Hr
    | (?o ≫= _) = Some _ => destruct o eqn:Ho; [|done]; cbn [mbind option_bind] in Hr
    end; injection Hr as <- <-; try done; by eapply read_hex_length.
Qed.

Lemma unquote_step fuel c s :
  unquote_body (S fuel) (String c s)
  = if c =c chr 34 then Some (""%string, s)
    else if c =c chr 10 then None
    else if c =c chr 92 then
      match s with
      | String e s =>
          '(b, s) ← read_escape e s; '(v, rest) ← unquote_body fuel s; Some (b +:+ v, rest)
      | EmptyString => None
      end
    else '(v, rest) ← unquote_body fuel s; Some (String c v, rest).
Proof. reflexivity. Qed.

Lemma unquote_fuel f1 f2 s :
  (String.length s < f1)%nat -> (String.length s < f2)%nat ->
  unquote_body f1 s = unquote_body f2 s.
Proof.
  revert f2 s. induction f1 as [|f1 IH]; intros [|f2] s H1 H2; try lia. destruct s as [|c s]; [done|].
  simpl in H1, H2. rewrite !unquote_step. destruct (c =c chr 34); [done|].
  destruct (c =c chr 10); [done|]. destruct (c =c chr 92).
  - destruct s as [|e s]; [done|]. destruct (read_escape e s) as [[b r]|] eqn:E; [|done].
    apply read_escape_length in E. cbn [mbind option_bind]. simpl in H1, H2.
    rewrite (IH f2) by lia. done.
  - rewrite (IH f2) by lia. done.
Qed.

(** Reading with any sufficient fuel. *)
Definition unquoted (s : string) : option (string * string) := unquote_body (S (String.length s)) s.

Lemma unquoted_cons c s :
  unquoted (String c s)
  = if c =c chr 34 then Some (""%string, s)
    else if c =c chr 10 then None
    else if c =c chr 92 then
      match s with
      | String e s => '(b, s) ← read_escape e s; '(v, rest) ← unquoted s; Some (b +:+ v, rest)
      | EmptyString => None
      end
    else '(v, rest) ← unquoted s; Some (String c v, rest).
Proof.
  unfold unquoted. cbn [String.length]. rewrite unquote_step. repeat case_match; try done.
  destruct (read_escape a s0) as [[b r]|] eqn:E; [|done]. cbn [mbind option_bind].
  apply read_escape_length in E. by rewrite (unquote_fuel _ (S (String.length r))) by (simpl; lia).
Qed.

Definition plain_byte (c : byte) : bool := negb ((c =c chr 34) || (c =c chr 10) || (c =c chr 92)).

Lemma unquoted_plain a t v rest :
  all_bytes plain_byte a = true -> unquoted t = Some (v, rest) ->
  unquoted (a +:+ t) = Some (a +:+ v, rest).
Proof.
  intros Ha Ht. induction a as [|c a IH]; [done|]. simpl in Ha. apply andb_true_iff in Ha as [Hc Ha].
  rewrite append_cons, unquoted_cons, (IH Ha). unfold plain_byte in Hc.
  by destruct (c =c chr 34), (c =c chr 10), (c =c chr 92).
Qed.

(** An escape sequence. *)
Lemma unquoted_escape e a t b v rest :
  read_escape e (a +:+ t) = Some (b, t) -> unquoted t = Some (v, rest) ->
  unquoted (String (chr 92) (String e a) +:+ t) = Some (b +:+ v, rest).
Proof.
  intros He Ht. rewrite !append_cons, unquoted_cons, He. cbn [mbind option_bind]. rewrite Ht. done.
Qed.

Lemma encode_high r : 128 <= r < 1114112 -> all_bytes plain_byte (encode_rune r) = true.
Proof.
  intros Hr.
  assert (Hb : forall z, 128 <= z < 256 -> plain_byte (chr z) = true).
  { intros z Hz. unfold plain_byte.
    assert (Hne : forall k, 0 <= k < 128 -> (chr z =c chr k) = false).
    { intros k Hk. destruct (ch_eq_spec (chr z) (chr k)) as [E|]; [|done].
      apply (f_equal code) in E. rewrite !code_chr in E by lia. lia. }
    by rewrite !Hne by lia. }
  pose proof (Z.mod_pos_bound r 64 ltac:(lia)). pose proof (Z.mod_pos_bound (r / 64) 64 ltac:(lia)).
  pose proof (Z.mod_pos_bound (r / 4096) 64 ltac:(lia)).
  unfold encode_rune. destruct (Z.ltb_spec r 128); [lia|].
  destruct (Z.ltb_spec r 2048).
  { assert (2 <= r / 64 < 32) by (split; [apply Z.div_le_lower_bound|apply Z.div_lt_upper_bound]; lia).
    rewrite !of_codes_cons. cbn [all_bytes of_codes foldr]. by rewrite !Hb by lia. }
  destruct (Z.ltb_spec r 65536).
  { assert (0 <= r / 4096 < 16) by (split; [apply Z.div_le_lower_bound|apply Z.div_lt_upper_bound]; lia).
    rewrite !of_codes_cons. cbn [all_bytes of_codes foldr]. by rewrite !Hb by lia. }
  assert (0 <= r / 262144 < 5) by (split; [apply Z.div_le_lower_bound|apply Z.div_lt_upper_bound]; lia).
  rewrite !of_codes_cons. cbn [all_bytes of_codes foldr]. by rewrite !Hb by lia.
Qed.

(** ** Quoting is read back *)

Lemma plain_ascii r : 32 <= r < 127 -> r <> 34 -> r <> 92 -> all_bytes plain_byte (encode_rune r) = true.
Proof.
  intros Hr H1 H2. unfold encode_rune. destruct (Z.ltb_spec r 128); [|lia]. cbn [of_codes foldr all_bytes].
  unfold plain_byte.
  assert (Hne : forall k, 0 <= k < 128 -> r <> k -> (chr r =c chr k) = false).
  { intros k Hk Hrk. destruct (ch_eq_spec (chr r) (chr k)) as [E|]; [|done].
    apply (f_equal code) in E. rewrite !code_chr in E by lia. lia. }
  by rewrite !Hne by lia.
Qed.

Section QuoteReads.
Context (is_print : Z -> bool).

Lemma unquoted_hex e k n t v rest :
  (e, k) = ("x"%char, 2%nat) /\ n < 128 \/ (e, k) = ("u"%char, 4%nat) \/ (e, k) = ("U"%char, 8%nat) ->
  0 <= n < 16 ^ Z.of_nat k -> unquoted t = Some (v, rest) ->
  unquoted (String (chr 92) (String e "") +:+ hex_digits k n "" +:+ t) = Some (encode_rune n +:+ v, rest).
Proof.
  intros He Hn Ht.
  change (String (chr 92) (String e "") +:+ hex_digits k n "" +:+ t)
    with (String (chr 92) (String e (hex_digits k n "")) +:+ t).
  apply unquoted_escape; [|done]. unfold read_escape.
  destruct He as [[[= -> ->] Hs]|[[= -> ->]|[= -> ->]]]; simpl ch_eq; cbv iota;
    rewrite read_hex_print by done; cbn [mbind option_bind]; [|done..].
  unfold encode_rune. by destruct (Z.ltb_spec n 128); [|lia].
Qed.

Lemma unquoted_rune r t v rest :
  0 <= r < 1114112 -> unquoted t = Some (v, rest) ->
  unquoted (escaped_rune is_print r +:+ t) = Some (encode_rune r +:+ v, rest).
Proof.
  intros Hr Ht. unfold escaped_rune.
  destruct ((r =? 34) || (r =? 92)) eqn:Eq.
  { apply orb_true_iff in Eq as [->%Z.eqb_eq| ->%Z.eqb_eq]; by apply (unquoted_escape _ "" t). }
  apply orb_false_iff in Eq as [H34%Z.eqb_neq H92%Z.eqb_neq].
  destruct (IsPrint is_print r) eqn:Ep.
  { apply unquoted_plain; [|done]. unfold IsPrint in Ep. destruct (Z.ltb_spec r 128).
    - apply andb_true_iff in Ep as [?%Z.leb_le ?%Z.ltb_lt]. by apply plain_ascii.
    - apply encode_high. lia. }
  repeat match goal with
  | |- context [if r =? ?k then _ else _] =>
      destruct (Z.eqb_spec r k) as [->|]; [by apply (unquoted_escape _ "" t)|]
  end.
  destruct ((r <? 32) || (r =? 127)) eqn:El.
  { assert (r < 128) by (apply orb_true_iff in El as [?%Z.ltb_lt|?%Z.eqb_eq]; lia).
    rewrite append_assoc. apply (unquoted_hex "x" 2); [by left|cbn; lia|done]. }
  destruct (Z.ltb_spec r 65536); rewrite append_assoc.
  - apply (unquoted_hex "u" 4); [by right; left|cbn; lia|done].
  - apply (unquoted_hex "U" 8); [by right; right|cbn; lia|done].
Qed.

Lemma unquoted_invalid c t v rest :
  unquoted t = Some (v, rest) ->
  unquoted (of_codes [92; 120] +:+ hex_digits 2 (code c) "" +:+ t) = Some (String c "" +:+ v, rest).
Proof.
  intros Ht. pose proof (code_bound c).
  change (of_codes [92; 120] +:+ hex_digits 2 (code c) "" +:+ t)
    with (String (chr 92) (String "x" (hex_digits 2 (code c) "")) +:+ t).
  apply unquoted_escape; [|done]. unfold read_escape. simpl ch_eq. cbv iota.
  rewrite read_hex_print by (cbn; lia). cbn [mbind option_bind of_codes foldr]. by rewrite chr_code.
Qed.

Lemma quote_body_reads fuel s t rest :
  (String.length s <= fuel)%nat -> unquoted t = Some (""%string, rest) ->
  unquoted (quote_body is_print fuel s +:+ t) = Some (s, rest).
Proof.
  intros Hf Ht. revert s Hf. induction fuel as [|fuel IH]; intros s Hf.
  { by destruct s; [|simpl in Hf; lia]. }
  destruct s as [|c s]; [done|]. cbn [quote_body]. simpl in Hf.
  destruct (decode_rune (String c s)) as [r w] eqn:E.
  pose proof (decode_width (String c s) ltac:(done)) as Hw. rewrite E in Hw. cbn [snd] in Hw.
  destruct (Nat.eqb_spec w 1) as [Hw1|Hw1], (Z.eqb_spec r rune_error) as [Hr|Hr]; cbn [andb].
  { rewrite !append_assoc. rewrite (unquoted_invalid c _ s rest); [done|]. apply IH. lia. }
  all: destruct (encode_decode c s r w E) as [He Hb]; [tauto|].
  all: rewrite append_assoc; rewrite (unquoted_rune r _ (str_drop w (String c s)) rest);
    [by rewrite He, str_take_drop|done|].
  all: apply IH; rewrite length_str_drop; simpl; lia.
Qed.

(** The quoted form is read back exactly, whatever follows it. *)
Lemma Unquote_Quote s rest : Unquote (Quote is_print s +:+ rest) = Some (s, rest).
Proof.
  unfold Unquote, Quote. rewrite append_cons. rewrite ch_eq_refl.
  fold (unquoted ((quote_body is_print (String.length s) s +:+ String (chr 34) "") +:+ rest)).
  rewrite append_assoc. by apply quote_body_reads.
Qed.
End QuoteReads.

(** ** base64, URL alphabet, no padding *)

Definition base64_alphabet : string :=
  "ABCDEFGHIJKLMNOPQRSTUVWXYZabcdefghijklmnopqrstuvwxyz0123456789-_".
Definition base64_digit (n : Z) : byte := default "A"%char (str_nth base64_alphabet (Z.to_nat n)).
Definition base64_value (c : byte) : option Z :=
  let x := code c in
  if (65 <=? x) && (x <=? 90) then Some (x - 65)
  else if (97 <=? x) && (x <=? 122) then Some (x - 71)
  else if (48 <=? x) && (x <=? 57) then Some (x + 4)
  else if x =? 45 then Some 62
  else if x =? 95 then Some 63
  else None.

Fixpoint base64_encode (fuel : nat) (s : string) : string :=
  match fuel, s with
  | S fuel, String a (String b (String c s)) =>
      let v := code a * 65536 + code b * 256 + code c in
      String (base64_digit (v / 262144)) (String (base64_digit (v / 4096 mod 64))
        (String (base64_digit (v / 64 mod 64)) (String (base64_digit (v mod 64)) (base64_encode fuel s))))
  | S _, String a (String b EmptyString) =>
      let v := code a * 256 + code b in
      String (base64_digit (v / 1024)) (String (base64_digit (v / 16 mod 64))
        (String (base64_digit (v mod 16 * 4)) ""))
  | S _, String a EmptyString =>
      String (base64_digit (code a / 4)) (String (base64_digit (code a mod 4 * 16)) "")
  | _, _ => ""
  end.
(** [base64.RawURLEncoding.EncodeToString] *)
Definition RawURLEncode (s : string) : string := base64_encode (String.length s) s.

Fixpoint base64_decode (fuel : nat) (s : string) : option string :=
  match fuel, s with
  | S fuel, String a (String b (String c (String d s))) =>
      a ← base64_value a; b ← base64_value b; c ← base64_value c; d ← base64_value d;
      let v := a * 262144 + b * 4096 + c * 64 + d in
      r ← base64_decode fuel s;
      Some (of_codes [v / 65536; v / 256 mod 256; v mod 256] +:+ r)
  | S _, String a (String b (String c EmptyString)) =>
      a ← base64_value a; b ← base64_value b; c ← base64_value c;
      let v := a * 4096 + b * 64 + c in
      Some (of_codes [v / 1024; v / 4 mod 256])
  | S _, String a (String b EmptyString) =>
      a ← base64_value a; b ← base64_value b;
      Some (of_codes [(a * 64 + b) / 16])
  | _, EmptyString => Some ""%string
  | _, _ => None
  end.
(** [base64.RawURLEncoding.DecodeString]: line ends are skipped, left-over bits
    are not checked. *)
Definition RawURLDecode (s : string) : option string :=
  let s := remove_byte (chr 13) (remove_byte (chr 10) s) in
  base64_decode (String.length s) s.

Lemma base64_value_digit n : 0 <= n < 64 -> base64_value (base64_digit n) = Some n.
Proof.
  intros Hn. assert (H : forallb (fun n => match base64_value (base64_digit n) with
    | Some m => m =? n | None => false end) (map Z.of_nat (seq 0 64)) = true) by (vm_compute; done).
  rewrite forallb_forall in H. specialize (H n). destruct (base64_value (base64_digit n)).
  - f_equal. apply Z.eqb_eq, H, in_map_iff. exists (Z.to_nat n). split; [lia|]. apply in_seq. lia.
  - discriminate H. apply in_map_iff. exists (Z.to_nat n). split; [lia|]. apply in_seq. lia.
Qed.

Lemma base64_digit_plain n : 0 <= n < 64 -> (base64_digit n =c chr 10) = false /\ (base64_digit n =c chr 13) = false.
Proof.
  intros Hn. assert (H : forallb (fun n => negb (base64_digit n =c chr 10) && negb (base64_digit n =c chr 13))
    (map Z.of_nat (seq 0 64)) = true) by (vm_compute; done).
  rewrite forallb_forall in H. rewrite <- !negb_true_iff, <- andb_true_iff.
  apply H, in_map_iff. exists (Z.to_nat n). split; [lia|]. apply in_seq. lia.
Qed.

Ltac euclid := Z.to_euclidean_division_equations; lia.

Lemma base64_tail f1 f2 s :
  (String.length s < 3)%nat -> (String.length s <= f1)%nat -> (String.length s <= f2)%nat ->
  base64_decode f2 (base64_encode f1 s) = Some s.
Proof.
  destruct s as [|a [|b [|c s]]]; simpl; intros H0 H1 H2; try lia.
  - by destruct f1, f2.
  - destruct f1, f2; try lia. cbn [base64_encode base64_decode]. pose proof (code_bound a).
    rewrite !base64_value_digit by euclid. cbn [mbind option_bind].
    replace ((code a / 4 * 64 + code a mod 4 * 16) / 16) with (code a) by euclid.
    simpl. by rewrite chr_code.
  - destruct f1, f2; try lia. cbn [base64_encode base64_decode].
    pose proof (code_bound a). pose proof (code_bound b).
    set (v := code a * 256 + code b).
    rewrite !base64_value_digit by (subst v; euclid). cbn [mbind option_bind].
    set (w := _ * 4096 + _ + _).
    assert (w = v * 4) as -> by (subst v w; euclid).
    replace (v * 4 / 1024) with (code a) by (subst v; euclid).
    replace (v * 4 / 4 mod 256) with (code b) by (subst v; euclid).
    simpl. by rewrite !chr_code.
Qed.

Lemma base64_roundtrip f1 f2 s :
  (String.length s <= f1)%nat -> (String.length s <= f2)%nat ->
  base64_decode f2 (base64_encode f1 s) = Some s.
Proof.
  revert f2 s. induction f1 as [|f1 IH]; intros f2 s H1 H2.
  { apply base64_tail; lia. }
  destruct s as [|a [|b [|c s]]]; [by apply base64_tail; simpl in *; lia..|]. simpl in H1, H2.
  destruct f2 as [|f2]; [lia|]. cbn [base64_encode base64_decode].
  pose proof (code_bound a). pose proof (code_bound b). pose proof (code_bound c).
  set (v := code a * 65536 + code b * 256 + code c).
  rewrite !base64_value_digit by (subst v; euclid). cbn [mbind option_bind].
  rewrite IH by lia. cbn [mbind option_bind].
  set (w := _ + v mod 64). assert (w = v) as -> by (subst v w; euclid).
  replace (v / 65536) with (code a) by (subst v; euclid).
  replace (v / 256 mod 256) with (code b) by (subst v; euclid).
  replace (v mod 256) with (code c) by (subst v; euclid).
  simpl. by rewrite !chr_code.
Qed.

Definition no_line_end (c : byte) : bool := negb (c =c chr 10) && negb (c =c chr 13).

Lemma base64_encode_plain f s : all_bytes no_line_end (base64_encode f s) = true.
Proof.
  revert s. induction f as [|f IH]; intros s; [done|].
  assert (Hd : forall n, 0 <= n < 64 -> no_line_end (base64_digit n) = true).
  { intros n Hn. unfold no_line_end. by destruct (base64_digit_plain n Hn) as [-> ->]. }
  destruct s as [|a [|b [|c s]]]; [done|..]; cbn [base64_encode all_bytes];
    pose proof (code_bound a); try pose proof (code_bound b); try pose proof (code_bound c);
    rewrite ?Hd, ?IH by euclid; done.
Qed.

Lemma remove_byte_none c s : lacks c s = true -> remove_byte c s = s.
Proof.
  induction s as [|x s IH]; [done|]. unfold lacks in *. simpl. intros [Hx Hs]%andb_true_iff.
  apply negb_true_iff in Hx. rewrite Hx. by rewrite IH.
Qed.

Lemma RawURLDecode_Encode s : RawURLDecode (RawURLEncode s) = Some s.
Proof.
  unfold RawURLDecode, RawURLEncode. set (e := base64_encode _ s).
  assert (lacks (chr 10) e = true /\ lacks (chr 13) e = true) as [H10 H13].
  { pose proof (base64_encode_plain (String.length s) s) as Hp. fold e in Hp.
    split; unfold lacks; revert Hp; apply all_bytes_impl; unfold no_line_end;
      intros c Hc%andb_true_iff; tauto. }
  rewrite (remove_byte_none _ e H10), (remove_byte_none _ e H13).
  apply base64_roundtrip; [lia|].
  assert (Hl : forall f t, (String.length t <= f)%nat ->
    (String.length t <= String.length (base64_encode f t))%nat).
  { clear. induction f as [|f IH]; intros t Ht; [lia|].
    destruct t as [|a [|b [|c t]]]; simpl in *; try lia. specialize (IH t). lia. }
  by apply Hl.
Qed.

(** ** [fmt.Sprint] of one decoded value

    Slices print as [[a b]], maps as [map[k:v]] in key order; [sprint_float]
    is the shortest decimal form of a [float64]. *)
Section Sprint.
Context (sprint_float : Z -> string).

(** Insertion of a printed entry in key order. *)
Fixpoint insert_entry (e : string * string) (l : list (string * string)) : list (string * string) :=
  match l with
  | [] => [e]
  | x :: l => if String.leb e.1 x.1 then e :: x :: l else x :: insert_entry e l
  end.

Fixpoint Sprint (v : any) : string :=
  match v with
  | ANil => "<nil>"
  | AStr s => s
  | ABool b => if b then "true" else "false"
  | ANumber lit => lit
  | AFloat bits => sprint_float bits
  | AList l => "[" +:+ join " " (map Sprint l) +:+ "]"
  | AMap m =>
      let printed := map (fun e => (e.1, Sprint e.2)) m in
      let sorted := foldr insert_entry [] printed in
      "map[" +:+ join " " (map (fun e => e.1 +:+ ":" +:+ e.2) sorted) +:+ "]"
  end.
End Sprint.
