(* ===== verification/Query.v ===== *)
(** * Queries

    [backend/internal/query/builder.go], with the query types of
    [backend/internal/storage/storage.go]: validation, and the translation of a
    query to LogsQL text. [is_print] and [sprint_float] are the arguments of
    [GoStrconv]. *)
From S2P Require Import Prelude GoStrings GoUtf8 GoTime ParserProps Domain GoStrconv.

Record Filter := mkFilter { fl_Field : string; fl_Op : string; fl_Value : any }.
Record Query := mkQuery {
  q_TenantID : string;
  q_Start : Time;
  q_End : Time;
  q_Text : string;
  q_Native : string;
  q_Filters : list Filter;
  q_Limit : Z;
  q_Cursor : string
}.

Inductive query_error := EOrder | ERange | ELimit | ESize | EFilter | ECursor.
#[export] Instance query_error_eq_dec : EqDecision query_error.
Proof. solve_decision. Defined.

Definition allowedOps (op : string) : bool :=
  existsb (str_eq op)
    ["eq"; "neq"; "contains"; "starts_with"; "exists"; "gt"; "gte"; "lt"; "lte"]%string.

(** ** Field names *)

Definition field_rune (r : Z) : bool :=
  (r =? 95) || (r =? 46) || ((97 <=? r) && (r <=? 122)) || ((65 <=? r) && (r <=? 90))
  || ((48 <=? r) && (r <=? 57)).
(** [for _, r := range v]; each rune takes at least a byte. *)
Fixpoint field_runes (fuel : nat) (v : string) : bool :=
  match fuel, v with
  | S fuel, String _ _ =>
      let (r, w) := decode_rune v in field_rune r && field_runes fuel (str_drop w v)
  | _, _ => true
  end.
Definition ValidField (v : string) : bool :=
  negb (v =s "") && (len v <=? 128) && field_runes (String.length v) v.

(** ** Validation *)

Definition max_range : Z := 31 * 24 * 3600 * second.

Definition set_limit (n : Z) (q : Query) : Query :=
  mkQuery (q_TenantID q) (q_Start q) (q_End q) (q_Text q) (q_Native q) (q_Filters q) n (q_Cursor q).
Definition set_cursor (c : string) (q : Query) : Query :=
  mkQuery (q_TenantID q) (q_Start q) (q_End q) (q_Text q) (q_Native q) (q_Filters q) (q_Limit q) c.

(** The checked query, its limit completed. *)
Definition Validate (q : Query) : outcome query_error Query :=
  if IsZero (q_Start q) || IsZero (q_End q) || negb (Before (q_Start q) (q_End q)) then Err EOrder else
  if max_range <? Sub (q_End q) (q_Start q) then Err ERange else
  let q := if q_Limit q =? 0 then set_limit 100 q else q in
  if (q_Limit q <? 1) || (1000 <? q_Limit q) then Err ELimit else
  if (4096 <? len (q_Text q)) || (8192 <? len (q_Native q)) || (32 <? Z.of_nat (length (q_Filters q)))
  then Err ESize else
  if existsb (fun f => negb (ValidField (fl_Field f)) || negb (allowedOps (fl_Op f))) (q_Filters q)
  then Err EFilter else Ok q.

(** ** LogsQL *)
Section Build.
Context (is_print : Z -> bool) (sprint_float : Z -> string).

Definition quote (v : string) : string := Quote is_print (remove_byte (chr 0) v).
Definition Cursor (t : string) : string := RawURLEncode t.

Definition filter_clause (f : Filter) : string :=
  let field := fl_Field f in
  let val := quote (Sprint sprint_float (fl_Value f)) in
  let op := fl_Op f in
  if op =s "eq" then " " +:+ field +:+ ":" +:+ val
  else if op =s "neq" then " NOT " +:+ field +:+ ":" +:+ val
  else if op =s "contains" then " " +:+ field +:+ ":~" +:+ val
  else if op =s "starts_with" then " " +:+ field +:+ ":^" +:+ val
  else if op =s "exists" then " " +:+ field +:+ ":*"
  else if (op =s "gt") || (op =s "gte") || (op =s "lt") || (op =s "lte")
  then " " +:+ field +:+ op +:+ val
  else "".

Definition base_clause (q : Query) : string :=
  "_time:[" +:+ FormatRFC3339Nano (UTC (q_Start q)) +:+ ", " +:+ FormatRFC3339Nano (UTC (q_End q))
  +:+ "] tenant_id:" +:+ quote (q_TenantID q).

Definition text_clause (q : Query) : string :=
  if negb (q_Native q =s "") then " " +:+ q_Native q
  else if negb (q_Text q =s "") then " " +:+ quote (q_Text q)
  else "".

Definition LogsQL (q : Query) : outcome query_error string :=
  q ← Validate q;
  let base := base_clause q +:+ text_clause q in
  let base := foldl (fun b f => b +:+ filter_clause f) base (q_Filters q) in
  if q_Cursor q =s "" then Ok base else
  match RawURLDecode (q_Cursor q) with
  | None => Err ECursor
  | Some raw => Ok (base +:+ " _time:<" +:+ quote raw)
  end.
End Build.

(** ** Lemmas on field names *)

Definition field_byte (c : byte) : bool := field_rune (code c).

Lemma field_runes_bytes fuel v :
  (String.length v <= fuel)%nat -> field_runes fuel v = all_bytes field_byte v.
Proof.
  revert v. induction fuel as [|fuel IH]; intros v Hf; [by destruct v; [|simpl in Hf; lia]|].
  destruct v as [|c v]; [done|]. simpl in Hf. cbn [field_runes all_bytes].
  pose proof (code_bound c). unfold field_byte.
  destruct (Z.ltb_spec (code c) 128) as [Hc|Hc].
  - assert (decode_rune (String c v) = (code c, 1%nat)) as ->.
    { unfold decode_rune. by destruct (Z.ltb_spec (code c) 128); [|lia]. }
    cbn [str_drop]. by rewrite IH by lia.
  - assert (Hbig : forall r, 128 <= r -> field_rune r = false) by (intros r Hr; unfold field_rune; lia).
    rewrite (Hbig (code c)) by done. destruct (decode_rune (String c v)) as [r w] eqn:E.
    assert (128 <= r) as Hr; [|by rewrite Hbig].
    revert E. unfold decode_rune. destruct (Z.ltb_spec (code c) 128); [lia|].
    unfold is_cont, in_range, rune_error. clear IH Hf Hbig. intros E.
    repeat match type of E with
    | context [if ?b then _ else _] => destruct b eqn:?
    | context [match ?s with EmptyString => _ | String _ _ => _ end] => destruct s
    end; injection E as <- <-; b2p; lia.
Qed.

Lemma ValidField_bytes v :
  ValidField v = true <-> v <> ""%string /\ len v <= 128 /\ all_bytes field_byte v = true.
Proof.
  unfold ValidField. rewrite field_runes_bytes by done.
  rewrite !andb_true_iff, negb_true_iff, Z.leb_le. destruct (str_eq_spec v ""); naive_solver.
Qed.

(** C35. The bounds of the code: a query is accepted exactly when its range is
    ordered, set at both ends and at most 31 days, its limit is 0 (then completed
    to 100, whether it was left out or given) or in 1..1000, its text and native
    text are at most 4096 and 8192 bytes and its filters at most 32, and every
    filter names a field of at most 128 letters, digits, dots and underscores and
    a supported operator. *)
Theorem Validate_spec q q' :
  Validate q = Ok q' <->
  q' = (if q_Limit q =? 0 then set_limit 100 q else q)
  /\ t_ns (q_Start q) <> t_ns zero_time /\ t_ns (q_End q) <> t_ns zero_time
  /\ t_ns (q_Start q) < t_ns (q_End q) <= t_ns (q_Start q) + max_range
  /\ (q_Limit q = 0 \/ 1 <= q_Limit q <= 1000)
  /\ len (q_Text q) <= 4096 /\ len (q_Native q) <= 8192 /\ (length (q_Filters q) <= 32)%nat
  /\ Forall (fun f => fl_Field f <> ""%string /\ len (fl_Field f) <= 128
       /\ all_bytes field_byte (fl_Field f) = true /\ allowedOps (fl_Op f) = true) (q_Filters q).
Proof.
  unfold Validate, IsZero, Before, Sub, sat64.
  set (ql := if q_Limit q =? 0 then set_limit 100 q else q).
  assert (Hq : q_Text ql = q_Text q /\ q_Native ql = q_Native q /\ q_Filters ql = q_Filters q).
  { subst ql. by destruct (q_Limit q =? 0). }
  destruct Hq as (-> & -> & ->).
  assert (Hl : 1 <= q_Limit ql <= 1000 <-> q_Limit q = 0 \/ 1 <= q_Limit q <= 1000).
  { subst ql. destruct (Z.eqb_spec (q_Limit q) 0) as [->|]; simpl; lia. }
  rewrite <- Hl.
  assert (Hf : existsb (fun f => negb (ValidField (fl_Field f)) || negb (allowedOps (fl_Op f)))
      (q_Filters q) = false <->
    Forall (fun f => fl_Field f <> ""%string /\ len (fl_Field f) <= 128
       /\ all_bytes field_byte (fl_Field f) = true /\ allowedOps (fl_Op f) = true) (q_Filters q)).
  { induction (q_Filters q) as [|f l IH]; simpl; [split; auto|].
    rewrite orb_false_iff, Forall_cons, IH, orb_false_iff, !negb_false_iff, ValidField_bytes. tauto. }
  unfold max_range, second, min_int64, max_int64. change (2 ^ 63) with 9223372036854775808.
  repeat match goal with
  | |- context [if ?b || ?c || ?d then _ else _] => destruct (b || c || d) eqn:?
  | |- context [if ?b || ?c then _ else _] => destruct (b || c) eqn:?
  | |- context [if ?b then _ else _] => destruct b eqn:?
  end; rewrite <- ?Hf; b2p;
  split; try done; try (intros [= <-]; split_and!; (done || lia)); try (by intros (-> & _));
    intros (_ & ? & ? & ? & ? & ? & ? & ? & ?); exfalso; (lia || congruence || intuition congruence).
Qed.

Lemma Validate_limit q q' : Validate q = Ok q' -> 0 <= q_Limit q <= 1000 /\ 1 <= q_Limit q' <= 1000.
Proof.
  unfold Validate. intros H. repeat (case_match; [done|]). injection H as <-.
  destruct (Z.eqb_spec (q_Limit q) 0) as [E|E]; b2p; simpl in *; lia.
Qed.

(** ** The text as the query language reads it

    [pieces] splits a text into the bytes outside quotes and the values of its
    quoted strings, read with Go's quoting rules; [None] when a quoted string
    does not end. *)

Inductive piece := Raw (c : byte) | Quoted (v : string).
#[export] Instance piece_eq_dec : EqDecision piece.
Proof. solve_decision. Defined.

Fixpoint pieces_of (fuel : nat) (s : string) : option (list piece) :=
  match fuel, s with
  | _, EmptyString => Some []
  | S fuel, String c s' =>
      if c =c chr 34 then '(v, rest) ← Unquote s; l ← pieces_of fuel rest; Some (Quoted v :: l)
      else l ← pieces_of fuel s'; Some (Raw c :: l)
  | O, _ => None
  end.
Definition pieces (s : string) : option (list piece) := pieces_of (String.length s) s.

Fixpoint raw (s : string) : list piece :=
  match s with EmptyString => [] | String c s => Raw c :: raw s end.

Definition reads (s : string) (l : list piece) : Prop :=
  forall fuel, (String.length s <= fuel)%nat -> pieces_of fuel s = Some l.

Definition unquoted_byte (c : byte) : bool := negb (c =c chr 34).

Lemma reads_nil : reads "" [].
Proof. by intros [|?] _. Qed.

Lemma reads_raw a s l : all_bytes unquoted_byte a = true -> reads s l -> reads (a +:+ s) (raw a ++ l).
Proof.
  induction a as [|c a IH]; intros Ha Hs; [done|]. simpl in Ha. b2p.
  intros [|fuel] Hf; [simpl in Hf; lia|]. rewrite append_cons. cbn [pieces_of].
  unfold unquoted_byte in *. destruct (c =c chr 34); [done|].
  rewrite (IH ltac:(done) Hs); [done|simpl in Hf; lia].
Qed.

Lemma reads_quote is_print v s l :
  reads s l -> reads (quote is_print v +:+ s) (Quoted (remove_byte (chr 0) v) :: l).
Proof.
  intros Hs fuel Hf. unfold quote in *.
  set (w := remove_byte (chr 0) v) in *. pose proof (Unquote_Quote is_print w s) as Hu.
  destruct fuel as [|fuel]; [simpl in Hf; lia|].
  unfold Quote in *. rewrite append_cons in *. cbn [pieces_of]. rewrite ch_eq_refl, Hu. bind_simpl.
  rewrite Hs; [done|]. simpl in Hf. rewrite !length_append in Hf. simpl in Hf. lia.
Qed.

Lemma reads_unique s l l' : reads s l -> reads s l' -> l = l'.
Proof. intros H1 H2. specialize (H1 _ (le_n _)). rewrite (H2 _ (le_n _)) in H1. congruence. Qed.

Lemma reads_app s1 s2 l1 l2 :
  (forall s l, reads s l -> reads (s1 +:+ s) (l1 ++ l)) ->
  (forall s l, reads s l -> reads (s2 +:+ s) (l2 ++ l)) ->
  forall s l, reads s l -> reads ((s1 +:+ s2) +:+ s) ((l1 ++ l2) ++ l).
Proof. intros H1 H2 s l Hs. rewrite append_assoc, <- app_assoc. by apply H1, H2. Qed.

(** A text that reads the same whatever follows it. *)
Definition reads_as (s : string) (l : list piece) : Prop :=
  forall r m, reads r m -> reads (s +:+ r) (l ++ m).

Lemma reads_as_nil : reads_as "" [].
Proof. by intros r m H. Qed.
Lemma reads_as_app s1 s2 l1 l2 : reads_as s1 l1 -> reads_as s2 l2 -> reads_as (s1 +:+ s2) (l1 ++ l2).
Proof. intros H1 H2 r m H. by apply reads_app. Qed.
Lemma reads_as_raw a : all_bytes unquoted_byte a = true -> reads_as a (raw a).
Proof. intros Ha r m H. by apply reads_raw. Qed.
Lemma reads_as_quote is_print v : reads_as (quote is_print v) [Quoted (remove_byte (chr 0) v)].
Proof. intros r m H. by apply reads_quote. Qed.
Lemma reads_as_pieces s l : reads_as s l -> pieces s = Some l.
Proof.
  intros H. unfold pieces. specialize (H "" [] reads_nil). rewrite append_nil_r, app_nil_r in H.
  by apply H.
Qed.
Create HintDb reads.
#[export] Hint Resolve reads_as_nil reads_as_app reads_as_raw reads_as_quote : reads.

(** Formatted times and field names hold no quote. *)
Lemma time_unquoted t : all_bytes unquoted_byte (FormatRFC3339Nano (UTC t)) = true.
Proof.
  apply FormatRFC3339Nano_bytes; [|done]. intros c H. unfold unquoted_byte. by destruct (ch_eq_spec c (chr 34)) as [->|].
Qed.

Lemma field_unquoted v : all_bytes field_byte v = true -> all_bytes unquoted_byte v = true.
Proof.
  apply all_bytes_impl. intros c H. unfold unquoted_byte. by destruct (ch_eq_spec c (chr 34)) as [->|].
Qed.

(** ** What LogsQL promises *)
Section Reads.
Context (is_print : Z -> bool) (sprint_float : Z -> string).
Local Abbreviation clause_of := (filter_clause is_print sprint_float).

Definition value (v : string) : piece := Quoted (remove_byte (chr 0) v).

(** What stands between the field and the value of each operator. *)
Definition mark (op : string) : string :=
  if op =s "contains" then ":~" else if op =s "starts_with" then ":^"
  else if op =s "exists" then ":*" else if (op =s "eq") || (op =s "neq") then ":" else op.

Definition filter_pieces (f : Filter) : list piece :=
  raw ((if fl_Op f =s "neq" then " NOT " else " ") +:+ fl_Field f +:+ mark (fl_Op f))
  ++ (if fl_Op f =s "exists" then [] else [value (Sprint sprint_float (fl_Value f))]).

(** The pieces before and after the text of a query. *)
Definition range_pieces (q : Query) : list piece :=
  raw ("_time:[" +:+ FormatRFC3339Nano (UTC (q_Start q)) +:+ ", " +:+ FormatRFC3339Nano (UTC (q_End q))
       +:+ "] tenant_id:")
  ++ [value (q_TenantID q)].
Definition rest_pieces (q : Query) (cursor : option string) : list piece :=
  concat (map filter_pieces (q_Filters q))
  ++ (match cursor with Some t => raw " _time:<" ++ [value t] | None => [] end).
Definition query_pieces (q : Query) (cursor : option string) : list piece :=
  range_pieces q ++ (if q_Text q =s "" then [] else Raw " " :: [value (q_Text q)]) ++ rest_pieces q cursor.

Definition cursor_of (q : Query) : option (option string) :=
  if q_Cursor q =s "" then Some None else t ← RawURLDecode (q_Cursor q); Some (Some t).

Lemma allowed_cases op (P : string -> Prop) : allowedOps op = true ->
  P "eq"%string -> P "neq"%string -> P "contains"%string -> P "starts_with"%string ->
  P "exists"%string -> P "gt"%string -> P "gte"%string -> P "lt"%string -> P "lte"%string -> P op.
Proof.
  unfold allowedOps. intros H. apply existsb_exists in H as (x & Hin & Hx).
  destruct (str_eq_spec op x) as [->|]; [|done]. simpl in Hin. by intuition subst.
Qed.

(** A clause split where its value starts. *)
Lemma filter_clause_mark f :
  allowedOps (fl_Op f) = true ->
  clause_of f = ((if fl_Op f =s "neq" then " NOT " else " ") +:+ fl_Field f +:+ mark (fl_Op f))
    +:+ (if fl_Op f =s "exists" then "" else quote is_print (Sprint sprint_float (fl_Value f))).
Proof.
  destruct f as [field op v]; cbn [fl_Op fl_Field fl_Value]. intros H.
  unfold filter_clause; cbn [fl_Op fl_Field fl_Value].
  pattern op. apply (allowed_cases op _ H); cbn -[quote]; rewrite ?append_assoc; cbn -[quote];
    by rewrite ?append_nil_r.
Qed.

Lemma filter_reads f :
  allowedOps (fl_Op f) = true -> all_bytes field_byte (fl_Field f) = true ->
  reads_as (clause_of f) (filter_pieces f).
Proof.
  intros Ho Hf. rewrite filter_clause_mark by done. unfold filter_pieces, value.
  apply reads_as_app; [|destruct (fl_Op f =s "exists"); auto with reads].
  apply reads_as_raw. rewrite !all_bytes_append, (field_unquoted (fl_Field f)) by done.
  pattern (fl_Op f). by apply (allowed_cases _ _ Ho).
Qed.

(** The clauses of the filters, and that of the cursor. *)
Definition clauses (fs : list Filter) : string := foldr (fun f s => clause_of f +:+ s) "" fs.
Definition cursor_clause (cursor : option string) : string :=
  match cursor with Some t => " _time:<" +:+ quote is_print t | None => "" end.

Lemma clauses_foldl s fs : foldl (fun b f => b +:+ clause_of f) s fs = s +:+ clauses fs.
Proof.
  revert s. induction fs as [|f fs IH]; intros s; [by rewrite append_nil_r|].
  cbn [foldl clauses foldr]. by rewrite IH, append_assoc.
Qed.

Lemma clauses_read fs :
  Forall (fun f => all_bytes field_byte (fl_Field f) = true /\ allowedOps (fl_Op f) = true) fs ->
  reads_as (clauses fs) (concat (map filter_pieces fs)).
Proof.
  induction 1 as [|f fs [Hb Ho] _ IH]; [auto with reads|]. cbn [clauses foldr map concat].
  apply reads_as_app; auto using filter_reads.
Qed.
Lemma rest_reads q cursor :
  Forall (fun f => all_bytes field_byte (fl_Field f) = true /\ allowedOps (fl_Op f) = true) (q_Filters q) ->
  reads_as (clauses (q_Filters q) +:+ cursor_clause cursor) (rest_pieces q cursor).
Proof.
  intros Hf. apply reads_as_app; [by apply clauses_read|]. destruct cursor as [t|]; [|auto with reads].
  apply reads_as_app; [by apply reads_as_raw|apply reads_as_quote].
Qed.

Lemma Validate_clauses q q' : Validate q = Ok q' ->
  q_Start q' = q_Start q /\ q_End q' = q_End q /\ q_TenantID q' = q_TenantID q /\ q_Text q' = q_Text q
  /\ q_Native q' = q_Native q /\ q_Filters q' = q_Filters q /\ q_Cursor q' = q_Cursor q
  /\ Forall (fun f => all_bytes field_byte (fl_Field f) = true /\ allowedOps (fl_Op f) = true) (q_Filters q).
Proof.
  unfold Validate. set (ql := if q_Limit q =? 0 then set_limit 100 q else q). intros H.
  assert (Hs : q_Filters ql = q_Filters q) by (unfold ql; by split_if).
  assert (Hq : ql = q' /\
    existsb (fun f => negb (ValidField (fl_Field f)) || negb (allowedOps (fl_Op f))) (q_Filters q) = false).
  { rewrite <- Hs. clearbody ql. clear Hs.
    repeat match type of H with context [if ?b then _ else _] => destruct b; [done|] end.
    by injection H as ->. }
  destruct Hq as [<- Hf].
  assert (Forall (fun f => all_bytes field_byte (fl_Field f) = true /\ allowedOps (fl_Op f) = true) (q_Filters q)).
  { clear -Hf. induction (q_Filters q) as [|f l IH]; [done|]. cbn [existsb] in Hf.
    apply orb_false_iff in Hf as [Hv Hf]. apply orb_false_iff in Hv as [Hv Ho].
    apply negb_false_iff in Hv, Ho. apply ValidField_bytes in Hv as (_ & _ & Hv).
    constructor; auto. }
  unfold ql. by destruct (q_Limit q =? 0).
Qed.

Lemma base_reads q : reads_as (base_clause is_print q) (range_pieces q).
Proof.
  unfold base_clause. set (a := FormatRFC3339Nano _). set (b := FormatRFC3339Nano (UTC (q_End q))).
  replace ("_time:[" +:+ a +:+ ", " +:+ b +:+ "] tenant_id:" +:+ quote is_print (q_TenantID q))
    with (("_time:[" +:+ a +:+ ", " +:+ b +:+ "] tenant_id:") +:+ quote is_print (q_TenantID q))
    by (by rewrite !append_assoc).
  apply reads_as_app; [|apply reads_as_quote]. apply reads_as_raw.
  unfold a, b. by rewrite !all_bytes_append, !time_unquoted.
Qed.

Lemma text_reads q : q_Native q = ""%string ->
  reads_as (text_clause is_print q) (if q_Text q =s "" then [] else Raw " " :: [value (q_Text q)]).
Proof.
  intros Hn. unfold text_clause. rewrite Hn. change ("" =s "")%string with true. cbn [negb].
  destruct (q_Text q =s ""); cbn [negb]; [auto with reads|].
  by apply (reads_as_app " " _ [Raw " "]); [apply (reads_as_raw " ")|apply reads_as_quote].
Qed.

(** The text of a valid query. *)
Lemma LogsQL_text q q' :
  Validate q = Ok q' ->
  Forall (fun f => all_bytes field_byte (fl_Field f) = true /\ allowedOps (fl_Op f) = true) (q_Filters q)
  /\ LogsQL is_print sprint_float q
     = match cursor_of q with
       | Some c => Ok (base_clause is_print q +:+ text_clause is_print q +:+ clauses (q_Filters q) +:+ cursor_clause c)
       | None => Err ECursor
       end.
Proof.
  intros Hv. destruct (Validate_clauses q q' Hv) as (Es & Ee & Et & Ex & En & Ef & Ec & Hf). split; [done|].
  unfold LogsQL, cursor_of. rewrite Hv. bind_simpl. rewrite Ef, Ec, clauses_foldl.
  replace (base_clause is_print q') with (base_clause is_print q) by (unfold base_clause; congruence).
  replace (text_clause is_print q') with (text_clause is_print q) by (unfold text_clause; by rewrite En, Ex).
  destruct (str_eq_spec (q_Cursor q) "") as [Hc|Hc]; [by rewrite append_assoc, append_nil_r|].
  destruct (RawURLDecode (q_Cursor q)) as [t|]; bind_simpl; [|done]. by rewrite !append_assoc.
Qed.

(** C10. No value can change the shape of a query: read with the quoting rules of
    the language, the text of a valid query without native text is the fixed
    skeleton of its time range, closed at both ends, its tenant, text, filters and
    cursor, with each value one quoted string that reads back as the value without
    its NUL bytes. Native text, which is no value, stands as it is in the place of
    the text; what precedes and what follows it is the same skeleton. Only a cursor
    that is not base64 makes a valid query fail. *)
Theorem LogsQL_pieces q q' :
  Validate q = Ok q' ->
  match cursor_of q with
  | Some c =>
      exists s, LogsQL is_print sprint_float q = Ok s
        /\ (q_Native q = ""%string -> pieces s = Some (query_pieces q c))
        /\ (q_Native q <> ""%string -> exists before after, s = before +:+ " " +:+ q_Native q +:+ after
              /\ pieces before = Some (range_pieces q) /\ pieces after = Some (rest_pieces q c))
  | None => LogsQL is_print sprint_float q = Err ECursor
  end.
Proof.
  intros Hv. destruct (LogsQL_text q q' Hv) as [Hf ->]. destruct (cursor_of q) as [c|]; [|done].
  pose proof (base_reads q) as Hb. pose proof (rest_reads q c Hf) as Hr.
  eexists. split; [done|]. split; intros Hn.
  - apply reads_as_pieces. unfold query_pieces. apply reads_as_app; [done|]. by apply reads_as_app; [apply text_reads|].
  - exists (base_clause is_print q), (clauses (q_Filters q) +:+ cursor_clause c). split_and!; [|by apply reads_as_pieces, Hb|by apply reads_as_pieces, Hr].
    unfold text_clause. destruct (str_eq_spec (q_Native q) ""); [done|]. cbn [negb]. by rewrite append_assoc.
Qed.

(** The range of every query is closed: it asks for the logs of its end too. *)
Theorem interval_is_closed q s :
  LogsQL is_print sprint_float q = Ok s ->
  exists rest, s = "_time:[" +:+ FormatRFC3339Nano (UTC (q_Start q)) +:+ ", "
    +:+ FormatRFC3339Nano (UTC (q_End q)) +:+ "] tenant_id:" +:+ rest.
Proof.
  intros H. destruct (Validate q) as [q'|e|] eqn:Hv; [|unfold LogsQL in H; by rewrite Hv in H..].
  destruct (LogsQL_text q q' Hv) as [_ E]. rewrite E in H. destruct (cursor_of q) as [c|]; [|done].
  assert (s = base_clause is_print q +:+ text_clause is_print q +:+ clauses (q_Filters q) +:+ cursor_clause c)
    as -> by congruence. clear H E. exists (quote is_print (q_TenantID q) +:+ text_clause is_print q +:+ clauses (q_Filters q) +:+ cursor_clause c).
  unfold base_clause. by rewrite !append_assoc.
Qed.

Lemma LogsQL_continues q s t :
  LogsQL is_print sprint_float (set_cursor "" q) = Ok s -> t <> ""%string ->
  LogsQL is_print sprint_float (set_cursor (Cursor t) q) = Ok (s +:+ " _time:<" +:+ quote is_print t).
Proof.
  intros H Ht. assert (Hne : Cursor t <> ""%string).
  { intros E. pose proof (RawURLDecode_Encode t) as D. unfold Cursor in E. rewrite E in D.
    vm_compute in D. congruence. }
  unfold LogsQL in *.
  destruct (Validate (set_cursor "" q)) as [q1| |] eqn:V1; try done.
  assert (V2 : Validate (set_cursor (Cursor t) q) = Ok (set_cursor (Cursor t) q1)).
  { revert V1. unfold Validate. cbn [set_cursor q_Start q_End q_Limit q_Text q_Native q_Filters].
    destruct (q_Limit q =? 0); cbn [set_cursor set_limit q_Start q_End q_Limit q_Text q_Native q_Filters q_TenantID q_Cursor];
      repeat match goal with |- context [if ?b then _ else _] => destruct b; [done|] end;
      by intros [= <-]. }
  rewrite V2. bind_simpl. cbn [mbind outcome_bind] in H.
  destruct (Validate_clauses _ _ V1) as (_ & _ & _ & _ & _ & _ & Ec & _). cbn in Ec.
  rewrite Ec in H. change ("" =s "")%string with true in H. cbv iota zeta in H.
  cbn [set_cursor q_Filters q_Cursor]. destruct (str_eq_spec (Cursor t) ""); [done|].
  unfold Cursor. rewrite RawURLDecode_Encode. by injection H as <-.
Qed.

(** The cursor built from a stored time continues the same query: it adds
    exactly one bound on the time, the stored time as one quoted value. *)
Theorem Cursor_continues q s t :
  LogsQL is_print sprint_float (set_cursor "" q) = Ok s -> t <> ""%string ->
  LogsQL is_print sprint_float (set_cursor (Cursor t) q) = Ok (s +:+ " _time:<" +:+ quote is_print t).
Proof. apply LogsQL_continues. Qed.

(** The ordering filters carry no comparison: the clause of [gt], [gte],
    [lt] and [lte] is one word, the field name run together with the operator's
    name, followed by the quoted value. *)
Theorem ordering_filter_is_a_word f :
  fl_Op f ∈ ["gt"; "gte"; "lt"; "lte"]%string -> ValidField (fl_Field f) = true ->
  exists word, all_bytes field_byte word = true
    /\ filter_clause is_print sprint_float f
       = " " +:+ word +:+ quote is_print (Sprint sprint_float (fl_Value f)).
Proof.
  intros Ho Hf. apply ValidField_bytes in Hf as (_ & _ & Hf). exists (fl_Field f +:+ fl_Op f).
  rewrite all_bytes_append, Hf. destruct f as [field op v]; cbn [fl_Op fl_Field fl_Value] in *.
  rewrite !list_elem_of_In in Ho. unfold filter_clause. cbn [fl_Op fl_Field fl_Value].
  simpl in Ho. by intuition subst; cbn -[quote]; rewrite ?append_assoc.
Qed.
End Reads.

(** ** Witnesses *)

Definition sample_query : Query :=
  mkQuery "t1" (mkTime (1700000000 * second) 0) (mkTime (1700003600 * second) 0)
    (of_codes [34; 32; 79; 82; 32; 42]) "" [mkFilter "host.name" "neq" (AStr "a"); mkFilter "severity" "gt" (ANumber "4")]
    0 "".

Lemma LogsQL_pieces_witness :
  exists s, LogsQL (fun _ => false) (fun _ => "") (set_cursor (Cursor "2024-01-01T00:00:00Z") sample_query) = Ok s
  /\ pieces s = Some (query_pieces (fun _ => "") (set_cursor (Cursor "2024-01-01T00:00:00Z") sample_query)
       (Some "2024-01-01T00:00:00Z"%string)).
Proof.
  destruct (LogsQL_pieces (fun _ => false) (fun _ => ""%string)
    (set_cursor (Cursor "2024-01-01T00:00:00Z") sample_query)
    (set_limit 100 (set_cursor (Cursor "2024-01-01T00:00:00Z") sample_query))
    ltac:(vm_compute; reflexivity)) as (s & Hs & Hp & _).
  exists s. split; [exact Hs|exact (Hp eq_refl)].
Defined.

(** ** Against the published interface *)

Definition with_text (text : string) (limit : Z) (q : Query) : Query :=
  mkQuery (q_TenantID q) (q_Start q) (q_End q) text (q_Native q) (q_Filters q) limit (q_Cursor q).
(** The characters of a text: its runes. *)
Fixpoint rune_count (fuel : nat) (v : string) : nat :=
  match fuel, v with
  | S fuel, String _ _ => S (rune_count fuel (str_drop (decode_rune v).2 v))
  | _, _ => O
  end.
(** [n] times the two bytes of one accented letter. *)
Definition letters (n : nat) : string := Nat.iter n (fun s => of_codes [195; 169] +:+ s) "".

(** A limit of 0 given explicitly is accepted, as 100; and a text of 2049
    characters is refused when each takes two bytes. *)
Theorem limits_in_bytes :
  Validate (with_text "" 0 sample_query) = Ok (with_text "" 100 sample_query)
  /\ rune_count 4098 (letters 2049) = 2049%nat /\ Validate (with_text (letters 2049) 1 sample_query) = Err ESize.
Proof. split_and!; vm_compute; reflexivity. Qed.

Lemma Cursor_continues_witness :
  exists s, LogsQL (fun _ => false) (fun _ => "") (set_cursor (Cursor "2024-01-01T00:00:00Z") sample_query)
    = Ok (s +:+ " _time:<" +:+ quote (fun _ => false) "2024-01-01T00:00:00Z").
Proof.
  eexists. apply (Cursor_continues (fun _ => false) (fun _ => ""%string) sample_query).
  - vm_compute. reflexivity.
  - discriminate.
Defined.

Lemma ordering_filter_is_a_word_witness :
  exists word, all_bytes field_byte word = true
    /\ filter_clause (fun _ => false) (fun _ => "") (mkFilter "severity" "gte" (ANumber "4"))
       = " " +:+ word +:+ quote (fun _ => false) (Sprint (fun _ => "") (ANumber "4")).
Proof.
  apply (ordering_filter_is_a_word (fun _ => false) (fun _ => ""%string) (mkFilter "severity" "gte" (ANumber "4"))).
  - vm_compute. right. left.
  - reflexivity.
Defined.
