(* ===== verification/GoJson.v ===== *)
(** * Go's [encoding/json], for dynamic values

    The scanner of one JSON value, its conversion to the dynamic values of
    [Domain] (with or without [UseNumber]), and the encoder of those values.
    [parse_float] is the correctly rounded conversion of a literal to a
    [float64] ([None] out of range), [json_float] prints one; neither is used
    with [UseNumber]. *)
From S2P Require Import Prelude GoStrings GoUtf8 GoTime Domain GoStrconv.

(** A scanned value. A string keeps its literal, between the quotes, because
    [time.Time] reads the literal itself. *)
Inductive json :=
  | JNull
  | JBool (b : bool)
  | JNum (lit : string)
  | JStr (raw : string)
  | JArr (l : list json)
  | JObj (m : list (string * json)).

(** ** String literals *)

Definition quote_byte : byte := chr 34.
Definition backslash_byte : byte := chr 92.
Definition is_hex (c : byte) : bool := match hex_value c with Some _ => true | None => false end.
Definition json_escape (e : byte) : option byte :=
  if e =c quote_byte then Some quote_byte
  else if e =c backslash_byte then Some backslash_byte
  else if e =c "/" then Some "/"%char
  else if e =c "b" then Some (chr 8)
  else if e =c "f" then Some (chr 12)
  else if e =c "n" then Some (chr 10)
  else if e =c "r" then Some (chr 13)
  else if e =c "t" then Some (chr 9)
  else None.

(** The literal up to its closing quote, and what follows. *)
Fixpoint scan_string (s : string) : option (string * string) :=
  match s with
  | EmptyString => None
  | String c s =>
      if c =c quote_byte then Some (EmptyString, s)
      else if c =c backslash_byte then
        match s with
        | String e s1 =>
            if e =c "u" then
              match s1 with
              | String a (String b (String d (String f s2))) =>
                  if is_hex a && is_hex b && is_hex d && is_hex f then
                    '(raw, rest) ← scan_string s2;
                    Some (String c (String e (String a (String b (String d (String f raw))))), rest)
                  else None
              | _ => None
              end
            else if match json_escape e with Some _ => true | None => false end then
              '(raw, rest) ← scan_string s1; Some (String c (String e raw), rest)
            else None
        | EmptyString => None
        end
      else if code c <? 32 then None
      else '(raw, rest) ← scan_string s; Some (String c raw, rest)
  end.

(** [getu4]: the rune of a leading [\uXXXX]. *)
Definition getu4 (s : string) : option Z :=
  match s with
  | String c (String e (String a (String b (String d (String f _))))) =>
      if (c =c backslash_byte) && (e =c "u") then
        '(n, _) ← read_hex 4 0 (String a (String b (String d (String f EmptyString)))); Some n
      else None
  | _ => None
  end.
Definition is_surrogate (r : Z) : bool := (55296 <=? r) && (r <? 57344).
(** [utf16.DecodeRune] *)
Definition decode_pair (r1 r2 : Z) : option Z :=
  if (55296 <=? r1) && (r1 <? 56320) && (56320 <=? r2) && (r2 <? 57344)
  then Some ((r1 - 55296) * 1024 + (r2 - 56320) + 65536) else None.

(** The string a literal denotes; each step consumes a byte. *)
Fixpoint unquote_json (fuel : nat) (s : string) : string :=
  match fuel, s with
  | S fuel, String c s1 =>
      if c =c backslash_byte then
        match getu4 s with
        | Some r =>
            let s2 := str_drop 6 s in
            if is_surrogate r then
              match r2 ← getu4 s2; decode_pair r r2 with
              | Some d => encode_rune d +:+ unquote_json fuel (str_drop 6 s2)
              | None => encode_rune rune_error +:+ unquote_json fuel s2
              end
            else encode_rune r +:+ unquote_json fuel s2
        | None =>
            match s1 with
            | String e s2 => String (default e (json_escape e)) (unquote_json fuel s2)
            | EmptyString => EmptyString
            end
        end
      else
        let (r, w) := decode_rune s in
        encode_rune r +:+ unquote_json fuel (str_drop w s)
  | _, _ => EmptyString
  end.
Definition string_of_literal (raw : string) : string := unquote_json (String.length raw) raw.

(** ** Numbers *)

Definition scan_digits (s : string) : option (string * string) :=
  let (d, r) := span is_digit s in if d =s "" then None else Some (d, r).
Definition scan_int (s : string) : option (string * string) :=
  match s with
  | String c r => if c =c "0" then Some (String c "", r) else scan_digits s
  | EmptyString => None
  end.
Definition scan_frac (s : string) : option (string * string) :=
  match s with
  | String c r => if c =c "." then '(d, r) ← scan_digits r; Some (String c d, r) else Some (EmptyString, s)
  | EmptyString => Some (EmptyString, s)
  end.
Definition is_sign (c : byte) : bool := (c =c "+") || (c =c "-").
Definition scan_exp (s : string) : option (string * string) :=
  match s with
  | String c r =>
      if (c =c "e") || (c =c "E") then
        let (sg, r) := match r with
                       | String x r' => if is_sign x then (String x "", r') else (EmptyString, r)
                       | EmptyString => (EmptyString, r)
                       end in
        '(d, r) ← scan_digits r; Some (String c (sg +:+ d), r)
      else Some (EmptyString, s)
  | EmptyString => Some (EmptyString, s)
  end.
Definition scan_number (s : string) : option (string * string) :=
  let (m, s) := match s with
                | String c r => if c =c "-" then (String c "", r) else (EmptyString, s)
                | EmptyString => (EmptyString, s)
                end in
  '(i, s) ← scan_int s;
  '(f, s) ← scan_frac s;
  '(e, s) ← scan_exp s;
  Some (m +:+ i +:+ f +:+ e, s).

(** ** Values *)

Definition is_ws (c : byte) : bool := (c =c " ") || (c =c chr 9) || (c =c chr 13) || (c =c chr 10).
Definition skip_ws (s : string) : string := trim_left is_ws s.
Definition max_depth : Z := 10000.

(** One value, the elements of an array after its bracket or a comma, and the
    members of an object. Opening brackets nest at most [max_depth] deep. A
    value of [n] bytes needs at most [2 n + 1] steps. *)
Fixpoint scan_value (fuel : nat) (depth : Z) (s : string) : option (json * string) :=
  match fuel with
  | O => None
  | S fuel =>
      match skip_ws s with
      | EmptyString => None
      | String c r =>
          if c =c "{" then
            if max_depth <? depth + 1 then None else
            match skip_ws r with
            | String c' r' =>
                if c' =c "}" then Some (JObj [], r')
                else '(m, rest) ← scan_members fuel (depth + 1) r; Some (JObj m, rest)
            | EmptyString => None
            end
          else if c =c "[" then
            if max_depth <? depth + 1 then None else
            match skip_ws r with
            | String c' r' =>
                if c' =c "]" then Some (JArr [], r')
                else '(l, rest) ← scan_elems fuel (depth + 1) r; Some (JArr l, rest)
            | EmptyString => None
            end
          else if c =c quote_byte then '(raw, rest) ← scan_string r; Some (JStr raw, rest)
          else if c =c "t" then rest ← strip_prefix "rue" r; Some (JBool true, rest)
          else if c =c "f" then rest ← strip_prefix "alse" r; Some (JBool false, rest)
          else if c =c "n" then rest ← strip_prefix "ull" r; Some (JNull, rest)
          else '(lit, rest) ← scan_number (String c r); Some (JNum lit, rest)
      end
  end
with scan_elems (fuel : nat) (depth : Z) (s : string) : option (list json * string) :=
  match fuel with
  | O => None
  | S fuel =>
      '(v, rest) ← scan_value fuel depth s;
      match skip_ws rest with
      | String c r =>
          if c =c "," then '(l, rest) ← scan_elems fuel depth r; Some (v :: l, rest)
          else if c =c "]" then Some ([v], r)
          else None
      | EmptyString => None
      end
  end
with scan_members (fuel : nat) (depth : Z) (s : string) : option (list (string * json) * string) :=
  match fuel with
  | O => None
  | S fuel =>
      match skip_ws s with
      | String c r =>
          if c =c quote_byte then
            '(raw, rest) ← scan_string r;
            match skip_ws rest with
            | String c r =>
                if c =c ":" then
                  '(v, rest) ← scan_value fuel depth r;
                  match skip_ws rest with
                  | String c r =>
                      if c =c "," then
                        '(m, rest) ← scan_members fuel depth r;
                        Some ((string_of_literal raw, v) :: m, rest)
                      else if c =c "}" then Some ([(string_of_literal raw, v)], r)
                      else None
                  | EmptyString => None
                  end
                else None
            | EmptyString => None
            end
          else None
      | EmptyString => None
      end
  end.
Definition scan (s : string) : option (json * string) := scan_value (2 * String.length s + 1) 0 s.

(** ** Dynamic values

    A Go map is the list of its entries with strictly increasing keys. *)

Fixpoint set_entry {A} (k : string) (v : A) (l : list (string * A)) : list (string * A) :=
  match l with
  | [] => [(k, v)]
  | e :: l' =>
      match String.compare k e.1 with
      | Lt => (k, v) :: l
      | Eq => (k, v) :: l'
      | Gt => e :: set_entry k v l'
      end
  end.

Section Convert.
Context (number : string -> option any).

(** The value decoded into an [any]; a repeated key keeps its last value. *)
Fixpoint to_any (j : json) : option any :=
  match j with
  | JNull => Some ANil
  | JBool b => Some (ABool b)
  | JNum lit => number lit
  | JStr raw => Some (AStr (string_of_literal raw))
  | JArr l =>
      l ← (fix elems (l : list json) : option (list any) :=
             match l with [] => Some [] | x :: l => v ← to_any x; r ← elems l; Some (v :: r) end) l;
      Some (AList l)
  | JObj m =>
      m ← (fix members (m : list (string * json)) (acc : list (string * any)) :=
             match m with
             | [] => Some acc
             | e :: m => v ← to_any e.2; members m (set_entry e.1 v acc)
             end) m [];
      Some (AMap m)
  end.

Fixpoint members_of (m : list (string * json)) (acc : gmap string any) : option (gmap string any) :=
  match m with [] => Some acc | e :: m => v ← to_any e.2; members_of m (<[e.1 := v]> acc) end.
(** The value decoded into a fresh [map[string]any]; [null] leaves it nil. *)
Definition to_map (j : json) : option (gmap string any) :=
  match j with JObj m => members_of m ∅ | JNull => Some ∅ | _ => None end.
End Convert.

(** A number with [UseNumber], and as a [float64]. *)
Definition use_number (lit : string) : option any := Some (ANumber lit).
Definition as_float (parse_float : string -> option Z) (lit : string) : option any :=
  bits ← parse_float lit; Some (AFloat bits).

(** [json.Unmarshal] into a map: the whole text is one value. *)
Definition Unmarshal_map (number : string -> option any) (s : string) : option (gmap string any) :=
  '(j, rest) ← scan s;
  if skip_ws rest =s "" then to_map number j else None.

(** One [Decode] of a stream that ends, after these bytes, with [io.EOF] or
    (when [cut]) with another error. A number, literal or string at top level
    is known to be complete only when a further byte, or the end, is read. *)
Inductive decoded := DEof | DError | DValue (j : json) (rest : string).
Definition Decode (cut : bool) (s : string) : decoded :=
  if skip_ws s =s "" then (if cut then DError else DEof)
  else match scan s with
  | None => DError
  | Some (j, rest) =>
      match j with
      | JObj _ | JArr _ => DValue j rest
      | _ => if cut && (rest =s "") then DError else DValue j rest
      end
  end.

(** ** Encoding *)

Definition escape_byte (c : byte) : string :=
  if (c =c quote_byte) || (c =c backslash_byte) then String backslash_byte (String c "")
  else if c =c chr 8 then of_codes [92; 98]
  else if c =c chr 12 then of_codes [92; 102]
  else if c =c chr 10 then of_codes [92; 110]
  else if c =c chr 13 then of_codes [92; 114]
  else if c =c chr 9 then of_codes [92; 116]
  else if (code c <? 32) || (c =c "<") || (c =c ">") || (c =c "&")
  then of_codes [92; 117; 48; 48] +:+ hex_digits 2 (code c) ""
  else String c "".

(** The body of an encoded string, with HTML escaping. *)
Fixpoint json_body (fuel : nat) (s : string) : string :=
  match fuel, s with
  | S fuel, String c s1 =>
      if code c <? 128 then escape_byte c +:+ json_body fuel s1
      else
        let (r, w) := decode_rune s in
        if (w =? 1)%nat then of_codes [92; 117; 102; 102; 102; 100] +:+ json_body fuel s1
        else if (r =? 8232) || (r =? 8233)
        then of_codes [92; 117; 50; 48; 50] +:+ String (lower_hex (r mod 16)) (json_body fuel (str_drop w s))
        else str_take w s +:+ json_body fuel (str_drop w s)
  | _, _ => EmptyString
  end.
Definition json_string (s : string) : string :=
  String quote_byte (json_body (String.length s) s +:+ String quote_byte "").

(** An array and an object of encoded values; a struct is encoded as the object
    of its fields, in order. *)
Definition print_array (ss : list string) : string := "[" +:+ join "," ss +:+ "]".
Definition print_entry (e : string * string) : string := json_string e.1 +:+ ":" +:+ e.2.
Definition print_object (es : list (string * string)) : string := "{" +:+ join "," (map print_entry es) +:+ "}".

Definition valid_number (lit : string) : bool :=
  match scan_number lit with Some (_, rest) => rest =s "" | None => false end.

Section Encode.
Context (json_float : Z -> option string).

(** [json.Marshal] of a value; maps are written in key order. *)
Fixpoint Marshal (v : any) : option string :=
  match v with
  | ANil => Some "null"%string
  | ABool b => Some (if b then "true" else "false")%string
  | AStr s => Some (json_string s)
  | ANumber lit =>
      if lit =s "" then Some "0"%string else if valid_number lit then Some lit else None
  | AFloat bits => json_float bits
  | AList l =>
      l ← (fix elems (l : list any) : option (list string) :=
             match l with [] => Some [] | x :: l => s ← Marshal x; r ← elems l; Some (s :: r) end) l;
      Some ("[" +:+ join "," l +:+ "]")
  | AMap m =>
      m ← (fix members (m : list (string * any)) : option (list (string * string)) :=
             match m with
             | [] => Some []
             | e :: m => s ← Marshal e.2; r ← members m; Some (set_entry e.1 s r)
             end) m;
      Some ("{" +:+ join "," (map (fun e => json_string e.1 +:+ ":" +:+ e.2) m) +:+ "}")
  end.

(** A [map[string]any] as its entries in key order. *)
Definition entries (m : gmap string any) : list (string * any) :=
  foldr (fun e l => set_entry e.1 e.2 l) [] (map_to_list m).
Definition Marshal_map (m : gmap string any) : option string := Marshal (AMap (entries m)).
End Encode.
