(* ===== verification/GoJsonProps.v ===== *)
(** * Encoding and decoding JSON are inverse

    For the values of [GoJson] whose strings are UTF-8 and whose numbers are
    literals: an encoded value is scanned as one value, whatever follows it, and
    decodes to itself ([all_back], [row_reads_back]). *)
From Stdlib Require Import Sorted.
From S2P Require Import Prelude GoStrings GoUtf8 GoTime Domain GoStrconv GoJson.

(** ** Lemmas: literals *)

Lemma unquote_json_fuel f1 f2 s :
  (String.length s <= f1)%nat -> (String.length s <= f2)%nat -> unquote_json f1 s = unquote_json f2 s.
Proof.
  revert f2 s. induction f1 as [|f1 IH]; intros f2 s H1 H2; [by destruct s, f2; simpl in *; try lia|].
  destruct s as [|c s]; [by destruct f2|]. destruct f2 as [|f2]; [simpl in H2; lia|]. simpl in H1, H2.
  assert (Hd : forall n, unquote_json f1 (str_drop (S n) (String c s)) = unquote_json f2 (str_drop (S n) (String c s))).
  { intros n. apply IH; rewrite length_str_drop; simpl; lia. }
  assert (Hdd : forall n m, unquote_json f1 (str_drop m (str_drop (S n) (String c s)))
      = unquote_json f2 (str_drop m (str_drop (S n) (String c s)))).
  { intros n m. apply IH; rewrite !length_str_drop; simpl; lia. }
  cbn [unquote_json]. destruct (c =c backslash_byte).
  - destruct (getu4 (String c s)) as [r|].
    + destruct (is_surrogate r); [|by rewrite Hd].
      destruct (mbind _ _); by rewrite ?Hdd, ?Hd.
    + destruct s as [|e s]; [done|]. f_equal. specialize (Hd 1%nat). exact Hd.
  - pose proof (decode_width (String c s) ltac:(done)) as Hw.
    destruct (decode_rune (String c s)) as [r [|w]]; cbn [snd] in Hw; [lia|]. by rewrite Hd.
Qed.

(** One step, the fuel made that of the rest. *)
Lemma unquote_json_step c s :
  string_of_literal (String c s) =
  if c =c backslash_byte then
    match getu4 (String c s) with
    | Some r =>
        let s2 := str_drop 5 s in
        if is_surrogate r then
          match r2 ← getu4 s2; decode_pair r r2 with
          | Some d => encode_rune d +:+ string_of_literal (str_drop 6 s2)
          | None => encode_rune rune_error +:+ string_of_literal s2
          end
        else encode_rune r +:+ string_of_literal s2
    | None =>
        match s with
        | String e s2 => String (default e (json_escape e)) (string_of_literal s2)
        | EmptyString => EmptyString
        end
    end
  else
    let (r, w) := decode_rune (String c s) in
    encode_rune r +:+ string_of_literal (str_drop w (String c s)).
Proof.
  assert (Hf : forall n t, (String.length t <= n)%nat -> unquote_json n t = string_of_literal t).
  { intros n t Hn. by apply unquote_json_fuel. }
  unfold string_of_literal at 1. cbn [String.length unquote_json].
  destruct (c =c backslash_byte).
  - change (str_drop 6 (String c s)) with (str_drop 5 s).
    destruct (getu4 (String c s)) as [r|]; cbv zeta.
    + by rewrite !Hf by (rewrite ?length_str_drop; lia).
    + destruct s; [done|]. by rewrite Hf by (simpl; lia).
  - pose proof (decode_width (String c s) ltac:(done)) as Hw.
    destruct (decode_rune (String c s)) as [r [|w]]; cbn [snd] in Hw; [lia|].
    cbn [str_drop]. by rewrite Hf by (rewrite length_str_drop; lia).
Qed.

Lemma getu4_plain c e t : (e =c "u") = false -> getu4 (String c (String e t)) = None.
Proof.
  intros He. unfold getu4. destruct t as [|? [|? [|? [|? ?]]]]; [done..|]. by rewrite He, andb_false_r.
Qed.

Lemma read_hex_is_hex k a n s r : read_hex (S k) a s = Some (n, r) ->
  exists c s', s = String c s' /\ is_hex c = true /\ exists a', read_hex k a' s' = Some (n, r).
Proof.
  destruct s as [|c s]; [done|]. cbn [read_hex]. destruct (hex_value c) as [v|] eqn:E; [|done].
  intros H. exists c, s. split; [done|]. unfold is_hex. rewrite E. eauto.
Qed.

(** A piece of a literal that reads as [v]. *)
Definition lit_piece (b v : string) : Prop :=
  (forall t raw rest, scan_string t = Some (raw, rest) -> scan_string (b +:+ t) = Some (b +:+ raw, rest))
  /\ forall t, string_of_literal (b +:+ t) = v +:+ string_of_literal t.

Lemma lit_piece_nil : lit_piece "" "".
Proof. done. Qed.

Lemma lit_piece_app a b u v : lit_piece a u -> lit_piece b v -> lit_piece (a +:+ b) (u +:+ v).
Proof.
  intros [Ha1 Ha2] [Hb1 Hb2]. split.
  - intros t raw rest H. rewrite !append_assoc. by apply Ha1, Hb1.
  - intros t. by rewrite !append_assoc, Ha2, Hb2.
Qed.

Lemma lit_piece_plain c :
  (c =c quote_byte) = false -> (c =c backslash_byte) = false -> 32 <= code c < 128 ->
  lit_piece (String c "") (String c "").
Proof.
  intros Hq Hb Hc. split.
  - intros t raw rest H. rewrite !append_cons. change ("" +:+ ?x) with x. cbn [scan_string].
    rewrite Hq, Hb. destruct (Z.ltb_spec (code c) 32); [lia|]. by rewrite H.
  - intros t. rewrite !append_cons. change ("" +:+ ?x) with x. rewrite unquote_json_step, Hb.
    assert (decode_rune (String c t) = (code c, 1%nat)) as ->.
    { unfold decode_rune. by destruct (Z.ltb_spec (code c) 128); [|lia]. }
    unfold encode_rune. destruct (Z.ltb_spec (code c) 128); [|lia].
    cbn [of_codes foldr str_drop]. by rewrite chr_code.
Qed.

Lemma lit_piece_escape e v :
  (e =c "u") = false -> json_escape e = Some v ->
  lit_piece (String backslash_byte (String e "")) (String v "").
Proof.
  intros Hu He. split.
  - intros t raw rest H. rewrite !append_cons. change ("" +:+ ?x) with x.
    cbn [scan_string]. change (backslash_byte =c quote_byte) with false. rewrite ch_eq_refl, Hu, He.
    cbv iota. by rewrite H.
  - intros t. rewrite !append_cons. change ("" +:+ ?x) with x. rewrite unquote_json_step, ch_eq_refl, getu4_plain, He by done. done.
Qed.

Lemma lit_piece_hex n h :
  String.length h = 4%nat -> read_hex 4 0 h = Some (n, ""%string) -> is_surrogate n = false ->
  lit_piece (of_codes [92; 117] +:+ h) (encode_rune n).
Proof.
  intros Hl Hr Hs. destruct h as [|a [|b [|d [|f [|? ?]]]]]; try done.
  assert (Ha : forall t, (of_codes [92; 117] +:+ String a (String b (String d (String f "")))) +:+ t
    = String (chr 92) (String (chr 117) (String a (String b (String d (String f t)))))) by done.
  split.
  - intros t raw rest H. rewrite !Ha. cbn [scan_string].
    change (chr 92 =c quote_byte) with false. change (chr 92 =c backslash_byte) with true.
    change (chr 117 =c "u") with true. cbv iota.
    do 4 (apply read_hex_is_hex in Hr as (?&?&[= <- <-]&->&?&Hr)). cbn [andb]. by rewrite H.
  - intros t. rewrite Ha, unquote_json_step. unfold getu4.
    change (chr 92 =c backslash_byte) with true. change (chr 117 =c "u") with true.
    cbv iota beta zeta. cbn [andb]. rewrite Hr. bind_simpl. by rewrite Hs.
Qed.

Definition high_byte (c : byte) : bool := 128 <=? code c.

(** A rune of several bytes is made of bytes outside ASCII. *)
Lemma rune_high s r w : decode_rune s = (r, w) -> (1 < w)%nat -> all_bytes high_byte (str_take w s) = true.
Proof.
  destruct s as [|c s]; [intros [= <- <-]; lia|]. unfold decode_rune, is_cont, in_range, high_byte.
  intros E Hw.
  repeat match type of E with
  | context [match ?s with EmptyString => _ | String _ _ => _ end] => destruct s
  | context [if ?b then (?x, ?y) else _] => destruct b eqn:?
  | (if ?b then _ else _) = _ => destruct b eqn:?
  end; injection E as <- <-; try lia; cbn [str_take all_bytes]; b2p;
    repeat match goal with H : (if ?b then _ else _) <= _ |- _ => destruct b end; lia.
Qed.

(** A rune of several bytes stands for itself. *)
Lemma lit_piece_rune s r w :
  decode_rune s = (r, w) -> (1 < w)%nat -> lit_piece (str_take w s) (str_take w s).
Proof.
  intros E Hw. pose proof (decode_local s) as Hl. pose proof (rune_high s r w E Hw) as Hh.
  rewrite E in Hl. cbn [snd] in Hl.
  assert (Hne : forall x k, high_byte x = true -> code k < 128 -> (x =c k) = false).
  { intros x k Hx Hk. unfold high_byte in Hx. destruct (ch_eq_spec x k) as [->|]; [lia|done]. }
  destruct s as [|c s]; [injection E as <- <-; lia|].
  destruct (encode_decode c s r w E) as [He Hr]; [lia|].
  pose proof (Hl ""%string Hw) as [_ Hlen]. split.
  - intros t raw rest H. revert Hh. generalize (str_take w (String c s)). clear -H Hne. intros u Hu.
    induction u as [|x u IH]; [done|]. cbn [all_bytes] in Hu. apply andb_true_iff in Hu as [Hx Hu].
    rewrite append_cons. cbn [scan_string]. rewrite !Hne by done. unfold high_byte in Hx.
    destruct (Z.ltb_spec (code x) 32); [lia|]. by rewrite IH.
  - intros t. destruct w as [|w]; [lia|]. cbn [str_take] in *. rewrite append_cons, unquote_json_step.
    cbn [all_bytes] in Hh. apply andb_true_iff in Hh as [Hc _]. rewrite Hne by done.
    rewrite <- append_cons. destruct (Hl t Hw) as [-> _]. rewrite He. f_equal. f_equal.
    rewrite <- Hlen at 1. apply str_drop_append.
Qed.

Lemma escape_byte_piece c : code c < 128 -> lit_piece (escape_byte c) (String c "").
Proof.
  intros Hc. unfold escape_byte.
  assert (Heq : forall k, (c =c k) = true -> c = k) by (intros k Hk; by destruct (ch_eq_spec c k)).
  destruct (c =c quote_byte) eqn:E1; [apply Heq in E1 as ->; by apply lit_piece_escape|].
  destruct (c =c backslash_byte) eqn:E2; [apply Heq in E2 as ->; by apply lit_piece_escape|]. cbn [orb].
  do 5 (match goal with |- context [if c =c chr ?k then _ else _] =>
    destruct (c =c chr k) eqn:?; [by rewrite (Heq (chr k)); [apply lit_piece_escape|]|] end).
  pose proof (code_bound c).
  destruct ((code c <? 32) || _ || _ || _) eqn:E3.
  - assert (He : encode_rune (code c) = String c "").
    { unfold encode_rune. destruct (Z.ltb_spec (code c) 128); [|lia]. cbn [of_codes foldr].
      by rewrite chr_code. }
    rewrite <- He. apply (lit_piece_hex (code c) (of_codes [48; 48] +:+ hex_digits 2 (code c) "")).
    + reflexivity.
    + rewrite <- (append_nil_r (hex_digits 2 _ _)).
      change (read_hex 2 (16 * (16 * 0 + 0) + 0) (hex_digits 2 (code c) "" +:+ "") = Some (code c, ""%string)).
      by rewrite read_hex_print by (cbn; lia).
    + unfold is_surrogate. lia.
  - b2p. by apply lit_piece_plain.
Qed.

Lemma json_body_piece fuel s :
  valid_utf8 s -> (String.length s <= fuel)%nat -> lit_piece (json_body fuel s) s.
Proof.
  intros Hv. revert fuel. induction Hv as [|s w Hw Hv IH]; intros fuel Hf; [by destruct fuel|].
  apply rune_at_spec in Hw as (Hn & Hne & Hbad).
  destruct s as [|c s]; [simpl in Hn; lia|]. destruct fuel as [|fuel]; [simpl in Hf; lia|].
  simpl in Hf. cbn [json_body].
  assert (Hd : (String.length (str_drop w (String c s)) <= fuel)%nat).
  { rewrite length_str_drop. simpl. lia. }
  specialize (IH fuel Hd). destruct (Z.ltb_spec (code c) 128) as [Hc|Hc].
  - assert (w = 1%nat) as ->.
    { revert Hn. unfold decode_rune. by destruct (Z.ltb_spec (code c) 128); [intros <-|lia]. }
    cbn [str_drop] in IH. change (String c s) with (String c "" +:+ s).
    apply lit_piece_app; [by apply escape_byte_piece|done].
  - destruct (decode_rune (String c s)) as [r n] eqn:E. cbn [fst snd] in *. subst n.
    destruct (Nat.eqb_spec w 1) as [->|Hw1].
    { destruct Hbad. split; [done|]. pose proof (decode_one c s ltac:(lia)) as Ho.
      rewrite E in Ho. by apply Ho. }
    pose proof (lit_piece_rune _ _ _ E ltac:(lia)) as Hp.
    destruct (encode_decode c s r w E) as [He Hr]; [tauto|].
    assert (Hs : forall b, lit_piece (b +:+ json_body fuel (str_drop w (String c s)))
        (str_take w (String c s) +:+ str_drop w (String c s)) ->
      lit_piece (b +:+ json_body fuel (str_drop w (String c s))) (String c s)).
    { intros b. by rewrite str_take_drop. }
    destruct ((r =? 8232) || (r =? 8233)) eqn:E2; [|apply Hs; by apply lit_piece_app].
    apply (Hs (of_codes [92; 117] +:+ (of_codes [50; 48; 50] +:+ String (lower_hex (r mod 16)) ""))).
    apply lit_piece_app; [|done]. rewrite <- He.
    apply orb_true_iff in E2 as [->%Z.eqb_eq| ->%Z.eqb_eq]; by apply lit_piece_hex.
Qed.

(** An encoded string is one string literal, of the string. *)
Lemma json_string_literal s rest :
  valid_utf8 s ->
  exists raw, scan_string (json_body (String.length s) s +:+ String quote_byte rest) = Some (raw, rest)
    /\ string_of_literal raw = s.
Proof.
  intros Hv. destruct (json_body_piece (String.length s) s Hv (le_n _)) as [H1 H2].
  specialize (H1 (String quote_byte rest) ""%string rest ltac:(done)).
  specialize (H2 ""%string). rewrite !append_nil_r in *. eauto.
Qed.

(** ** Lemmas: numbers *)

Definition number_byte (c : byte) : bool :=
  is_digit c || (c =c ".") || (c =c "e") || (c =c "E").
(** What follows a value cannot continue a number. *)
Definition stops (rest : string) : Prop := starts number_byte rest = false.

Lemma stops_digit r rest : starts is_digit r = false -> stops rest -> starts is_digit (r +:+ rest) = false.
Proof.
  intros Hr Hs. destruct r as [|c r]; [|exact Hr]. change ("" +:+ rest) with rest.
  destruct rest as [|c rest]; [done|]. unfold stops, number_byte in Hs. simpl in *.
  by destruct (is_digit c).
Qed.

Lemma scan_digits_extend s d r rest :
  scan_digits s = Some (d, r) -> stops rest ->
  scan_digits (s +:+ rest) = Some (d, r +:+ rest) /\ s = d +:+ r.
Proof.
  unfold scan_digits. destruct (span is_digit s) as [a b] eqn:E.
  destruct (span_spec _ _ _ _ E) as (-> & Ha & Hb). destruct (str_eq_spec a ""); [done|].
  intros [= <- <-] Hs. rewrite append_assoc, (span_append is_digit a (b +:+ rest)).
  - by destruct (str_eq_spec a "").
  - done.
  - by apply stops_digit.
Qed.

Lemma scan_int_extend s d r rest :
  scan_int s = Some (d, r) -> stops rest ->
  scan_int (s +:+ rest) = Some (d, r +:+ rest) /\ s = d +:+ r.
Proof.
  destruct s as [|c s]; [done|]. rewrite append_cons. unfold scan_int. destruct (c =c "0").
  - by intros [= <- <-] _.
  - rewrite <- append_cons. apply scan_digits_extend.
Qed.

Lemma stops_head c rest : stops (String c rest) -> number_byte c = false.
Proof. done. Qed.

Lemma scan_frac_extend s d r rest :
  scan_frac s = Some (d, r) -> stops rest ->
  scan_frac (s +:+ rest) = Some (d, r +:+ rest) /\ s = d +:+ r.
Proof.
  destruct s as [|c s].
  - intros [= <- <-] Hs. change ("" +:+ rest) with rest. split; [|done].
    destruct rest as [|c rest]; [done|]. apply stops_head in Hs. unfold number_byte in Hs.
    unfold scan_frac. destruct (c =c "."); [|done]. by rewrite orb_true_r in Hs.
  - rewrite append_cons. unfold scan_frac. destruct (c =c "."); [|by intros [= <- <-]].
    destruct (scan_digits s) as [[d' r']|] eqn:E; [|done]. intros [= <- <-] Hs.
    destruct (scan_digits_extend _ _ _ rest E Hs) as [-> ->]. done.
Qed.

Lemma scan_exp_extend s d r rest :
  scan_exp s = Some (d, r) -> stops rest ->
  scan_exp (s +:+ rest) = Some (d, r +:+ rest) /\ s = d +:+ r.
Proof.
  destruct s as [|c s].
  - intros [= <- <-] Hs. change ("" +:+ rest) with rest. split; [|done].
    destruct rest as [|c rest]; [done|]. apply stops_head in Hs. unfold number_byte in Hs.
    unfold scan_exp. destruct ((c =c "e") || (c =c "E")) eqn:E; [|done].
    exfalso. clear -Hs E. by destruct (is_digit c), (c =c "."), (c =c "e"), (c =c "E").
  - rewrite append_cons. unfold scan_exp. destruct ((c =c "e") || (c =c "E")); [|by intros [= <- <-]].
    destruct s as [|x s]; [done|]. rewrite append_cons. destruct (is_sign x).
    + destruct (scan_digits s) as [[d' r']|] eqn:E; [|done]. intros [= <- <-] Hs.
      destruct (scan_digits_extend _ _ _ rest E Hs) as [-> ->]. done.
    + rewrite <- append_cons. destruct (scan_digits (String x s)) as [[d' r']|] eqn:E; [|done].
      intros [= <- <-] Hs. destruct (scan_digits_extend _ _ _ rest E Hs) as [-> Hx]. by rewrite Hx.
Qed.

Lemma scan_number_append s l r rest :
  scan_number s = Some (l, r) -> stops rest -> scan_number (s +:+ rest) = Some (l, r +:+ rest) /\ s = l +:+ r.
Proof.
  intros E Hs. revert E. unfold scan_number.
  assert (Hm : forall m t, s = m +:+ t ->
    ('(i, s) ← scan_int t; '(f, s) ← scan_frac s; '(e, s) ← scan_exp s; Some (m +:+ i +:+ f +:+ e, s))
      = Some (l, r) ->
    ('(i, s) ← scan_int (t +:+ rest); '(f, s) ← scan_frac s; '(e, s) ← scan_exp s;
      Some (m +:+ i +:+ f +:+ e, s)) = Some (l, r +:+ rest) /\ s = l +:+ r).
  { intros m t -> H. destruct (scan_int t) as [[i s1]|] eqn:E1; [|done]. cbn [mbind option_bind] in H.
    destruct (scan_frac s1) as [[f s2]|] eqn:E2; [|done]. cbn [mbind option_bind] in H.
    destruct (scan_exp s2) as [[e s3]|] eqn:E3; [|done]. injection H as <- ->.
    destruct (scan_int_extend _ _ _ rest E1 Hs) as [-> ->]. bind_simpl.
    destruct (scan_frac_extend _ _ _ rest E2 Hs) as [-> ->]. bind_simpl.
    destruct (scan_exp_extend _ _ _ rest E3 Hs) as [-> ->]. bind_simpl.
    split; [done|]. by rewrite !append_assoc. }
  destruct s as [|c s]; [done|]. rewrite append_cons. destruct (c =c "-").
  - by apply (Hm (String c "")).
  - by apply (Hm ""%string (String c s)).
Qed.

Lemma scan_number_extend lit rest :
  valid_number lit = true -> stops rest -> scan_number (lit +:+ rest) = Some (lit, rest).
Proof.
  unfold valid_number. destruct (scan_number lit) as [[a b]|] eqn:E; [|done].
  intros Hb Hs. destruct (str_eq_spec b ""); [subst b|done].
  destruct (scan_number_append _ _ _ rest E Hs) as [-> Hl]. rewrite append_nil_r in Hl. by subst.
Qed.

(** ** Lemmas: a scan does not depend on what follows *)

Lemma skip_ws_extend s c r rest :
  skip_ws s = String c r -> skip_ws (s +:+ rest) = String c (r +:+ rest).
Proof.
  intros H. destruct (trim_left_spec is_ws s) as (a & Hs & Ha & Hst). fold (skip_ws s) in *.
  rewrite H in *. unfold skip_ws, trim_left. rewrite Hs at 1.
  rewrite append_assoc, (span_append is_ws a (String c r +:+ rest)); [done|done|exact Hst].
Qed.

Lemma strip_prefix_extend p s r rest : strip_prefix p s = Some r -> strip_prefix p (s +:+ rest) = Some (r +:+ rest).
Proof. intros H. apply strip_prefix_Some in H as ->. rewrite append_assoc. apply strip_prefix_append. Qed.

Lemma scan_string_extend n s a b rest :
  (String.length s <= n)%nat -> scan_string s = Some (a, b) -> scan_string (s +:+ rest) = Some (a, b +:+ rest).
Proof.
  revert s a b. induction n as [|n IH]; intros s a b Hn; [by destruct s; [|simpl in Hn; lia]|].
  destruct s as [|c s]; [done|]. simpl in Hn. rewrite append_cons. cbn [scan_string].
  destruct (c =c quote_byte); [by intros [= <- <-]|]. destruct (c =c backslash_byte).
  - destruct s as [|e s]; [done|]. rewrite append_cons. simpl in Hn. destruct (e =c "u").
    + destruct s as [|x1 [|x2 [|x3 [|x4 s]]]]; try done. simpl in Hn. rewrite !append_cons.
      destruct (is_hex x1 && is_hex x2 && is_hex x3 && is_hex x4); [|done].
      destruct (scan_string s) as [[u v]|] eqn:E; [|done]. intros [= <- <-].
      by rewrite (IH s u v ltac:(lia) E).
    + destruct (json_escape e); [|done]. destruct (scan_string s) as [[u v]|] eqn:E; [|done].
      intros [= <- <-]. by rewrite (IH s u v ltac:(lia) E).
  - destruct (code c <? 32); [done|]. destruct (scan_string s) as [[u v]|] eqn:E; [|done].
    intros [= <- <-]. by rewrite (IH s u v ltac:(lia) E).
Qed.

Definition value_extends (n : nat) : Prop := forall d s j r n' rest,
  scan_value n d s = Some (j, r) -> (n <= n')%nat -> stops rest ->
  scan_value n' d (s +:+ rest) = Some (j, r +:+ rest).
Definition elems_extend (n : nat) : Prop := forall d s j r n' rest,
  scan_elems n d s = Some (j, r) -> (n <= n')%nat -> stops rest ->
  scan_elems n' d (s +:+ rest) = Some (j, r +:+ rest).
Definition members_extend (n : nat) : Prop := forall d s j r n' rest,
  scan_members n d s = Some (j, r) -> (n <= n')%nat -> stops rest ->
  scan_members n' d (s +:+ rest) = Some (j, r +:+ rest).

Lemma value_extends_step n : elems_extend n -> members_extend n -> value_extends (S n).
Proof.
  intros He Hm d s j r [|n'] rest H Hn Hs; [lia|]. cbn [scan_value] in *.
  destruct (skip_ws s) as [|c t] eqn:Ew; [done|]. rewrite (skip_ws_extend _ _ _ rest Ew).
  destruct (c =c "{"); [|destruct (c =c "[")].
  - destruct (max_depth <? d + 1); [done|]. destruct (skip_ws t) as [|c' t'] eqn:Et; [done|].
    rewrite (skip_ws_extend _ _ _ rest Et). destruct (c' =c "}"); [by injection H as <- <-|].
    destruct (scan_members n (d + 1) t) as [[m t2]|] eqn:E; [|done]. injection H as <- <-.
    by rewrite (Hm _ _ _ _ n' rest E ltac:(lia) Hs).
  - destruct (max_depth <? d + 1); [done|]. destruct (skip_ws t) as [|c' t'] eqn:Et; [done|].
    rewrite (skip_ws_extend _ _ _ rest Et). destruct (c' =c "]"); [by injection H as <- <-|].
    destruct (scan_elems n (d + 1) t) as [[m t2]|] eqn:E; [|done]. injection H as <- <-.
    by rewrite (He _ _ _ _ n' rest E ltac:(lia) Hs).
  - destruct (c =c quote_byte).
    { destruct (scan_string t) as [[u v]|] eqn:E; [|done]. injection H as <- <-.
      by rewrite (scan_string_extend _ _ _ _ rest (le_n _) E). }
    repeat match goal with |- context [if ?b then (x ← strip_prefix ?p (?t +:+ ?rest); _) else _] =>
      destruct b; [destruct (strip_prefix p t) eqn:Ep; [|done]; injection H as <- <-;
        by rewrite (strip_prefix_extend _ _ _ rest Ep)|] end.
    rewrite <- append_cons. destruct (scan_number (String c t)) as [[u v]|] eqn:E; [|done].
    injection H as <- <-. by destruct (scan_number_append _ _ _ rest E Hs) as [-> _].
Qed.

Lemma elems_extend_step n : value_extends n -> elems_extend n -> elems_extend (S n).
Proof.
  intros Hv He d s j r [|n'] rest H Hn Hs; [lia|]. cbn [scan_elems] in *.
  destruct (scan_value n d s) as [[v t]|] eqn:E; [|done]. cbn [mbind option_bind] in H.
  rewrite (Hv _ _ _ _ n' rest E ltac:(lia) Hs). bind_simpl.
  destruct (skip_ws t) as [|c t'] eqn:Et; [done|]. rewrite (skip_ws_extend _ _ _ rest Et).
  destruct (c =c ","); [|by destruct (c =c "]"); [injection H as <- <-|]].
  destruct (scan_elems n d t') as [[l t2]|] eqn:E2; [|done]. injection H as <- <-.
  by rewrite (He _ _ _ _ n' rest E2 ltac:(lia) Hs).
Qed.

Lemma members_extend_step n : value_extends n -> members_extend n -> members_extend (S n).
Proof.
  intros Hv Hm d s j r [|n'] rest H Hn Hs; [lia|]. cbn [scan_members] in *.
  destruct (skip_ws s) as [|c t] eqn:Ew; [done|]. rewrite (skip_ws_extend _ _ _ rest Ew).
  destruct (c =c quote_byte); [|done].
  destruct (scan_string t) as [[raw t1]|] eqn:E1; [|done]. cbn [mbind option_bind] in H.
  rewrite (scan_string_extend _ _ _ _ rest (le_n _) E1). bind_simpl.
  destruct (skip_ws t1) as [|c2 t2] eqn:E2; [done|]. rewrite (skip_ws_extend _ _ _ rest E2).
  destruct (c2 =c ":"); [|done].
  destruct (scan_value n d t2) as [[v t3]|] eqn:E3; [|done]. cbn [mbind option_bind] in H.
  rewrite (Hv _ _ _ _ n' rest E3 ltac:(lia) Hs). bind_simpl.
  destruct (skip_ws t3) as [|c4 t4] eqn:E4; [done|]. rewrite (skip_ws_extend _ _ _ rest E4).
  destruct (c4 =c ","); [|by destruct (c4 =c "}"); [injection H as <- <-|]].
  destruct (scan_members n d t4) as [[l t5]|] eqn:E5; [|done]. injection H as <- <-.
  by rewrite (Hm _ _ _ _ n' rest E5 ltac:(lia) Hs).
Qed.

(** More fuel and more text do not change what was scanned. *)
Lemma scan_extends n : value_extends n /\ elems_extend n /\ members_extend n.
Proof.
  induction n as [|n (Hv & He & Hm)]; [done|].
  split_and!; [by apply value_extends_step|by apply elems_extend_step|by apply members_extend_step].
Qed.

Lemma scan_value_extend n n' d s j r rest :
  scan_value n d s = Some (j, r) -> (n <= n')%nat -> stops rest ->
  scan_value n' d (s +:+ rest) = Some (j, r +:+ rest).
Proof. apply scan_extends. Qed.

(** ** Lemmas: maps as sorted entries *)

Definition key_lt (a b : string) : Prop := String.compare a b = Lt.

Lemma compare_trans a b c : key_lt a b -> key_lt b c -> key_lt a c.
Proof.
  unfold key_lt. revert b c. induction a as [|x a IH]; intros b c; destruct b as [|y b], c as [|z c]; simpl; try done.
  unfold Ascii.compare.
  destruct (N.compare_spec (N_of_ascii x) (N_of_ascii y)) as [Exy|Lxy|]; try done;
    destruct (N.compare_spec (N_of_ascii y) (N_of_ascii z)) as [Eyz|Lyz|]; try done; intros H1 H2.
  - rewrite Exy, Eyz, N.compare_refl. by apply (IH b).
  - rewrite Exy. by apply N.compare_lt_iff in Lyz as ->.
  - rewrite <- Eyz. by apply N.compare_lt_iff in Lxy as ->.
  - assert ((N_of_ascii x < N_of_ascii z)%N) as ->%N.compare_lt_iff by lia. done.
Qed.

Lemma compare_self k : String.compare k k = Eq.
Proof. pose proof (String.compare_antisym k k) as H. by destruct (String.compare k k). Qed.

Lemma compare_gt a b : key_lt a b -> String.compare b a = Gt.
Proof. intros H. rewrite String.compare_antisym. unfold key_lt in H. by rewrite H. Qed.

Definition sorted_map {A} (l : list (string * A)) : Prop :=
  StronglySorted (fun a b => key_lt a.1 b.1) l.

Lemma set_entry_first {A} k (v : A) l :
  Forall (fun e => key_lt k e.1) l -> set_entry k v l = (k, v) :: l.
Proof. intros H. destruct l as [|e l]; [done|]. inversion H as [|? ? He _]; subst. simpl. unfold key_lt in He. by rewrite He. Qed.

Lemma set_entry_last {A} k (v : A) l :
  Forall (fun e => key_lt e.1 k) l -> set_entry k v l = l ++ [(k, v)].
Proof.
  induction 1 as [|e l He _ IH]; [done|]. simpl. rewrite (compare_gt _ _ He). by rewrite IH.
Qed.

Lemma set_entry_keys {A} (P : string -> Prop) k (v : A) l :
  P k -> Forall (fun e => P e.1) l -> Forall (fun e => P e.1) (set_entry k v l).
Proof.
  intros Hk. induction 1 as [|e l He Hl IH]; simpl; [by repeat constructor|].
  destruct (String.compare k e.1); repeat constructor; done.
Qed.

Lemma set_entry_sorted {A} k (v : A) l : sorted_map l -> sorted_map (set_entry k v l).
Proof.
  induction 1 as [|e l Hl IH He]; simpl; [by repeat constructor|].
  destruct (String.compare k e.1) eqn:E.
  - apply String.compare_eq_iff in E as ->. by constructor.
  - constructor; [by constructor|]. constructor; [done|].
    eapply Forall_impl; [exact He|]. intros x Hx. by apply (compare_trans _ e.1).
  - constructor; [exact IH|]. apply (set_entry_keys (fun x => key_lt e.1 x)); [|done].
    unfold key_lt. rewrite String.compare_antisym. by rewrite E.
Qed.

(** Reading sorted entries back in order rebuilds them. *)
Lemma set_entry_fold {A} (l acc : list (string * A)) :
  sorted_map (acc ++ l) -> foldl (fun a e => set_entry e.1 e.2 a) acc l = acc ++ l.
Proof.
  revert acc. induction l as [|e l IH]; intros acc Hs; simpl; [by rewrite app_nil_r|].
  rewrite set_entry_last.
  - destruct e as [k v]. rewrite IH; by rewrite <- app_assoc.
  - clear IH. induction acc as [|x acc IHa]; [constructor|].
    inversion Hs as [|? ? Ht Hx]; subst. constructor; [|by apply IHa].
    apply Forall_app in Hx as [_ Hx]. by inversion Hx.
Qed.

(** ** Encoding then decoding *)

(** A value as the program stores it: strings are UTF-8, numbers are literals,
    maps have increasing keys. *)
Fixpoint wf_any (v : any) : Prop :=
  match v with
  | ANil | ABool _ => True
  | AStr s => valid_utf8 s
  | ANumber lit => valid_number lit = true
  | AFloat _ => False
  | AList l => (fix all (l : list any) : Prop := match l with [] => True | x :: l => wf_any x /\ all l end) l
  | AMap m =>
      sorted_map m
      /\ (fix all (m : list (string * any)) : Prop :=
            match m with [] => True | e :: m => (valid_utf8 e.1 /\ wf_any e.2) /\ all m end) m
  end.

Fixpoint height (v : any) : Z :=
  match v with
  | AList l => 1 + (fix hs (l : list any) : Z := match l with [] => 0 | x :: l => Z.max (height x) (hs l) end) l
  | AMap m =>
      1 + (fix hs (m : list (string * any)) : Z :=
             match m with [] => 0 | e :: m => Z.max (height e.2) (hs m) end) m
  | _ => 0
  end.

Section AnyInd.
Context (P : any -> Prop).
Hypotheses (Pnil : P ANil) (Pstr : forall s, P (AStr s)) (Pbool : forall b, P (ABool b))
  (Pnum : forall l, P (ANumber l)) (Pfloat : forall z, P (AFloat z))
  (Plist : forall l, Forall P l -> P (AList l)) (Pmap : forall m, Forall (fun e => P e.2) m -> P (AMap m)).
(** Induction on dynamic values, through lists and maps. *)
Fixpoint any_rect' (v : any) : P v :=
  match v with
  | ANil => Pnil
  | AStr s => Pstr s
  | ABool b => Pbool b
  | ANumber l => Pnum l
  | AFloat z => Pfloat z
  | AList l => Plist l ((fix go l : Forall P l :=
      match l with [] => Forall_nil_2 P | x :: l => Forall_cons_2 P x l (any_rect' x) (go l) end) l)
  | AMap m => Pmap m ((fix go m : Forall (fun e => P e.2) m :=
      match m with [] => Forall_nil_2 _ | e :: m => Forall_cons_2 _ e m (any_rect' e.2) (go m) end) m)
  end.
End AnyInd.

(** The inner loops, as functions of their own. *)
Fixpoint all_wf (l : list any) : Prop := match l with [] => True | x :: l => wf_any x /\ all_wf l end.
Fixpoint all_wf_entries (m : list (string * any)) : Prop :=
  match m with [] => True | e :: m => (valid_utf8 e.1 /\ wf_any e.2) /\ all_wf_entries m end.
Fixpoint heights (l : list any) : Z := match l with [] => 0 | x :: l => Z.max (height x) (heights l) end.
Fixpoint to_anys (num : string -> option any) (l : list json) : option (list any) :=
  match l with [] => Some [] | x :: l => v ← to_any num x; r ← to_anys num l; Some (v :: r) end.
Fixpoint to_entries (num : string -> option any) (m : list (string * json)) (acc : list (string * any))
    : option (list (string * any)) :=
  match m with
  | [] => Some acc
  | e :: m => v ← to_any num e.2; to_entries num m (set_entry e.1 v acc)
  end.
Fixpoint marshal_list (jf : Z -> option string) (l : list any) : option (list string) :=
  match l with [] => Some [] | x :: l => s ← Marshal jf x; r ← marshal_list jf l; Some (s :: r) end.
Fixpoint marshal_entries (jf : Z -> option string) (m : list (string * any)) : option (list (string * string)) :=
  match m with
  | [] => Some []
  | e :: m => s ← Marshal jf e.2; r ← marshal_entries jf m; Some (set_entry e.1 s r)
  end.

Lemma wf_list l : wf_any (AList l) = all_wf l.
Proof. reflexivity. Qed.
Lemma wf_map m : wf_any (AMap m) = (sorted_map m /\ all_wf_entries m).
Proof. reflexivity. Qed.
Lemma height_list l : height (AList l) = 1 + heights l.
Proof. reflexivity. Qed.
Lemma height_map m : height (AMap m) = 1 + heights (map snd m).
Proof. cbn [height]. f_equal. induction m as [|e m IH]; [done|]. cbn [map heights]. by rewrite <- IH. Qed.
Lemma to_any_list num l : to_any num (JArr l) = v ← to_anys num l; Some (AList v).
Proof.
  cbn [to_any]. f_equal. induction l as [|x l IH]; [done|]. cbn [to_anys]. destruct (to_any num x); [|done].
  bind_simpl. by rewrite IH.
Qed.
Lemma to_any_obj num m : to_any num (JObj m) = v ← to_entries num m []; Some (AMap v).
Proof.
  cbn [to_any]. f_equal. generalize (@nil (string * any)). induction m as [|e m IH]; intros acc; [done|].
  cbn [to_entries]. destruct (to_any num e.2); [|done]. bind_simpl. apply IH.
Qed.
Lemma marshal_alist jf l : Marshal jf (AList l) = l ← marshal_list jf l; Some ("[" +:+ join "," l +:+ "]").
Proof.
  cbn [Marshal]. f_equal. induction l as [|x l IH]; [done|]. cbn [marshal_list]. destruct (Marshal jf x); [|done].
  bind_simpl. by rewrite IH.
Qed.
Lemma marshal_amap jf m : Marshal jf (AMap m) =
  m ← marshal_entries jf m; Some ("{" +:+ join "," (map (fun e => json_string e.1 +:+ ":" +:+ e.2) m) +:+ "}").
Proof.
  cbn [Marshal]. f_equal. induction m as [|e m IH]; [done|]. cbn [marshal_entries].
  destruct (Marshal jf e.2); [|done]. bind_simpl. by rewrite IH.
Qed.

Lemma height_nonneg v : 0 <= height v.
Proof.
  induction v as [| | | | |l IH|m IH] using any_rect'; [done..| |].
  - rewrite height_list. induction IH; cbn [heights]; lia.
  - rewrite height_map. induction IH; cbn [heights map]; lia.
Qed.

Lemma heights_nonneg l : 0 <= heights l.
Proof. induction l as [|v l IH]; cbn [heights]; [lia|]. pose proof (height_nonneg v). lia. Qed.

(** How an encoded value starts. *)
Definition value_start (c : byte) : bool :=
  is_digit c || (c =c "{") || (c =c "[") || (c =c quote_byte) || (c =c "t") || (c =c "f") || (c =c "n")
  || (c =c "-").

Lemma value_start_spec s t : starts value_start s = true ->
  skip_ws (s +:+ t) = s +:+ t /\ exists c r, s = String c r /\ (c =c "]") = false /\ (c =c "}") = false.
Proof.
  destruct s as [|c r]; [done|]. simpl. intros Hc.
  assert (Hne : forall k, value_start k = false -> (c =c k) = false).
  { intros k Hk. destruct (ch_eq_spec c k) as [->|]; [congruence|done]. }
  split; [|exists c, r; auto]. apply trim_left_id. simpl. unfold is_ws. by rewrite !Hne.
Qed.

(** The text [s], whatever follows it, is scanned as one value that decodes to
    [v], where at most [h] brackets are open. *)
Definition encodes (h : Z) (v : any) (s : string) : Prop :=
  starts value_start s = true
  /\ forall rest depth fuel, stops rest -> depth + h <= max_depth ->
     (2 * String.length s + 1 <= fuel)%nat ->
     exists j, scan_value fuel depth (s +:+ rest) = Some (j, rest) /\ to_any use_number j = Some v.

Lemma encodes_simple h v s j :
  starts value_start s = true -> to_any use_number j = Some v ->
  (forall f d rest, stops rest -> d + h <= max_depth -> scan_value (S f) d (s +:+ rest) = Some (j, rest)) ->
  encodes h v s.
Proof. intros Hs Hj Hv. split; [done|]. intros rest depth [|fuel] Hr Hd Hf; [lia|]. eauto. Qed.

Lemma encodes_weaken h h' v s : encodes h v s -> h <= h' -> encodes h' v s.
Proof. intros [Hs Hv] Hh. split; [done|]. intros rest depth fuel Hr Hd Hf. apply Hv; [done|lia|done]. Qed.

Lemma encodes_number lit : valid_number lit = true -> encodes 0 (ANumber lit) lit.
Proof.
  intros Hl.
  assert (Hs : exists c r, lit = String c r /\ (is_digit c || (c =c "-")) = true).
  { revert Hl. unfold valid_number, scan_number. destruct lit as [|c r]; [done|]. intros Hl.
    exists c, r. split; [done|]. destruct (c =c "-"); [by rewrite orb_true_r|].
    revert Hl. unfold scan_int. destruct (ch_eq_spec c "0") as [->|]; [done|].
    unfold scan_digits. simpl. destruct (is_digit c); [done|]. by destruct (str_eq_spec "" ""). }
  destruct Hs as (c & r & -> & Hc).
  assert (Hne : forall k, (is_digit k || (k =c "-")) = false -> (c =c k) = false).
  { intros k Hk. destruct (ch_eq_spec c k) as [->|]; [congruence|done]. }
  assert (Hst : starts value_start (String c r) = true).
  { simpl. unfold value_start. destruct (is_digit c); [done|]. simpl in Hc. rewrite Hc. by rewrite !orb_true_r. }
  apply (encodes_simple _ _ _ (JNum (String c r))); [done..|].
  intros f d rest Hr _. cbn [scan_value]. destruct (value_start_spec _ rest Hst) as [-> _].
  rewrite append_cons. cbv iota. rewrite !Hne by done. rewrite <- append_cons. by rewrite scan_number_extend.
Qed.

(** A natural number is printed as a literal. *)
Lemma Itoa_number z : 0 <= z -> valid_number (Itoa z) = true.
Proof.
  intros Hz. destruct (Z.eq_dec z 0) as [->|Hne]; [done|]. unfold Itoa. destruct (Z.ltb_spec z 0); [lia|].
  pose proof (digits_head z ltac:(lia)) as Hh. pose proof (digits_digits z Hz) as Hd.
  destruct (digits z) as [|c s] eqn:E; [done|]. cbn [starts] in Hh. apply negb_true_iff in Hh.
  assert (Hs : scan_digits (String c s) = Some (String c s, ""%string)).
  { unfold scan_digits. pose proof (span_append is_digit (String c s) "") as Hp. rewrite append_nil_r in Hp. by rewrite Hp. }
  unfold valid_number, scan_number. assert ((c =c "-") = false) as ->.
  { cbn [all_bytes] in Hd. apply andb_true_iff in Hd as [Hd _]. by destruct (ch_eq_spec c "-") as [->|]. }
  unfold scan_int. rewrite Hh, Hs. reflexivity.
Qed.
Lemma encodes_nat z : 0 <= z -> encodes 0 (ANumber (Itoa z)) (Itoa z).
Proof. intros. by apply encodes_number, Itoa_number. Qed.

Lemma scan_json_string s rest : valid_utf8 s ->
  exists raw t, json_string s +:+ rest = String quote_byte t /\ scan_string t = Some (raw, rest)
    /\ string_of_literal raw = s.
Proof.
  intros Hv. destruct (json_string_literal s rest Hv) as (raw & Hr & Hs). exists raw. eexists.
  split; [|eauto]. unfold json_string. by rewrite append_cons, append_assoc.
Qed.

Lemma encodes_string s : valid_utf8 s -> encodes 0 (AStr s) (json_string s).
Proof.
  intros Hv. split; [done|]. intros rest depth [|fuel] _ _ Hf; [lia|].
  destruct (scan_json_string s rest Hv) as (raw & t & E & Hr & Hs). exists (JStr raw). rewrite E.
  cbn [scan_value]. change (skip_ws (String quote_byte t)) with (String quote_byte t). cbv iota.
  change (quote_byte =c "{") with false. change (quote_byte =c "[") with false. cbv iota.
  rewrite ch_eq_refl, Hr. bind_simpl. cbn [to_any]. by rewrite Hs.
Qed.

Lemma join_start p sep s l : starts p s = true -> starts p (join sep (s :: l)) = true.
Proof. rewrite join_cons. by destruct s. Qed.
Lemma after_value c rest : is_ws c = false -> skip_ws (String c rest) = String c rest.
Proof. intros H. by apply trim_left_id. Qed.

(** *** Arrays *)

Lemma scan_elems_join h l ss : 0 <= h -> l <> [] -> Forall2 (encodes h) l ss ->
  starts value_start (join "," ss) = true
  /\ forall rest depth fuel, depth + h <= max_depth -> (2 * String.length (join "," ss) + 2 <= fuel)%nat ->
     exists js, scan_elems fuel depth (join "," ss +:+ String "]" rest) = Some (js, rest)
       /\ to_anys use_number js = Some l.
Proof.
  intros Hh. induction 2 as [|v s l ss [Hst Hv] Hl IH]; [done|]. split; [by apply join_start|].
  intros rest depth [|fuel] Hd Hf; [lia|]. destruct Hl as [|v' s' l ss Hv' Hl].
  - cbn [join] in *. destruct (Hv (String "]" rest) depth fuel) as (j & Hj & Hto); [done..|lia|].
    exists [j]. cbn [scan_elems]. rewrite Hj. bind_simpl. rewrite after_value by done.
    cbn [to_anys]. rewrite Hto. done.
  - destruct (IH ltac:(done)) as [_ IH'].
    change (join "," (s :: s' :: ss)) with (s +:+ String "," (join "," (s' :: ss))) in *.
    rewrite length_append in Hf. cbn [String.length] in Hf. rewrite append_assoc, append_cons.
    destruct (Hv (String "," (join "," (s' :: ss) +:+ String "]" rest)) depth fuel) as (j & Hsc & Hto); [done..|lia|].
    destruct (IH' rest depth fuel) as (js & Hjs & Htos); [done|lia|].
    exists (j :: js). cbn [scan_elems]. rewrite Hsc. bind_simpl. rewrite after_value by done.
    change ("," =c ",") with true. cbv iota. rewrite Hjs. bind_simpl.
    cbn [to_anys] in *. rewrite Hto. bind_simpl. by rewrite Htos.
Qed.

Lemma encodes_array h l ss : 0 <= h -> Forall2 (encodes h) l ss -> encodes (1 + h) (AList l) (print_array ss).
Proof.
  intros Hh Hl. destruct l as [|v l].
  - apply Forall2_nil_inv_l in Hl as ->. apply (encodes_simple _ _ _ (JArr [])); [done..|].
    intros f d rest _ Hd. cbn -[Z.add] in *. by destruct (Z.ltb_spec max_depth (d + 1)); [lia|].
  - destruct (scan_elems_join h (v :: l) ss Hh ltac:(done) Hl) as [Hst H]. split; [done|].
    intros rest depth [|fuel] _ Hd Hf; [lia|].
    assert (E : print_array ss +:+ rest = String "[" (join "," ss +:+ String "]" rest)).
    { unfold print_array. change (String "[" ((join "," ss +:+ "]") +:+ rest) = String "[" (join "," ss +:+ String "]" rest)).
      by rewrite append_assoc. }
    unfold print_array in Hf. rewrite !length_append in Hf. simpl in Hf.
    destruct (H rest (depth + 1) fuel) as (js & Hjs & Hto); [lia|lia|].
    exists (JArr js). rewrite E. cbn [scan_value]. rewrite after_value by done.
    change ("[" =c "{") with false. change ("[" =c "[") with true. cbv iota.
    destruct (Z.ltb_spec max_depth (depth + 1)); [lia|].
    destruct (value_start_spec _ (String "]" rest) Hst) as (-> & c & r & Hc & Hb & _).
    rewrite Hc, append_cons, Hb, <- append_cons, <- Hc, Hjs. bind_simpl. split; [done|]. by rewrite to_any_list, Hto.
Qed.

(** *** Objects, whatever the order of their members *)

Definition encodes_entry (h : Z) (e : string * any) (p : string * string) : Prop :=
  p.1 = e.1 /\ valid_utf8 e.1 /\ encodes h e.2 p.2.

(** One member, before a comma or the closing brace. *)
Lemma scan_member h e p t depth fuel :
  encodes_entry h e p -> stops t -> depth + h <= max_depth -> (2 * String.length (print_entry p) <= fuel)%nat ->
  exists raw j r, print_entry p +:+ t = String quote_byte r
    /\ scan_string r = Some (raw, String ":" (p.2 +:+ t)) /\ string_of_literal raw = e.1
    /\ scan_value fuel depth (p.2 +:+ t) = Some (j, t) /\ to_any use_number j = Some e.2.
Proof.
  intros (Hk & Hu & _ & Hv) Ht Hd Hf. unfold print_entry in *. rewrite Hk in *.
  destruct (scan_json_string e.1 (String ":" (p.2 +:+ t)) Hu) as (raw & r & E & Hr & Hraw).
  rewrite !length_append in Hf. cbn [String.length] in Hf.
  destruct (Hv t depth fuel Ht Hd ltac:(lia)) as (j & Hj & Hto). exists raw, j, r.
  rewrite !append_assoc. change (":" +:+ ?x) with (String ":" x). done.
Qed.

Lemma scan_members_join h m es : m <> [] -> Forall2 (encodes_entry h) m es ->
  starts (ch_eq quote_byte) (join "," (map print_entry es)) = true
  /\ forall rest depth fuel acc, depth + h <= max_depth ->
     (2 * String.length (join "," (map print_entry es)) + 2 <= fuel)%nat ->
     exists js, scan_members fuel depth (join "," (map print_entry es) +:+ String "}" rest) = Some (js, rest)
       /\ to_entries use_number js acc = Some (foldl (fun a e => set_entry e.1 e.2 a) acc m).
Proof.
  induction 2 as [|e p m es He Hm IH]; [done|]. split; [by apply (join_start _ "," (print_entry p))|].
  intros rest depth [|fuel] acc Hd Hf; [lia|]. cbn [map] in *. destruct Hm as [|e' p' m es He' Hm].
  - cbn [join map] in *. destruct (scan_member h e p (String "}" rest) depth fuel)
      as (raw & j & r & Er & Hraw & Hkey & Hj & Hto); [done..|lia|].
    exists [(e.1, j)]. rewrite Er. cbn [scan_members]. rewrite after_value by done. rewrite ch_eq_refl, Hraw. bind_simpl.
    rewrite after_value by done. change (":" =c ":") with true. cbv iota. rewrite Hj. bind_simpl.
    rewrite after_value by done. rewrite Hkey. split; [done|]. cbn [to_entries fst snd]. by rewrite Hto.
  - destruct (IH ltac:(done)) as [_ IH']. cbn [map] in *.
    change (join "," (print_entry p :: print_entry p' :: map print_entry es))
      with (print_entry p +:+ String "," (join "," (print_entry p' :: map print_entry es))) in *.
    rewrite length_append in Hf. cbn [String.length] in Hf. rewrite append_assoc, append_cons.
    destruct (scan_member h e p (String "," (join "," (print_entry p' :: map print_entry es) +:+ String "}" rest)) depth fuel)
      as (raw & j & r & Er & Hraw & Hkey & Hsc & Hto); [done..|lia|].
    destruct (IH' rest depth fuel (set_entry e.1 e.2 acc)) as (js & Hjs & Htos); [done|lia|].
    exists ((e.1, j) :: js). rewrite Er. cbn [scan_members]. rewrite after_value by done. rewrite ch_eq_refl, Hraw. bind_simpl.
    rewrite after_value by done. change (":" =c ":") with true. cbv iota. rewrite Hsc. bind_simpl.
    rewrite after_value by done. change ("," =c ",") with true. cbv iota. rewrite Hjs. bind_simpl.
    rewrite Hkey. split; [done|]. cbn [to_entries fst snd]. rewrite Hto. bind_simpl. by rewrite Htos.
Qed.

Lemma encodes_object h m es : 0 <= h -> Forall2 (encodes_entry h) m es ->
  encodes (1 + h) (AMap (foldl (fun a e => set_entry e.1 e.2 a) [] m)) (print_object es).
Proof.
  intros Hh Hm. destruct m as [|e m].
  - apply Forall2_nil_inv_l in Hm as ->. apply (encodes_simple _ _ _ (JObj [])); [done..|].
    intros f d rest _ Hd. cbn -[Z.add] in *. by destruct (Z.ltb_spec max_depth (d + 1)); [lia|].
  - destruct (scan_members_join h (e :: m) es ltac:(done) Hm) as [Hq H]. split; [done|].
    intros rest depth [|fuel] _ Hd Hf; [lia|].
    assert (E : print_object es +:+ rest = String "{" (join "," (map print_entry es) +:+ String "}" rest)).
    { unfold print_object. change (String "{" ((join "," (map print_entry es) +:+ "}") +:+ rest)
        = String "{" (join "," (map print_entry es) +:+ String "}" rest)). by rewrite append_assoc. }
    unfold print_object in Hf. rewrite !length_append in Hf. simpl in Hf.
    destruct (H rest (depth + 1) fuel []) as (js & Hjs & Hto); [lia|lia|].
    exists (JObj js). rewrite E. cbn [scan_value]. rewrite after_value by done.
    change ("{" =c "{") with true. cbv iota. destruct (Z.ltb_spec max_depth (depth + 1)); [lia|].
    assert (Hw : exists r, skip_ws (join "," (map print_entry es) +:+ String "}" rest) = String quote_byte r).
    { destruct (join "," (map print_entry es)) as [|c r]; [done|]. cbn [starts] in Hq.
      destruct (ch_eq_spec quote_byte c) as [<-|]; [|done]. rewrite append_cons, after_value by done. eauto. }
    destruct Hw as [r ->]. change (quote_byte =c "}") with false. cbv iota. rewrite Hjs. bind_simpl.
    split; [done|]. by rewrite to_any_obj, Hto.
Qed.

(** *** Encoded values *)

Section Back.
Context (jf : Z -> option string).

Definition reads_back (v : any) : Prop := exists s, Marshal jf v = Some s /\ encodes (height v) v s.

Lemma back_list l : Forall reads_back l -> reads_back (AList l).
Proof.
  intros Hl. assert (exists ss, marshal_list jf l = Some ss /\ Forall2 (encodes (heights l)) l ss) as (ss & Hss & H2).
  { induction Hl as [|v l (s & Hs & Hv) Hl (ss & Hss & H2)]; [by exists []|]. exists (s :: ss).
    cbn [marshal_list heights]. rewrite Hs. bind_simpl. rewrite Hss. split; [done|].
    constructor; [by eapply encodes_weaken, Z.le_max_l|]. eapply Forall2_impl; [exact H2|].
    intros x y Hxy. by eapply encodes_weaken, Z.le_max_r. }
  exists (print_array ss). rewrite marshal_alist, Hss, height_list. split; [done|].
  apply encodes_array; [apply heights_nonneg|done].
Qed.

(** Entries with increasing keys are printed as they are. *)
Lemma marshal_sorted m : sorted_map m -> Forall (fun e => valid_utf8 e.1 /\ reads_back e.2) m ->
  exists es, marshal_entries jf m = Some es /\ Forall2 (encodes_entry (heights (map snd m))) m es.
Proof.
  intros Hs. induction Hs as [|[k v] m Hs IH Hlt]; intros Hm; [by exists []|].
  apply Forall_cons_1 in Hm as [[Hk (s & Hv & He)] Hm]. destruct (IH Hm) as (es & Hes & H2). cbn [fst snd] in *.
  exists ((k, s) :: es). cbn [marshal_entries fst snd map heights]. rewrite Hv. bind_simpl. rewrite Hes. bind_simpl.
  rewrite set_entry_first.
  - split; [done|]. constructor; [split_and!; [done..|]; by eapply encodes_weaken, Z.le_max_l|].
    eapply Forall2_impl; [exact H2|]. intros x y (?&?&Hxy). split_and!; [done..|]. by eapply encodes_weaken, Z.le_max_r.
  - apply (Forall2_Forall_r _ (fun p => key_lt k p.1) _ _ H2). eapply Forall_impl; [exact Hlt|].
    intros e Hke p (-> & _). exact Hke.
Qed.
Lemma back_map m : sorted_map m -> Forall (fun e => valid_utf8 e.1 /\ reads_back e.2) m -> reads_back (AMap m).
Proof.
  intros Hs Hm. destruct (marshal_sorted m Hs Hm) as (es & Hes & H2). exists (print_object es).
  rewrite marshal_amap, Hes, height_map. split; [done|].
  pose proof (encodes_object _ m es (heights_nonneg _) H2) as H. by rewrite set_entry_fold in H.
Qed.

Lemma all_back v : wf_any v -> reads_back v.
Proof.
  induction v as [| s|b|lit|z|l IH|m IH] using any_rect'; intros Hv.
  - exists "null"%string. split; [done|]. by apply (encodes_simple _ _ _ JNull).
  - exists (json_string s). split; [done|]. by apply encodes_string.
  - exists (if b then "true" else "false")%string. split; [done|]. by apply (encodes_simple _ _ _ (JBool b)); destruct b.
  - exists lit. split; [|by apply encodes_number]. cbn in *. destruct (str_eq_spec lit "") as [->|]; [done|]. by rewrite Hv.
  - done.
  - apply back_list. rewrite wf_list in Hv. induction IH as [|x l Hx Hl IHl]; [done|].
    destruct Hv as [Hxw Hlw]. constructor; auto.
  - rewrite wf_map in Hv. destruct Hv as [Hs Hv]. apply back_map; [done|]. clear Hs.
    induction IH as [|e m He Hm IHm]; [done|]. destruct Hv as [[Hk Hew] Hmw]. constructor; auto.
Qed.

(** ** Entries of a finite map *)

Lemma entries_sorted (m : gmap string any) : sorted_map (entries m).
Proof. unfold entries. induction (map_to_list m) as [|e l IH]; [constructor|]. by apply set_entry_sorted. Qed.

Lemma set_entry_map k v (l : list (string * any)) :
  sorted_map l -> list_to_map (set_entry k v l) = <[k := v]> (list_to_map l : gmap string any).
Proof.
  induction 1 as [|[k' v'] l Hl IH He]; [done|]. cbn [set_entry fst].
  destruct (String.compare k k') eqn:E; cbn [list_to_map fst snd foldr].
  - apply String.compare_eq_iff in E as ->. by rewrite insert_insert_eq.
  - done.
  - rewrite IH. apply insert_insert_ne. intros ->. by rewrite compare_self in E.
Qed.

Lemma entries_map (m : gmap string any) : list_to_map (entries m) = m.
Proof.
  rewrite <- (list_to_map_to_list m) at 2. unfold entries.
  assert (H : forall l : list (string * any),
    list_to_map (foldr (fun e a => set_entry e.1 e.2 a) [] l) = (list_to_map l : gmap string any)
    /\ sorted_map (foldr (fun e a => set_entry e.1 e.2 a) [] l)).
  { induction l as [|[k v] l [IH1 IH2]]; [split; [done|constructor]|]. cbn [foldr fst snd].
    split; [|by apply set_entry_sorted]. by rewrite set_entry_map, IH1. }
  apply H.
Qed.

Lemma entries_elem (m : gmap string any) k v : (k, v) ∈ entries m -> m !! k = Some v.
Proof.
  intros H. rewrite <- (entries_map m). apply elem_of_list_to_map; [|done].
  pose proof (entries_sorted m) as Hs. clear H. induction Hs as [|[k' v'] l Hl IH He]; [constructor|].
  constructor; [|done]. intros Hin. apply list_elem_of_fmap in Hin as ([k2 v2] & Ek & Hin).
  simpl in Ek. subst k2. rewrite Forall_forall in He. specialize (He _ Hin). unfold key_lt in He. simpl in He.
  by rewrite compare_self in He.
Qed.

Lemma members_of_entries num js l acc :
  to_entries num js l = Some acc -> sorted_map l ->
  members_of num js (list_to_map l) = Some (list_to_map acc).
Proof.
  revert l. induction js as [|e js IH]; intros l H Hs; [by injection H as <-|].
  cbn [to_entries members_of] in *. destruct (to_any num e.2); [|done]. cbn [mbind option_bind] in *.
  rewrite <- set_entry_map by done. apply IH; [done|]. by apply set_entry_sorted.
Qed.

(** A map whose keys are UTF-8 and whose values are well formed. *)
Definition wf_row (m : gmap string any) : Prop :=
  map_Forall (fun k v => valid_utf8 k /\ wf_any v /\ height v < max_depth) m.

Lemma wf_row_entries m : wf_row m -> wf_any (AMap (entries m)) /\ height (AMap (entries m)) <= max_depth.
Proof.
  intros H. assert (Hf : Forall (fun e => valid_utf8 e.1 /\ wf_any e.2 /\ height e.2 < max_depth) (entries m)).
  { rewrite Forall_forall. intros [k v] Hin%entries_elem. by apply H. }
  rewrite wf_map, height_map. split.
  - split; [apply entries_sorted|]. induction Hf as [|e l (?&?&?) Hl IH]; [done|]. by split.
  - clear H. induction Hf as [|e l (?&?&?) Hl IH]; cbn [map heights] in *; unfold max_depth in *; lia.
Qed.

(** An encoded row, whatever follows it, decodes to the same row. *)
Lemma row_reads_back m :
  wf_row m -> exists s, Marshal_map jf m = Some s /\ starts value_start s = true
    /\ forall rest fuel, stops rest -> (2 * String.length s + 1 <= fuel)%nat ->
         exists js, scan_value fuel 0 (s +:+ rest) = Some (JObj js, rest)
         /\ to_map use_number (JObj js) = Some m.
Proof.
  intros Hm. destruct (wf_row_entries m Hm) as [Hwf Hh].
  destruct (all_back _ Hwf) as (s & Hs & Hst & H). exists s. split; [done|]. split; [done|]. intros rest fuel Hr Hf.
  destruct (H rest 0 fuel Hr ltac:(lia) Hf) as (j & Hj & Hto).
  assert (exists js, j = JObj js /\ to_entries use_number js [] = Some (entries m)) as (js & -> & Hjs).
  { destruct j as [|b|lit|raw|l|js]; [done..| |].
    - rewrite to_any_list in Hto. by destruct (to_anys use_number l).
    - rewrite to_any_obj in Hto. exists js. split; [done|].
      destruct (to_entries use_number js []) as [l|]; [|done]. by injection Hto as ->. }
  exists js. split; [done|]. cbn [to_map]. change ∅ with (list_to_map (@nil (string * any)) : gmap string any).
  rewrite (members_of_entries _ _ _ _ Hjs) by constructor. by rewrite entries_map.
Qed.
End Back.

(** ** An encoded value has no control characters *)

Definition visible (c : byte) : bool := 32 <=? code c.
Definition no_control (s : string) : bool := all_bytes visible s.

Lemma no_control_app a b : no_control (a +:+ b) = no_control a && no_control b.
Proof. apply all_bytes_append. Qed.

Lemma no_control_hex k n : no_control (hex_digits k n "") = true.
Proof.
  assert (Hg : forall k n acc, no_control acc = true -> no_control (hex_digits k n acc) = true).
  { clear. induction k as [|k IH]; intros n acc Ha; [done|]. cbn [hex_digits]. apply IH. unfold no_control in *. cbn [all_bytes].
    rewrite Ha, andb_true_r. unfold visible, lower_hex. pose proof (Z.mod_pos_bound n 16 ltac:(lia)).
    destruct (Z.ltb_spec (n mod 16) 10); rewrite code_chr; lia. }
  by apply Hg.
Qed.

Lemma no_control_escape c : no_control (escape_byte c) = true.
Proof.
  pose proof (code_bound c). unfold escape_byte.
  destruct ((c =c quote_byte) || (c =c backslash_byte)) eqn:E0.
  { apply orb_true_iff in E0 as [E0|E0]; [destruct (ch_eq_spec c quote_byte) as [->|]|
      destruct (ch_eq_spec c backslash_byte) as [->|]]; done. }
  repeat match goal with |- context [if c =c chr ?k then _ else _] => destruct (c =c chr k) eqn:?; [done|] end.
  destruct ((code c <? 32) || (c =c "<") || (c =c ">") || (c =c "&")) eqn:E.
  - rewrite no_control_app, no_control_hex. done.
  - unfold no_control, visible. cbn [all_bytes]. destruct (Z.ltb_spec (code c) 32); [done|lia].
Qed.

Lemma no_control_body fuel s : no_control (json_body fuel s) = true.
Proof.
  revert s. induction fuel as [|fuel IH]; intros s; [done|]. destruct s as [|c s]; [done|].
  cbn [json_body]. destruct (Z.ltb_spec (code c) 128); [by rewrite no_control_app, no_control_escape, IH|].
  destruct (decode_rune (String c s)) as [r w] eqn:E. destruct (Nat.eqb_spec w 1); [by rewrite no_control_app, IH|].
  destruct ((r =? 8232) || (r =? 8233)) eqn:E2.
  - rewrite no_control_app. unfold no_control at 2. cbn [all_bytes].
    apply orb_true_iff in E2 as [->%Z.eqb_eq| ->%Z.eqb_eq]; exact (IH _).
  - rewrite no_control_app, IH, andb_true_r.
    pose proof (decode_width (String c s) ltac:(done)) as Hw. rewrite E in Hw. cbn [snd] in Hw.
    eapply all_bytes_impl; [|apply (rune_high _ r w E); lia].
    intros x Hx. unfold high_byte, visible in *. lia.
Qed.

Lemma no_control_string s : no_control (json_string s) = true.
Proof.
  unfold json_string. change (no_control (String quote_byte "" +:+ (json_body (String.length s) s +:+ String quote_byte "")) = true).
  by rewrite !no_control_app, no_control_body.
Qed.

(** The bytes of a number. *)
Definition number_char (c : byte) : bool := is_sign c || number_byte c.
Local Abbreviation number_text := (all_bytes number_char).

Lemma digits_chars s d r : scan_digits s = Some (d, r) -> number_text d = true.
Proof.
  unfold scan_digits. destruct (span is_digit s) as [a b] eqn:E.
  destruct (span_spec _ _ _ _ E) as (_ & Ha & _). destruct (a =s ""); [done|]. intros [= <- _].
  eapply all_bytes_impl; [|exact Ha]. intros x Hx. unfold number_char, number_byte. by rewrite Hx, orb_true_r.
Qed.

Lemma sign_chars c : is_sign c = true -> number_text (String c "") = true.
Proof. intros H. cbn [all_bytes]. unfold number_char. by rewrite H. Qed.

Lemma number_text_cons c s : number_byte c = true -> number_text s = true -> number_text (String c s) = true.
Proof. intros Hc Hs. cbn [all_bytes]. unfold number_char at 1. by rewrite Hc, orb_true_r, Hs. Qed.

Lemma int_chars s i r : scan_int s = Some (i, r) -> number_text i = true.
Proof.
  unfold scan_int. destruct s as [|c s]; [done|]. destruct (ch_eq_spec c "0") as [->|]; [by intros [= <- _]|apply digits_chars].
Qed.
Lemma frac_chars s f r : scan_frac s = Some (f, r) -> number_text f = true.
Proof.
  unfold scan_frac. destruct s as [|c s]; [by intros [= <- _]|]. destruct (ch_eq_spec c ".") as [->|]; [|by intros [= <- _]].
  destruct (scan_digits s) as [[d r']|] eqn:Ed; [|done]. intros [= <- _]. apply number_text_cons; [done|]. by apply digits_chars in Ed.
Qed.
Lemma exp_chars s e r : scan_exp s = Some (e, r) -> number_text e = true.
Proof.
  unfold scan_exp. destruct s as [|c s]; [by intros [= <- _]|].
  destruct ((c =c "e") || (c =c "E")) eqn:E0; [|by intros [= <- _]].
  set (sg := match s with EmptyString => _ | String _ _ => _ end).
  assert (Hsg : number_text sg.1 = true).
  { unfold sg. destruct s as [|x s']; [done|]. destruct (is_sign x) eqn:Ex; [by apply sign_chars|done]. }
  destruct sg as [sg s4]. cbn [fst] in Hsg. destruct (scan_digits s4) as [[d r']|] eqn:Ed; [|done]. intros [= <- _].
  apply number_text_cons.
  - unfold number_byte. by destruct (is_digit c), (c =c "."), (c =c "e"), (c =c "E").
  - by rewrite all_bytes_append, Hsg, (digits_chars _ _ _ Ed).
Qed.

Lemma number_chars lit : valid_number lit = true -> number_text lit = true.
Proof.
  unfold valid_number. destruct (scan_number lit) as [[l b]|] eqn:E; [|done]. destruct (str_eq_spec b ""); [subst b|done].
  intros _. assert (lit = l) as ->.
  { destruct (scan_number_append _ _ _ "" E ltac:(done)) as [_ H]. by rewrite append_nil_r in H. }
  revert E. unfold scan_number. set (ms := match l with EmptyString => _ | String _ _ => _ end).
  assert (Hm : number_text ms.1 = true).
  { unfold ms. destruct l as [|c l]; [done|]. by destruct (ch_eq_spec c "-") as [->|]. }
  destruct ms as [m s]. cbn [fst] in Hm.
  destruct (scan_int s) as [[i s1]|] eqn:E1; [|done]. bind_simpl.
  destruct (scan_frac s1) as [[f s2]|] eqn:E2; [|done]. bind_simpl.
  destruct (scan_exp s2) as [[e s3]|] eqn:E3; [|done]. bind_simpl. intros [= Hl _]. rewrite <- Hl, !all_bytes_append.
  by rewrite Hm, (int_chars _ _ _ E1), (frac_chars _ _ _ E2), (exp_chars _ _ _ E3).
Qed.

Lemma number_no_control lit : valid_number lit = true -> no_control lit = true.
Proof.
  intros H%number_chars. eapply all_bytes_impl; [|exact H]. intros x Hx.
  unfold number_char, number_byte, is_sign, is_digit, visible in *.
  repeat match type of Hx with context [x =c ?y] => destruct (ch_eq_spec x y) as [E|_]; [by rewrite E|] end. lia.
Qed.

Lemma join_no_control l : Forall (fun s => no_control s = true) l -> no_control (join "," l) = true.
Proof.
  induction 1 as [|s l Hs Hl IH]; [done|]. rewrite join_cons, no_control_app, Hs. destruct l; [done|].
  by rewrite no_control_app, IH.
Qed.

Lemma Marshal_no_control jf v s : wf_any v -> Marshal jf v = Some s -> no_control s = true.
Proof.
  revert s. induction v as [|s0|b|lit|z|l IH|m IH] using any_rect'; intros s Hv H.
  - by injection H as <-.
  - injection H as <-. apply no_control_string.
  - injection H as <-. by destruct b.
  - simpl in H, Hv. destruct (lit =s ""); [by injection H as <-|]. rewrite Hv in H. injection H as <-.
    by apply number_no_control.
  - done.
  - rewrite wf_list in Hv. rewrite marshal_alist in H. destruct (marshal_list jf l) as [ss|] eqn:E; [|done].
    assert (s = "[" +:+ join "," ss +:+ "]") as -> by (cbn [mbind option_bind] in H; congruence).
    clear H. rewrite !no_control_app, join_no_control; [done|].
    revert ss E Hv. induction IH as [|x l Hx Hl IHl]; intros ss E Hv; [by injection E as <-|].
    cbn [marshal_list] in E. destruct (Marshal jf x) as [sx|] eqn:Ex; [|done]. cbn [mbind option_bind] in E.
    destruct (marshal_list jf l) as [sl|] eqn:El; [|done]. injection E as <-. destruct Hv as [Hxw Hlw].
    constructor; [by apply Hx|by apply IHl].
  - rewrite wf_map in Hv. rewrite marshal_amap in H. destruct (marshal_entries jf m) as [es|] eqn:E; [|done].
    assert (s = "{" +:+ join "," (map print_entry es) +:+ "}") as ->
      by (cbn [mbind option_bind] in H; unfold print_entry; congruence).
    clear H. destruct Hv as [_ Hv]. rewrite !no_control_app, join_no_control; [done|]. apply Forall_map.
    assert (Hes : Forall (fun e : string * string => no_control e.2 = true) es).
    { revert es E Hv. induction IH as [|e m He Hm IHm]; intros es E Hv; [by injection E as <-|].
      cbn [marshal_entries] in E. destruct (Marshal jf e.2) as [se|] eqn:Ee; [|done]. cbn [mbind option_bind] in E.
      destruct (marshal_entries jf m) as [sl|] eqn:El; [|done]. injection E as <-.
      destruct Hv as [[_ Hew] Hmw]. specialize (IHm sl eq_refl Hmw). specialize (He se Hew eq_refl).
      clear -He IHm. induction IHm as [|x l Hx Hl IH]; simpl; [by constructor|].
      destruct (String.compare e.1 x.1); by repeat constructor. }
    eapply Forall_impl; [exact Hes|]. intros e He. unfold print_entry. by rewrite !no_control_app, no_control_string, He.
Qed.

(** So it is one line. *)
Definition one_line (s : string) : bool := lacks (chr 10) s.
Lemma no_control_lacks c s : code c < 32 -> no_control s = true -> lacks c s = true.
Proof.
  intros Hc. apply all_bytes_impl. intros x Hx. unfold visible in Hx.
  destruct (ch_eq_spec x c) as [->|]; [lia|done].
Qed.
Lemma Marshal_one_line jf v s : wf_any v -> Marshal jf v = Some s -> one_line s = true.
Proof. intros Hv Hs. apply no_control_lacks; [by vm_compute|by apply (Marshal_no_control jf v)]. Qed.
