(* ===== verification/JsonDecoded.v ===== *)
(** * What decoding gives

    Whatever bytes [encoding/json] accepts, the strings it decodes are valid
    UTF-8, its numbers are literals, its maps have increasing keys and nesting is
    bounded: decoded values satisfy [GoJsonProps.wf_any], so that they can be
    encoded again without loss. *)
From S2P Require Import Prelude GoStrings GoUtf8 GoTime Domain GoStrconv GoJson GoJsonProps.

(** ** Runes *)

Lemma rune_whole s w : rune_at s w = true -> String.length s = w -> valid_utf8 s.
Proof.
  intros H Hl. apply (valid_rune _ w); [done|].
  assert (str_drop w s = ""%string) as ->; [|constructor].
  rewrite <- Hl. rewrite <- (append_nil_r s) at 2. apply str_drop_append.
Qed.

Lemma code_of_chr z : 0 <= z < 256 -> code (chr z) = z.
Proof. apply code_chr. Qed.

(** Decide the comparisons of the goal. *)
Ltac zcases :=
  repeat match goal with
  | |- context [?a <? ?b] => destruct (Z.ltb_spec a b); try lia
  | |- context [?a <=? ?b] => destruct (Z.leb_spec a b); try lia
  end.

(** Every rune but the surrogates encodes to valid UTF-8. *)
Lemma encode_rune_valid r : 0 <= r < 1114112 -> is_surrogate r = false -> valid_utf8 (encode_rune r).
Proof.
  intros Hr Hs. unfold is_surrogate in Hs. unfold encode_rune.
  destruct (Z.ltb_spec r 128) as [H1|H1]; [|destruct (Z.ltb_spec r 2048) as [H2|H2]; [|destruct (Z.ltb_spec r 65536) as [H3|H3]]].
  - apply (rune_whole _ 1); [|done]. apply rune_at_ascii. rewrite code_chr by lia. lia.
  - pose proof (Z.mod_pos_bound r 64 ltac:(lia)). pose proof (Z.div_mod r 64 ltac:(lia)).
    apply (rune_whole _ 2); [|done]. unfold rune_at, decode_rune, is_cont, in_range. cbn [of_codes foldr].
    rewrite !code_chr by lia. zcases. done.
  - pose proof (Z.mod_pos_bound r 64 ltac:(lia)). pose proof (Z.div_mod r 64 ltac:(lia)).
    pose proof (Z.mod_pos_bound (r / 64) 64 ltac:(lia)). pose proof (Z.div_mod (r / 64) 64 ltac:(lia)).
    assert (r / 4096 = r / 64 / 64) as -> by (rewrite Z.div_div by lia; done).
    apply (rune_whole _ 3); [|done]. unfold rune_at, decode_rune, is_cont, in_range. cbn [of_codes foldr].
    rewrite !code_chr by lia.
    destruct (Z.eqb_spec (224 + r / 64 / 64) 224), (Z.eqb_spec (224 + r / 64 / 64) 237);
      zcases; done.
  - pose proof (Z.mod_pos_bound r 64 ltac:(lia)). pose proof (Z.div_mod r 64 ltac:(lia)).
    pose proof (Z.mod_pos_bound (r / 64) 64 ltac:(lia)). pose proof (Z.div_mod (r / 64) 64 ltac:(lia)).
    pose proof (Z.mod_pos_bound (r / 64 / 64) 64 ltac:(lia)). pose proof (Z.div_mod (r / 64 / 64) 64 ltac:(lia)).
    assert (r / 4096 = r / 64 / 64) as -> by (rewrite Z.div_div by lia; done).
    assert (r / 262144 = r / 64 / 64 / 64) as -> by (rewrite !Z.div_div by lia; done).
    apply (rune_whole _ 4); [|done]. unfold rune_at, decode_rune, is_cont, in_range. cbn [of_codes foldr].
    rewrite !code_chr by lia.
    destruct (Z.eqb_spec (240 + r / 64 / 64 / 64) 240), (Z.eqb_spec (240 + r / 64 / 64 / 64) 244);
      zcases; done.
Qed.

(** ** String literals *)

(** The body of a literal the scanner accepts. *)
Inductive literal : string -> Prop :=
  | literal_nil : literal ""
  | literal_plain c s : (c =c backslash_byte) = false -> literal s -> literal (String c s)
  | literal_escape e v s : json_escape e = Some v -> literal s -> literal (String backslash_byte (String e s))
  | literal_hex a b d f s : is_hex a && is_hex b && is_hex d && is_hex f = true -> literal s ->
      literal (String backslash_byte (String "u" (String a (String b (String d (String f s)))))).

Lemma scan_string_literal n s raw rest :
  (String.length s <= n)%nat -> scan_string s = Some (raw, rest) -> literal raw.
Proof.
  revert s raw rest. induction n as [|n IH]; intros s raw rest Hn H; [by destruct s; [|simpl in Hn; lia]|].
  destruct s as [|c s]; [done|]. cbn [scan_string] in H. cbn [String.length] in Hn.
  destruct (c =c quote_byte); [injection H as <- <-; constructor|].
  destruct (ch_eq_spec c backslash_byte) as [->|Hb].
  - destruct s as [|e s]; [done|]. cbn [String.length] in Hn. destruct (ch_eq_spec e "u") as [->|Hu].
    + destruct s as [|a [|b [|d [|f s]]]]; try done. cbn [String.length] in Hn.
      destruct (_ && _) eqn:Eh; [|done]. destruct (scan_string s) as [[raw' rest']|] eqn:E; [|done].
      injection H as <- <-. constructor; [done|]. by apply (IH s raw' rest'); [lia|].
    + destruct (json_escape e) as [v|] eqn:Ev; [|done]. destruct (scan_string s) as [[raw' rest']|] eqn:E; [|done].
      injection H as <- <-. apply (literal_escape e v); [done|]. by apply (IH s raw' rest'); [lia|].
  - destruct (code c <? 32); [done|]. destruct (scan_string s) as [[raw' rest']|] eqn:E; [|done].
    injection H as <- <-. constructor; [by destruct (ch_eq_spec c backslash_byte)|]. by apply (IH s raw' rest'); [lia|].
Qed.

(** Bytes outside ASCII are plain, one by one. *)
Lemma literal_drop w s : literal s -> all_bytes high_byte (str_take w s) = true -> literal (str_drop w s).
Proof.
  revert s. induction w as [|w IH]; intros s Hs Hh; [by destruct s|].
  destruct s as [|c s]; [constructor|]. cbn [str_take str_drop all_bytes] in *. apply andb_true_iff in Hh as [Hc Hh].
  apply IH; [|done]. inversion Hs as [|? ? _ ? | |]; subst; [done| |].
  - unfold high_byte in Hc. by vm_compute in Hc.
  - unfold high_byte in Hc. by vm_compute in Hc.
Qed.

Lemma hex_digit_bound c v : hex_value c = Some v -> 0 <= v < 16.
Proof. unfold hex_value. repeat case_match; intros [= <-]; b2p; lia. Qed.
Lemma read_hex_bound k acc s n r : 0 <= acc -> read_hex k acc s = Some (n, r) -> 0 <= n < (acc + 1) * 16 ^ Z.of_nat k.
Proof.
  revert acc s. induction k as [|k IH]; intros acc s Ha H.
  - injection H as <- <-. change (16 ^ Z.of_nat 0) with 1. lia.
  - destruct s as [|c s]; [done|]. cbn [read_hex] in H. destruct (hex_value c) as [v|] eqn:E; [|done].
    apply hex_digit_bound in E. cbn [mbind option_bind] in H. apply IH in H; [|lia].
    rewrite Nat2Z.inj_succ, Z.pow_succ_r by lia. pose proof (Z.pow_pos_nonneg 16 (Z.of_nat k) ltac:(lia) ltac:(lia)). nia.
Qed.
Lemma getu4_bound s r : getu4 s = Some r -> 0 <= r < 65536.
Proof.
  unfold getu4. destruct s as [|c [|e [|a [|b [|d [|f s]]]]]]; try done. destruct (_ && _); [|done].
  destruct (read_hex 4 0 _) as [[n t]|] eqn:E; [|done]. intros [= <-]. apply read_hex_bound in E; [|done]. lia.
Qed.
Lemma decode_pair_bound r1 r2 d : decode_pair r1 r2 = Some d -> 65536 <= d < 1114112.
Proof. unfold decode_pair. destruct (_ && _) eqn:E; [|done]. intros [= <-]. b2p. lia. Qed.

(** A four digit escape leaves a literal behind it. *)
Lemma literal_getu4 s r : literal s -> getu4 s = Some r -> literal (str_drop 6 s).
Proof.
  intros Hs H. unfold getu4 in H. destruct s as [|c [|e [|a [|b [|d [|f s]]]]]]; try done.
  destruct (ch_eq_spec c backslash_byte) as [->|]; [|done]. destruct (ch_eq_spec e "u") as [->|]; [|done].
  inversion Hs as [|? ? Hc _|? v ? He _|? ? ? ? ? _ Hl]; subst; [discriminate Hc|discriminate He|].
  cbn [str_drop]. by destruct s.
Qed.

Lemma rune_error_valid : valid_utf8 (encode_rune rune_error).
Proof. by apply encode_rune_valid. Qed.

Lemma one_byte c s r : decode_rune (String c s) = (r, 1%nat) -> valid_utf8 (encode_rune r).
Proof.
  intros E. destruct (decide (r = rune_error)) as [->|Hne]; [apply rune_error_valid|].
  destruct (encode_decode c s r 1 E) as [-> _]; [by intros [_ ?]|]. cbn [str_take].
  replace (str_take 0 s) with ""%string by (by destruct s). apply valid_ascii. cbn [all_bytes]. rewrite andb_true_r.
  destruct (code c <? 128) eqn:Hc; [done|]. exfalso. apply Hne.
  pose proof (decode_one c s Hc) as Ho. rewrite E in Ho. by apply Ho.
Qed.

Lemma rune_bytes c s r w : decode_rune (String c s) = (r, w) -> (1 < w)%nat -> valid_utf8 (encode_rune r).
Proof.
  intros E Hw. destruct (encode_decode c s r w E) as [-> _]; [lia|]. apply rune_valid; [done|]. by rewrite E.
Qed.

Lemma literal_utf8 n s : (String.length s <= n)%nat -> literal s -> valid_utf8 (string_of_literal s).
Proof.
  revert s. induction n as [|n IH]; intros s Hn Hs; [destruct s; [constructor|simpl in Hn; lia]|].
  destruct s as [|c s]; [constructor|]. cbn [String.length] in Hn. rewrite unquote_json_step.
  destruct (c =c backslash_byte) eqn:Ec.
  - destruct (getu4 (String c s)) as [r|] eqn:Er; cbv zeta.
    + pose proof (literal_getu4 _ _ Hs Er) as Hd. cbn [str_drop] in Hd. pose proof (getu4_bound _ _ Er).
      assert (Hrest : valid_utf8 (string_of_literal (str_drop 5 s))).
      { apply IH; [rewrite length_str_drop; lia|done]. }
      destruct (is_surrogate r) eqn:Es.
      * destruct (getu4 (str_drop 5 s)) as [r2|] eqn:Er2; cbn [mbind option_bind];
          [|by apply valid_append; [apply rune_error_valid|]].
        destruct (decode_pair r r2) as [d|] eqn:Ed; [|by apply valid_append; [apply rune_error_valid|]].
        apply decode_pair_bound in Ed. apply valid_append; [apply encode_rune_valid; [lia|unfold is_surrogate; lia]|].
        apply IH; [rewrite !length_str_drop; lia|]. by apply (literal_getu4 _ r2).
      * apply valid_append; [by apply encode_rune_valid; [lia|]|done].
    + destruct s as [|e s]; [constructor|]. cbn [String.length] in Hn.
      inversion Hs as [|? ? Hc _|? v ? He Hl|? ? ? ? ? Hx Hl]; subst; [congruence| |].
      * rewrite He. change (default e (Some v)) with v. change (String v ?x) with (String v "" +:+ x).
        apply valid_append; [|apply IH; [lia|done]]. apply valid_ascii. cbn [all_bytes].
        unfold json_escape in He. repeat (case_match; [by injection He as <-|]). done.
      * exfalso. unfold getu4 in Er. rewrite Ec in Er. cbn [andb] in Er. change ("u" =c "u") with true in Er. cbv iota in Er.
        repeat (apply andb_true_iff in Hx as [Hx ?]). unfold is_hex in *. cbn [read_hex] in Er.
        repeat match type of Er with context [hex_value ?x] => destruct (hex_value x); [cbn [mbind option_bind] in Er|done] end.
        done.
  - destruct (decode_rune (String c s)) as [r w] eqn:E. pose proof (decode_width (String c s) ltac:(done)) as Hw.
    rewrite E in Hw. cbn [snd] in Hw. destruct w as [|w]; [lia|]. cbn [str_drop].
    assert (Hl : literal s) by (inversion Hs; subst; by first [done|discriminate Ec]).
    assert (literal (str_drop w s)).
    { apply literal_drop; [done|]. destruct w as [|w]; [by destruct s|].
      pose proof (rune_high _ _ _ E ltac:(lia)) as Hh. cbn [str_take all_bytes] in Hh. by apply andb_true_iff in Hh as [_ ?]. }
    apply valid_append; [|apply IH; [rewrite length_str_drop; lia|done]].
    destruct w as [|w]; [by apply (one_byte c s)|]. by apply (rune_bytes c s r (S (S w))); [|lia].
Qed.

Lemma scanned_utf8 s raw rest : scan_string s = Some (raw, rest) -> valid_utf8 (string_of_literal raw).
Proof. intros H. eapply literal_utf8, scan_string_literal; done. Qed.

(** ** Numbers *)

Lemma scan_digits_only s d r t :
  scan_digits s = Some (d, r) -> starts is_digit t = false ->
  scan_digits (d +:+ t) = Some (d, t) /\ starts is_digit d = true.
Proof.
  unfold scan_digits. destruct (span is_digit s) as [a b] eqn:E. destruct (span_spec _ _ _ _ E) as (-> & Ha & Hb).
  destruct (str_eq_spec a "") as [|Hne]; [done|]. intros [= -> ->] Ht. rewrite (span_append is_digit d t) by done.
  destruct (str_eq_spec d ""); [done|]. split; [done|]. destruct d as [|c d]; [done|]. cbn [all_bytes starts] in *.
  by apply andb_true_iff in Ha as [-> _].
Qed.
Lemma scan_int_only s d r t :
  scan_int s = Some (d, r) -> starts is_digit t = false -> scan_int (d +:+ t) = Some (d, t).
Proof.
  destruct s as [|c s]; [done|]. unfold scan_int at 1. destruct (ch_eq_spec c "0") as [->|Hc].
  - intros [= <- <-] _. done.
  - intros H Ht. destruct (scan_digits_only _ _ _ t H Ht) as [Hd Hs]. destruct d as [|c' d]; [done|].
    rewrite append_cons in *. cbn [scan_int]. destruct (ch_eq_spec c' "0") as [->|]; [|done]. exfalso.
    unfold scan_digits in H. destruct (span is_digit (String c s)) as [a b] eqn:E.
    destruct (span_spec _ _ _ _ E) as (Heq & _ & _). destruct (a =s ""); [done|]. injection H as -> ->.
    injection Heq as -> _. done.
Qed.
Lemma scan_frac_only s f r t :
  scan_frac s = Some (f, r) -> starts is_digit t = false -> starts (ch_eq ".") t = false ->
  scan_frac (f +:+ t) = Some (f, t) /\ (f = ""%string \/ exists d, f = String "." d).
Proof.
  intros H Ht Hp. assert (H0 : scan_frac t = Some (""%string, t)).
  { destruct t as [|x t]; [done|]. unfold scan_frac. cbn [starts] in Hp. destruct (ch_eq_spec x "."); [by subst|done]. }
  destruct s as [|c s]; [injection H as <- <-; by split; [|left]|]. unfold scan_frac in H.
  destruct (ch_eq_spec c ".") as [->|]; [|injection H as <- <-; by split; [|left]].
  destruct (scan_digits s) as [[d r']|] eqn:E; [|done]. injection H as <- <-.
  destruct (scan_digits_only _ _ _ t E Ht) as [Hd _]. split; [|right; by exists d].
  rewrite append_cons. unfold scan_frac. change ("." =c ".") with true. cbv iota. by rewrite Hd.
Qed.
Lemma scan_exp_only s e r :
  scan_exp s = Some (e, r) ->
  scan_exp e = Some (e, ""%string) /\ (e = ""%string \/ exists c d, e = String c d /\ (c =c "e") || (c =c "E") = true).
Proof.
  intros H. destruct s as [|c s]; [injection H as <- <-; by split; [|left]|]. unfold scan_exp in H.
  destruct ((c =c "e") || (c =c "E")) eqn:Ec; [|injection H as <- <-; by split; [|left]].
  assert (Hd : forall s d r', scan_digits s = Some (d, r') -> scan_digits d = Some (d, ""%string) /\ starts is_digit d = true).
  { intros s0 d r' Hs. rewrite <- (append_nil_r d) at 1. by apply (scan_digits_only s0 _ r'). }
  set (q := match s with EmptyString => _ | String _ _ => _ end) in H. destruct q as [sg s1] eqn:Eq.
  destruct (scan_digits s1) as [[d r']|] eqn:E; [|done]. injection H as <- <-. destruct (Hd _ _ _ E) as [H1 H2].
  split; [|right; by exists c, (sg +:+ d)]. cbn [scan_exp]. rewrite Ec. subst q.
  destruct s as [|x s]; [by injection Eq as <- <-|]. destruct (is_sign x) eqn:Ex; injection Eq as <- <-.
  - rewrite append_cons, Ex. change ("" +:+ d) with d. by rewrite H1.
  - change ("" +:+ d) with d. destruct d as [|y d]; [done|]. cbn [starts] in H2.
    assert (is_sign y = false) as ->.
    { unfold is_sign. destruct (ch_eq_spec y "+") as [->|]; [done|]. by destruct (ch_eq_spec y "-") as [->|]. }
    by rewrite H1.
Qed.

(** A scanned literal is a number by itself. *)
Lemma scanned_number s l r : scan_number s = Some (l, r) -> valid_number l = true.
Proof.
  assert (Hm : forall m t, (m = ""%string /\ starts (ch_eq "-") t = false) \/ m = "-"%string ->
    ('(i, s) ← scan_int t; '(f, s) ← scan_frac s; '(e, s) ← scan_exp s; Some (m +:+ i +:+ f +:+ e, s)) = Some (l, r) ->
    valid_number l = true).
  { intros m t Hmt H. destruct (scan_int t) as [[i s1]|] eqn:E1; [|done]. cbn [mbind option_bind] in H.
    destruct (scan_frac s1) as [[f s2]|] eqn:E2; [|done]. cbn [mbind option_bind] in H.
    destruct (scan_exp s2) as [[e s3]|] eqn:E3; [|done]. injection H as <- ->.
    destruct (scan_exp_only _ _ _ E3) as [He Hes].
    assert (Hed : starts is_digit e = false /\ starts (ch_eq ".") e = false).
    { destruct Hes as [->|(c & d & -> & Hc)]; [done|]. cbn [starts].
      destruct (ch_eq_spec c "e") as [->|]; [done|]. destruct (ch_eq_spec c "E") as [->|]; [done|discriminate Hc]. }
    destruct (scan_frac_only _ _ _ e E2) as [Hf Hfs]; [apply Hed..|].
    assert (Hfd : starts is_digit (f +:+ e) = false) by (destruct Hfs as [->|[d ->]]; [apply Hed|done]).
    pose proof (scan_int_only _ _ _ (f +:+ e) E1 Hfd) as Hi.
    unfold valid_number.
    assert (Hgo : ('(i, s) ← scan_int (i +:+ f +:+ e); '(f, s) ← scan_frac s; '(e, s) ← scan_exp s;
      Some (m +:+ i +:+ f +:+ e, s)) = Some (m +:+ i +:+ f +:+ e, ""%string)).
    { rewrite Hi. bind_simpl. rewrite Hf. bind_simpl. by rewrite He. }
    destruct Hmt as [[-> Ht]| ->].
    - assert (Hn : scan_number (i +:+ f +:+ e) = Some (i +:+ f +:+ e, ""%string)); [|change ("" +:+ ?x) with x; by rewrite Hn].
      etransitivity; [|exact Hgo]. unfold scan_number. destruct (i +:+ f +:+ e) as [|c x]; [done|].
      destruct (ch_eq_spec c "-") as [->|]; [exfalso|done].
      unfold scan_int in Hi. change ("-" =c "0") with false in Hi. cbv iota in Hi. unfold scan_digits in Hi.
      cbn [span] in Hi. change (is_digit "-") with false in Hi. by cbv iota in Hi.
    - assert (Hn : scan_number (String "-" (i +:+ f +:+ e)) = Some (String "-" (i +:+ f +:+ e), ""%string)) by exact Hgo.
      change ("-" +:+ i +:+ f +:+ e) with (String "-" (i +:+ f +:+ e)). by rewrite Hn. }
  unfold scan_number. destruct s as [|c s]; [done|]. destruct (ch_eq_spec c "-") as [->|Hc].
  - apply Hm. by right.
  - apply (Hm ""%string (String c s)). left. split; [done|]. cbn [starts]. by destruct (ch_eq_spec "-" c); [subst|].
Qed.

(** ** Values *)

Lemma set_entry_wf k v l :
  valid_utf8 k -> wf_any v -> all_wf_entries l -> all_wf_entries (set_entry k v l).
Proof.
  intros Hk Hv. induction l as [|e l IH]; intros Hl; cbn [set_entry all_wf_entries] in *; [done|].
  destruct Hl as [He Hl]. destruct (String.compare k e.1); cbn [all_wf_entries]; split_and!; try done; try apply He. by apply IH.
Qed.
Lemma set_entry_heights k v l : heights (map snd (set_entry k v l)) <= Z.max (height v) (heights (map snd l)).
Proof.
  induction l as [|e l IH]; cbn [set_entry map heights snd]; [lia|].
  destruct (String.compare k e.1); cbn [map heights snd]; lia.
Qed.

(** A value decoded at [depth]. *)
Definition good (depth : Z) (j : json) : Prop :=
  exists v, to_any use_number j = Some v /\ wf_any v /\ depth + height v <= max_depth.
Definition good_elems (depth : Z) (l : list json) : Prop :=
  exists vs, to_anys use_number l = Some vs /\ all_wf vs /\ depth + heights vs <= max_depth.
Definition good_members (depth : Z) (m : list (string * json)) : Prop :=
  forall acc, sorted_map acc -> all_wf_entries acc -> depth + heights (map snd acc) <= max_depth ->
  exists out, to_entries use_number m acc = Some out /\ sorted_map out /\ all_wf_entries out
    /\ depth + heights (map snd out) <= max_depth.

Lemma good_simple d j v : d <= max_depth -> to_any use_number j = Some v -> wf_any v -> height v = 0 -> good d j.
Proof. intros Hd Hj Hv Hh. exists v. split_and!; [done..|lia]. Qed.

Lemma good_list d l : good_elems (d + 1) l -> good d (JArr l).
Proof.
  intros (vs & Hl & Hw & Hh). exists (AList vs). rewrite to_any_list, Hl, wf_list, height_list. split_and!; [done..|lia].
Qed.
Lemma good_obj d m : d + 1 <= max_depth -> good_members (d + 1) m -> good d (JObj m).
Proof.
  intros Hd H. destruct (H []) as (out & Hm & Hs & Hw & Hh); [constructor|done|cbn; lia|].
  exists (AMap out). rewrite to_any_obj, Hm, wf_map, height_map. split_and!; [done..|lia].
Qed.
Lemma good_elems_cons d j l : good d j -> good_elems d l -> good_elems d (j :: l).
Proof.
  intros (v & Hj & Hv & Hh) (vs & Hl & Hw & Hhs). exists (v :: vs). cbn [to_anys all_wf heights]. rewrite Hj, Hl.
  split_and!; [done..|lia].
Qed.
Lemma good_members_cons d k j m : valid_utf8 k -> good d j -> good_members d m -> good_members d ((k, j) :: m).
Proof.
  intros Hk (v & Hj & Hv & Hh) Hm acc Hs Hw Hha. cbn [to_entries fst snd]. rewrite Hj. bind_simpl. apply Hm.
  - by apply set_entry_sorted.
  - by apply set_entry_wf.
  - pose proof (set_entry_heights k v acc). lia.
Qed.
Lemma good_nil d : d <= max_depth -> good_elems d [] /\ good_members d [].
Proof. intros Hd. split; [exists []; split_and!; [done..|cbn; lia]|]. intros acc Hs Hw Hh. by exists acc. Qed.

Definition value_good (n : nat) : Prop := forall d s j r,
  d <= max_depth -> scan_value n d s = Some (j, r) -> good d j.
Definition elems_good (n : nat) : Prop := forall d s l r,
  d <= max_depth -> scan_elems n d s = Some (l, r) -> good_elems d l.
Definition members_good (n : nat) : Prop := forall d s m r,
  d <= max_depth -> scan_members n d s = Some (m, r) -> good_members d m.

Lemma value_good_step n : elems_good n -> members_good n -> value_good (S n).
Proof.
  intros He Hm d s j r Hd H. cbn [scan_value] in H. destruct (skip_ws s) as [|c t]; [done|].
  destruct (c =c "{").
  { destruct (Z.ltb_spec max_depth (d + 1)); [done|]. destruct (skip_ws t) as [|c' r']; [done|]. destruct (c' =c "}").
    - injection H as <- <-. apply good_obj; [lia|]. apply good_nil. lia.
    - destruct (scan_members n (d + 1) t) as [[m rest]|] eqn:E; [|done]. injection H as <- <-.
      apply good_obj; [lia|]. apply (Hm (d + 1) t m rest); [lia|done]. }
  destruct (c =c "[").
  { destruct (Z.ltb_spec max_depth (d + 1)); [done|]. destruct (skip_ws t) as [|c' r']; [done|]. destruct (c' =c "]").
    - injection H as <- <-. apply good_list, good_nil. lia.
    - destruct (scan_elems n (d + 1) t) as [[l rest]|] eqn:E; [|done]. injection H as <- <-.
      apply good_list. apply (He (d + 1) t l rest); [lia|done]. }
  destruct (c =c quote_byte).
  { destruct (scan_string t) as [[raw rest]|] eqn:E; [|done]. injection H as <- <-.
    apply (good_simple _ _ (AStr (string_of_literal raw))); try done. by apply (scanned_utf8 t _ rest). }
  destruct (c =c "t"); [destruct (strip_prefix _ _); [|done]; injection H as <- <-; by apply (good_simple _ _ (ABool true))|].
  destruct (c =c "f"); [destruct (strip_prefix _ _); [|done]; injection H as <- <-; by apply (good_simple _ _ (ABool false))|].
  destruct (c =c "n"); [destruct (strip_prefix _ _); [|done]; injection H as <- <-; by apply (good_simple _ _ ANil)|].
  destruct (scan_number _) as [[lit rest]|] eqn:E; [|done]. injection H as <- <-.
  apply (good_simple _ _ (ANumber lit)); try done. by apply (scanned_number _ _ _ E).
Qed.

Lemma elems_good_step n : value_good n -> elems_good n -> elems_good (S n).
Proof.
  intros Hv He d s l r Hd H. cbn [scan_elems] in H. destruct (scan_value n d s) as [[v t]|] eqn:Ev; [|done].
  cbn [mbind option_bind] in H. pose proof (Hv _ _ _ _ Hd Ev). destruct (skip_ws t) as [|c t']; [done|].
  destruct (c =c ",").
  - destruct (scan_elems n d t') as [[l' t2]|] eqn:El; [|done]. injection H as <- <-.
    apply good_elems_cons; [done|]. by apply (He _ _ _ _ Hd El).
  - destruct (c =c "]"); [|done]. injection H as <- <-. apply good_elems_cons; [done|]. by apply good_nil.
Qed.

Lemma members_good_step n : value_good n -> members_good n -> members_good (S n).
Proof.
  intros Hv Hm d s m r Hd H. cbn [scan_members] in H. destruct (skip_ws s) as [|c t]; [done|].
  destruct (c =c quote_byte); [|done]. destruct (scan_string t) as [[raw t1]|] eqn:Es; [|done].
  apply scanned_utf8 in Es. cbn [mbind option_bind] in H. destruct (skip_ws t1) as [|c1 t2]; [done|].
  destruct (c1 =c ":"); [|done]. destruct (scan_value n d t2) as [[v t3]|] eqn:Ev; [|done].
  cbn [mbind option_bind] in H. pose proof (Hv _ _ _ _ Hd Ev). destruct (skip_ws t3) as [|c2 t4]; [done|].
  destruct (c2 =c ",").
  - destruct (scan_members n d t4) as [[m' t5]|] eqn:Em; [|done]. injection H as <- <-.
    apply good_members_cons; [done..|]. by apply (Hm _ _ _ _ Hd Em).
  - destruct (c2 =c "}"); [|done]. injection H as <- <-. apply good_members_cons; [done..|]. by apply good_nil.
Qed.

Lemma scan_good n : value_good n /\ elems_good n /\ members_good n.
Proof.
  induction n as [|n (Hv & He & Hm)]; [done|].
  split_and!; [by apply value_good_step|by apply elems_good_step|by apply members_good_step].
Qed.

(** What [Decode] and [Unmarshal] scan. *)
Lemma scanned_good s j r : scan s = Some (j, r) -> good 0 j.
Proof. intros H. by apply (proj1 (scan_good (2 * String.length s + 1)) 0 s j r). Qed.
Lemma decoded_good cut s j r : Decode cut s = DValue j r -> good 0 j.
Proof.
  unfold Decode. destruct (_ =s _); [by destruct cut|]. destruct (scan s) as [[j' r']|] eqn:E; [|done].
  apply scanned_good in E. destruct j'; try (by intros [= <- <-]); by destruct (_ && _); intros [= <- <-].
Qed.

(** The values of an object nest less than the object. *)
Lemma all_wf_elem k v m : In (k, v) m -> all_wf_entries m -> valid_utf8 k /\ wf_any v /\ height v <= heights (map snd m).
Proof.
  induction m as [|e m IH]; intros Hin Hm; [done|]. cbn [all_wf_entries map heights] in *. destruct Hm as [He Hm].
  destruct Hin as [->|Hin].
  - destruct He. split_and!; [done..|]. cbn [snd]. lia.
  - destruct (IH Hin Hm) as (? & ? & ?). split_and!; [done..|lia].
Qed.
Lemma map_wf_row m : wf_any (AMap m) -> height (AMap m) <= max_depth -> wf_row (list_to_map m).
Proof.
  rewrite wf_map, height_map. intros [_ Hw] Hh k v Hk. apply elem_of_list_to_map_2, list_elem_of_In in Hk.
  destruct (all_wf_elem k v m Hk Hw) as (? & ? & ?). split_and!; [done..|lia].
Qed.

Lemma to_map_any j m : to_map use_number j = Some m -> good 0 j -> wf_row m.
Proof.
  intros H (v & Hv & Hw & Hh). destruct j as [| | | | |ms]; try done.
  - injection H as <-. apply map_Forall_empty.
  - rewrite to_any_obj in Hv. destruct (to_entries use_number ms []) as [out|] eqn:E; [|done]. injection Hv as <-.
    cbn [to_map] in H. change ∅ with (list_to_map [] : gmap string any) in H.
    rewrite (members_of_entries use_number ms [] out E) in H by constructor. injection H as <-.
    apply map_wf_row; [done|]. lia.
Qed.

(** ** Printed values *)

Lemma Sprint_join_valid sep l : valid_utf8 sep -> Forall valid_utf8 l -> valid_utf8 (join sep l).
Proof.
  intros Hsep. induction 1 as [|s l Hs Hl IH]; [constructor|]. rewrite join_cons.
  apply valid_append; [done|]. destruct l; [constructor|]. by apply valid_append.
Qed.
Lemma insert_entry_valid e l :
  valid_utf8 e.1 /\ valid_utf8 e.2 -> Forall (fun e : string * string => valid_utf8 e.1 /\ valid_utf8 e.2) l ->
  Forall (fun e : string * string => valid_utf8 e.1 /\ valid_utf8 e.2) (insert_entry e l).
Proof.
  intros He. induction 1 as [|x l Hx Hl IH]; cbn [insert_entry]; [by constructor|].
  destruct (String.leb e.1 x.1); (constructor; [done|]); [by constructor|done].
Qed.
Lemma number_ascii lit : valid_number lit = true -> valid_utf8 lit.
Proof.
  intros H%number_chars. apply valid_ascii. eapply all_bytes_impl; [|exact H]. intros x Hx. destruct (code x <? 128) eqn:E; [done|].
  exfalso. unfold number_char, is_sign, number_byte, is_digit in Hx.
  assert (Hne : forall k, (code k <? 128) = true -> (x =c k) = false).
  { intros k Hk. destruct (ch_eq_spec x k) as [Hxk|]; [|done]. rewrite Hxk in E. congruence. }
  rewrite !Hne in Hx by done. simpl in Hx. b2p. lia.
Qed.

Lemma Sprint_valid sprint_float v : wf_any v -> valid_utf8 (Sprint sprint_float v).
Proof.
  induction v as [|s|b|lit|z|l IH|m IH] using any_rect'; intros Hv; cbn [Sprint].
  - by apply valid_ascii.
  - done.
  - apply valid_ascii. by destruct b.
  - by apply number_ascii.
  - done.
  - rewrite wf_list in Hv. apply valid_append; [by apply valid_ascii|]. apply valid_append; [|by apply valid_ascii].
    apply Sprint_join_valid; [by apply valid_ascii|].
    induction IH as [|x l Hx _ IHl]; [constructor|]. destruct Hv as [Hxv Hv]. constructor; [by apply Hx|by apply IHl].
  - rewrite wf_map in Hv. destruct Hv as [_ Hv]. cbv zeta. apply valid_append; [by apply valid_ascii|].
    apply valid_append; [|by apply valid_ascii]. apply Sprint_join_valid; [by apply valid_ascii|].
    apply Forall_map. apply Forall_impl with (P := fun e : string * string => valid_utf8 e.1 /\ valid_utf8 e.2).
    + induction IH as [|e m He _ IHm]; [constructor|]. destruct Hv as [[Hk Hev] Hv]. cbn [map foldr].
      apply insert_entry_valid; [|by apply IHm]. split; [done|by apply He].
    + intros e [H1 H2]. apply valid_append; [done|]. apply valid_append; [by apply valid_ascii|done].
Qed.
