(* ===== verification/GoCsv.v ===== *)
(** * Buffered writing and CSV

    [bufio.Writer] and [csv.Writer] of Go's standard library as exports use them:
    the writes a record comes to, what has left the buffer after them, and the
    text of a record, which a reader of RFC 4180 reads back. *)
From S2P Require Import Prelude GoStrings.

(** ** [bufio.Writer]

    Over a writer without a [WriteString] of its own, which takes all it is given:
    [wr_sent] has reached it. *)
Record Writer := mkWriter { wr_sent : string; wr_held : string }.
(** [Write] and [WriteByte], and [WriteString]. *)
Inductive written := WBytes (p : string) | WString (p : string).
Definition payload_text (x : written) : string := match x with WBytes p => p | WString p => p end.

Definition buffer_size : Z := Z.shiftl 64 10.

(** [WriteString] fills the buffer and sends it until the rest fits. *)
Fixpoint buf_chunks (fuel : nat) (sent held : string) : Writer :=
  match fuel with
  | O => mkWriter sent held
  | S fuel =>
      if len held <=? buffer_size then mkWriter sent held
      else buf_chunks fuel (sent +:+ str_take (Z.to_nat buffer_size) held) (str_drop (Z.to_nat buffer_size) held)
  end.
(** [Write] sends a slice that does not fit into an empty buffer as it is. *)
Definition buf_bytes (sent p : string) : Writer :=
  if len p <=? buffer_size then mkWriter sent p else mkWriter (sent +:+ p) "".
Definition buf_write (w : Writer) (x : written) : Writer :=
  match x with
  | WString p => let held := wr_held w +:+ p in buf_chunks (String.length held) (wr_sent w) held
  | WBytes p =>
      let held := wr_held w +:+ p in
      if len held <=? buffer_size then mkWriter (wr_sent w) held
      else if wr_held w =s "" then mkWriter (wr_sent w +:+ p) ""
      else buf_bytes (wr_sent w +:+ str_take (Z.to_nat buffer_size) held) (str_drop (Z.to_nat buffer_size) held)
  end.
(** What is there after a [Flush]. *)
Definition buf_text (w : Writer) : string := wr_sent w +:+ wr_held w.

(** ** [csv.Writer]

    With a comma, straight into the buffer it is given. *)
Definition csv_special (c : byte) : bool :=
  (c =c chr 10) || (c =c chr 13) || (c =c chr 34) || (c =c ",").
Definition fieldNeedsQuotes (f : string) : bool :=
  if f =s "" then false
  else if f =s "\." then true
  else negb (all_bytes (fun c => negb (csv_special c)) f)
    || match strip_any space_encodings f with Some _ => true | None => false end.
Fixpoint csv_double (f : string) : string :=
  match f with
  | EmptyString => ""
  | String c f => (if c =c chr 34 then String c (String c "") else String c "") +:+ csv_double f
  end.
Definition csv_field (f : string) : string :=
  if fieldNeedsQuotes f then String (chr 34) (csv_double f +:+ String (chr 34) "") else f.
Definition csv_record (fs : list string) : string := join "," (map csv_field fs) +:+ String (chr 10) "".

(** The inside of a quoted field; [run] is what is to be written at once. *)
Fixpoint csv_quoted_writes (run f : string) : list written :=
  match f with
  | EmptyString => if run =s "" then [] else [WString run]
  | String c f =>
      if c =c chr 34 then WString run :: WString (String c (String c "")) :: csv_quoted_writes "" f
      else if (c =c chr 13) || (c =c chr 10) then WString run :: WBytes (String c "") :: csv_quoted_writes "" f
      else csv_quoted_writes (run +:+ String c "") f
  end.
Definition csv_field_writes (f : string) : list written :=
  if fieldNeedsQuotes f
  then WBytes (String (chr 34) "") :: csv_quoted_writes "" f ++ [WBytes (String (chr 34) "")]
  else [WString f].
Fixpoint csv_fields_writes (fs : list string) : list written :=
  match fs with
  | [] => []
  | [f] => csv_field_writes f
  | f :: fs => csv_field_writes f ++ WBytes "," :: csv_fields_writes fs
  end.
Definition csv_writes (fs : list string) : list written := csv_fields_writes fs ++ [WBytes (String (chr 10) "")].

Definition concat_text (ts : list string) : string := foldr String.append ""%string ts.
Definition writes_text (ws : list written) : string := concat_text (map payload_text ws).

Lemma concat_text_app a b : concat_text (a ++ b) = concat_text a +:+ concat_text b.
Proof. induction a as [|x a IH]; [done|]. cbn [app concat_text foldr]. unfold concat_text in IH. by rewrite IH, append_assoc. Qed.
Lemma writes_text_app a b : writes_text (a ++ b) = writes_text a +:+ writes_text b.
Proof. unfold writes_text. by rewrite map_app, concat_text_app. Qed.
Lemma writes_text_cons x ws : writes_text (x :: ws) = payload_text x +:+ writes_text ws.
Proof. done. Qed.

(** ** A record is written as its text *)

Lemma csv_quoted_text run f : writes_text (csv_quoted_writes run f) = run +:+ csv_double f.
Proof.
  revert run. induction f as [|c f IH]; intros run; cbn [csv_quoted_writes csv_double].
  - destruct (str_eq_spec run "") as [->|]; [done|]. cbn. by rewrite append_nil_r.
  - destruct (c =c chr 34); [by rewrite !writes_text_cons, IH|]. destruct (_ || _).
    + by rewrite !writes_text_cons, IH.
    + by rewrite IH, append_assoc.
Qed.
Lemma csv_field_text f : writes_text (csv_field_writes f) = csv_field f.
Proof.
  unfold csv_field_writes, csv_field. destruct (fieldNeedsQuotes f).
  - rewrite writes_text_cons, writes_text_app, csv_quoted_text. done.
  - rewrite writes_text_cons. cbn. apply append_nil_r.
Qed.
Lemma csv_fields_text fs : writes_text (csv_fields_writes fs) = join "," (map csv_field fs).
Proof.
  induction fs as [|f fs IH]; [done|]. destruct fs as [|g fs]; [exact (csv_field_text f)|].
  change (csv_fields_writes (f :: g :: fs)) with (csv_field_writes f ++ WBytes "," :: csv_fields_writes (g :: fs)).
  rewrite writes_text_app, writes_text_cons, csv_field_text, IH. done.
Qed.
Lemma csv_writes_text fs : writes_text (csv_writes fs) = csv_record fs.
Proof. unfold csv_writes, csv_record. by rewrite writes_text_app, csv_fields_text. Qed.

(** ** The buffer holds back at most its size, and the start of the text goes first *)

Definition buf_ok (w : Writer) : Prop :=
  len (wr_held w) <= buffer_size /\ (wr_sent w = ""%string \/ buffer_size < len (buf_text w)).

Lemma buf_size_pos : 0 < buffer_size.
Proof. done. Qed.
Lemma buf_chunks_spec fuel sent held :
  (String.length held <= fuel)%nat ->
  buf_text (buf_chunks fuel sent held) = sent +:+ held
  /\ len (wr_held (buf_chunks fuel sent held)) <= buffer_size
  /\ (wr_sent (buf_chunks fuel sent held) = sent \/ buffer_size < len held).
Proof.
  pose proof buf_size_pos as Hpos. revert sent held. induction fuel as [|fuel IH]; intros sent held Hf; cbn [buf_chunks].
  - destruct held; [|cbn in Hf; lia]. split; [done|]. split; [vm_compute; discriminate|by left].
  - destruct (Z.leb_spec (len held) buffer_size); [by split_and!; [| |left]|].
    destruct (IH (sent +:+ str_take (Z.to_nat buffer_size) held) (str_drop (Z.to_nat buffer_size) held)) as (H1 & H2 & _).
    { rewrite length_str_drop. unfold len in *. lia. }
    split; [by rewrite H1, append_assoc, str_take_drop|]. split; [done|by right].
Qed.

Lemma buf_write_text w x : buf_text (buf_write w x) = buf_text w +:+ payload_text x.
Proof.
  destruct x as [p|p]; cbn [buf_write payload_text]; cbv zeta.
  - destruct (_ <=? _); [by unfold buf_text; cbn [wr_sent wr_held]; rewrite append_assoc|].
    destruct (str_eq_spec (wr_held w) "") as [E|_].
    + unfold buf_text. cbn [wr_sent wr_held]. by rewrite E, !append_nil_r.
    + unfold buf_bytes. destruct (_ <=? _); unfold buf_text; cbn [wr_sent wr_held];
        by rewrite ?append_nil_r, append_assoc, str_take_drop, append_assoc.
  - destruct (buf_chunks_spec (String.length (wr_held w +:+ p)) (wr_sent w) (wr_held w +:+ p)) as (-> & _ & _); [done|].
    unfold buf_text. by rewrite append_assoc.
Qed.

Lemma buf_write_ok w x : buf_ok w -> buf_ok (buf_write w x).
Proof.
  intros [Hh Hs]. unfold buf_ok. rewrite buf_write_text. pose proof buf_size_pos as Hpos.
  assert (Hmore : len (wr_held w +:+ payload_text x) <= len (buf_text w +:+ payload_text x)).
  { unfold buf_text. rewrite !len_append. pose proof (len_nonneg (wr_sent w)). lia. }
  assert (Hkeep : wr_sent w = ""%string \/ buffer_size < len (buf_text w +:+ payload_text x)).
  { destruct Hs as [?|Hs]; [by left|]. right. rewrite len_append. pose proof (len_nonneg (payload_text x)). lia. }
  destruct x as [p|p]; cbn [buf_write payload_text] in *; cbv zeta.
  - destruct (Z.leb_spec (len (wr_held w +:+ p)) buffer_size); [by split|].
    destruct (_ =s _); [split; [cbn [wr_held]; rewrite len_nil; lia|right; lia]|]. unfold buf_bytes.
    destruct (Z.leb_spec (len (str_drop (Z.to_nat buffer_size) (wr_held w +:+ p))) buffer_size);
      (split; [cbn [wr_held]; rewrite ?len_nil; lia|right; lia]).
  - destruct (buf_chunks_spec (String.length (wr_held w +:+ p)) (wr_sent w) (wr_held w +:+ p)) as (_ & H1 & H2); [done|].
    split; [done|]. destruct H2 as [->|H2]; [done|right; lia].
Qed.

Lemma buf_writes_text ws w : buf_text (foldl buf_write w ws) = buf_text w +:+ writes_text ws.
Proof.
  revert w. induction ws as [|x ws IH]; intros w; [cbn; by rewrite append_nil_r|]. cbn [foldl].
  by rewrite IH, buf_write_text, append_assoc.
Qed.
Lemma buf_writes_ok ws w : buf_ok w -> buf_ok (foldl buf_write w ws).
Proof. revert w. induction ws as [|x ws IH]; intros w Hw; [done|]. cbn [foldl]. by apply IH, buf_write_ok. Qed.
Lemma buf_empty_ok : buf_ok (mkWriter "" "").
Proof. split; [done|by left]. Qed.

(** ** Reading a CSV record back

    The rules of RFC 4180: a field in quotes ends at a quote that is not
    doubled; any other ends at a comma or a line feed. *)

Fixpoint csv_quoted (s : string) : option (string * string) :=
  match s with
  | EmptyString => None
  | String c s1 =>
      if c =c chr 34 then
        match s1 with
        | String d s2 =>
            if d =c chr 34 then '(f, rest) ← csv_quoted s2; Some (String c f, rest) else Some (""%string, s1)
        | EmptyString => Some (""%string, s1)
        end
      else '(f, rest) ← csv_quoted s1; Some (String c f, rest)
  end.
Definition in_field (c : byte) : bool := negb (c =c ",") && negb (c =c chr 10).
Definition read_field (s : string) : option (string * string) :=
  match s with
  | String c s1 => if c =c chr 34 then csv_quoted s1 else Some (span in_field s)
  | EmptyString => Some (""%string, ""%string)
  end.
Fixpoint read_record (fuel : nat) (s : string) : option (list string * string) :=
  match fuel with
  | O => None
  | S fuel =>
      '(f, rest) ← read_field s;
      match rest with
      | String c rest =>
          if c =c "," then '(fs, rest) ← read_record fuel rest; Some (f :: fs, rest)
          else if c =c chr 10 then Some ([f], rest)
          else None
      | EmptyString => None
      end
  end.
Fixpoint read_records (fuel n : nat) (s : string) : option (list (list string)) :=
  match n with
  | O => if s =s "" then Some [] else None
  | S n => '(r, rest) ← read_record fuel s; rs ← read_records fuel n rest; Some (r :: rs)
  end.

Definition ends_field (s : string) : Prop := exists c r, s = String c r /\ (c =c ",") || (c =c chr 10) = true.

Lemma csv_quoted_double f rest : ends_field rest -> csv_quoted (csv_double f +:+ String (chr 34) rest) = Some (f, rest).
Proof.
  intros (c & r & -> & Hc). induction f as [|x f IH].
  - change ("" +:+ ?y) with y. cbn [csv_double]. change ("" +:+ ?y) with y. cbn [csv_quoted].
    rewrite ch_eq_refl. destruct (c =c chr 34) eqn:E; [|done].
    destruct (ch_eq_spec c (chr 34)) as [->|]; done.
  - cbn [csv_double]. rewrite append_assoc. destruct (x =c chr 34) eqn:E.
    + destruct (ch_eq_spec x (chr 34)) as [->|]; [|done]. rewrite !append_cons. change ("" +:+ ?y) with y.
      cbn [csv_quoted]. rewrite !ch_eq_refl. by rewrite IH.
    + rewrite append_cons. change ("" +:+ ?y) with y. cbn [csv_quoted]. rewrite E. by rewrite IH.
Qed.

Lemma read_field_csv f rest : ends_field rest -> read_field (csv_field f +:+ rest) = Some (f, rest).
Proof.
  intros Hr. unfold csv_field. destruct (fieldNeedsQuotes f) eqn:E.
  - rewrite append_cons, append_assoc. cbn [read_field]. rewrite ch_eq_refl.
    change (String (chr 34) "" +:+ rest) with (String (chr 34) rest). by apply csv_quoted_double.
  - assert (Ha : all_bytes (fun c => negb (csv_special c)) f = true).
    { unfold fieldNeedsQuotes in E. destruct (str_eq_spec f "") as [->|]; [done|]. destruct (f =s "\."); [done|].
      apply orb_false_iff in E as [E _]. by apply negb_false_iff in E. }
    destruct Hr as (c & r & -> & Hc).
    assert (Hsp : span in_field (f +:+ String c r) = (f, String c r)).
    { apply span_append.
      - eapply all_bytes_impl; [|exact Ha]. intros x Hx. unfold csv_special, in_field in *.
        by destruct (x =c chr 10), (x =c ","), (x =c chr 13), (x =c chr 34).
      - simpl. unfold in_field. by destruct (c =c ","), (c =c chr 10). }
    destruct f as [|x f].
    + change ("" +:+ String c r) with (String c r) in *. cbn [read_field]. destruct (c =c chr 34) eqn:Eq; [|by rewrite Hsp].
      destruct (ch_eq_spec c (chr 34)) as [->|]; done.
    + rewrite append_cons in *. cbn [read_field]. cbn [all_bytes] in Ha. apply andb_true_iff in Ha as [Hx _].
      unfold csv_special in Hx. destruct (x =c chr 34); [by rewrite !orb_true_r in Hx|]. by rewrite Hsp.
Qed.

Lemma read_record_csv fs fuel rest :
  fs <> [] -> (length fs <= fuel)%nat -> read_record fuel (csv_record fs +:+ rest) = Some (fs, rest).
Proof.
  revert fuel. induction fs as [|f fs IH]; intros fuel Hne Hf; [done|]. destruct fuel as [|fuel]; [simpl in Hf; lia|].
  unfold csv_record in *. cbn [map]. rewrite join_cons. cbn [read_record]. destruct fs as [|g fs].
  - cbn [map]. rewrite append_nil_r, append_assoc. rewrite read_field_csv by (exists (chr 10), rest; done). done.
  - cbn [map] in *. rewrite !append_assoc. rewrite read_field_csv.
    + bind_simpl. change ("," +:+ ?y) with (String "," y). change ("," =c ",") with true. cbv iota.
      specialize (IH fuel ltac:(done) ltac:(simpl in *; lia)). rewrite append_assoc in IH. by rewrite IH.
    + exists ","%char. eexists. split; [reflexivity|done].
Qed.

Lemma read_records_csv recs fuel :
  Forall (fun fs => fs <> [] /\ (length fs <= fuel)%nat) recs ->
  read_records fuel (length recs) (concat_text (map csv_record recs)) = Some recs.
Proof.
  induction 1 as [|fs recs [Hne Hf] Hrs IH]; [done|]. cbn [map concat_text foldr length read_records].
  rewrite read_record_csv by done. bind_simpl. unfold concat_text in IH. by rewrite IH.
Qed.
