(* ===== verification/Row.v ===== *)
(** * Stored rows

    [backend/internal/storage/victorialogs/row.go]: the map that is written for
    one log entry. Go ranges over a map in any order, so [toDirectRow] takes the
    order in which the entry's fields and labels are visited. *)
From S2P Require Import Prelude GoStrings GoTime Domain.

Definition optionalString (key value : string) (row : gmap string any) : gmap string any :=
  if value =s "" then row else <[key := AStr value]> row.
(** A code or port that is only written when present. *)
Definition optionalCode (key : string) (code : option Z) (row : gmap string any) : gmap string any :=
  match code with Some n => <[key := AStr (Itoa n)]> row | None => row end.

Definition event_prefix : string := "event.".
Definition label_prefix : string := "label.".

(** The columns of the entry itself. *)
Definition entry_columns (e : LogEntry) : gmap string any :=
  let row : gmap string any := ∅ in
  let row := <["id" := AStr (le_ID e)]> row in
  let row := <["tenant_id" := AStr (le_TenantID e)]> row in
  let row := <["timestamp" := AStr (FormatRFC3339Nano (le_Timestamp e))]> row in
  let row := <["received_at" := AStr (FormatRFC3339Nano (le_ReceivedAt e))]> row in
  let row := <["message" := AStr (le_Message e)]> row in
  let row := <["protocol" := AStr (le_Protocol e)]> row in
  let row := <["format" := AStr (le_Format e)]> row in
  let row := <["source_id" := AStr (le_SourceID e)]> row in
  let row := <["source_type" := AStr (le_SourceType e)]> row in
  let row := <["parse_status" := AStr (ParseStatus_string (le_ParseStatus e))]> row in
  let row := <["schema_version" := AStr (Itoa (le_SchemaVersion e))]> row in
  let row := optionalString "raw_message" (le_RawMessage e) row in
  let row := optionalString "hostname" (le_Hostname e) row in
  let row := optionalString "source_ip" (le_SourceIP e) row in
  let row := optionalString "facility_name" (le_FacilityName e) row in
  let row := optionalString "severity_name" (le_SeverityName e) row in
  let row := optionalString "app_name" (le_AppName e) row in
  let row := optionalString "process_id" (le_ProcessID e) row in
  let row := optionalString "message_id" (le_MessageID e) row in
  let row := optionalString "source" (le_Source e) row in
  let row := optionalCode "source_port" (if le_SourcePort e =? 0 then None else Some (le_SourcePort e)) row in
  let row := optionalCode "facility" (le_Facility e) row in
  let row := optionalCode "severity" (le_Severity e) row in
  let row := optionalCode "priority" (le_Priority e) row in
  if le_TimestampInferred e then <["timestamp_inferred" := AStr "true"]> row else row.

(** One field, moved under [event.] when its name is taken. *)
Definition add_field (row : gmap string any) (f : string * any) : gmap string any :=
  match row !! f.1 with
  | Some _ => <[event_prefix +:+ f.1 := f.2]> row
  | None => <[f.1 := f.2]> row
  end.
Definition add_label (row : gmap string any) (l : string * string) : gmap string any :=
  <[label_prefix +:+ l.1 := AStr l.2]> row.

Definition toDirectRow (fields : list (string * any)) (labels : list (string * string)) (e : LogEntry)
    : gmap string any :=
  foldl add_label (foldl add_field (entry_columns e) fields) labels.

(** The orders a range over the maps of the entry can have. *)
Definition range_order (e : LogEntry) (fields : list (string * any)) (labels : list (string * string)) : Prop :=
  fields ≡ₚ map_to_list (le_Fields e) /\ labels ≡ₚ map_to_list (le_Labels e).

(** ** Lemmas *)

Definition own_name (k : string) : bool := negb (HasPrefix k event_prefix) && negb (HasPrefix k label_prefix).

Lemma HasPrefix_append p s : HasPrefix (p +:+ s) p = true.
Proof. unfold HasPrefix. rewrite strip_prefix_append. by apply bool_decide_eq_true. Qed.

Lemma own_name_event k s : own_name k = true -> event_prefix +:+ s <> k.
Proof. intros H <-. unfold own_name in H. by rewrite HasPrefix_append in H. Qed.
Lemma own_name_label k s : own_name k = true -> label_prefix +:+ s <> k.
Proof. intros H <-. unfold own_name in H. by rewrite HasPrefix_append, andb_false_r in H. Qed.

(** Every column of the entry has a name of its own. *)
Definition own_names (row : gmap string any) : Prop := map_Forall (fun k _ => own_name k = true) row.

Lemma own_names_insert k v row : own_name k = true -> own_names row -> own_names (<[k := v]> row).
Proof. intros Hk H. by apply map_Forall_insert_2. Qed.
Lemma own_names_string k v row : own_name k = true -> own_names row -> own_names (optionalString k v row).
Proof. intros Hk H. unfold optionalString. destruct (v =s ""); [done|]. by apply own_names_insert. Qed.
Lemma own_names_code k c row : own_name k = true -> own_names row -> own_names (optionalCode k c row).
Proof. intros Hk H. destruct c; [|done]. by apply own_names_insert. Qed.

Lemma entry_columns_own e : own_names (entry_columns e).
Proof.
  unfold entry_columns. cbv zeta.
  assert (H : forall row, own_names row -> own_names
    (if le_TimestampInferred e then <["timestamp_inferred" := AStr "true"]> row else row)).
  { intros row Hr. destruct (le_TimestampInferred e); [|done]. by apply own_names_insert. }
  apply H. clear H.
  repeat (apply own_names_code; [reflexivity|]). repeat (apply own_names_string; [reflexivity|]).
  repeat (apply own_names_insert; [reflexivity|]). apply map_Forall_empty.
Qed.

Lemma add_field_keeps row f k v : own_name k = true -> row !! k = Some v -> add_field row f !! k = Some v.
Proof.
  intros Hk H. unfold add_field. destruct (row !! f.1) eqn:E.
  - rewrite lookup_insert_ne; [done|by apply own_name_event].
  - rewrite lookup_insert_ne; [done|]. intros Ef. congruence.
Qed.

Lemma add_fields_keep fs row k v :
  own_name k = true -> row !! k = Some v -> foldl add_field row fs !! k = Some v.
Proof.
  intros Hk. revert row. induction fs as [|f fs IH]; intros row H; [done|].
  apply IH. by apply add_field_keeps.
Qed.

Lemma add_labels_keep ls row k : own_name k = true -> foldl add_label row ls !! k = row !! k.
Proof.
  intros Hk. revert row. induction ls as [|l ls IH]; intros row; [done|]. simpl. rewrite IH.
  unfold add_label. by rewrite lookup_insert_ne by (by apply own_name_label).
Qed.

(** With only names of their own, the fields make one map whatever the order:
    each is under its name, or under [event.] where a column has that name. *)
Definition field_place (cols : gmap string any) (k : string) : string :=
  match cols !! k with Some _ => event_prefix +:+ k | None => k end.

Definition placed (cols : gmap string any) (fs : list (string * any)) : gmap string any :=
  list_to_map (map (fun f => (field_place cols f.1, f.2)) fs) ∪ cols.

Lemma event_inj a b : event_prefix +:+ a = event_prefix +:+ b -> a = b.
Proof. unfold event_prefix. simpl. by intros [= ->]. Qed.

Lemma field_place_inj cols a b :
  own_name a = true -> own_name b = true -> field_place cols a = field_place cols b -> a = b.
Proof.
  intros Ha Hb. unfold field_place. destruct (cols !! a), (cols !! b); intros E.
  - by apply event_inj.
  - by destruct (own_name_event b a Hb).
  - by destruct (own_name_event a b Ha).
  - done.
Qed.

Definition place (cols : gmap string any) (f : string * any) : string * any := (field_place cols f.1, f.2).
Definition name_label (l : string * string) : string * any := (label_prefix +:+ l.1, AStr l.2).

Lemma place_nodup cols fs :
  Forall (fun f => own_name f.1 = true) fs -> NoDup fs.*1 -> NoDup (map (place cols) fs).*1.
Proof.
  induction 1 as [|f fs Hf Hfs IH]; intros Hn; [constructor|]. cbn [map fmap list_fmap] in *.
  inversion Hn as [|? ? Hin Hn']; subst. constructor; [|by apply IH].
  intros (g & Eg & Hg)%list_elem_of_fmap. apply list_elem_of_In, in_map_iff in Hg as (h & <- & Hh).
  apply list_elem_of_In in Hh. apply Hin. apply list_elem_of_fmap. exists h. split; [|done].
  rewrite Forall_forall in Hfs. simpl in Eg. by apply (field_place_inj cols); [|apply Hfs|].
Qed.

Lemma add_fields_placed cols fs row :
  Forall (fun f => own_name f.1 = true) fs -> NoDup fs.*1 ->
  (forall f, f ∈ fs -> row !! f.1 = None <-> cols !! f.1 = None) ->
  foldl add_field row fs = list_to_map (map (place cols) fs) ∪ row.
Proof.
  intros Hf. revert row. induction Hf as [|f fs Hf Hfs IH]; intros row Hn Hr; [by simpl; rewrite (left_id_L ∅ (∪))|].
  pose proof (place_nodup cols (f :: fs) ltac:(by constructor) Hn) as Hp.
  cbn [map fmap list_fmap] in *. inversion Hn as [|? ? Hin Hn']; subst. inversion Hp as [|? ? Hpin _]; subst.
  assert (Hadd : add_field row f = <[field_place cols f.1 := f.2]> row).
  { unfold add_field, field_place. specialize (Hr f (list_elem_of_here _ _)).
    destruct (row !! f.1), (cols !! f.1); [done|..|done]; exfalso; naive_solver. }
  simpl. rewrite Hadd, IH; [|done|].
  - rewrite <- insert_union_r, <- insert_union_l; [done|]. by apply not_elem_of_list_to_map_1.
  - intros g Hg. rewrite <- (Hr g) by (by constructor). rewrite lookup_insert_ne; [done|].
    rewrite Forall_forall in Hfs. intros E. apply Hin. apply list_elem_of_fmap. exists g. split; [|done].
    unfold field_place in E. destruct (cols !! f.1); [|done]. by destruct (own_name_event g.1 f.1 (Hfs g Hg)).
Qed.

Lemma label_inj a b : label_prefix +:+ a = label_prefix +:+ b -> a = b.
Proof. unfold label_prefix. simpl. by intros [= ->]. Qed.

Lemma labels_nodup ls : NoDup ls.*1 -> NoDup (map name_label ls).*1.
Proof.
  induction ls as [|l ls IH]; intros Hn; [constructor|]. cbn [map fmap list_fmap] in *.
  inversion Hn as [|? ? Hin Hn']; subst. constructor; [|by apply IH].
  intros (g & Eg & Hg)%list_elem_of_fmap. apply list_elem_of_In, in_map_iff in Hg as (h & <- & Hh).
  apply list_elem_of_In in Hh. apply Hin. apply list_elem_of_fmap. exists h. split; [|done].
  by apply label_inj.
Qed.

Lemma add_labels_named ls row :
  NoDup ls.*1 -> foldl add_label row ls = list_to_map (map name_label ls) ∪ row.
Proof.
  revert row. induction ls as [|l ls IH]; intros row Hn; [by simpl; rewrite (left_id_L ∅ (∪))|].
  pose proof (labels_nodup (l :: ls) Hn) as Hp. cbn [map fmap list_fmap] in *.
  inversion Hn as [|? ? Hin Hn']; subst. inversion Hp as [|? ? Hpin _]; subst.
  simpl. rewrite IH by done. unfold add_label. rewrite <- insert_union_r, <- insert_union_l; [done|].
  by apply not_elem_of_list_to_map_1.
Qed.

(** The row of an entry, when its field names are their own. *)
Definition canonical_row (e : LogEntry) : gmap string any :=
  list_to_map (map name_label (map_to_list (le_Labels e)))
  ∪ (list_to_map (map (place (entry_columns e)) (map_to_list (le_Fields e))) ∪ entry_columns e).

Definition own_fields (e : LogEntry) : Prop := map_Forall (fun k _ => own_name k = true) (le_Fields e).

Lemma own_fields_list e : own_fields e -> Forall (fun f => own_name f.1 = true) (map_to_list (le_Fields e)).
Proof. intros H. apply Forall_forall. intros [k v] Hin%elem_of_map_to_list. by apply (H k v). Qed.

Lemma toDirectRow_canonical e fields labels :
  range_order e fields labels -> own_fields e -> toDirectRow fields labels e = canonical_row e.
Proof.
  intros [Hf Hl] Ho. unfold toDirectRow, canonical_row.
  pose proof (own_fields_list e Ho) as Hown. pose proof (NoDup_fst_map_to_list (le_Fields e)) as Hn.
  pose proof (NoDup_fst_map_to_list (le_Labels e)) as Hnl.
  rewrite add_labels_named by (by rewrite Hl). rewrite (add_fields_placed (entry_columns e)).
  - f_equal; [|f_equal]; apply list_to_map_proper.
    + apply labels_nodup. by rewrite Hl.
    + by apply Permutation_map.
    + apply place_nodup; by rewrite Hf.
    + by apply Permutation_map.
  - by rewrite Hf.
  - by rewrite Hf.
  - done.
Qed.

Lemma optionalString_ne k k' v row : k <> k' -> optionalString k v row !! k' = row !! k'.
Proof. intros H. unfold optionalString. destruct (v =s ""); [done|]. by apply lookup_insert_ne. Qed.
Lemma optionalCode_ne k k' c row : k <> k' -> optionalCode k c row !! k' = row !! k'.
Proof. intros H. destruct c; [|done]. by apply lookup_insert_ne. Qed.
Lemma inferred_ne (b : bool) k (row : gmap string any) v :
  k <> "timestamp_inferred"%string -> (if b then <["timestamp_inferred"%string := v]> row else row) !! k = row !! k.
Proof. intros H. destruct b; [|done]. by apply lookup_insert_ne. Qed.

(** A column that is written only when its text is not empty. *)
Definition column (s : string) : option any := if s =s "" then None else Some (AStr s).
Lemma optionalString_column k v row : row !! k = None -> optionalString k v row !! k = column v.
Proof. intros H. unfold optionalString, column. destruct (v =s ""); [done|]. apply lookup_insert_eq. Qed.

(** Looks a column of an entry up: the writes of other columns do not matter. *)
Ltac find_column :=
  unfold entry_columns; cbv zeta; rewrite inferred_ne by done;
  repeat first [rewrite optionalCode_ne by done|rewrite optionalString_ne by done|rewrite lookup_insert_ne by done];
  first [apply lookup_insert_eq
    |apply optionalString_column;
     repeat first [rewrite optionalString_ne by done|rewrite lookup_insert_ne by done]; apply lookup_empty].

Lemma entry_columns_text e :
  entry_columns e !! "id"%string = Some (AStr (le_ID e))
  /\ entry_columns e !! "timestamp"%string = Some (AStr (FormatRFC3339Nano (le_Timestamp e)))
  /\ entry_columns e !! "received_at"%string = Some (AStr (FormatRFC3339Nano (le_ReceivedAt e)))
  /\ entry_columns e !! "message"%string = Some (AStr (le_Message e))
  /\ entry_columns e !! "protocol"%string = Some (AStr (le_Protocol e))
  /\ entry_columns e !! "format"%string = Some (AStr (le_Format e))
  /\ entry_columns e !! "source_id"%string = Some (AStr (le_SourceID e)).
Proof. split_and!; find_column. Qed.
Lemma entry_columns_optional e :
  entry_columns e !! "hostname"%string = column (le_Hostname e)
  /\ entry_columns e !! "app_name"%string = column (le_AppName e)
  /\ entry_columns e !! "severity_name"%string = column (le_SeverityName e).
Proof. split_and!; find_column. Qed.

Lemma toDirectRow_column e fields labels k v :
  entry_columns e !! k = Some v -> toDirectRow fields labels e !! k = Some v.
Proof.
  intros Hk. pose proof (entry_columns_own e k v Hk) as Hown. simpl in Hown.
  unfold toDirectRow. rewrite add_labels_keep by done. by apply add_fields_keep.
Qed.

(** ** Any names *)

(** No other field of the list can take the name [k], or the one it moves to. *)
Definition apart (k : string) (fs : list (string * any)) : Prop :=
  Forall (fun f => f.1 <> k /\ f.1 <> event_prefix +:+ k /\ event_prefix +:+ f.1 <> k) fs.

Lemma add_fields_apart k fs row :
  apart k fs -> foldl add_field row fs !! k = row !! k
  /\ foldl add_field row fs !! (event_prefix +:+ k) = row !! (event_prefix +:+ k).
Proof.
  intros H. revert row. induction H as [|f fs (H1 & H2 & H3) _ IH]; intros row; [done|].
  cbn [foldl]. destruct (IH (add_field row f)) as [-> ->]. unfold add_field.
  assert (event_prefix +:+ f.1 <> event_prefix +:+ k) by (by intros ?%event_inj).
  by destruct (row !! f.1); rewrite !lookup_insert_ne by done.
Qed.

Lemma event_longer k : event_prefix +:+ k <> k.
Proof. intros E. apply (f_equal String.length) in E. unfold event_prefix in E. cbn in E. lia. Qed.

Lemma add_fields_alone cols k v fs1 fs2 :
  apart k fs1 -> apart k fs2 ->
  foldl add_field cols (fs1 ++ (k, v) :: fs2) !! field_place cols k = Some v.
Proof.
  intros H1 H2. rewrite foldl_app. cbn [foldl]. destruct (add_fields_apart k fs1 cols H1) as [E1 _].
  set (row := foldl add_field cols fs1) in *.
  destruct (add_fields_apart k fs2 (add_field row (k, v)) H2) as [E3 E4].
  assert (E : add_field row (k, v) !! field_place cols k = Some v).
  { unfold add_field, field_place. cbn [fst snd]. rewrite E1. by destruct (cols !! k); apply lookup_insert_eq. }
  rewrite <- E. unfold field_place. by destruct (cols !! k).
Qed.

(** A name is never lost, though its value may be another one's. *)
Lemma add_field_some row f k : is_Some (row !! k) -> is_Some (add_field row f !! k).
Proof.
  intros H. unfold add_field. destruct (row !! f.1).
  - destruct (decide (event_prefix +:+ f.1 = k)) as [->|]; [by rewrite lookup_insert_eq|by rewrite lookup_insert_ne].
  - destruct (decide (f.1 = k)) as [->|]; [by rewrite lookup_insert_eq|by rewrite lookup_insert_ne].
Qed.
Lemma add_fields_some row fs k : is_Some (row !! k) -> is_Some (foldl add_field row fs !! k).
Proof. revert row. induction fs as [|f fs IH]; intros row H; [done|]. by apply IH, add_field_some. Qed.
Lemma add_field_named row f : is_Some (add_field row f !! f.1).
Proof.
  unfold add_field. destruct (row !! f.1) eqn:E; [|by rewrite lookup_insert_eq].
  rewrite lookup_insert_ne by apply event_longer. by rewrite E.
Qed.
Lemma add_fields_named row fs f : f ∈ fs -> is_Some (foldl add_field row fs !! f.1).
Proof.
  intros (fs1 & fs2 & ->)%list_elem_of_split. rewrite foldl_app. cbn [foldl].
  apply add_fields_some, add_field_named.
Qed.

(** What a name holds. *)
Lemma add_fields_from row fs k v :
  foldl add_field row fs !! k = Some v ->
  row !! k = Some v \/ exists n, (n, v) ∈ fs /\ (k = n \/ k = event_prefix +:+ n).
Proof.
  revert row. induction fs as [|[n x] fs IH]; intros row H; [by left|]. cbn [foldl] in H.
  apply IH in H as [H|(m & Hm & Hk)]; [|right; exists m; split; [by right|done]].
  unfold add_field in H. cbn [fst snd] in H.
  destruct (row !! n); apply lookup_insert_Some in H as [[<- <-]|[_ H]]; auto;
    right; exists n; (split; [by left|by auto]).
Qed.
Lemma add_labels_from row ls k v :
  foldl add_label row ls !! k = Some v ->
  row !! k = Some v \/ exists n x, (n, x) ∈ ls /\ k = label_prefix +:+ n /\ v = AStr x.
Proof.
  revert row. induction ls as [|[n x] ls IH]; intros row H; [by left|]. cbn [foldl] in H.
  apply IH in H as [H|(m & y & Hm & Hk)]; [|right; exists m, y; split; [by right|done]].
  unfold add_label in H. apply lookup_insert_Some in H as [[<- <-]|[_ H]]; auto. right. exists n, x. by split; [left|].
Qed.
Lemma add_labels_other ls row k :
  (forall l, l ∈ ls -> label_prefix +:+ l.1 <> k) -> foldl add_label row ls !! k = row !! k.
Proof.
  revert row. induction ls as [|l ls IH]; intros row H; [done|]. cbn [foldl]. rewrite IH by (intros; by apply H; right).
  unfold add_label. rewrite lookup_insert_ne; [done|]. apply H. by left.
Qed.

(** The field [k] of an entry shares its names with no other field or label. *)
Record alone (e : LogEntry) (k : string) : Prop := {
  al_moved : le_Fields e !! (event_prefix +:+ k) = None;
  al_name : forall n, is_Some (le_Fields e !! n) -> event_prefix +:+ n <> k;
  al_label : forall l, is_Some (le_Labels e !! l) -> label_prefix +:+ l <> k
}.

Lemma own_fields_alone e k : own_fields e -> is_Some (le_Fields e !! k) -> alone e k.
Proof.
  intros Ho [v Hk]. pose proof (Ho k v Hk) as Hown. cbn in Hown. constructor.
  - destruct (le_Fields e !! (event_prefix +:+ k)) as [x|] eqn:E; [|done].
    by destruct (own_name_event _ k (Ho _ _ E)).
  - intros n _. by apply own_name_event.
  - intros l _. by apply own_name_label.
Qed.

Lemma toDirectRow_alone e fields labels k v :
  range_order e fields labels -> le_Fields e !! k = Some v -> alone e k ->
  toDirectRow fields labels e !! field_place (entry_columns e) k = Some v.
Proof.
  intros [Hf Hl] Hk [Hm Hn Hlab]. unfold toDirectRow.
  assert (Hin : (k, v) ∈ fields) by (rewrite Hf; by apply elem_of_map_to_list).
  pose proof (NoDup_fst_map_to_list (le_Fields e)) as Hnd. rewrite <- Hf in Hnd.
  assert (Hall : forall f, f ∈ fields -> is_Some (le_Fields e !! f.1)).
  { intros [n x] Hx. rewrite Hf in Hx. exists x. by apply elem_of_map_to_list. }
  rewrite add_labels_other.
  - apply list_elem_of_split in Hin as (fs1 & fs2 & ->). rewrite fmap_app in Hnd. cbn in Hnd.
    apply NoDup_app in Hnd as (_ & Hd1 & Hd2). apply NoDup_cons in Hd2 as [Hd2 _].
    assert (Hap : forall fs, (forall f, f ∈ fs -> f ∈ fs1 ++ (k, v) :: fs2) -> k ∉ fs.*1 -> apart k fs).
    { intros fs Hsub Hnot. apply Forall_forall. intros f Hfin. pose proof (Hall f (Hsub f Hfin)) as Hs. split_and!.
      - intros E. apply Hnot. apply list_elem_of_fmap. by exists f.
      - intros E. rewrite E, Hm in Hs. by destruct Hs.
      - by apply Hn. }
    apply add_fields_alone; apply Hap.
    + intros f Hfin. apply elem_of_app. by left.
    + intros Hbad. apply (Hd1 k Hbad). by left.
    + intros f Hfin. apply elem_of_app. right. by right.
    + done.
  - intros [l x] Hlin. rewrite Hl in Hlin. apply elem_of_map_to_list in Hlin. unfold field_place.
    destruct (entry_columns e !! k) as [c|]; [|by apply Hlab; exists x]. unfold label_prefix, event_prefix. by cbn.
Qed.

Lemma toDirectRow_label e fields labels k v :
  range_order e fields labels -> le_Labels e !! k = Some v ->
  toDirectRow fields labels e !! (label_prefix +:+ k) = Some (AStr v).
Proof.
  intros [_ Hl] Hk. unfold toDirectRow. rewrite add_labels_named.
  - apply lookup_union_Some_l, elem_of_list_to_map.
    + apply labels_nodup. rewrite Hl. apply NoDup_fst_map_to_list.
    + apply list_elem_of_In, in_map_iff. exists (k, v). split; [done|].
      apply list_elem_of_In. rewrite Hl. by apply elem_of_map_to_list.
  - rewrite Hl. apply NoDup_fst_map_to_list.
Qed.

(** Where the value of a row's column comes from. *)
Inductive held_from (e : LogEntry) (k : string) (v : any) : Prop :=
  | from_entry : entry_columns e !! k = Some v -> held_from e k v
  | from_field n : le_Fields e !! n = Some v -> k = n \/ k = event_prefix +:+ n -> held_from e k v
  | from_label n x : le_Labels e !! n = Some x -> k = label_prefix +:+ n -> v = AStr x -> held_from e k v.

Lemma toDirectRow_from e fields labels k v :
  range_order e fields labels -> toDirectRow fields labels e !! k = Some v -> held_from e k v.
Proof.
  intros [Hf Hl] H. apply add_labels_from in H as [H|(n & x & Hn & -> & ->)].
  - apply add_fields_from in H as [H|(n & Hn & Hk)]; [by apply from_entry|].
    rewrite Hf in Hn. apply elem_of_map_to_list in Hn. by apply (from_field e k v n).
  - rewrite Hl in Hn. apply elem_of_map_to_list in Hn. by apply (from_label e _ _ n x).
Qed.

Lemma toDirectRow_named e fields labels n :
  range_order e fields labels -> is_Some (le_Fields e !! n) -> is_Some (toDirectRow fields labels e !! n).
Proof.
  intros [Hf Hl] [v Hn]. unfold toDirectRow.
  assert (Hs : is_Some (foldl add_field (entry_columns e) fields !! n)).
  { apply (add_fields_named _ _ (n, v)). rewrite Hf. by apply elem_of_map_to_list. }
  revert Hs. generalize (foldl add_field (entry_columns e) fields) as row. clear Hl.
  induction labels as [|l ls IH]; intros row Hs; [done|]. apply IH. unfold add_label.
  destruct (decide (label_prefix +:+ l.1 = n)) as [->|]; [by rewrite lookup_insert_eq|by rewrite lookup_insert_ne].
Qed.

(** ** Properties *)

(** C14. Whatever order Go ranges over its maps in, the row of an entry keeps
    every column of the entry and every label; a field that shares its names with
    no other field or label is kept under its own name, or under [event.] where a
    column has that name. Every name of the row is a column, a label, or one of
    the two names of a field, with its value; and no field name is without a
    value, so that of fields that share a name one is kept. When no field name
    starts with [event.] or [label.], nothing is shared, and the order makes no
    difference at all. *)
Theorem toDirectRow_faithful e fields labels :
  range_order e fields labels ->
  let row := toDirectRow fields labels e in
  (forall k v, entry_columns e !! k = Some v -> row !! k = Some v)
  /\ (forall k v, le_Labels e !! k = Some v -> row !! (label_prefix +:+ k) = Some (AStr v))
  /\ (forall k v, le_Fields e !! k = Some v -> alone e k -> row !! field_place (entry_columns e) k = Some v)
  /\ (forall k v, row !! k = Some v -> held_from e k v)
  /\ (forall k, is_Some (le_Fields e !! k) -> is_Some (row !! k))
  /\ (own_fields e ->
      (forall k, is_Some (le_Fields e !! k) -> alone e k)
      /\ forall fields' labels', range_order e fields' labels' -> toDirectRow fields' labels' e = row).
Proof.
  intros Ho row. split_and!.
  - intros k v. apply toDirectRow_column.
  - intros k v. by apply toDirectRow_label.
  - intros k v. by apply toDirectRow_alone.
  - intros k v. by apply toDirectRow_from.
  - intros k. by apply toDirectRow_named.
  - intros Hf. split; [by intros k; apply own_fields_alone|]. subst row. rewrite (toDirectRow_canonical _ _ _ Ho Hf).
    intros fields' labels' Ho'. by apply toDirectRow_canonical.
Qed.

(** An entry as HTTP ingestion makes it. *)
Definition sample_fields : list (string * any) := [("hostname", AStr "forged"); ("user", AStr "ann")]%string.
Definition sample_entry (fields : list (string * any)) : LogEntry :=
  mkLogEntry "http-1-0" "default" zero_time zero_time "hello" "" "web-1" "" 0 None "" None "info" None
    "http" "json" "api" "" "" "http-json" "HTTP JSON" "http" (list_to_map fields) ∅ ParseStatusParsed 1 false.

Lemma toDirectRow_faithful_witness :
  toDirectRow sample_fields [] (sample_entry sample_fields) !! "hostname"%string = Some (AStr "web-1")
  /\ toDirectRow sample_fields [] (sample_entry sample_fields) !! "event.hostname"%string = Some (AStr "forged").
Proof.
  assert (Ho : range_order (sample_entry sample_fields) sample_fields []).
  { split; [|done]. symmetry. apply map_to_list_to_map. by apply (bool_decide_unpack _). }
  destruct (toDirectRow_faithful (sample_entry sample_fields) sample_fields [] Ho) as (Hc & _ & Hf & _ & _ & Hown).
  split; [apply Hc; vm_compute; reflexivity|].
  assert (own_fields (sample_entry sample_fields)) as Hfields.
  { unfold own_fields. simpl. repeat (apply map_Forall_insert_2; [reflexivity|]). apply map_Forall_empty. }
  apply (Hf "hostname"%string (AStr "forged")); [vm_compute; reflexivity|].
  apply (Hown Hfields). eexists. vm_compute. reflexivity.
Defined.

Definition colliding : list (string * any) := [("message", AStr "a"); ("event.message", AStr "b")]%string.
Definition is_string (s : string) (v : any) : bool := match v with AStr x => x =s s | _ => false end.
(** Two fields whose names collide after renaming: what is stored depends on
    the order, and one order loses a value. *)
Theorem colliding_field_lost :
  let e := sample_entry colliding in
  range_order e colliding [] /\ range_order e (rev colliding) []
  /\ toDirectRow colliding [] e <> toDirectRow (rev colliding) [] e
  /\ forall k, toDirectRow (rev colliding) [] e !! k <> Some (AStr "b").
Proof.
  assert (Hp : colliding ≡ₚ map_to_list (list_to_map colliding : gmap string any)).
  { symmetry. apply map_to_list_to_map. by apply (bool_decide_unpack _). }
  intros e. split_and!; [by split|split; [|done]| |].
  - etrans; [|exact Hp]. apply Permutation_sym, Permutation_rev.
  - intros E. apply (f_equal (lookup "event.event.message"%string)) in E. vm_compute in E. done.
  - intros k H. apply elem_of_map_to_list, list_elem_of_In in H.
    assert (Hall : forallb (fun e => negb (is_string "b" e.2))
      (map_to_list (toDirectRow (rev colliding) [] e)) = true) by (vm_compute; reflexivity).
    rewrite forallb_forall in Hall. by specialize (Hall _ H).
Qed.
