(* ===== verification/VictoriaLogs.v ===== *)
(** * The VictoriaLogs client

    [backend/internal/storage/victorialogs/client.go]: the requests it makes and
    what it makes of the responses. The service answers through [do]; [visit] is
    the order in which Go ranges over the maps of an entry; [is_print],
    [sprint_float], [parse_float] and [json_float] are the arguments of
    [GoStrconv] and [GoJson]. *)
From S2P Require Import Prelude GoStrings GoUtf8 GoTime GoUrl Domain Pipeline GoStrconv GoJson GoCsv Query Row.

(** The methods the program names, and the rest. *)
Inductive http_method := GET | POST | DELETE | HEAD | CONNECT | OTHER (name : string).
#[export] Instance http_method_eq : EqDecision http_method.
Proof. solve_decision. Defined.
Record http_request := mkRequest {
  rq_method : http_method;
  rq_path : string;
  rq_headers : list (string * string);
  rq_body : string
}.
(** A response: status code and body, which a read error may cut; [Some k] when
    the reader meets the error after [k] whole lines were delivered to it, or
    after all of them if there are fewer. *)
Record http_response := mkResponse { rs_status : Z; rs_body : string; rs_cut : option nat }.

Inductive storage_error :=
  | ErrUnavailable
  | EStatus (code : Z)
  | EQuery (e : query_error)
  | EEndpoint
  | EEncode
  | EDecode
  | ERead
  | ENumber
  | ETimeBucket
  | ELimitArg
  | EFieldArg
  | EFormat
  | EExportBytes.

Record Client := mkClient { cl_scheme : string; cl_host : string; cl_path : string; cl_streamFields : string }.

Definition is_slash (c : byte) : bool := c =c "/".
Definition trim_slash (s : string) : string := trim_right is_slash s.

Definition New (endpoint : string) (streamFields : list string) : option Client :=
  '(scheme, host, path) ← url_parts (trim_slash endpoint);
  if (scheme =s "") || (host =s "") then None
  else Some (mkClient scheme host path (join "," streamFields)).

(** ** Result types of [backend/internal/storage/storage.go] *)

Record Health := mkHealth { hl_Healthy : bool }.
Record Capabilities := mkCapabilities {
  cp_Backend : string; cp_FullText : bool; cp_FieldDiscovery : bool; cp_Facets : bool;
  cp_Statistics : bool; cp_LiveTail : bool; cp_NativeDialect : string
}.
Record QueryResult := mkResult { qr_Data : list (gmap string any); qr_NextCursor : string; qr_Truncated : bool }.
Record Bucket := mkBucket { bk_Timestamp : Time; bk_Count : Z }.
Record ValueCount := mkCount { vc_Value : string; vc_Count : Z }.
Record StatsResult := mkStats {
  st_Total : Z; st_Volume : list Bucket; st_Severities : list ValueCount;
  st_TopHosts : list ValueCount; st_TopApplications : list ValueCount
}.
Record FieldInfo := mkFieldInfo { fi_Name : string; fi_Count : Z }.

Definition client_capabilities : Capabilities :=
  mkCapabilities "victorialogs" true true true true true "logsql".

(** ** Lines of a response

    [bufio.Scanner] with [ScanLines]: the lines without their ends; a line that
    does not fit the buffer of [max] bytes stops it. *)

Definition drop_cr (l : string) : string := TrimSuffix l (String (chr 13) "").
Fixpoint split_lines (cur s : string) : list string :=
  match s with
  | EmptyString => if cur =s "" then [] else [str_rev cur]
  | String c s => if c =c chr 10 then str_rev cur :: split_lines "" s else split_lines (String c cur) s
  end.
(** The lines delivered and whether a line was too long. *)
Fixpoint fitting_lines (max : Z) (ls : list string) : list string * bool :=
  match ls with
  | [] => ([], false)
  | l :: ls =>
      if max <=? len l then ([], true)
      else let (r, bad) := fitting_lines max ls in (drop_cr l :: r, bad)
  end.
Definition scan_lines (max : Z) (body : string) : list string * bool :=
  fitting_lines max (split_lines "" body).

(** [Scan] that delivers a line may have met the read error already: with the last
    line when that has no end, or when the error came with the bytes of whole
    lines. [wanted] is the number of lines a loop asks for; [Err] reports the error
    after it, when the loop took all lines or the error was met by then. *)
Fixpoint whole_lines (s : string) : nat :=
  match s with EmptyString => O | String c s => ((if c =c chr 10 then 1 else 0) + whole_lines s)%nat end.
Definition is_cut (r : http_response) : bool := match rs_cut r with Some _ => true | None => false end.
Definition cut_before (r : http_response) (n : nat) : bool :=
  match rs_cut r with Some k => (Nat.min k (whole_lines (rs_body r)) <? n)%nat | None => false end.
Definition read_fails (r : http_response) (ls : list string) (bad : bool) (wanted : nat) : bool :=
  if (length ls <? wanted)%nat then bad || is_cut r else cut_before r wanted.

(** A row's value, [nil] when absent. *)
Definition field (row : gmap string any) (k : string) : any := default ANil (row !! k).

(** ** CSV *)

Definition csv_blank (c : byte) : bool := (c =c " ") || (c =c chr 9) || (c =c chr 13) || (c =c chr 10).
Definition formula_start (c : byte) : bool := (c =c "=") || (c =c "+") || (c =c "-") || (c =c "@").

Definition csv_header : list string := ["_time"; "hostname"; "severity_name"; "app_name"; "_msg"]%string.
Definition max_rows : nat := Z.to_nat 10000.
Definition max_export_bytes : Z := Z.shiftl 100 20.

Section Client.
Context (do : http_request -> option http_response)
  (visit : LogEntry -> list (string * any) * list (string * string))
  (is_print : Z -> bool) (sprint_float : Z -> string)
  (parse_float : string -> option Z) (json_float : Z -> option string)
  (c : Client).

Definition endpoint (suffix : string) : string := trim_slash (cl_path c) +:+ suffix.
Definition success (code : Z) : bool := Z.quot code 100 =? 2.

Definition HealthCheck : Health :=
  match do (mkRequest GET (endpoint "/health") [] "") with
  | Some r => mkHealth (success (rs_status r))
  | None => mkHealth false
  end.

(** ** Writing *)

Fixpoint encode_rows (logs : list LogEntry) : option string :=
  match logs with
  | [] => Some ""%string
  | e :: logs =>
      line ← Marshal_map json_float (toDirectRow (visit e).1 (visit e).2 e);
      rest ← encode_rows logs;
      Some (line +:+ String (chr 10) rest)
  end.

Definition Append (logs : list LogEntry) : outcome storage_error AppendResult :=
  match logs with
  | [] => Ok (mkAppendResult 0 0)
  | _ =>
      match encode_rows logs with
      | None => Err EEncode
      | Some body =>
          let headers := [("Content-Type", "application/stream+json"); ("VL-Msg-Field", "message");
                          ("VL-Time-Field", "timestamp")]%string
            ++ (if cl_streamFields c =s "" then [] else [("VL-Stream-Fields"%string, cl_streamFields c)]) in
          match do (mkRequest POST (endpoint "/insert/jsonline") headers body) with
          | None => Err ErrUnavailable
          | Some r =>
              if success (rs_status r) then Ok (mkAppendResult (Z.of_nat (length logs)) (len body))
              else Err ErrUnavailable
          end
      end
  end.

(** ** Reading *)

Definition query_request (text : string) : http_request :=
  mkRequest POST (endpoint "/select/logsql/query") [("Content-Type", "application/x-www-form-urlencoded")]%string
    ("query=" +:+ QueryEscape text).

Definition queryStream (text : string) : outcome storage_error http_response :=
  match do (query_request text) with
  | None => Err ErrUnavailable
  | Some r => if success (rs_status r) then Ok r else Err (EStatus (rs_status r))
  end.

Fixpoint decode_rows (ls : list string) : option (list (gmap string any)) :=
  match ls with
  | [] => Some []
  | l :: ls => row ← Unmarshal_map (as_float parse_float) l; rest ← decode_rows ls; Some (row :: rest)
  end.

Definition runQuery (text : string) : outcome storage_error (list (gmap string any)) :=
  r ← queryStream text;
  let (ls, bad) := scan_lines (Z.shiftl 4 20) (rs_body r) in
  match decode_rows ls with
  | None => Err EDecode
  | Some rows => if bad || is_cut r then Err ERead else Ok rows
  end.

(** [Recent] stops scanning after [limit] rows. *)
Definition Recent (limit : Z) : outcome storage_error (list (gmap string any)) :=
  if (limit <? 1) || (1000 <? limit) then Err ELimitArg else
  r ← queryStream ("_time:15m | sort by (_time) desc | limit " +:+ Itoa limit);
  let (ls, bad) := scan_lines (Z.shiftl 2 20) (rs_body r) in
  match decode_rows (firstn (Z.to_nat limit) ls) with
  | None => Err EDecode
  | Some rows => if read_fails r ls bad (Z.to_nat limit) then Err ERead else Ok rows
  end.

Definition build (q : Query) : outcome storage_error string :=
  match LogsQL is_print sprint_float q with
  | Ok s => Ok s
  | Err e => Err (EQuery e)
  | Panic => Panic
  end.

Definition row_cursor (row : gmap string any) : string :=
  match row !! "_time"%string with Some (AStr t) => Cursor t | _ => ""%string end.

Definition Run (q : Query) : outcome storage_error QueryResult :=
  base ← build q;
  rows ← runQuery (base +:+ " | sort by (_time) desc | limit " +:+ Itoa (wrap64 (q_Limit q + 1)));
  if q_Limit q <? Z.of_nat (length rows) then
    if q_Limit q <? 0 then Panic else
    let data := firstn (Z.to_nat (q_Limit q)) rows in
    Ok (mkResult data (match last data with Some row => row_cursor row | None => "" end) true)
  else Ok (mkResult rows "" false).

Definition number (v : any) : outcome storage_error Z :=
  match Atoi (Sprint sprint_float v) with Some n => Ok n | None => Err ENumber end.
(** ** Statistics and fields *)

Fixpoint mapM_out {A B} (f : A -> outcome storage_error B) (l : list A) : outcome storage_error (list B) :=
  match l with [] => Ok [] | x :: l => y ← f x; r ← mapM_out f l; Ok (y :: r) end.

Definition hour : Z := 3600 * second.
Definition stats_step (span : Z) : string :=
  if 7 * 24 * hour <? span then "6h"
  else if 2 * 24 * hour <? span then "1h"
  else if 6 * hour <? span then "5m"
  else "1m".

Definition bucket (row : gmap string any) : outcome storage_error Bucket :=
  match ParseRFC3339Nano (Sprint sprint_float (field row "_time")) with
  | None => Err ETimeBucket
  | Some t => hits ← number (field row "hits"); Ok (mkBucket t hits)
  end.

(** The counts of a grouped query; a group without a value is left out. *)
Fixpoint group_counts (name : string) (rows : list (gmap string any)) : outcome storage_error (list ValueCount) :=
  match rows with
  | [] => Ok []
  | row :: rows =>
      let value := Sprint sprint_float (field row name) in
      if (value =s "") || (value =s "<nil>") then group_counts name rows
      else hits ← number (field row "hits"); rest ← group_counts name rows; Ok (mkCount value hits :: rest)
  end.
Definition groupedCounts (base name : string) (limit : Z) : outcome storage_error (list ValueCount) :=
  rows ← runQuery (base +:+ " | stats by (" +:+ name +:+ ") count() as hits | sort by (hits) desc | limit "
                   +:+ Itoa limit);
  group_counts name rows.

Definition Stats (q : Query) : outcome storage_error StatsResult :=
  base ← build (set_cursor "" q);
  totalRows ← runQuery (base +:+ " | stats count() as total");
  total ← (match totalRows with row :: _ => number (field row "total") | [] => Ok 0 end);
  let step := stats_step (Sub (q_End q) (q_Start q)) in
  volumeRows ← runQuery (base +:+ " | stats by (_time:" +:+ step
                         +:+ ") count() as hits | sort by (_time) asc | limit 500");
  volume ← mapM_out bucket volumeRows;
  severities ← groupedCounts base "severity_name" 20;
  hosts ← groupedCounts base "hostname" 10;
  apps ← groupedCounts base "app_name" 10;
  Ok (mkStats total volume severities hosts apps).

Definition field_info (row : gmap string any) : outcome storage_error FieldInfo :=
  hits ← number (field row "hits");
  Ok (mkFieldInfo (Sprint sprint_float (field row "name")) hits).
Definition FieldNames (q : Query) : outcome storage_error (list FieldInfo) :=
  base ← build (set_cursor "" q);
  rows ← runQuery (base +:+ " | field_names | sort by (hits) desc | limit 500");
  mapM_out field_info rows.

Fixpoint value_counts (name : string) (rows : list (gmap string any)) : outcome storage_error (list ValueCount) :=
  match rows with
  | [] => Ok []
  | row :: rows =>
      let skip := match row !! name with
                  | None | Some ANil => true
                  | Some v => Sprint sprint_float v =s ""
                  end in
      if skip then value_counts name rows
      else hits ← number (field row "hits"); rest ← value_counts name rows;
           Ok (mkCount (Sprint sprint_float (field row name)) hits :: rest)
  end.
Definition FieldValues (q : Query) (name : string) (limit : Z) : outcome storage_error (list ValueCount) :=
  if (limit <? 1) || (100 <? limit) then Err ELimitArg else
  if negb (ValidField name) then Err EFieldArg else
  base ← build (set_cursor "" q);
  rows ← runQuery (base +:+ " | field_values " +:+ name +:+ " | sort by (hits) desc | limit " +:+ Itoa limit);
  value_counts name rows.

(** ** Export *)

Definition csvCell (v : any) : string :=
  match v with
  | ANil => ""
  | _ =>
      let s := Sprint sprint_float v in
      match trim_left csv_blank s with
      | String x _ => if formula_start x then String "'" s else s
      | EmptyString => s
      end
  end.

(** What is written for one line, the [n]th row; [None] when it is not a row. *)
Definition export_line (format : string) (n : nat) (line : string) : option (list written) :=
  if format =s "ndjson" then Some [WBytes line; WBytes (String (chr 10) "")]
  else if format =s "json" then Some ((if (n =? 0)%nat then [] else [WBytes ","]) ++ [WBytes line])
  else row ← Unmarshal_map (as_float parse_float) line;
       Some (csv_writes (map (fun k => csvCell (field row k)) csv_header)).

(** At most [budget] more rows; the lines read so far count [bytes]. *)
Fixpoint export_lines (format : string) (budget n : nat) (bytes : Z) (ls : list string) (out : Writer)
    : Writer * option storage_error :=
  match budget, ls with
  | S budget, line :: ls =>
      let bytes := bytes + len line in
      if max_export_bytes <? bytes then (out, Some EExportBytes) else
      match export_line format n line with
      | None => (out, Some EDecode)
      | Some ws => export_lines format budget (S n) bytes ls (foldl buf_write out ws)
      end
  | _, _ => (out, None)
  end.

Definition export_header (format : string) : list written :=
  if format =s "csv" then csv_writes csv_header else if format =s "json" then [WString "["] else [].
Definition export_footer (format : string) : list written :=
  if format =s "json" then [WString ("]" +:+ String (chr 10) "")] else [].

Definition before_writing {A} (m : outcome storage_error A) : outcome (storage_error * string) A :=
  match m with Ok a => Ok a | Err e => Err (e, ""%string) | Panic => Panic end.

(** What was written to [w]: all of it, or what had left the buffer when the error
    came. *)
Definition Export (q : Query) (format : string) : outcome (storage_error * string) string :=
  if negb ((format =s "json") || (format =s "ndjson") || (format =s "csv")) then Err (EFormat, ""%string) else
  base ← before_writing (build (set_limit 1000 q));
  r ← before_writing (queryStream (base +:+ " | sort by (_time) desc | limit 10000"));
  let (ls, bad) := scan_lines (Z.shiftl 4 20) (rs_body r) in
  match export_lines format max_rows 0 0 ls (foldl buf_write (mkWriter "" "") (export_header format)) with
  | (out, Some e) => Err (e, wr_sent out)
  | (out, None) =>
      if read_fails r ls bad max_rows then Err (ERead, wr_sent out)
      else Ok (buf_text (foldl buf_write out (export_footer format)))
  end.
End Client.
