(* ===== verification/VictoriaLogsProps.v ===== *)
(** * What the VictoriaLogs client promises

    What is written decodes to the rows of the entries; pages of a query put
    together are its rows, when its limit is given; exports are well-formed, safe to
    open, and written in order up to what ends them. *)
From S2P Require Import Prelude GoStrings GoUtf8 GoTime Domain Pipeline GoStrconv GoJson GoJsonProps GoCsv Query Row VictoriaLogs.

(** ** Rows of valid entries are valid *)

Definition storable_value (v : any) : Prop := wf_any v /\ height v < max_depth.
(** An entry whose strings are UTF-8 and whose fields are storable. *)
Definition storable (e : LogEntry) : Prop :=
  Forall valid_utf8 [le_ID e; le_TenantID e; le_Message e; le_Protocol e; le_Format e; le_SourceID e;
    le_SourceType e; le_RawMessage e; le_Hostname e; le_SourceIP e; le_FacilityName e; le_SeverityName e;
    le_AppName e; le_ProcessID e; le_MessageID e; le_Source e]
  /\ map_Forall (fun k v => valid_utf8 k /\ storable_value v) (le_Fields e)
  /\ map_Forall (fun k v => valid_utf8 k /\ valid_utf8 v) (le_Labels e).

Lemma storable_string s : valid_utf8 s -> storable_value (AStr s).
Proof. intros H. split; [done|]. simpl. unfold max_depth. lia. Qed.

Lemma wf_row_insert k v row : valid_utf8 k -> storable_value v -> wf_row row -> wf_row (<[k := v]> row).
Proof. intros Hk [Hw Hh] H. apply map_Forall_insert_2; [by split_and!|done]. Qed.

Definition ascii_byte (c : byte) : bool := code c <? 128.

Lemma digit_ascii c : is_digit c = true -> ascii_byte c = true.
Proof. intros H. unfold is_digit, ascii_byte in *. lia. Qed.

Lemma Itoa_ascii z : valid_utf8 (Itoa z).
Proof.
  apply valid_ascii. unfold Itoa. destruct (Z.ltb_spec z 0); [cbn [all_bytes]; change (code "-" <? 128) with true|];
    apply (digits_bytes ascii_byte digit_ascii), digits_digits; lia.
Qed.

Lemma time_ascii t : valid_utf8 (FormatRFC3339Nano t).
Proof. apply valid_ascii. apply (FormatRFC3339Nano_bytes ascii_byte digit_ascii). reflexivity. Qed.

Lemma storable_code z : storable_value (AStr (Itoa z)).
Proof. apply storable_string, Itoa_ascii. Qed.
Lemma storable_time t : storable_value (AStr (FormatRFC3339Nano t)).
Proof. apply storable_string, time_ascii. Qed.

Lemma wf_row_string k v row : valid_utf8 k -> valid_utf8 v -> wf_row row -> wf_row (optionalString k v row).
Proof. intros. unfold optionalString. destruct (v =s ""); [done|]. auto using wf_row_insert, storable_string. Qed.
Lemma wf_row_code k z row : valid_utf8 k -> wf_row row -> wf_row (optionalCode k z row).
Proof. intros. destruct z; [|done]. simpl. auto using wf_row_insert, storable_code. Qed.

Lemma status_utf8 s : valid_utf8 (ParseStatus_string s).
Proof. by apply valid_ascii; destruct s. Qed.

Create HintDb rows.
#[local] Hint Resolve wf_row_insert wf_row_string wf_row_code storable_string storable_code storable_time
  status_utf8 : rows.

Lemma entry_columns_wf e : storable e -> wf_row (entry_columns e).
Proof.
  intros (Hs & _ & _). repeat match goal with H : Forall _ (_ :: _) |- _ => inversion H; clear H; subst end.
  unfold entry_columns. cbv zeta.
  assert (Ht : forall row, wf_row row -> wf_row
    (if le_TimestampInferred e then <["timestamp_inferred" := AStr "true"]> row else row)).
  { intros row Hr. destruct (le_TimestampInferred e); [|done].
    apply wf_row_insert; [by apply valid_ascii| |done]. by apply storable_string, valid_ascii. }
  apply Ht. clear Ht.
  repeat (apply wf_row_code; [by apply valid_ascii|]).
  repeat (apply wf_row_string; [by apply valid_ascii|done|]).
  repeat (apply wf_row_insert; [by apply valid_ascii|by auto with rows|]). apply map_Forall_empty.
Qed.

Lemma add_fields_wf fs row :
  Forall (fun f => valid_utf8 f.1 /\ storable_value f.2) fs -> wf_row row -> wf_row (foldl add_field row fs).
Proof.
  intros H. revert row. induction H as [|f fs [Hk Hv] Hfs IH]; intros row Hr; [done|]. simpl. apply IH.
  unfold add_field. destruct (row !! f.1); apply wf_row_insert; try done.
  by apply valid_append; [apply valid_ascii|].
Qed.

Lemma add_labels_wf ls row :
  Forall (fun l => valid_utf8 l.1 /\ valid_utf8 l.2) ls -> wf_row row -> wf_row (foldl add_label row ls).
Proof.
  intros H. revert row. induction H as [|l ls [Hk Hv] Hls IH]; intros row Hr; [done|]. simpl. apply IH.
  apply wf_row_insert; [|by apply storable_string|done]. by apply valid_append; [apply valid_ascii|].
Qed.

Lemma toDirectRow_wf e fields labels :
  range_order e fields labels -> storable e -> wf_row (toDirectRow fields labels e).
Proof.
  intros [Hf Hl] He. pose proof He as (_ & Hfs & Hls).
  apply add_labels_wf; [|apply add_fields_wf; [|by apply entry_columns_wf]].
  - rewrite Hl. apply Forall_forall. intros [k v] Hin%elem_of_map_to_list. by apply (Hls k v).
  - rewrite Hf. apply Forall_forall. intros [k v] Hin%elem_of_map_to_list. by apply (Hfs k v).
Qed.

(** ** The body of an append *)

Lemma split_lines_line cur l s :
  one_line l = true -> split_lines cur (l +:+ String (chr 10) s) = (str_rev cur +:+ l) :: split_lines "" s.
Proof.
  revert cur. induction l as [|c l IH]; intros cur Hl.
  - change ("" +:+ ?x) with x. cbn [split_lines]. by rewrite ch_eq_refl, append_nil_r.
  - unfold one_line, lacks in Hl. cbn [all_bytes] in Hl. apply andb_true_iff in Hl as [Hc Hl].
    apply negb_true_iff in Hc. rewrite append_cons. cbn [split_lines]. rewrite Hc, IH by done.
    rewrite str_rev_cons. by rewrite append_assoc.
Qed.

(** The rows that a JSON lines reader with exact numbers sees. *)
Definition read_rows (body : string) : option (list (gmap string any)) :=
  mapM (Unmarshal_map use_number) (split_lines "" body).

Section Append.
Context (do : http_request -> option http_response)
  (visit : LogEntry -> list (string * any) * list (string * string))
  (json_float : Z -> option string) (c : Client).
Hypothesis visit_order : forall e, range_order e (visit e).1 (visit e).2.

Definition row_of (e : LogEntry) : gmap string any := toDirectRow (visit e).1 (visit e).2 e.

Lemma encode_rows_read logs :
  Forall storable logs ->
  exists body, encode_rows visit json_float logs = Some body /\ read_rows body = Some (map row_of logs).
Proof using visit_order.
  induction 1 as [|e logs He Hlogs (rest & Hrest & Hread)]; [by exists ""%string|].
  pose proof (toDirectRow_wf e _ _ (visit_order e) He) as Hwf.
  destruct (row_reads_back json_float (row_of e) Hwf) as (line & Hline & _ & Hscan).
  exists (line +:+ String (chr 10) rest). cbn [encode_rows]. unfold row_of in *. rewrite Hline. bind_simpl.
  rewrite Hrest. split; [done|]. unfold read_rows in *.
  rewrite split_lines_line.
  - cbn [mapM map]. change (str_rev "" +:+ line) with line.
    destruct (Hscan ""%string (2 * String.length line + 1)%nat) as (js & Hjs & Hto); [done|lia|].
    rewrite append_nil_r in Hjs.
    assert (Unmarshal_map use_number line = Some (toDirectRow (visit e).1 (visit e).2 e)) as ->.
    { unfold Unmarshal_map, scan. rewrite Hjs. exact Hto. }
    bind_simpl. by rewrite Hread.
  - destruct (wf_row_entries _ Hwf) as [Hany _]. by apply (Marshal_one_line json_float _ _ Hany).
Qed.

(** C13. A batch of valid entries is sent as one line per entry, in order, and
    each line decodes to exactly the row of its entry; the batch counts as
    stored precisely when the service answers with a success. *)
Theorem Append_lines logs :
  logs <> [] -> Forall storable logs ->
  exists body headers,
    read_rows body = Some (map row_of logs)
    /\ Append do visit json_float c logs =
       match do (mkRequest POST (endpoint c "/insert/jsonline") headers body) with
       | Some r => if success (rs_status r) then Ok (mkAppendResult (Z.of_nat (length logs)) (len body))
                   else Err ErrUnavailable
       | None => Err ErrUnavailable
       end.
Proof using visit_order.
  intros Hne Hs. destruct (encode_rows_read logs Hs) as (body & Hb & Hr).
  exists body. eexists. split; [done|]. unfold Append. destruct logs as [|e logs]; [done|]. by rewrite Hb.
Qed.
End Append.

(** ** Pages of a query *)

Definition row_time (row : gmap string any) : string :=
  match row !! "_time"%string with Some (AStr t) => t | _ => ""%string end.

Definition page_suffix (q : Query) : string := " | sort by (_time) desc | limit " +:+ Itoa (q_Limit q + 1).

Section Paging.
Context (do : http_request -> option http_response) (is_print : Z -> bool) (sprint_float : Z -> string)
  (parse_float : string -> option Z) (c : Client).
Local Abbreviation run := (Run do is_print sprint_float parse_float c).
Local Abbreviation ask := (runQuery do parse_float c).

(** All pages, following the cursors; [fuel] bounds their number. *)
Fixpoint pages (fuel : nat) (q : Query) : outcome storage_error (list (gmap string any)) :=
  match fuel with
  | O => Panic
  | S fuel =>
      r ← run q;
      if qr_Truncated r then rest ← pages fuel (set_cursor (qr_NextCursor r) q); Ok (qr_Data r ++ rest)
      else Ok (qr_Data r)
  end.

(** The service answers a bounded query over the rows [L], which it keeps
    newest first, with the first rows of those the time bound admits: [before t]
    tells which rows a bound [t] admits. *)
Record service (q : Query) (base : string) (L : list (gmap string any))
    (before : string -> gmap string any -> bool) : Prop := {
  sv_first : ask (base +:+ page_suffix q) = Ok (firstn (Z.to_nat (q_Limit q + 1)) L);
  sv_next : forall r, In r L -> ask ((base +:+ " _time:<" +:+ quote is_print (row_time r)) +:+ page_suffix q)
      = Ok (firstn (Z.to_nat (q_Limit q + 1)) (List.filter (before (row_time r)) L))
}.

(** Rows with distinct times, newest first. *)
Definition newest_first (before : string -> gmap string any -> bool) (L : list (gmap string any)) : Prop :=
  Forall (fun r => row_time r <> ""%string /\ before (row_time r) r = false) L
  /\ Sorted.StronglySorted (fun a b => before (row_time a) b = true /\ before (row_time b) a = false) L.

Lemma filter_after before A x B :
  newest_first before (A ++ x :: B) -> List.filter (before (row_time x)) (A ++ x :: B) = B.
Proof.
  intros [Hf Hs]. rewrite List.filter_app. cbn [List.filter].
  apply Forall_app in Hf as [_ Hf]. inversion Hf as [|? ? [_ Hx] _]; subst. rewrite Hx.
  assert (HA : List.filter (before (row_time x)) A = [] /\ Forall (fun b => before (row_time x) b = true) B).
  { induction A as [|a A IH]; inversion Hs as [|? ? Hs' Ha]; subst.
    - split; [done|]. eapply Forall_impl; [exact Ha|]. by intros b [].
    - destruct (IH Hs') as [HA HB]. split; [|done]. apply Forall_app in Ha as [_ Ha].
      inversion Ha as [|? ? [_ Hxa] _]; subst. cbn [List.filter]. by rewrite Hxa. }
  destruct HA as [-> HB]. clear -HB. simpl. induction HB as [|b B Hb HB IH]; [done|].
  cbn [List.filter]. by rewrite Hb, IH.
Qed.

Lemma run_page q text B :
  1 <= q_Limit q <= 1000 -> build is_print sprint_float q = Ok text ->
  ask (text +:+ page_suffix q) = Ok (firstn (Z.to_nat (q_Limit q + 1)) B) ->
  run q = Ok (if q_Limit q <? Z.of_nat (length B)
              then mkResult (firstn (Z.to_nat (q_Limit q)) B)
                     (match last (firstn (Z.to_nat (q_Limit q)) B) with Some row => row_cursor row | None => "" end) true
              else mkResult B "" false).
Proof.
  intros Hn Hb Ha. unfold Run. rewrite Hb. bind_simpl.
  assert (Hw : wrap64 (q_Limit q + 1) = q_Limit q + 1).
  { unfold wrap64. rewrite Z.mod_small; change (2 ^ 63) with 9223372036854775808; lia. }
  rewrite Hw. fold (page_suffix q). rewrite Ha. bind_simpl. rewrite length_firstn.
  destruct (Z.ltb_spec (q_Limit q) (Z.of_nat (length B))).
  - destruct (Z.ltb_spec (q_Limit q) (Z.of_nat (Nat.min (Z.to_nat (q_Limit q + 1)) (length B)))); [|lia].
    destruct (Z.ltb_spec (q_Limit q) 0); [lia|].
    rewrite firstn_firstn, Nat.min_l by lia. done.
  - destruct (Z.ltb_spec (q_Limit q) (Z.of_nat (Nat.min (Z.to_nat (q_Limit q + 1)) (length B)))); [lia|].
    by rewrite firstn_all2 by lia.
Qed.

Lemma last_firstn {A} n (l : list A) : (0 < n < length l)%nat ->
  exists a x, firstn n l = a ++ [x] /\ last (firstn n l) = Some x.
Proof.
  intros Hn. destruct (firstn n l) as [|y f] eqn:E.
  - apply (f_equal length) in E. rewrite length_firstn in E. simpl in E. lia.
  - destruct (exists_last (l := y :: f)) as (a & x & ->); [done|]. exists a, x. by rewrite last_snoc.
Qed.

Lemma pages_from q base L before A B text fuel :
  1 <= q_Limit q <= 1000 -> q_Cursor q = ""%string -> build is_print sprint_float q = Ok base ->
  service q base L before -> newest_first before L -> L = A ++ B -> (length B < fuel)%nat ->
  forall k, build is_print sprint_float (set_cursor k q) = Ok text ->
  ask (text +:+ page_suffix q) = Ok (firstn (Z.to_nat (q_Limit q + 1)) B) ->
  pages fuel (set_cursor k q) = Ok B.
Proof.
  intros Hn Hc Hb Hsv Hnew. revert A B text. induction fuel as [|fuel IH]; intros A B text HL Hf k Hk Hask; [lia|].
  cbn [pages]. rewrite (run_page (set_cursor k q) text B Hn Hk Hask). bind_simpl.
  change (q_Limit (set_cursor k q)) with (q_Limit q).
  destruct (Z.ltb_spec (q_Limit q) (Z.of_nat (length B))) as [Hlt|]; cbn [qr_Truncated qr_Data qr_NextCursor]; [|done].
  destruct (last_firstn (Z.to_nat (q_Limit q)) B) as (a & x & Hax & Hlast); [lia|].
  rewrite Hlast. change (set_cursor ?y (set_cursor k q)) with (set_cursor y q).
  pose proof (firstn_skipn (Z.to_nat (q_Limit q)) B) as Hsplit.
  assert (HL2 : L = (A ++ a) ++ x :: skipn (Z.to_nat (q_Limit q)) B).
  { rewrite HL, <- Hsplit at 1. by rewrite Hax, <- !app_assoc. }
  assert (Ht : row_time x <> ""%string).
  { destruct Hnew as [Hall _]. rewrite HL2 in Hall. apply Forall_app in Hall as [_ Hall].
    by inversion Hall as [|? ? [? _] _]. }
  assert (Hcur : row_cursor x = Cursor (row_time x)).
  { unfold row_cursor, row_time in *. by destruct (x !! "_time"%string) as [[]|]. }
  rewrite Hcur. rewrite (IH (A ++ a ++ [x]) (skipn (Z.to_nat (q_Limit q)) B)
    (base +:+ " _time:<" +:+ quote is_print (row_time x))).
  - bind_simpl. by rewrite firstn_skipn.
  - by rewrite HL2, <- !app_assoc.
  - rewrite length_skipn. lia.
  - unfold build in *. assert (Hq : set_cursor "" q = q) by (destruct q; simpl in *; by subst).
    destruct (LogsQL is_print sprint_float q) as [s|e|] eqn:El; [|done..]. injection Hb as ->.
    by rewrite (LogsQL_continues is_print sprint_float q base (row_time x)); [|rewrite Hq|].
  - rewrite (sv_next _ _ _ _ Hsv) by (rewrite HL2; apply in_elt). do 2 f_equal. rewrite HL2.
    apply filter_after. by rewrite <- HL2.
Qed.

(** C27. Following the cursors page by page gives every row of the query exactly
    once and in order, when the limit is given, the times of the rows are distinct
    and the service answers a time-bounded query with the first rows it admits. A
    search that leaves the limit to its default, 0, asks for one row and returns
    none: if there is one, the page is marked as truncated and has no cursor to go
    on from. *)
Theorem pages_complete q base L before :
  q_Cursor q = ""%string -> build is_print sprint_float q = Ok base ->
  service q base L before -> newest_first before L ->
  (1 <= q_Limit q <= 1000 -> pages (S (length L)) q = Ok L)
  /\ (q_Limit q = 0 -> run q = Ok (mkResult [] "" (match L with [] => false | _ => true end))).
Proof.
  intros Hc Hb Hsv Hnew. assert (Hq : set_cursor "" q = q) by (destruct q; simpl in *; by subst). split.
  - intros Hn. rewrite <- Hq. apply (pages_from q base L before [] L base); try done; [lia|by rewrite Hq|].
    apply (sv_first _ _ _ _ Hsv).
  - intros Hl. pose proof (sv_first _ _ _ _ Hsv) as Ha. unfold Run, page_suffix in *. rewrite Hb. bind_simpl.
    rewrite Hl in *. change (wrap64 (0 + 1)) with (0 + 1). rewrite Ha. bind_simpl. by destruct L.
Qed.
End Paging.

Definition time_row (t msg : string) : gmap string any :=
  <["_time"%string := AStr t]> (<["_msg"%string := AStr msg]> ∅).
Definition sample_rows : list (gmap string any) :=
  [time_row "2024-01-03T00:00:00Z" "c"; time_row "2024-01-02T00:00:00Z" "b"; time_row "2024-01-01T00:00:00Z" "a"].
Definition row_lines (rows : list (gmap string any)) : string :=
  foldr (fun r s => default ""%string (Marshal_map (fun _ => None) r) +:+ String (chr 10) s) ""%string rows.
Definition before_row (t : string) (r : gmap string any) : bool := String.ltb (row_time r) t.

Definition sample_page_query : Query := set_limit 2 sample_query.
Definition sample_base : string :=
  match build (fun _ => false) (fun _ => ""%string) sample_page_query with Ok s => s | _ => ""%string end.
Definition no_float (_ : string) : option Z := None.
(** A service that knows the four requests of the sample. *)
Definition sample_service (rq : http_request) : option http_response :=
  let asks text rows :=
    if rq_body rq =s rq_body (query_request (mkClient "http" "vl:9428" "" "") (text +:+ page_suffix sample_page_query))
    then Some (mkResponse 200 (row_lines (firstn 3 rows)) None) else None in
  let later r := asks (sample_base +:+ " _time:<" +:+ quote (fun _ => false) (row_time r))
                   (List.filter (before_row (row_time r)) sample_rows) in
  match asks sample_base sample_rows with
  | Some r => Some r
  | None => foldr (fun r acc => match later r with Some x => Some x | None => acc end) None sample_rows
  end.

Lemma pages_complete_witness :
  pages sample_service (fun _ => false) (fun _ => ""%string) no_float (mkClient "http" "vl:9428" "" "")
    4 sample_page_query = Ok sample_rows.
Proof.
  apply (pages_complete sample_service (fun _ => false) (fun _ => ""%string) no_float
    (mkClient "http" "vl:9428" "" "") sample_page_query sample_base sample_rows before_row).
  - reflexivity.
  - vm_compute. reflexivity.
  - split; [vm_compute; reflexivity|]. intros r Hr. simpl in Hr.
    destruct Hr as [<-|[<-|[<-|[]]]]; vm_compute; reflexivity.
  - split; [repeat constructor; vm_compute; congruence|]. repeat constructor; vm_compute; reflexivity.
  - vm_compute. split; discriminate.
Defined.

Lemma Append_lines_witness :
  exists body,
    read_rows body = Some [row_of (fun e => (map_to_list (le_Fields e), map_to_list (le_Labels e))) (sample_entry sample_fields)]
    /\ Append (fun _ => Some (mkResponse 204 "" None))
         (fun e => (map_to_list (le_Fields e), map_to_list (le_Labels e))) (fun _ => None)
         (mkClient "http" "vl:9428" "" "") [sample_entry sample_fields] = Ok (mkAppendResult 1 (len body)).
Proof.
  destruct (Append_lines (fun _ => Some (mkResponse 204 "" None))
    (fun e => (map_to_list (le_Fields e), map_to_list (le_Labels e))) (fun _ => None)
    (mkClient "http" "vl:9428" "" "") (fun e => conj (reflexivity _) (reflexivity _))
    [sample_entry sample_fields]) as (body & headers & Hr & Ha).
  - discriminate.
  - apply Forall_cons_2; [|apply Forall_nil_2]. split_and!.
    + repeat (apply Forall_cons_2; [by apply valid_ascii|]). apply Forall_nil_2.
    + simpl. repeat (apply map_Forall_insert_2;
        [split; [by apply valid_ascii|by apply storable_string, valid_ascii]|]). apply map_Forall_empty.
    + apply map_Forall_empty.
  - exists body. split; [exact Hr|]. exact Ha.
Defined.

(** ** Cells are not formulas *)

(** What a spreadsheet would evaluate: a cell that starts, after blanks, with
    one of the formula characters. *)
Definition is_formula (cell : string) : bool := starts formula_start (trim_left csv_blank cell).

Lemma csvCell_plain sprint v : is_formula (csvCell sprint v) = false.
Proof.
  assert (H : forall s, is_formula (match trim_left csv_blank s with
    | String x _ => if formula_start x then String "'" s else s | EmptyString => s end) = false).
  { intros s. unfold is_formula. destruct (trim_left csv_blank s) as [|x t] eqn:E; [by rewrite E|].
    destruct (formula_start x) eqn:Ef; [done|]. rewrite E. exact Ef. }
  destruct v; [done|apply H..].
Qed.

(** ** Exports *)

Definition total_bytes (ls : list string) : Z := foldr (fun l n => len l + n) 0 ls.

Lemma total_bytes_nonneg ls : 0 <= total_bytes ls.
Proof. induction ls as [|l ls IH]; simpl; [lia|]. pose proof (len_nonneg l). lia. Qed.

Section Exports.
Context (do : http_request -> option http_response) (is_print : Z -> bool) (sprint_float : Z -> string)
  (parse_float : string -> option Z) (c : Client).
Local Abbreviation export := (Export do is_print sprint_float parse_float c).
Local Abbreviation write_lines := (export_lines sprint_float parse_float).
Local Abbreviation line_writes := (export_line sprint_float parse_float).

(** What an export reads: the whole response, within the limits. *)
Record exportable (q : Query) (ls : list string) (base : string) (r : http_response) : Prop := {
  ex_build : build is_print sprint_float (set_limit 1000 q) = Ok base;
  ex_stream : queryStream do c (base +:+ " | sort by (_time) desc | limit 10000") = Ok r;
  ex_whole : rs_cut r = None;
  ex_lines : scan_lines (Z.shiftl 4 20) (rs_body r) = (ls, false);
  ex_rows : Z.of_nat (length ls) <= 10000;
  ex_bytes : total_bytes ls <= max_export_bytes
}.

(** What the lines [ls] are written as, from the [n]th row on. *)
Fixpoint texts_from (format : string) (n : nat) (ls ts : list string) : Prop :=
  match ls, ts with
  | [], [] => True
  | l :: ls, t :: ts => (exists ws, line_writes format n l = Some ws /\ writes_text ws = t) /\ texts_from format (S n) ls ts
  | _, _ => False
  end.

(** How many lines are written before the loop ends, and why it ends. *)
Definition loop_end (format : string) (budget n : nat) (bytes : Z) (ls : list string) (k : nat) (e : option storage_error) : Prop :=
  match e with
  | None => k = Nat.min budget (length ls)
  | Some EExportBytes => (k < length ls)%nat /\ max_export_bytes < bytes + total_bytes (firstn (S k) ls)
  | Some EDecode => exists l, ls !! k = Some l /\ line_writes format (n + k) l = None
  | Some _ => False
  end.

Lemma export_lines_spec format budget n bytes ls out :
  exists k ts, texts_from format n (firstn k ls) ts
  /\ buf_text (write_lines format budget n bytes ls out).1 = buf_text out +:+ concat_text ts
  /\ (buf_ok out -> buf_ok (write_lines format budget n bytes ls out).1)
  /\ loop_end format budget n bytes ls k (write_lines format budget n bytes ls out).2.
Proof.
  revert n bytes ls out. induction budget as [|budget IH]; intros n bytes ls out.
  { exists 0%nat, []. cbn. by rewrite append_nil_r. }
  destruct ls as [|l ls]; [exists 0%nat, []; cbn; by rewrite append_nil_r|]. cbn [export_lines]. cbv zeta.
  destruct (Z.ltb_spec max_export_bytes (bytes + len l)).
  { exists 0%nat, []. split_and!; [done|by rewrite append_nil_r|done|]. cbn [snd loop_end length]. split; [lia|].
    change (total_bytes (firstn 1 (l :: ls))) with (len l + 0). lia. }
  destruct (line_writes format n l) as [ws|] eqn:E.
  - destruct (IH (S n) (bytes + len l) ls (foldl buf_write out ws)) as (k & ts & Ht & Hb & Hok & He).
    exists (S k), (writes_text ws :: ts). split_and!.
    + cbn [firstn texts_from]. split; [by exists ws|done].
    + rewrite Hb, buf_writes_text, append_assoc. done.
    + intros Ho. by apply Hok, buf_writes_ok.
    + destruct (snd _) as [[]|]; cbn [loop_end length] in *; try done.
      * destruct He as (x & Hx & Hn). exists x. split; [done|]. by rewrite Nat.add_succ_r.
      * destruct He as [Hk Hm]. split; [lia|].
        change (firstn (S (S k)) (l :: ls)) with (l :: firstn (S k) ls).
        change (total_bytes (l :: ?x)) with (len l + total_bytes x). lia.
      * by rewrite He.
  - exists 0%nat, []. split_and!; [done|by rewrite append_nil_r|done|]. exists l. by rewrite Nat.add_0_r.
Qed.

Lemma export_lines_ok format budget n bytes ls ts out :
  texts_from format n ls ts -> (length ls <= budget)%nat -> bytes + total_bytes ls <= max_export_bytes ->
  exists out', write_lines format budget n bytes ls out = (out', None) /\ buf_text out' = buf_text out +:+ concat_text ts.
Proof.
  revert budget n bytes ts out. induction ls as [|l ls IH]; intros budget n bytes ts out Ht Hb Hm.
  - destruct ts; [|done]. exists out. cbn [concat_text foldr]. rewrite append_nil_r. by destruct budget.
  - destruct ts as [|t ts]; [done|]. destruct budget as [|budget]; [simpl in Hb; lia|].
    destruct Ht as [(ws & Hl & <-) Ht]. cbn [export_lines total_bytes foldr] in *. cbv zeta.
    pose proof (total_bytes_nonneg ls) as Hnn. unfold total_bytes in Hnn.
    destruct (Z.ltb_spec max_export_bytes (bytes + len l)); [lia|]. rewrite Hl.
    destruct (IH budget (S n) (bytes + len l) ts (foldl buf_write out ws)) as (out' & He & Ho);
      [done|simpl in Hb; lia|unfold total_bytes; lia|].
    exists out'. split; [done|]. rewrite Ho, buf_writes_text, append_assoc. done.
Qed.

Lemma export_ok q ls base r format ts :
  exportable q ls base r -> (format = "json" \/ format = "csv")%string -> texts_from format 0 ls ts ->
  export q format = Ok (writes_text (export_header format) +:+ concat_text ts +:+ writes_text (export_footer format)).
Proof.
  intros [Hb Hs Hw Hl Hr Hm] Hf Ht. unfold Export.
  assert (negb ((format =s "json") || (format =s "ndjson") || (format =s "csv")) = false) as ->
    by (by destruct Hf as [->| ->]).
  rewrite Hb. cbn [before_writing]. bind_simpl. rewrite Hs. cbn [before_writing]. bind_simpl. rewrite Hl.
  assert (read_fails r ls false max_rows = false) as ->.
  { unfold read_fails, is_cut, cut_before. rewrite Hw. by destruct (_ <? _)%nat. }
  destruct (export_lines_ok format max_rows 0 0 ls ts (foldl buf_write (mkWriter "" "") (export_header format)) Ht)
    as (out & -> & Ho); [unfold max_rows; lia|lia|].
  rewrite buf_writes_text, Ho, buf_writes_text, append_assoc. done.
Qed.

Definition sends_start (text sent : string) : Prop :=
  exists rest, text = sent +:+ rest /\ len rest <= buffer_size /\ (len text <= buffer_size -> sent = ""%string).

Lemma sends_start_ok w : buf_ok w -> sends_start (buf_text w) (wr_sent w).
Proof. intros [Hh Hs]. exists (wr_held w). split_and!; [done|done|]. intros Hl. destruct Hs; [done|lia]. Qed.

(** C29. An export of a response that came writes the lines in order up to the
    first one that ends it. With an error the client has the start of that text,
    less what the buffer of 64 KiB still held: nothing at all when the text fits
    into it. Without one it has all of it and the end of the format. A read error,
    or a line that is too long, fails the export if it was met by the last line
    taken, even when that is the last the export would take. *)
Theorem export_writes_in_order q format base r ls bad :
  In format ["json"; "ndjson"; "csv"]%string ->
  build is_print sprint_float (set_limit 1000 q) = Ok base ->
  queryStream do c (base +:+ " | sort by (_time) desc | limit 10000") = Ok r ->
  scan_lines (Z.shiftl 4 20) (rs_body r) = (ls, bad) ->
  exists k ts, texts_from format 0 (firstn k ls) ts
  /\ let text := writes_text (export_header format) +:+ concat_text ts in
     match export q format with
     | Ok out => k = Nat.min max_rows (length ls) /\ out = text +:+ writes_text (export_footer format)
         /\ read_fails r ls bad max_rows = false
     | Err (e, sent) => sends_start text sent
         /\ (e = ERead /\ k = Nat.min max_rows (length ls) /\ read_fails r ls bad max_rows = true
             \/ loop_end format max_rows 0 0 ls k (Some e))
     | Panic => False
     end.
Proof.
  intros Hf Hb Hs Hl. unfold Export.
  assert (negb ((format =s "json") || (format =s "ndjson") || (format =s "csv")) = false) as ->
    by (by destruct Hf as [<-|[<-|[<-|[]]]]).
  rewrite Hb. cbn [before_writing]. bind_simpl. rewrite Hs. cbn [before_writing]. bind_simpl.
  rewrite Hl. set (w := foldl buf_write (mkWriter "" "") (export_header format)).
  destruct (export_lines_spec format max_rows 0 0 ls w) as (k & ts & Ht & Hx & Hok & He).
  assert (Hw : buf_text w = writes_text (export_header format)) by (unfold w; by rewrite buf_writes_text).
  assert (Hwok : buf_ok w) by (apply buf_writes_ok, buf_empty_ok). apply Hok in Hwok.
  exists k, ts. split; [done|]. destruct (export_lines _ _ _ _ _ _ _ w) as [out [e|]]; cbn [fst snd] in *.
  - rewrite <- Hw, <- Hx. split; [by apply sends_start_ok|by right].
  - rewrite <- Hw, <- Hx. destruct (read_fails r ls bad max_rows) eqn:Ec.
    + split; [by apply sends_start_ok|by left].
    + split_and!; try done. by rewrite buf_writes_text.
Qed.

Definition cells (row : gmap string any) : list string :=
  map (fun k => csvCell sprint_float (field row k)) csv_header.

Lemma csv_texts n ls rows :
  decode_rows parse_float ls = Some rows ->
  texts_from "csv" n ls (map (fun row => csv_record (cells row)) rows).
Proof.
  revert n rows. induction ls as [|l ls IH]; intros n rows H; [by injection H as <-|]. cbn [decode_rows] in H.
  destruct (Unmarshal_map _ l) as [row|] eqn:E; [|done]. cbn [mbind option_bind] in H.
  destruct (decode_rows parse_float ls) as [rs|]; [|done]. injection H as <-. cbn [map texts_from].
  split; [|by apply IH]. unfold export_line. change ("csv" =s "ndjson") with false.
  change ("csv" =s "json") with false. cbv iota. rewrite E. bind_simpl. eexists. split; [done|]. apply csv_writes_text.
Qed.

(** C28. A CSV export reads back, by the rules of RFC 4180, as the header and one
    record per row with the cells of its five columns, and no cell is something
    a spreadsheet would evaluate. *)
Theorem csv_export_reads_back q ls base r rows :
  exportable q ls base r -> decode_rows parse_float ls = Some rows ->
  exists out, export q "csv" = Ok out
    /\ read_records 5 (S (length rows)) out = Some (csv_header :: map cells rows)
    /\ Forall (Forall (fun cell => is_formula cell = false)) (csv_header :: map cells rows).
Proof.
  intros He Hd. eexists. split; [by apply (export_ok q ls base r); [|right|apply csv_texts]|]. split.
  - change (export_header "csv") with (csv_writes csv_header). change (writes_text (export_footer "csv")) with ""%string.
    rewrite csv_writes_text, append_nil_r.
    rewrite <- (map_map cells csv_record), <- (length_map cells rows).
    apply (read_records_csv (csv_header :: map cells rows) 5). constructor; [by split; [|simpl; lia]|].
    apply Forall_map, Forall_forall. intros row _. by split; [|simpl; lia].
  - constructor; [repeat constructor|]. apply Forall_map, Forall_forall. intros row _.
    apply Forall_map, Forall_forall. intros k _. apply csvCell_plain.
Qed.

(** One value per line, nested one level deep in the exported array. *)
Definition json_line (l : string) (j : json) : Prop :=
  scan_value (2 * String.length l + 1) 1 l = Some (j, ""%string) /\ starts value_start l = true.

Definition commas (ls : list string) : string := concat_text (map (fun l => "," +:+ l) ls).

Lemma json_texts n ls :
  texts_from "json" n ls (match ls with [] => [] | l :: ls => ((if (n =? 0)%nat then "" else ",") +:+ l) :: map (fun l => "," +:+ l) ls end).
Proof.
  revert n. induction ls as [|l ls IH]; intros n; [done|]. cbn [texts_from]. split.
  { eexists. split; [done|]. destruct (n =? 0)%nat; cbn; by rewrite append_nil_r. }
  specialize (IH (S n)). destruct ls; done.
Qed.

Lemma scan_lines_elems l ls j js rest fuel :
  json_line l j -> Forall2 json_line ls js ->
  (2 * String.length (l +:+ commas ls) + 2 <= fuel)%nat ->
  scan_elems fuel 1 ((l +:+ commas ls) +:+ String "]" rest) = Some (j :: js, rest).
Proof.
  intros Hl Hls. revert l j fuel Hl. induction Hls as [|l' j' ls js Hl' Hls IH]; intros l j fuel [Hl _] Hf.
  - destruct fuel as [|fuel]; [lia|]. cbn [scan_elems]. unfold commas, concat_text in *. cbn [map foldr] in *.
    rewrite append_nil_r in *. rewrite (scan_value_extend _ fuel _ _ _ _ (String "]" rest) Hl); [|lia|done]. done.
  - destruct fuel as [|fuel]; [lia|]. cbn [scan_elems].
    assert (E : commas (l' :: ls) = String "," (l' +:+ commas ls)) by done.
    rewrite E in *. rewrite length_append in Hf. cbn [String.length] in Hf.
    rewrite append_assoc, append_cons.
    rewrite (scan_value_extend _ fuel _ _ _ _ (String "," ((l' +:+ commas ls) +:+ String "]" rest)) Hl); [|lia|done].
    bind_simpl. change ("" +:+ ?x) with x. rewrite after_value by done.
    change ("," =c ",") with true. cbv iota. rewrite (IH l' j' fuel Hl'); [done|lia].
Qed.

(** A JSON export is one JSON array: the values of the lines the service
    sent, in order. *)
Theorem json_export_is_array q ls base r js :
  exportable q ls base r -> Forall2 json_line ls js ->
  exists out, export q "json" = Ok out /\ scan out = Some (JArr js, String (chr 10) "").
Proof.
  intros He Hj. eexists. split; [by apply (export_ok q ls base r); [|left|apply json_texts]|].
  change (writes_text (export_header "json")) with "["%string.
  change (writes_text (export_footer "json")) with ("]" +:+ String (chr 10) "").
  destruct Hj as [|l j ls js Hl Hls]; [done|]. cbn [Nat.eqb concat_text foldr]. change ("" +:+ l) with l.
  fold (concat_text (map (fun l => "," +:+ l) ls)). fold (commas ls).
  set (tail := String (chr 10) ""). change ("]" +:+ tail) with (String "]" tail).
  change ("[" +:+ ?x) with (String "[" x). unfold scan.
  set (n := String.length _). assert (Hn : (2 * String.length (l +:+ commas ls) + 4 <= 2 * n)%nat).
  { unfold n. cbn [String.length]. rewrite !length_append. simpl. lia. }
  replace (2 * n + 1)%nat with (S (2 * n)) by lia. cbn [scan_value]. rewrite after_value by done.
  change ("[" =c "{") with false. change ("[" =c "[") with true. cbv iota.
  change (max_depth <? 0 + 1) with false. cbv iota.
  pose proof Hl as [_ Hst]. destruct (value_start_spec l (commas ls +:+ String "]" tail) Hst) as (Hw & x & t & Hx & Hb & _).
  rewrite <- append_assoc in Hw. rewrite Hw. replace ((l +:+ commas ls) +:+ String "]" tail)
    with (String x ((t +:+ commas ls) +:+ String "]" tail)) at 1 by (by rewrite Hx). rewrite Hb.
  change (0 + 1) with 1. rewrite (scan_lines_elems l ls j js tail (2 * n)); [done|done|done|lia].
Qed.
End Exports.

Definition export_service (_ : http_request) : option http_response :=
  Some (mkResponse 200 (row_lines sample_rows) None).
Definition export_base : string :=
  match build (fun _ => false) (fun _ => ""%string) (set_limit 1000 sample_query) with Ok s => s | _ => ""%string end.
Definition sample_lines : list string := (scan_lines (Z.shiftl 4 20) (row_lines sample_rows)).1.

Lemma sample_exportable :
  exportable export_service (fun _ => false) (fun _ => ""%string) (mkClient "http" "vl:9428" "" "")
    sample_query sample_lines export_base (mkResponse 200 (row_lines sample_rows) None).
Proof. split; vm_compute; (reflexivity || discriminate). Qed.

Lemma csv_export_reads_back_witness :
  exists out, Export export_service (fun _ => false) (fun _ => ""%string) no_float
      (mkClient "http" "vl:9428" "" "") sample_query "csv" = Ok out
    /\ read_records 5 4 out = Some (csv_header :: map (cells (fun _ => ""%string)) sample_rows).
Proof.
  destruct (csv_export_reads_back export_service (fun _ => false) (fun _ => ""%string) no_float
    (mkClient "http" "vl:9428" "" "") sample_query sample_lines export_base _ sample_rows sample_exportable)
    as (out & He & Hr & _); [vm_compute; reflexivity|]. exists out. split; [exact He|exact Hr].
Defined.

(** A response that breaks off after two rows: nothing of them is sent. *)
Definition broken_service (_ : http_request) : option http_response :=
  Some (mkResponse 200 (row_lines sample_rows) (Some 1%nat)).
Lemma export_writes_in_order_witness :
  Export broken_service (fun _ => false) (fun _ => ""%string) no_float (mkClient "http" "vl:9428" "" "") sample_query "ndjson"
    = Err (ERead, ""%string)
  /\ exists k ts, k = 3%nat /\ texts_from (fun _ => ""%string) no_float "ndjson" 0 (firstn k sample_lines) ts.
Proof.
  destruct (export_writes_in_order broken_service (fun _ => false) (fun _ => ""%string) no_float
    (mkClient "http" "vl:9428" "" "") sample_query "ndjson" export_base (mkResponse 200 (row_lines sample_rows) (Some 1%nat))
    sample_lines false) as (k & ts & Ht & He);
    [right; by left|vm_compute; reflexivity|vm_compute; reflexivity|vm_compute; reflexivity|].
  assert (E : Export broken_service (fun _ => false) (fun _ => ""%string) no_float (mkClient "http" "vl:9428" "" "") sample_query "ndjson"
    = Err (ERead, ""%string)) by (vm_compute; reflexivity).
  split; [exact E|]. rewrite E in He. exists k, ts. split; [|exact Ht].
  destruct He as (_ & [(_ & Hk & _)|Hend]); [rewrite Hk; vm_compute; reflexivity|].
  destruct Hend.
Defined.

Definition line_value (l : string) : json := match scan l with Some (j, _) => j | None => JNull end.

Lemma json_export_is_array_witness :
  exists out, Export export_service (fun _ => false) (fun _ => ""%string) no_float
      (mkClient "http" "vl:9428" "" "") sample_query "json" = Ok out
    /\ scan out = Some (JArr (map line_value sample_lines), String (chr 10) "").
Proof.
  apply (json_export_is_array export_service (fun _ => false) (fun _ => ""%string) no_float
    (mkClient "http" "vl:9428" "" "") sample_query sample_lines export_base _ (map line_value sample_lines)
    sample_exportable).
  let ls := eval vm_compute in sample_lines in change sample_lines with ls.
  cbn [map]. repeat (apply Forall2_cons_2; [split; vm_compute; reflexivity|]). apply Forall2_nil_2.
Defined.
