(* ===== verification/EndToEnd.v ===== *)
(** * From the socket to the store

    The components put together: RFC 5424 lines that peers send over TCP
    ([Framing]), up to the first refused on each connection, parsed and batched
    ([Pipeline], [PipelineContents]) and written by the client of the store
    ([VictoriaLogs]), are the rows the store is given. *)
From S2P Require Import Prelude GoStrings GoUtf8 GoTime Domain GoRegexp Parser ParserProps Parser3164 Normalization Config Queue Metrics Pipeline PipelineContents Framing GoStrconv GoJson GoJsonProps Query Row VictoriaLogs VictoriaLogsProps.

(** ** Identifiers are text *)

(** The bytes of what an expression matches are those of its classes. *)
Fixpoint within (p : byte -> bool) (r : regex) : Prop :=
  match r with
  | RClass q | RRep q _ _ => forall c, q c = true -> p c = true
  | RSeq r1 r2 => within p r1 /\ within p r2
  | RGroup r => within p r
  end.

Lemma matches_within p r s : within p r -> matches r s -> all_bytes p s = true.
Proof.
  revert s. induction r as [q|q lo hi|r1 IH1 r2 IH2|r IH]; cbn; intros s Hw.
  - intros (c & -> & Hc). cbn. by rewrite Hw.
  - intros [Hs _]. by apply (all_bytes_impl q).
  - intros (a & b & -> & Ha & Hb). destruct Hw. rewrite all_bytes_append, IH1, IH2; done.
  - by apply IH.
Qed.

Lemma uuid_ascii b now id : length b = 16%nat -> Forall is_byte b -> uuidV7 (Some b) now = Some id -> valid_utf8 id.
Proof.
  intros Hl Hb Hid. destruct (uuidV7_wellformed b now Hl Hb) as (id' & Hid' & Hm).
  rewrite Hid in Hid'. injection Hid' as <-. apply valid_ascii. apply (matches_within _ uuid_pattern); [|done].
  assert (Hhex : forall c, Normalization.is_hex c = true -> (code c <? 128) = true).
  { intros c. unfold Normalization.is_hex, is_digit. lia. }
  assert (Hchar : forall x c, (code x <? 128) = true -> (c =c x) = true -> (code c <? 128) = true).
  { intros x c Hx. by destruct (ch_eq_spec c x) as [->|]. }
  repeat split; intros c; try apply Hhex; try by apply Hchar.
  unfold is_variant. intros Hc. repeat (apply orb_true_iff in Hc as [Hc|Hc]); revert Hc; by apply Hchar.
Qed.

(** ** What a peer sends *)

(** A peer of a source and the lines it sends over its connection. *)
Record sender := mkSender { sd_source : SourceConfig; sd_ip : string; sd_port : Z; sd_lines : list Line5424 }.
Definition sd_addr (c : sender) : string := JoinHostPort (sd_ip c) (Itoa (sd_port c)).
(** Octet-counted lines, then the end of the stream. *)
Definition stream (c : sender) : reader :=
  mkReader (print_messages (map (fun l => MOctet (print5424 l)) (sd_lines c))) EEOF.

(** The calls of [Submit] of a handler: the frames, and what was answered. *)
Abbreviation calls := (list (Frame * option queue_error)).
Definition answered (l : calls) (frames : list string) (_ : string) : bool :=
  match l !! length frames with Some (_, None) => true | _ => false end.

(** The handler of the connection makes these calls, each for a frame read at
    some time, and gets these answers. *)
Definition handles (c : sender) (l : calls) : Prop :=
  exists payloads e, handleTCP (sd_source c) (answered l) (stream c) = Some (payloads, e)
    /\ Forall2 (fun x y => exists now, y.1 = tcp_frame (sd_source c) (sd_addr c) x now) payloads l.

(** A line of UTF-8 text that the source accepts. *)
Definition line_text (l : Line5424) : Prop :=
  Forall valid_utf8 [l_host l; l_app l; l_pid l; l_msgid l; l_msg l]
  /\ Forall (fun e => valid_utf8 e.1 /\ Forall (fun x => valid_utf8 x.1 /\ valid_utf8 x.2) e.2) (l_sd l).
Definition line_sent (source : SourceConfig) (l : Line5424) : Prop :=
  line_ok l /\ (l_sd l = [] -> starts is_sp (l_msg l) = false) /\ line_text l
  /\ 0 < len (print5424 l) <= sc_MaxMessageBytes source /\ len (print5424 l) < 10 ^ 9.

Record sender_ok (p : Pipeline) (c : sender) : Prop := {
  so_ip : lacks "[" (sd_ip c) = true /\ lacks "]" (sd_ip c) = true;
  so_port : 0 <= sd_port c < 2 ^ 16;
  so_text : Forall valid_utf8 [sd_ip c; sc_ID (sd_source c); sc_Name (sd_source c); sc_TenantID (sd_source c)];
  so_limit : 1 <= sc_MaxMessageBytes (sd_source c);
  so_framing : sc_Framing (sd_source c) = "octet_counting"%string \/ sc_Framing (sd_source c) = "auto"%string;
  so_parser : exists name, p_parserNames p !! sc_ID (sd_source c) = Some name
    /\ (name = "auto"%string \/ name = "rfc5424"%string \/ name = ""%string);
  so_lines : Forall (line_sent (sd_source c)) (sd_lines c)
}.

(** ** What a handler does with its answers *)

(** The lines that were admitted: as many as calls answered without an error. *)
Definition admitted_calls (l : calls) : calls := List.filter (fun x => match x.2 with None => true | Some _ => false end) l.
Definition refused_calls (l : calls) : Z := sum_by (fun x => match x.2 with None => 0 | Some _ => 1 end) l.
Definition admitted_lines (c : sender) (l : calls) : list Line5424 := take (length (admitted_calls l)) (sd_lines c).

(** The frame of a line sent. *)
Definition sent_frame (c : sender) (x : Line5424) (f : Frame) : Prop :=
  exists now, f = tcp_frame (sd_source c) (sd_addr c) (print5424 x) now.

(** All lines are admitted; or those before the first refused one are, and the
    handler ends there, leaving the rest of the connection. *)
Definition ends_at_refusal (c : sender) (l : calls) : Prop :=
  (Forall (fun x => x.2 = None) l /\ Forall2 (fun x y => sent_frame c x y.1) (sd_lines c) l)
  \/ exists taken refused rest f err,
       sd_lines c = taken ++ refused :: rest /\ sent_frame c refused f
       /\ exists l', l = l' ++ [(f, Some err)] /\ Forall (fun x => x.2 = None) l'
            /\ Forall2 (fun x y => sent_frame c x y.1) taken l'.

(** The calls [todo] still to come, after [done] of them. *)
Lemma offer_calls earlier todo frames lines payloads all :
  length frames = length earlier -> offer (answered (earlier ++ todo)) frames lines = (payloads, all) ->
  length payloads = length (earlier ++ todo) ->
  (Forall (fun x => x.2 = None) todo /\ payloads = frames ++ lines)
  \/ exists taken refused rest l' f err,
      lines = taken ++ refused :: rest /\ payloads = frames ++ taken ++ [refused]
      /\ todo = l' ++ [(f, Some err)] /\ Forall (fun x => x.2 = None) l'.
Proof.
  revert earlier todo frames. induction lines as [|x lines IH]; intros earlier todo frames Hlen E Hpay; cbn [offer] in E.
  - injection E as <- _. left. rewrite app_nil_r. rewrite length_app in Hpay. destruct todo; [done|cbn in Hpay; lia].
  - unfold answered in E at 1. rewrite Hlen in E. destruct todo as [|[f [err|]] todo].
    + rewrite app_nil_r in *. rewrite lookup_ge_None_2 in E by done. injection E as <- _.
      rewrite length_app in Hpay. cbn in Hpay. lia.
    + rewrite list_lookup_middle in E by done. injection E as <- _. rewrite !length_app in Hpay. cbn in Hpay.
      destruct todo; [|cbn in Hpay; lia]. right. exists [], x, lines, [], f, err. by split_and!.
    + rewrite list_lookup_middle in E by done. rewrite cons_middle, app_assoc in E, Hpay.
      destruct (IH (earlier ++ [(f, None)]) todo (frames ++ [x])) as [[Ht ->]|(taken & refused & rest & l' & f' & err & -> & -> & -> & Hl)].
      * rewrite !length_app. cbn. lia.
      * exact E.
      * exact Hpay.
      * left. split; [by constructor|]. by rewrite <- app_assoc.
      * right. exists (x :: taken), refused, rest, ((f, None) :: l'), f', err.
        split_and!; [done|by rewrite <- app_assoc|done|by constructor].
Qed.

(** The handler submits the lines as they were sent, up to the first refusal. *)
Lemma handles_lines p c l : sender_ok p c -> handles c l -> ends_at_refusal c l.
Proof.
  intros Hc (payloads & e & Hh & Hfs).
  unfold handleTCP, stream in Hh. rewrite (handleTCP_offer (sd_source c) _ _ [] _ EEOF) in Hh.
  - destruct (offer _ _ _) as [frames all] eqn:E. injection Hh as -> _. rewrite map_map in E. cbn in E.
    pose proof (Forall2_length _ _ _ Hfs) as Hlen.
    destruct (offer_calls [] l [] _ _ _ eq_refl E Hlen)
      as [[Hl ->]|(taken & refused & rest & l' & f & err & Hlines & -> & -> & Hl)].
    + left. split; [done|]. by apply Forall2_fmap_l in Hfs.
    + right. cbn in Hfs. apply fmap_app_inv in Hlines as (t & r & -> & Hr & Hs). symmetry in Hr.
      apply fmap_cons_inv in Hr as (x & rest' & -> & -> & ->).
      apply Forall2_app_inv_l in Hfs as (l1 & l2 & H1 & H2 & El). apply Forall2_cons_inv_l in H2 as (y & l3 & H2 & H3 & ->).
      apply Forall2_nil_inv_l in H3 as ->. apply app_inj_tail in El as [-> <-].
      exists t, x, rest', f, err. split_and!; [done|exact H2|]. exists l1. split_and!; [done|done|].
      by apply Forall2_fmap_l in H1.
  - rewrite Forall_map. apply (Forall_impl _ _ _ (so_lines p c Hc)). intros x (_ & _ & _ & Hl1 & Hl2).
    cbn. split_and!; try apply Hl1; try apply Hl2. apply (so_framing p c Hc).
  - cbn [rd_data]. lia.
  - done.
  - apply readFrame_end, (so_limit p c Hc).
Qed.

Lemma admitted_all l : Forall (fun x => x.2 = None) l -> admitted_calls l = l.
Proof.
  induction 1 as [|x l Hx _ IH]; [done|]. unfold admitted_calls in *. cbn. by rewrite Hx, IH.
Qed.

(** The frames of the calls admitted are those of the lines admitted. *)
Lemma admitted_frames c l :
  ends_at_refusal c l -> Forall2 (sent_frame c) (admitted_lines c l) (map fst (admitted_calls l)).
Proof.
  unfold admitted_lines. intros [[Hl Hs]|(taken & refused & rest & f & err & -> & _ & l' & -> & Hl & Hs)].
  - rewrite admitted_all by done. apply Forall2_fmap_r. rewrite <- (Forall2_length _ _ _ Hs). by rewrite firstn_all.
  - unfold admitted_calls. rewrite List.filter_app. fold (admitted_calls l'). rewrite admitted_all by done. cbn.
    rewrite app_nil_r. apply Forall2_fmap_r. rewrite <- (Forall2_length _ _ _ Hs), take_app_length. done.
Qed.

(** ** What the pipeline makes of it *)

(** The entry of a line of a peer. *)
Record line_entry (c : sender) (l : Line5424) (e : LogEntry) : Prop := {
  en_message : le_Message e = l_msg l;
  en_time : le_Timestamp e = UTC (l_time l) /\ le_TimestampInferred e = false;
  en_header : le_Hostname e = l_host l /\ le_AppName e = l_app l /\ le_ProcessID e = l_pid l /\ le_MessageID e = l_msgid l;
  en_pri : le_Priority e = Some (l_pri l) /\ le_Facility e = Some (l_pri l / 8) /\ le_Severity e = Some (l_pri l mod 8);
  en_fields : le_Fields e = add_elements (l_sd l) no_fields /\ le_Labels e = ∅;
  en_peer : le_SourceIP e = sd_ip c /\ le_SourcePort e = sd_port c;
  en_source : le_SourceID e = sc_ID (sd_source c) /\ le_Protocol e = "syslog_tcp"%string
    /\ le_Format e = "rfc5424"%string;
  en_storable : storable e
}.

Lemma sd_key_valid id name : valid_utf8 id -> valid_utf8 name -> valid_utf8 (sd_key id name).
Proof.
  intros Hid Hn. unfold sd_key. change (String "." name) with ("." +:+ name).
  apply valid_append; [by apply valid_ascii|]. apply valid_append; [done|]. by apply valid_append; [apply valid_ascii|].
Qed.

Lemma elements_storable es m :
  Forall (fun e => valid_utf8 e.1 /\ Forall (fun x => valid_utf8 x.1 /\ valid_utf8 x.2) e.2) es ->
  map_Forall (fun k v => valid_utf8 k /\ storable_value v) m ->
  map_Forall (fun k v => valid_utf8 k /\ storable_value v) (add_elements es m).
Proof.
  intros He. revert m. induction He as [|[id ps] es [Hid Hps] _ IH]; intros m Hm; [done|].
  cbn. apply IH. clear IH. cbn [fst snd] in *. unfold add_params. revert m Hm.
  induction Hps as [|x ps [Hn Hv] _ IH]; intros m Hm; [done|]. cbn. apply IH.
  apply map_Forall_insert_2; [|done]. split; [|by apply storable_string].
  by apply (sd_key_valid id x.1).
Qed.

Lemma name_valid names v name :
  Forall valid_utf8 names -> name_of names v = Ok name -> valid_utf8 name.
Proof.
  intros Hn. unfold name_of. destruct v as [n|]; [|intros [= <-]; constructor].
  destruct (n <? _); [|intros [= <-]; constructor].
  destruct (names !! Z.to_nat n) as [x|] eqn:E; [|done]. cbn. intros [= <-]. by apply (Forall_lookup_1 _ _ _ _ Hn E).
Qed.

Lemma names_valid : Forall valid_utf8 facilityNames /\ Forall valid_utf8 severityNames.
Proof. split; repeat (apply Forall_cons_2; [by apply valid_ascii|]); apply Forall_nil_2. Qed.

(** A line sent is never refused by the parser; its entry is the line's. *)
Lemma frame_event p c l now loc :
  sender_ok p c -> line_sent (sd_source c) l ->
  let f := tcp_frame (sd_source c) (sd_addr c) (print5424 l) now in
  let configured := default ""%string (p_parserNames p !! f_SourceID f) in
  Registry_Parse NewRegistry (if configured =s "" then "auto" else configured) (f_Payload f) (f_ReceivedAt f) loc
  = Ok (event_of_line l).
Proof.
  intros Hc (Hok & Hsp & _). cbn. unfold tcp_frame. destruct (peerAddress _) as [ip port]. cbn.
  destruct (so_parser p c Hc) as (name & -> & Hname). cbn.
  apply Registry_Parse_5424; [done|done|]. destruct Hname as [->|[->| ->]]; cbn; auto.
Qed.

Lemma parses_line p c l f e now :
  sender_ok p c -> line_sent (sd_source c) l ->
  f = tcp_frame (sd_source c) (sd_addr c) (print5424 l) now -> parses p f e -> line_entry c l e.
Proof.
  intros Hc Hl -> (rand & m & m' & Hr & Hp). pose proof (frame_event p c l now) as He.
  unfold parse_frame in Hp. rewrite He in Hp by done. clear He.
  unfold Normalize in Hp.
  destruct (uuidV7 rand _) as [id|] eqn:Hid; [|done]. cbn [e_Facility e_Severity event_of_line] in Hp.
  destruct (name_of facilityNames _) as [fn| |] eqn:Hf; try done.
  destruct (name_of severityNames _) as [sn| |] eqn:Hs; try done. cbv [mbind outcome_bind] in Hp. injection Hp as <- _.
  destruct Hl as (_ & _ & [Htext Hsd] & _). pose proof (so_text p c Hc) as Hstext. destruct (so_ip p c Hc) as [Hi1 Hi2].
  repeat match goal with H : Forall _ (_ :: _) |- _ => apply Forall_cons_1 in H as [? H] end.
  assert (Hframe : tcp_frame (sd_source c) (sd_addr c) (print5424 l) now
    = mkFrame (print5424 l) (UTC now) (sc_TenantID (sd_source c)) (sc_ID (sd_source c)) (sc_Name (sd_source c))
        "syslog_tcp" (sd_ip c) (sd_port c)).
  { destruct (peerAddress_join (sd_ip c) (sd_port c) Hi1 Hi2 (so_port p c Hc)) as [Ha Hu].
    unfold tcp_frame, sd_addr, makeFrame. by rewrite Ha, Hu. }
  rewrite Hframe in *. rewrite (ToValidUTF8_id (l_msg l)) by done. cbn -[ToValidUTF8 add_elements] in *.
  constructor; cbn -[ToValidUTF8 add_elements]; try done.
  split_and!; cbn -[ToValidUTF8 add_elements]; [|by apply elements_storable|apply map_Forall_empty].
  repeat (apply Forall_cons_2 || apply Forall_nil_2); try done; try apply ToValidUTF8_valid; try by apply valid_ascii.
  - destruct rand as [b|]; [|done]. destruct Hr as [Hlen Hb]. by apply (uuid_ascii b (UTC now)).
  - destruct (String.eqb _ _); [by apply valid_ascii|done].
  - by apply (name_valid facilityNames (Some (l_pri l / 8))); [apply names_valid|].
  - by apply (name_valid severityNames (Some (l_pri l mod 8))); [apply names_valid|].
Qed.

(** ** What the store is given *)

Lemma optionalString_eq k v row : v <> ""%string -> optionalString k v row !! k = Some (AStr v).
Proof. intros Hv. unfold optionalString. destruct (str_eq_spec v ""); [done|by rewrite lookup_insert_eq]. Qed.

(** The columns in which a line and its peer show. *)
Record line_row (c : sender) (l : Line5424) (row : gmap string any) : Prop := {
  lr_message : row !! "message"%string = Some (AStr (l_msg l));
  lr_time : row !! "timestamp"%string = Some (AStr (FormatRFC3339Nano (UTC (l_time l))));
  lr_host : l_host l <> ""%string -> row !! "hostname"%string = Some (AStr (l_host l));
  lr_app : l_app l <> ""%string -> row !! "app_name"%string = Some (AStr (l_app l));
  lr_priority : row !! "priority"%string = Some (AStr (Itoa (l_pri l)));
  lr_source : row !! "source_id"%string = Some (AStr (sc_ID (sd_source c)));
  lr_peer : sd_ip c <> ""%string -> row !! "source_ip"%string = Some (AStr (sd_ip c))
}.

Lemma line_entry_row c l e fields labels :
  range_order e fields labels -> line_entry c l e -> line_row c l (toDirectRow fields labels e).
Proof.
  intros Ho [Hm [Ht Hi] (Hh & Ha & _) (Hp & _) _ [Hip _] [Hs _] _].
  constructor; intros; apply toDirectRow_column; unfold entry_columns; cbv zeta;
    rewrite ?Hm, ?Ht, ?Hh, ?Ha, ?Hs, ?Hip, ?Hi, ?Hp; cbv iota;
    repeat first [rewrite optionalString_ne by done|rewrite optionalCode_ne by done|rewrite lookup_insert_ne by done];
    first [by apply lookup_insert_eq|by apply optionalString_eq].
Qed.

(** ** The whole way *)

(** The lines admitted, each with its peer. *)
Definition taken (cs : list sender) (ls : list calls) : list (sender * Line5424) :=
  concat (zip_with (fun c l => (c,.) <$> admitted_lines c l) cs ls).

(** A call that has returned. *)
Definition returned (x : Frame * option queue_error) : submission := SReturned x.1 x.2.

Lemma returned_admitted l : map returned l ≫= admitted_frame = map fst (admitted_calls l).
Proof.
  induction l as [|[f [err|]] l IH]; [done|exact IH|]. unfold admitted_calls in *. cbn in *. f_equal. exact IH.
Qed.
Lemma returned_refused l : sum_by refused_call (map returned l) = refused_calls l.
Proof. unfold refused_calls, sum_by. induction l as [|[f [err|]] l IH]; [done|cbn; lia|cbn; exact IH]. Qed.
Lemma sum_by_perm {A} (g : A -> Z) l k : l ≡ₚ k -> sum_by g l = sum_by g k.
Proof. unfold sum_by. induction 1; cbn; lia. Qed.

(** The frame of a line sent. *)
Definition frame_of (p : Pipeline) (x : sender * Line5424) (f : Frame) : Prop :=
  sender_ok p x.1 /\ line_sent (sd_source x.1) x.2 /\ sent_frame x.1 x.2 f.

Lemma handles_taken p cs ls :
  Forall (sender_ok p) cs -> Forall2 ends_at_refusal cs ls ->
  Forall2 (frame_of p) (taken cs ls) (map fst (admitted_calls (concat ls))).
Proof.
  intros Hcs H. unfold taken. induction H as [|c l cs ls Hs _ IH]; [constructor|].
  apply Forall_cons_1 in Hcs as [Hc Hcs]. cbn. unfold admitted_calls. rewrite List.filter_app, map_app.
  apply Forall2_app; [|by apply IH]. clear IH.
  apply Forall2_fmap_l. pose proof (admitted_frames c l Hs) as Hl.
  assert (Hok : Forall (line_sent (sd_source c)) (admitted_lines c l)) by apply Forall_take, (so_lines p c Hc).
  fold (admitted_calls l). revert Hl Hok. generalize (map fst (admitted_calls l)) as fs. generalize (admitted_lines c l) as xs.
  induction 1 as [|x f xs fs Hx _ IH]; intros Hok; [constructor|].
  apply Forall_cons_1 in Hok as [Hlok Hok]. constructor; [by split_and!|by apply IH].
Qed.

(** The bodies of the appends of some batches, and the rows read from them. *)
Lemma batches_read visit json_float bs :
  (forall e, range_order e (visit e).1 (visit e).2) -> Forall storable (concat bs) ->
  exists bodies rows, mapM (encode_rows visit json_float) bs = Some bodies /\ mapM read_rows bodies = Some rows
    /\ concat rows = map (row_of visit) (concat bs).
Proof.
  intros Hv. induction bs as [|b bs IH]; intros Hs; [by exists [], []|].
  cbn in Hs. apply Forall_app in Hs as [Hb Hbs]. destruct (IH Hbs) as (bodies & rows & E1 & E2 & E3).
  destruct (encode_rows_read visit json_float Hv b Hb) as (body & Eb & Er).
  exists (body :: bodies), (map (row_of visit) b :: rows). cbn. rewrite Eb, Er. cbn. rewrite E1, E2. cbn.
  by rewrite E3, map_app.
Qed.

Lemma Forall2_compose {A B C} (P : A -> B -> Prop) (R : B -> C -> Prop) (T : A -> C -> Prop) l k m :
  (forall x y z, P x y -> R y z -> T x z) -> Forall2 P l k -> Forall2 R k m -> Forall2 T l m.
Proof.
  intros HT Hl. revert m. induction Hl as [|x y l k Hx _ IH]; intros m Hm; inversion Hm; subst; constructor; eauto.
Qed.

(** C1. From the socket to the store: peers send octet-counted RFC 5424 lines over
    their connections, and the calls of [Submit] of the run are those of the
    handlers of these connections, with the answers they got. However the
    connections, workers and batches interleave, after a graceful stop:
    - a handler has submitted the lines in order up to the first refusal, if
      there is one; it ends there, and what it has not read of its connection is
      neither stored nor counted. Each refusal is counted once, under admission;
    - every line admitted is in the store or counted as dropped after admission.
      The entry stored for it carries its message, time, header, priority and
      structured data, with the peer's address; and the bodies of the appends,
      read back as JSON lines, give a row for each with these columns. *)
Theorem tcp_lines_stored {Q} `{QueueLaws Q} p usage_of q n cs ls fs (s : state Q) visit json_float :
  Forall (sender_ok p) cs -> Forall2 handles cs ls -> ps_submissions s ≡ₚ map returned (concat ls) ->
  retry_ok (ic_Retry (p_cfg p)) -> bq_ok q -> bq_live q = [] -> accepts p usage_of (started q n) fs s ->
  ps_mode s = BDone -> ps_cancelled s = false -> (forall e, range_order e (visit e).1 (visit e).2) ->
  Forall2 ends_at_refusal cs ls
  /\ count_if admission (m_Dropped (ps_metrics s)) = refused_calls (concat ls)
  /\ exists kept gone bodies rows,
    taken cs ls ≡ₚ kept ++ gone /\ size gone = count_if later (m_Dropped (ps_metrics s))
    /\ Forall2 (fun x e => line_entry x.1 x.2 e) kept (concat (ps_store s))
    /\ mapM (encode_rows visit json_float) (ps_store s) = Some bodies /\ mapM read_rows bodies = Some rows
    /\ Forall2 (fun x row => line_row x.1 x.2 row) kept (concat rows).
Proof.
  intros Hcs Hsub Hcalls Hr Hq Hl Hacc Hd Hcan Hvisit.
  destruct (accepts_answers p usage_of q n fs s Hr Hq Hl Hacc) as [Hfs Hrefused].
  rewrite Hcalls, returned_admitted in Hfs. rewrite (sum_by_perm _ _ _ Hcalls), returned_refused in Hrefused.
  assert (Hends : Forall2 ends_at_refusal cs ls).
  { clear -Hcs Hsub. induction Hsub; constructor; apply Forall_cons_1 in Hcs as [? ?]; [by eapply handles_lines|by apply IHHsub]. }
  split; [done|]. split; [done|].
  destruct (graceful_contents p usage_of q n fs s Hr Hq Hl Hacc Hd Hcan) as (parsed & lost & dropped & Hf & Hp & _ & Hcount).
  pose proof (handles_taken p cs ls Hcs Hends) as Hsent. apply Forall2_flip in Hsent.
  rewrite Hfs in Hf. destruct (Permutation_Forall2 Hf Hsent) as (xs & Hxs & Hx).
  apply Forall2_flip, Forall2_app_inv_r in Hx as (xp & xl & Hxp & Hxl & ->).
  assert (Hentries : Forall2 (fun x e => line_entry x.1 x.2 e) xp (concat (ps_store s) ++ dropped)).
  { refine (Forall2_compose _ _ _ _ _ _ _ Hxp Hp). intros x f e (Hc & Hline & now & Hfr) Hpe.
    by apply (parses_line p x.1 x.2 f e now). }
  apply Forall2_app_inv_r in Hentries as (kept & gone & Hkept & Hgone & ->).
  destruct (batches_read visit json_float (ps_store s) Hvisit) as (bodies & rows & Hb & Hrows & Hread).
  { apply (Forall2_Forall_r _ _ _ _ Hkept), Forall_forall. intros x _ e He. apply (en_storable _ _ _ He). }
  exists kept, (gone ++ xl), bodies, rows. split_and!; try done.
  - by rewrite Hxs, app_assoc.
  - rewrite size_app. apply Forall2_length in Hgone, Hxl. unfold size in *. lia.
  - rewrite Hread. apply Forall2_fmap_r. eapply Forall2_impl; [exact Hkept|].
    intros x e He. by apply line_entry_row; [apply Hvisit|].
Qed.

(** ** A concrete run *)

(** Two peers of one source; a worker and a batch of two; the store answers at
    the second attempt. The second peer is still sending when the service stops:
    its second line is refused, and its third is never read. *)
Definition edge : SourceConfig :=
  mkSource "edge" "edge" "tcp" ":514" "auto" true 1024 8 "auto" "default" "UTC".
Definition peer1 : sender := mkSender edge "192.0.2.7" 40000 [sample_line].
Definition peer2 : sender :=
  mkSender edge "2001:db8::7" 40001 [with_msg sample_line "up"; with_msg sample_line "down"; with_msg sample_line "gone"].
Definition peers : list sender := [peer1; peer2].
Definition edge_pipeline : Pipeline :=
  mkPipeline (mkIngestion (mkQueueConfig 4 10000 25000000 "25ms") sample_batch sample_retry []) {["edge"%string := loc_utc]}
    {["edge"%string := "auto"%string]} "victorialogs".
Definition peer_frame (c : sender) (l : Line5424) : Frame := tcp_frame (sd_source c) (sd_addr c) (print5424 l) zero_time.
Definition peer_calls : list calls :=
  [[(peer_frame peer1 sample_line, None)];
   [(peer_frame peer2 (with_msg sample_line "up"), None);
    (peer_frame peer2 (with_msg sample_line "down"), Some ErrQueueClosed)]].
Definition edge_start : state frameQueue := started (newFrameQueue 4 10000) 1.
Definition edge_schedule : list paction :=
  submit_all 0 (peer_frame peer1 sample_line) ++ submit_all 1 (peer_frame peer2 (with_msg sample_line "up"))
  ++ take_and_parse 0 ++ [PSend 0] ++ take_and_parse 0 ++ [PSend 0; PStopAccepting]
  ++ PSubmit (peer_frame peer2 (with_msg sample_line "down")) :: repeat (PCall 2) 3 ++ graceful_end
  ++ [PReceive; PReceive; PFlush false; PFlush true; PFlush true; PFlush true; PFlush true; PChannelClosed; PDone].
Definition edge_run : list Frame * state frameQueue :=
  default ([], edge_start) (accept_run edge_pipeline usage edge_schedule edge_start).

Lemma edge_accepts : accepts edge_pipeline usage edge_start edge_run.1 edge_run.2.
Proof. apply (accept_run_accepts edge_pipeline usage edge_schedule). vm_compute. reflexivity. Qed.

Lemma line_sent_edge l :
  line_ok l -> line_text l -> (l_sd l = [] -> starts is_sp (l_msg l) = false) -> 0 < len (print5424 l) <= 1024 ->
  line_sent edge l.
Proof. intros. unfold line_sent. cbn [sc_MaxMessageBytes edge]. split_and!; try done; lia. Qed.

Lemma msg_sent msg : In msg [" VPN disconnected"; "up"; "down"; "gone"]%string -> line_sent edge (with_msg sample_line msg).
Proof.
  intros [<-|[<-|[<-|[<-|[]]]]]; apply line_sent_edge;
    first [by unfold line_ok, printable_offset; split_and!; try (vm_compute; congruence)
      |split; cbn; repeat first [apply Forall_cons_2|apply Forall_nil_2|split|apply valid_ascii; reflexivity]
      |done|vm_compute; split; congruence].
Qed.

Lemma peer_ok ip port lines :
  lacks "[" ip = true /\ lacks "]" ip = true -> 0 <= port < 2 ^ 16 -> valid_utf8 ip ->
  Forall (line_sent edge) lines -> sender_ok edge_pipeline (mkSender edge ip port lines).
Proof.
  intros Hlacks Hport Hip Hl. constructor; cbn [sd_source sd_ip sd_port sd_lines]; try done.
  - apply Forall_cons_2; [done|]. repeat (apply Forall_cons_2; [by apply valid_ascii|]). apply Forall_nil_2.
  - by right.
  - exists "auto"%string. split; [reflexivity|by left].
Qed.

Lemma peers_ok : Forall (sender_ok edge_pipeline) peers.
Proof.
  apply Forall_cons_2; [|apply Forall_cons_2; [|apply Forall_nil_2]]; apply peer_ok; try (by apply valid_ascii); try lia;
    try (by split); repeat (apply Forall_cons_2; [apply msg_sent; cbn; tauto|]); apply Forall_nil_2.
Qed.

Lemma peers_handle : Forall2 handles peers peer_calls.
Proof.
  repeat constructor; eexists _, _; (split; [vm_compute; reflexivity|]);
    repeat constructor; eexists; reflexivity.
Qed.

Definition listed (e : LogEntry) : list (string * any) * list (string * string) :=
  (map_to_list (le_Fields e), map_to_list (le_Labels e)).

Lemma tcp_lines_stored_witness :
  Forall2 ends_at_refusal peers peer_calls
  /\ count_if admission (m_Dropped (ps_metrics edge_run.2)) = 1
  /\ exists kept gone bodies rows,
    taken peers peer_calls ≡ₚ kept ++ gone /\ size gone = count_if later (m_Dropped (ps_metrics edge_run.2))
    /\ Forall2 (fun x e => line_entry x.1 x.2 e) kept (concat (ps_store edge_run.2))
    /\ mapM (encode_rows listed (fun _ => None)) (ps_store edge_run.2) = Some bodies /\ mapM read_rows bodies = Some rows
    /\ Forall2 (fun x row => line_row x.1 x.2 row) kept (concat rows).
Proof.
  apply (tcp_lines_stored edge_pipeline usage (newFrameQueue 4 10000) 1 peers peer_calls edge_run.1).
  - exact peers_ok.
  - exact peers_handle.
  - vm_compute. reflexivity.
  - apply sample_retry_ok.
  - apply newFrameQueue_ok. lia.
  - reflexivity.
  - exact edge_accepts.
  - vm_compute. reflexivity.
  - vm_compute. reflexivity.
  - intros e. split; reflexivity.
Defined.

(** The two lines admitted are stored, and none is counted as dropped later. *)
Example edge_stores_both :
  map le_Message (concat (ps_store edge_run.2)) = [" VPN disconnected"; "up"]%string
  /\ count_if later (m_Dropped (ps_metrics edge_run.2)) = 0.
Proof. split; vm_compute; reflexivity. Qed.
