(* ===== verification/Requests.v ===== *)
(** * HTTP requests, responses, and the bodies the API decodes

    The part of a request the handlers of [backend/internal/api] look at, the
    responses they write, and the decoding of a JSON body into a Go struct
    ([encoding/json]): field names match without regard to case, [null] leaves a
    field alone, any other type mismatch is an error. *)
From S2P Require Import Prelude GoStrings GoUtf8 GoTime GoUrl Domain GoStrconv GoJson Query VictoriaLogs.

(** [http.Request]: method, URL path as [EscapedPath] gives it, query parameters,
    session cookie, content type, whether the connection is TLS, and body. *)
Record Request := mkReq {
  r_Method : http_method;
  r_EscapedPath : string;
  r_Params : list (string * string);
  r_Cookie : option string;
  r_ContentType : string;
  r_TLS : bool;
  r_Body : string
}.
(** [r.URL.Path]; [net/http] answers a request whose path does not unescape
    itself, before any handler. *)
Definition r_Path (r : Request) : string := default ""%string (unescape InPath (r_EscapedPath r)).
(** [r.URL.Query().Get] *)
Definition Query_Get (r : Request) (key : string) : string :=
  default ""%string (snd <$> find (fun p => p.1 =s key) (r_Params r)).

(** ** Decoding into structs *)

Definition to_upper (c : byte) : byte := if (97 <=? code c) && (code c <=? 122) then chr (code c - 32) else c.
(** [foldName]: ASCII letters in upper case, and the two other runes that fold
    to an ASCII letter, U+017F and U+212A; each step consumes a byte. *)
Fixpoint fold_key (fuel : nat) (s : string) : string :=
  match fuel, s with
  | S fuel, String c s1 =>
      if code c <? 128 then String (to_upper c) (fold_key fuel s1)
      else
        let (r, w) := decode_rune s in
        (if r =? 383 then "S" else if r =? 8490 then "K" else str_take w s)
        +:+ fold_key fuel (str_drop w s)
  | _, _ => EmptyString
  end.
Definition key_matches (key name : string) : bool :=
  fold_key (String.length key) key =s fold_key (String.length name) name.

(** The decoders of one value into an existing field. *)
Definition into_string (old : string) (j : json) : option string :=
  match j with JStr raw => Some (string_of_literal raw) | JNull => Some old | _ => None end.
Definition into_int (old : Z) (j : json) : option Z :=
  match j with JNum lit => Atoi lit | JNull => Some old | _ => None end.
(** [time.Time.UnmarshalJSON] reads the literal as it stands. *)
Definition into_time (old : Time) (j : json) : option Time :=
  match j with JStr raw => ParseRFC3339Nano raw | JNull => Some old | _ => None end.

(** The members of an object, each decoded into the first field it names. *)
Fixpoint into_struct {A} (step : string -> json -> A -> option A) (m : list (string * json)) (a : A) : option A :=
  match m with [] => Some a | e :: m => a ← step e.1 e.2 a; into_struct step m a end.
Definition struct_of {A} (step : string -> json -> A -> option A) (zero : A) (j : json) : option A :=
  match j with JObj m => into_struct step m zero | JNull => Some zero | _ => None end.

(** [http.MaxBytesReader] of [limit] bytes in front of one [Decode]. *)
Definition decode_body (limit : Z) (body : string) : decoded :=
  let cut := limit <? len body in
  Decode cut (if cut then str_take (Z.to_nat limit) body else body).

Section Decode.
Context (parse_float : string -> option Z).

Definition filter_field (key : string) (j : json) (f : Filter) : option Filter :=
  if key_matches key "field" then s ← into_string (fl_Field f) j; Some (mkFilter s (fl_Op f) (fl_Value f))
  else if key_matches key "operator" then s ← into_string (fl_Op f) j; Some (mkFilter (fl_Field f) s (fl_Value f))
  else if key_matches key "value" then v ← to_any (as_float parse_float) j; Some (mkFilter (fl_Field f) (fl_Op f) v)
  else Some f.
Definition zero_filter : Filter := mkFilter "" "" ANil.
Definition into_filter (old : Filter) (j : json) : option Filter :=
  match j with JObj m => into_struct filter_field m old | JNull => Some old | _ => None end.
(** An array decodes element by element over what the slice holds. *)
Fixpoint into_filters (old : list Filter) (l : list json) : option (list Filter) :=
  match l with
  | [] => Some []
  | j :: l =>
      f ← into_filter (default zero_filter (head old)) j;
      r ← into_filters (tail old) l;
      Some (f :: r)
  end.

Definition zero_query : Query := mkQuery "" zero_time zero_time "" "" [] 0 "".
Definition query_field (key : string) (j : json) (q : Query) : option Query :=
  let '(mkQuery tenant start stop text native filters limit cursor) := q in
  if key_matches key "start" then t ← into_time start j; Some (mkQuery tenant t stop text native filters limit cursor)
  else if key_matches key "end" then t ← into_time stop j; Some (mkQuery tenant start t text native filters limit cursor)
  else if key_matches key "query" then s ← into_string text j; Some (mkQuery tenant start stop s native filters limit cursor)
  else if key_matches key "native_query" then
    s ← into_string native j; Some (mkQuery tenant start stop text s filters limit cursor)
  else if key_matches key "filters" then
    match j with
    | JNull => Some (mkQuery tenant start stop text native [] limit cursor)
    | JArr l => fs ← into_filters filters l; Some (mkQuery tenant start stop text native fs limit cursor)
    | _ => None
    end
  else if key_matches key "limit" then n ← into_int limit j; Some (mkQuery tenant start stop text native filters n cursor)
  else if key_matches key "cursor" then s ← into_string cursor j; Some (mkQuery tenant start stop text native filters limit s)
  else Some q.

(** [decodeQuery] of [server.go]: the tenant is never the client's to choose. *)
Definition decodeQuery (body : string) : option Query :=
  match decode_body (Z.shiftl 1 20) body with
  | DValue j _ =>
      match struct_of query_field zero_query j with
      | Some (mkQuery _ start stop text native filters limit cursor) =>
          Some (mkQuery "default" start stop text native filters limit cursor)
      | None => None
      end
  | _ => None
  end.
End Decode.

(** [controlstore.SavedSearch] *)
Record SavedSearch := mkSaved {
  ss_ID : string;
  ss_Name : string;
  ss_Description : string;
  ss_Query : string;
  ss_DefaultRange : string;
  ss_CreatedBy : string;
  ss_CreatedAt : Time;
  ss_UpdatedAt : Time
}.
Definition zero_saved : SavedSearch := mkSaved "" "" "" "" "" "" zero_time zero_time.
Definition saved_field (key : string) (j : json) (v : SavedSearch) : option SavedSearch :=
  let '(mkSaved id name desc query range by_ created updated) := v in
  if key_matches key "id" then s ← into_string id j; Some (mkSaved s name desc query range by_ created updated)
  else if key_matches key "name" then s ← into_string name j; Some (mkSaved id s desc query range by_ created updated)
  else if key_matches key "description" then s ← into_string desc j; Some (mkSaved id name s query range by_ created updated)
  else if key_matches key "query" then s ← into_string query j; Some (mkSaved id name desc s range by_ created updated)
  else if key_matches key "default_time_range" then
    s ← into_string range j; Some (mkSaved id name desc query s by_ created updated)
  else if key_matches key "created_by" then s ← into_string by_ j; Some (mkSaved id name desc query range s created updated)
  else if key_matches key "created_at" then t ← into_time created j; Some (mkSaved id name desc query range by_ t updated)
  else if key_matches key "updated_at" then t ← into_time updated j; Some (mkSaved id name desc query range by_ created t)
  else Some v.

(** [jsonDecode] of [auth.go]. *)
Definition jsonDecode {A} (step : string -> json -> A -> option A) (zero : A) (body : string) : option A :=
  match decode_body (Z.shiftl 1 20) body with DValue j _ => struct_of step zero j | _ => None end.

(** The credentials of a login. *)
Record Credentials := mkCredentials { cr_Username : string; cr_Password : string }.
Definition credentials_field (key : string) (j : json) (v : Credentials) : option Credentials :=
  if key_matches key "Username" then s ← into_string (cr_Username v) j; Some (mkCredentials s (cr_Password v))
  else if key_matches key "Password" then s ← into_string (cr_Password v) j; Some (mkCredentials (cr_Username v) s)
  else Some v.

(** ** Responses *)

Record sourceView := mkView {
  sv_ID : string; sv_Name : string; sv_Protocol : string; sv_Address : string;
  sv_Parser : string; sv_Enabled : bool; sv_Status : string
}.

(** What a response carries. *)
Inductive payload :=
  | PEmpty
  | PCode (code : string) (index : option nat)
  | PResult (r : QueryResult)
  | PStats (s : StatsResult)
  | PFields (l : list FieldInfo)
  | PValues (l : list ValueCount)
  | PExport (format text : string)
  | PRows (l : list (gmap string any))
  | PCapabilities (c : Capabilities)
  | PAccepted (n : Z)
  | PUser (user role : string) (auth_enabled : option bool)
  | PSaved (v : SavedSearch)
  | PSavedList (l : list SavedSearch)
  | PSources (l : list sourceView)
  | PStatus (status : string) (checks : list (string * string))
  | PMetrics
  | PLocation (path : string)
  | PStream.

Record Response := mkResp { rp_Status : Z; rp_Payload : payload }.
Definition error_response (status : Z) (code : string) : Response := mkResp status (PCode code None).
