(* ===== verification/Mux.v ===== *)
(** * Routes

    The patterns [New] of [backend/internal/api/server.go] registers, and how
    [http.ServeMux] chooses among them: it cleans the escaped path, unescapes it
    segment by segment, and a wildcard takes one segment. The middleware looks at
    the unescaped path instead; [route_path] says that the two agree on every
    request that reaches a handler. *)
From S2P Require Import Prelude GoStrings GoUrl Domain GoStrconv GoJson Query VictoriaLogs.

Inductive route :=
  | RHealth | RReady | RMetrics | RCapabilities | RRecent | RIngest | RSearch | RStats | RFields
  | RValues (field : string)
  | RExport | RTail | RLogin | RLogout | RMe | RListSaved | RCreateSaved
  | RDeleteSaved (id : string)
  | RSources.

(** A segment of a pattern. *)
Inductive segment := Literal (s : string) | Wildcard.

Definition not_slash (c : byte) : bool := negb (c =c "/").

(** [path.Clean] of a rooted path, over its segments; [done] is reversed. *)
Fixpoint split_slash (cur s : string) : list string :=
  match s with
  | EmptyString => [str_rev cur]
  | String c s => if c =c "/" then str_rev cur :: split_slash "" s else split_slash (String c cur) s
  end.
Fixpoint clean_segments (done segs : list string) : list string :=
  match segs with
  | [] => rev done
  | s :: segs =>
      if (s =s "") || (s =s ".") then clean_segments done segs
      else if s =s ".." then clean_segments (tail done) segs
      else clean_segments (s :: done) segs
  end.
(** [cleanPath] of [net/http]. *)
Definition cleanPath (p : string) : string :=
  let p := if starts (fun c => c =c "/") p then p else String "/" p in
  let np := String "/" (join "/" (clean_segments [] (split_slash "" p))) in
  if ends (fun c => c =c "/") p && negb (np =s "/") then np +:+ "/" else np.

(** [firstSegment] *)
Definition first_segment (p : string) : string * string :=
  if p =s "/" then ("/", "")%string
  else let (seg, rest) := span not_slash (str_drop 1 p) in (default seg (unescape InPath seg), rest).

Fixpoint match_path (pat : list segment) (p : string) : option (list string) :=
  match pat with
  | [] => if p =s "" then Some [] else None
  | x :: pat =>
      if p =s "" then None else
      let (seg, rest) := first_segment p in
      match x with
      | Literal l => if seg =s l then match_path pat rest else None
      | Wildcard => if seg =s "/" then None else c ← match_path pat rest; Some (seg :: c)
      end
  end.

(** A pattern as it is registered. *)
Definition segment_of (s : string) : segment := if starts (fun c => c =c "{") s then Wildcard else Literal s.
Definition pattern_of (s : string) : list segment := map segment_of (tail (split_slash "" s)).

Definition arg (captured : list string) : string := default ""%string (head captured).

(** The registrations of [New]. *)
Definition routes : list (http_method * string * (list string -> route)) := [
  (GET, "/health", fun _ => RHealth);
  (GET, "/ready", fun _ => RReady);
  (GET, "/metrics", fun _ => RMetrics);
  (GET, "/api/v1/capabilities", fun _ => RCapabilities);
  (GET, "/api/v1/system/logs/recent", fun _ => RRecent);
  (POST, "/api/v1/ingest", fun _ => RIngest);
  (POST, "/api/v1/logs/search", fun _ => RSearch);
  (POST, "/api/v1/logs/stats", fun _ => RStats);
  (POST, "/api/v1/fields", fun _ => RFields);
  (POST, "/api/v1/fields/{field}/values", fun c => RValues (arg c));
  (POST, "/api/v1/logs/export", fun _ => RExport);
  (GET, "/api/v1/logs/tail", fun _ => RTail);
  (POST, "/api/v1/auth/login", fun _ => RLogin);
  (POST, "/api/v1/auth/logout", fun _ => RLogout);
  (GET, "/api/v1/auth/me", fun _ => RMe);
  (GET, "/api/v1/saved-searches", fun _ => RListSaved);
  (POST, "/api/v1/saved-searches", fun _ => RCreateSaved);
  (DELETE, "/api/v1/saved-searches/{id}", fun c => RDeleteSaved (arg c));
  (GET, "/api/v1/sources", fun _ => RSources)]%string.

Definition method_text (m : http_method) : string :=
  match m with
  | GET => "GET" | POST => "POST" | DELETE => "DELETE" | HEAD => "HEAD" | CONNECT => "CONNECT" | OTHER n => n
  end.

(** A pattern with a method takes it; [GET] takes [HEAD] too. *)
Definition method_ok (asked registered : http_method) : bool :=
  bool_decide (asked = registered) || (bool_decide (asked = HEAD) && bool_decide (registered = GET)).

Definition try_route (m : http_method) (p : string) (r : http_method * string * (list string -> route))
    : option (string * route) :=
  let '(m', pat, handler) := r in
  if method_ok m m' then
    match match_path (pattern_of pat) p with
    | Some captured => Some (method_text m' +:+ " " +:+ pat, handler captured)
    | None => None
    end
  else None.
Fixpoint first_some {A B} (f : A -> option B) (l : list A) : option B :=
  match l with [] => None | x :: l => match f x with Some y => Some y | None => first_some f l end end.
Definition find_route (m : http_method) (p : string) : option (string * route) := first_some (try_route m p) routes.

Inductive mux_result :=
  | Routed (pattern : string) (rt : route)
  | Redirected (pattern location : string)
  | MethodNotAllowed
  | NotFound.

(** [ServeMux.findHandler] *)
Definition serve_mux (m : http_method) (escaped : string) : mux_result :=
  let p := if bool_decide (m = CONNECT) then escaped else cleanPath escaped in
  let found := find_route m p in
  if negb (p =s escaped) then Redirected (default ""%string (fst <$> found)) p
  else
    match found with
    | Some (pattern, rt) => Routed pattern rt
    | None =>
        if existsb (fun r => bool_decide (is_Some (match_path (pattern_of r.1.2) p))) routes
        then MethodNotAllowed else NotFound
    end.

Example mux_values : serve_mux POST "/api/v1/fields/app%2Fname/values"
  = Routed "POST /api/v1/fields/{field}/values" (RValues "app/name").
Proof. vm_compute. reflexivity. Qed.
Example mux_escaped : serve_mux HEAD "/%61pi/v1/auth/me" = Routed "GET /api/v1/auth/me" RMe.
Proof. vm_compute. reflexivity. Qed.
Example mux_slash : serve_mux POST "/api/v1/auth%2Flogin" = NotFound.
Proof. vm_compute. reflexivity. Qed.
Example mux_clean : serve_mux GET "/x/..//api/v1/./sources" = Redirected "GET /api/v1/sources" "/api/v1/sources".
Proof. vm_compute. reflexivity. Qed.
Example mux_method : serve_mux GET "/api/v1/ingest" = MethodNotAllowed.
Proof. vm_compute. reflexivity. Qed.

(** ** A handler is reached by its own path

    However the request spells it. *)

Definition is_slash_byte (c : byte) : bool := c =c "/".
(** Empty, or from a slash on. *)
Definition at_segment (s : string) : Prop := s = ""%string \/ exists r, s = String "/" r.

Lemma unescape_app a rest p :
  at_segment rest -> unescape InPath (a +:+ rest) = Some p ->
  exists pa pr, unescape InPath a = Some pa /\ unescape InPath rest = Some pr /\ p = pa +:+ pr.
Proof.
  intros Hr. remember (String.length a) as n eqn:En. revert a p En.
  induction n as [n IH] using lt_wf_ind. intros [|c a] p -> H; [by exists ""%string, p|].
  rewrite append_cons in H. cbn [unescape] in *. destruct (c =c "%").
  - destruct a as [|h1 [|h2 a]].
    + destruct Hr as [->|[[|h r] ->]]; discriminate H.
    + destruct Hr as [->|[r ->]]; [discriminate H|]. rewrite append_cons in H. change ("" +:+ ?x) with x in H.
      by destruct (is_ishex h1).
    + rewrite !append_cons in H. destruct (_ && _); [|discriminate H].
      destruct (unescape InPath (a +:+ rest)) as [q|] eqn:E; [|discriminate H]. injection H as <-.
      destruct (IH (String.length a)) with (a := a) (p := q) as (pa & pr & -> & -> & ->); [simpl; lia|done..|].
      by eexists _, _.
  - destruct (unescape InPath (a +:+ rest)) as [q|] eqn:E; [|discriminate H]. injection H as <-.
    destruct (IH (String.length a)) with (a := a) (p := q) as (pa & pr & -> & -> & ->); [simpl; lia|done..|].
    by eexists _, _.
Qed.

(** The path a pattern stands for, once its wildcards are known. *)
Fixpoint fill (pat : list segment) (captured : list string) : string :=
  match pat, captured with
  | Literal l :: pat, _ => "/" +:+ l +:+ fill pat captured
  | Wildcard :: pat, c :: captured => "/" +:+ c +:+ fill pat captured
  | _, _ => ""
  end.

Definition no_bare_slash (x : segment) : bool := match x with Literal l => negb (l =s "/") | Wildcard => true end.

Lemma span_rest p s a b : span p s = (a, b) -> b = ""%string \/ exists c r, b = String c r /\ p c = false.
Proof.
  revert a b. induction s as [|c s IH]; intros a b H; cbn [span] in H; [injection H as <- <-; by left|].
  destruct (p c) eqn:E; [|injection H as <- <-; right; eauto].
  destruct (span p s) as [x y] eqn:Ey. injection H as <- <-. by apply (IH x).
Qed.

Lemma match_path_fill pat p captured q :
  forallb no_bare_slash pat = true -> at_segment p -> match_path pat p = Some captured ->
  unescape InPath p = Some q -> q = fill pat captured.
Proof.
  revert p captured q. induction pat as [|x pat IH]; intros p captured q Hp Hat H Hq.
  - cbn [match_path] in H. destruct (str_eq_spec p ""); [|done]. subst p. by injection Hq as <-.
  - cbn [match_path forallb] in *. apply andb_true_iff in Hp as [Hx Hp].
    destruct Hat as [->|[r ->]]; [discriminate H|]. change (String "/" r =s "") with false in H.
    unfold first_segment in H. destruct (str_eq_spec (String "/" r) "/") as [E|E].
    { destruct x as [l|]; [|discriminate H]. cbn [no_bare_slash] in Hx.
      destruct (str_eq_spec "/" l) as [<-|]; [discriminate Hx|discriminate H]. }
    cbn [str_drop] in H. replace (str_drop 0 r) with r in H by (by destruct r).
    destruct (span not_slash r) as [a b] eqn:Es. pose proof (span_spec _ _ _ _ Es) as (-> & _ & _).
    assert (Hb : at_segment b).
    { destruct (span_rest _ _ _ _ Es) as [->|(c & r' & -> & Hc)]; [by left|right]. exists r'.
      unfold not_slash in Hc. destruct (ch_eq_spec c "/"); [by subst|done]. }
    change (String "/" (a +:+ b)) with (String "/" a +:+ b) in Hq.
    destruct (unescape_app _ _ _ Hb Hq) as (pa & pr & Ha & Hr & ->).
    cbn [unescape] in Ha. change ("/" =c "%") with false in Ha. cbv iota in Ha.
    destruct (unescape InPath a) as [ua|]; [|discriminate Ha]. injection Ha as <-. change (default a (Some ua)) with ua in H.
    destruct x as [l|]; cbn [fill].
    + destruct (str_eq_spec ua l) as [->|]; [|discriminate H]. by rewrite (IH b captured pr).
    + destruct (ua =s "/"); [discriminate H|]. destruct (match_path pat b) as [cs|] eqn:Em; [|discriminate H].
      injection H as <-. by rewrite (IH b cs pr).
Qed.

Lemma first_some_Some {A B} (f : A -> option B) l y : first_some f l = Some y -> exists x, In x l /\ f x = Some y.
Proof.
  induction l as [|x l IH]; intros H; [done|]. cbn [first_some] in H. destruct (f x) as [z|] eqn:E.
  - injection H as <-. exists x. by split; [left|].
  - destruct (IH H) as (x' & ? & ?). exists x'. by split; [right|].
Qed.

Lemma routes_plain : forallb (fun r => forallb no_bare_slash (pattern_of r.1.2)) routes = true.
Proof. vm_compute. reflexivity. Qed.

Lemma cleanPath_at p : at_segment (cleanPath p).
Proof. right. unfold cleanPath. destruct (_ && _); by eexists. Qed.

(** A routed request has the path of a registered pattern. *)
Lemma routed_path m escaped pattern rt p :
  serve_mux m escaped = Routed pattern rt -> unescape InPath escaped = Some p ->
  exists r captured, In r routes /\ method_ok m r.1.1 = true /\ rt = r.2 captured /\ p = fill (pattern_of r.1.2) captured.
Proof.
  unfold serve_mux. intros H Hp. set (q := if bool_decide _ then _ else _) in H.
  destruct (str_eq_spec q escaped) as [Eq|]; [cbn [negb] in H|discriminate H].
  destruct (find_route m q) as [[pattern' rt']|] eqn:E; [|destruct (existsb _ _); discriminate H].
  injection H as -> ->. apply first_some_Some in E as ([[m' pat] handler] & Hin & Ht). unfold try_route in Ht.
  destruct (method_ok m m') eqn:Em; [|done]. destruct (match_path (pattern_of pat) q) as [cs|] eqn:Ec; [|done].
  injection Ht as <- <-. exists (m', pat, handler), cs. split_and!; [done..|].
  apply (match_path_fill _ q); [| |done|by rewrite Eq].
  - pose proof routes_plain as Hall. rewrite forallb_forall in Hall. exact (Hall _ Hin).
  - subst q. case_bool_decide as Hm; [|apply cleanPath_at]. exfalso. subst m.
    unfold method_ok in Em. repeat (destruct Hin as [Hin|Hin]; [injection Hin as <- <- <-; by vm_compute in Em|]). destruct Hin.
Qed.

(** The routes that need no session. *)
Definition public (rt : route) : bool :=
  match rt with RHealth | RReady | RMetrics | RLogin => true | _ => false end.

Definition login_path : string := "/api/v1/auth/login".

Lemma protected_paths r captured :
  In r routes -> public (r.2 captured) = false ->
  HasPrefix (fill (pattern_of r.1.2) captured) "/api/" = true
  /\ (fill (pattern_of r.1.2) captured =s login_path) = false.
Proof.
  intros Hin. unfold routes in Hin.
  repeat (destruct Hin as [<-|Hin];
    [try (by intros Hd; discriminate Hd); intros _; destruct captured; by split|]).
  destruct Hin.
Qed.

(** No spelling of a path reaches a protected handler past the middleware's
    test of the path. *)
Lemma protected_path m escaped pattern rt p :
  serve_mux m escaped = Routed pattern rt -> unescape InPath escaped = Some p -> public rt = false ->
  HasPrefix p "/api/" = true /\ (p =s login_path) = false.
Proof.
  intros H Hp Hpub. destruct (routed_path _ _ _ _ _ H Hp) as (r & cs & Hin & _ & -> & ->).
  by apply protected_paths.
Qed.
