(* ===== verification/Backend.v ===== *)
(** * What the API needs of a storage backend

    The interfaces [Querier], [Appender] and [Backend] of
    [backend/internal/storage/storage.go] as records of operations, the laws the
    handlers rely on, and the VictoriaLogs client as an instance. *)
From S2P Require Import Prelude GoStrings GoTime Domain Pipeline GoStrconv GoJson Query Row VictoriaLogs.

Record Querier := mkQuerier {
  b_Query : Query -> outcome storage_error QueryResult;
  b_Stats : Query -> outcome storage_error StatsResult;
  b_FieldNames : Query -> outcome storage_error (list FieldInfo);
  b_FieldValues : Query -> string -> Z -> outcome storage_error (list ValueCount);
  b_Export : Query -> string -> outcome (storage_error * string) string
}.
(** [b_Querier] is the type assertion to [Querier], [b_Recent] the one to the
    VictoriaLogs client. *)
Record Backend := mkBackend {
  b_Append : list LogEntry -> outcome storage_error AppendResult;
  b_Check : Health;
  b_Capabilities : Capabilities;
  b_Querier : option Querier;
  b_Recent : option (Z -> outcome storage_error (list (gmap string any)))
}.

(** No operation panics, and an append counts what it was given. *)
Class QuerierLaws (q : Querier) : Prop := {
  Query_returns : forall x, no_panic (b_Query q x);
  Stats_returns : forall x, no_panic (b_Stats q x);
  FieldNames_returns : forall x, no_panic (b_FieldNames q x);
  FieldValues_returns : forall x f n, no_panic (b_FieldValues q x f n);
  Export_returns : forall x f, no_panic (b_Export q x f)
}.
Class BackendLaws (b : Backend) : Prop := {
  Append_returns : forall l, no_panic (b_Append b l);
  Append_counts : forall l r, b_Append b l = Ok r -> ar_Accepted r = Z.of_nat (length l);
  Recent_returns : forall f n, b_Recent b = Some f -> no_panic (f n);
  Querier_laws : forall q, b_Querier b = Some q -> QuerierLaws q
}.

(** A total computation: nothing below it panics. *)
Create HintDb total.
#[export] Hint Extern 0 (no_panic (Ok _)) => exact I : total.
#[export] Hint Extern 0 (no_panic (Err _)) => exact I : total.
Ltac total :=
  repeat first
    [ done
    | solve [auto with total nocore]
    | apply no_panic_bind; [|intros ? ?]
    | case_match
    | progress cbv zeta ].

Section Client.
Context (do : http_request -> option http_response)
  (visit : LogEntry -> list (string * any) * list (string * string))
  (is_print : Z -> bool) (sprint_float : Z -> string)
  (parse_float : string -> option Z) (json_float : Z -> option string)
  (c : Client).

Definition client_querier : Querier :=
  mkQuerier (Run do is_print sprint_float parse_float c) (Stats do is_print sprint_float parse_float c)
    (FieldNames do is_print sprint_float parse_float c) (FieldValues do is_print sprint_float parse_float c)
    (Export do is_print sprint_float parse_float c).
Definition client_backend : Backend :=
  mkBackend (Append do visit json_float c) (HealthCheck do c) client_capabilities (Some client_querier)
    (Some (Recent do parse_float c)).

(** What a built query says of the query. *)
Lemma build_limit q s : build is_print sprint_float q = Ok s -> 0 <= q_Limit q.
Proof.
  unfold build, LogsQL. destruct (Validate q) as [q'|e|] eqn:E; [|done..].
  apply Validate_limit in E. intros _. lia.
Qed.

Lemma Validate_total q : no_panic (Validate q).
Proof. unfold Validate. repeat case_match; done. Qed.
Lemma build_total q : no_panic (build is_print sprint_float q).
Proof.
  unfold build, LogsQL. pose proof (Validate_total q). destruct (Validate q) as [q'|e|]; [|done..].
  cbn. repeat case_match; done.
Qed.
Lemma queryStream_total text : no_panic (queryStream do c text).
Proof. unfold queryStream. total. Qed.
#[local] Hint Resolve build_total queryStream_total : total.
Lemma runQuery_total text : no_panic (runQuery do parse_float c text).
Proof. unfold runQuery. total. Qed.
Lemma number_total v : no_panic (number sprint_float v).
Proof. unfold number. total. Qed.
#[local] Hint Resolve runQuery_total number_total : total.

Lemma mapM_out_total {A B} (f : A -> outcome storage_error B) l :
  (forall x, no_panic (f x)) -> no_panic (mapM_out f l).
Proof. intros Hf. induction l; cbn [mapM_out]; total. Qed.
Lemma group_counts_total name rows : no_panic (group_counts sprint_float name rows).
Proof. induction rows; cbn [group_counts]; total. Qed.
Lemma value_counts_total name rows : no_panic (value_counts sprint_float name rows).
Proof. induction rows; cbn [value_counts]; total. Qed.
Lemma bucket_total row : no_panic (bucket sprint_float row).
Proof. unfold bucket. total. Qed.
Lemma field_info_total row : no_panic (field_info sprint_float row).
Proof. unfold field_info. total. Qed.
#[local] Hint Resolve mapM_out_total group_counts_total value_counts_total bucket_total field_info_total : total.
Lemma groupedCounts_total base name n : no_panic (groupedCounts do sprint_float parse_float c base name n).
Proof. unfold groupedCounts. total. Qed.
Lemma before_writing_total {A} (m : outcome storage_error A) : no_panic m -> no_panic (before_writing m).
Proof. by destruct m. Qed.
#[local] Hint Resolve groupedCounts_total before_writing_total : total.
Lemma Run_total q : no_panic (Run do is_print sprint_float parse_float c q).
Proof.
  unfold Run. apply no_panic_bind; [total|]. intros base Hb. apply build_limit in Hb.
  apply no_panic_bind; [total|]. intros rows _. destruct (_ <? _); [|done].
  destruct (Z.ltb_spec (q_Limit q) 0); [lia|]. cbv zeta. done.
Qed.

Lemma client_counts l r : Append do visit json_float c l = Ok r -> ar_Accepted r = Z.of_nat (length l).
Proof.
  intros H. unfold Append in H. destruct l as [|e l]; [by injection H as <-|].
  destruct (encode_rows _ _ _); [|discriminate H]. destruct (do _) as [rs|]; [|discriminate H].
  destruct (success (rs_status rs)); [|discriminate H]. by injection H as <-.
Qed.

#[export] Instance client_querier_laws : QuerierLaws client_querier.
Proof.
  split; intros; cbn; [apply Run_total|unfold Stats; total|unfold FieldNames; total|unfold FieldValues; total
    |unfold Export; total].
Qed.
#[export] Instance client_backend_laws : BackendLaws client_backend.
Proof.
  split; cbn.
  - intros l. unfold Append. total.
  - apply client_counts.
  - intros f n [= <-]. unfold Recent. total.
  - intros q [= <-]. apply client_querier_laws.
Qed.
End Client.
