(* ===== verification/Auth.v ===== *)
(** * Sessions

    [backend/internal/api/auth.go]. [bcrypt] is not part of the repository:
    [generate] is [GenerateFromPassword] ([None] on an error) and [matches]
    [CompareHashAndPassword]. A random token is given by its 32 bytes. *)
From S2P Require Import Prelude GoStrings GoTime Domain GoStrconv GoJson Query VictoriaLogs Requests Mux.

Record session := mkSession { se_User : string; se_Role : string; se_Expires : Time }.
Record authManager := mkAuth {
  a_enabled : bool;
  a_hash : string;
  a_sessions : gmap string session
}.

Definition hours (n : Z) : Z := n * 3600 * second.

Section Auth.
Context (generate : string -> option string) (matches : string -> string -> bool).

(** A password that [bcrypt] refuses leaves the hash empty. *)
Definition newAuthManager (password : string) : authManager :=
  mkAuth (negb (password =s "")) (if password =s "" then "" else default ""%string (generate password)) ∅.

Definition issue (random : string) (now : Time) (a : authManager) : string * authManager :=
  let t := RawURLEncode random in
  (t, mkAuth (a_enabled a) (a_hash a)
        (<[t := mkSession "admin" "admin" (add_dur now (hours 12))]> (a_sessions a))).

Definition zero_session : session := mkSession "" "" zero_time.

(** The session of a request, and whether it is valid. *)
Definition get (a : authManager) (r : Request) (now : Time) : session * bool :=
  if negb (a_enabled a) then (mkSession "development" "admin" (add_dur now (hours 1)), true) else
  match r_Cookie r with
  | None => (zero_session, false)
  | Some token =>
      match a_sessions a !! token with
      | Some s => (s, Before now (se_Expires s))
      | None => (zero_session, false)
      end
  end.

(** Whether a login is accepted. *)
Definition credentials_ok (a : authManager) (r : Request) : bool :=
  match jsonDecode credentials_field (mkCredentials "" "") (r_Body r) with
  | Some c => (cr_Username c =s "admin") && a_enabled a && matches (a_hash a) (cr_Password c)
  | None => false
  end.

(** The cookie a response sets: its value, whether only over TLS, its age in
    seconds (negative removes it). *)
Record cookie := mkCookie { ck_Value : string; ck_Secure : bool; ck_MaxAge : Z }.

Definition login (a : authManager) (r : Request) (random : string) (now : Time)
    : Response * option cookie * authManager :=
  if negb (credentials_ok a r) then (error_response 401 "invalid_credentials", None, a)
  else
    let (token, a) := issue random now a in
    (mkResp 200 (PUser "admin" "admin" None), Some (mkCookie token (r_TLS r) 43200), a).

Definition logout (a : authManager) (r : Request) : Response * option cookie * authManager :=
  let a := match r_Cookie r with
           | Some token => mkAuth (a_enabled a) (a_hash a) (delete token (a_sessions a))
           | None => a
           end in
  (mkResp 204 PEmpty, Some (mkCookie "" false (-1)), a).

Definition me (a : authManager) (r : Request) (now : Time) : Response :=
  let (u, ok) := get a r now in
  if ok then mkResp 200 (PUser (se_User u) (se_Role u) (Some (a_enabled a)))
  else error_response 401 "unauthorized".

(** [authMiddleware]: whether the request reaches the handlers. *)
Definition authMiddleware (a : authManager) (r : Request) (now : Time) : bool :=
  negb (a_enabled a) || (r_Path r =s login_path) || negb (HasPrefix (r_Path r) "/api/")
  || (get a r now).2.
End Auth.
