(* ===== verification/Saved.v ===== *)
(** * Saved searches and sources

    [backend/internal/api/saved.go] and [sources.go]. The searches are in the
    server's map, or in a control store that answers through [SavedStore]
    ([backend/internal/controlstore/saved_search.go]). *)
From S2P Require Import Prelude GoStrings GoTime Domain Config GoStrconv GoJson Query VictoriaLogs Requests Auth.

(** [controlstore.SavedSearchStore]; [None] is an error. *)
Record SavedStore := mkStore {
  ListSavedSearches : string -> option (list SavedSearch);
  CreateSavedSearch : SavedSearch -> bool;
  DeleteSavedSearch : string -> string -> option bool
}.

(** [sort.Slice] by name; the order of equal names is not specified by Go. *)
Fixpoint insert_saved (v : SavedSearch) (l : list SavedSearch) : list SavedSearch :=
  match l with
  | [] => [v]
  | x :: l' => if String.ltb (ss_Name x) (ss_Name v) then x :: insert_saved v l' else v :: l
  end.
Definition sort_saved (l : list SavedSearch) : list SavedSearch := foldr insert_saved [] l.

Definition owned (owner : string) (l : list SavedSearch) : list SavedSearch :=
  List.filter (fun v => ss_CreatedBy v =s owner) l.

Definition listSaved (store : option SavedStore) (saved : gmap string SavedSearch) (owner : string) : Response :=
  match store with
  | Some st =>
      match ListSavedSearches st owner with
      | None => error_response 503 "control_store_unavailable"
      | Some out => mkResp 200 (PSavedList out)
      end
  | None => mkResp 200 (PSavedList (sort_saved (owned owner (map snd (map_to_list saved)))))
  end.

Definition saved_acceptable (v : SavedSearch) : bool :=
  negb ((TrimSpace (ss_Name v) =s "") || (120 <? len (ss_Name v)) || (1024 <? len (ss_Description v))
        || (4096 <? len (ss_Query v)) || (32 <? len (ss_DefaultRange v))).

Fixpoint hex_string (s : string) : string :=
  match s with EmptyString => "" | String c s => hex_digits 2 (code c) "" +:+ hex_string s end.

(** The search a request creates, or the answer that refuses it; [random] is the 16
    bytes of the identifier, [None] when reading them fails. *)
Definition new_search (owner body : string) (random : option string) (now : Time) : Response + SavedSearch :=
  match jsonDecode saved_field zero_saved body with
  | None => inl (error_response 400 "invalid_saved_search")
  | Some v =>
      if negb (saved_acceptable v) then inl (error_response 400 "invalid_saved_search") else
      match random with
      | None => inl (error_response 500 "internal_error")
      | Some id =>
          let now := UTC now in
          inr (mkSaved (hex_string id) (ss_Name v) (ss_Description v) (ss_Query v)
                 (if ss_DefaultRange v =s "" then "1h" else ss_DefaultRange v) owner now now)
      end
  end.

Definition createSaved (store : option SavedStore) (saved : gmap string SavedSearch) (owner body : string)
    (random : option string) (now : Time) : Response * gmap string SavedSearch :=
  match new_search owner body random now with
  | inl refused => (refused, saved)
  | inr v =>
      match store with
      | Some st =>
          if CreateSavedSearch st v then (mkResp 201 (PSaved v), saved)
          else (error_response 503 "control_store_unavailable", saved)
      | None => (mkResp 201 (PSaved v), <[ss_ID v := v]> saved)
      end
  end.

Definition deleteSaved (store : option SavedStore) (saved : gmap string SavedSearch) (owner id : string)
    : Response * gmap string SavedSearch :=
  match store with
  | Some st =>
      match DeleteSavedSearch st owner id with
      | None => (error_response 503 "control_store_unavailable", saved)
      | Some false => (error_response 404 "not_found", saved)
      | Some true => (mkResp 204 PEmpty, saved)
      end
  | None =>
      match saved !! id with
      | Some v =>
          if ss_CreatedBy v =s owner then (mkResp 204 PEmpty, delete id saved)
          else (error_response 404 "not_found", saved)
      | None => (error_response 404 "not_found", saved)
      end
  end.

(** [listSources] *)
Definition source_view (accepting : bool) (s : SourceConfig) : sourceView :=
  let status := if sc_Enabled s then (if accepting then "running" else "draining")%string else "disabled"%string in
  mkView (sc_ID s) (sc_Name s) (sc_Protocol s) (sc_Address s) (sc_Parser s) (sc_Enabled s) status.
Definition listSources (accepting : bool) (address : string) (sources : list SourceConfig) : Response :=
  mkResp 200 (PSources (map (source_view accepting) sources
    ++ [mkView "http-json" "HTTP JSON" "http" address "json" true "running"])).
