(* ===== verification/SavedProps.v ===== *)
(** * Saved searches behave as a list

    The map of [saved.go] refines a list of searches in the order of their
    creation, along every sequence of creations and deletions by any owners. *)
From Stdlib Require Import Sorting.Sorted.
From S2P Require Import Prelude GoStrings GoTime Domain Config GoStrconv GoJson Query VictoriaLogs Requests Mux Auth Saved.

Inductive saved_op :=
  | OpCreate (owner body : string) (random : option string) (now : Time)
  | OpDelete (owner id : string).

Definition saved_step (m : gmap string SavedSearch) (op : saved_op) : Response * gmap string SavedSearch :=
  match op with
  | OpCreate owner body random now => createSaved None m owner body random now
  | OpDelete owner id => deleteSaved None m owner id
  end.
Fixpoint saved_run (m : gmap string SavedSearch) (ops : list saved_op) : list Response * gmap string SavedSearch :=
  match ops with
  | [] => ([], m)
  | op :: ops => let (rp, m) := saved_step m op in let (rps, m) := saved_run m ops in (rp :: rps, m)
  end.

(** ** The specification *)

(** The search a body asks for. *)
Definition asked (body : string) : option SavedSearch :=
  v ← jsonDecode saved_field zero_saved body; if saved_acceptable v then Some v else None.
Definition complete_search (v : SavedSearch) (owner id : string) (now : Time) : SavedSearch :=
  mkSaved id (ss_Name v) (ss_Description v) (ss_Query v)
    (if ss_DefaultRange v =s "" then "1h"%string else ss_DefaultRange v) owner now now.

Definition spec_step (l : list SavedSearch) (op : saved_op) : Response * list SavedSearch :=
  match op with
  | OpCreate owner body random now =>
      match asked body, random with
      | None, _ => (error_response 400 "invalid_saved_search", l)
      | Some _, None => (error_response 500 "internal_error", l)
      | Some v, Some id =>
          let v := complete_search v owner (hex_string id) (UTC now) in (mkResp 201 (PSaved v), l ++ [v])
      end
  | OpDelete owner id =>
      if existsb (fun v => (ss_ID v =s id) && (ss_CreatedBy v =s owner)) l
      then (mkResp 204 PEmpty, List.filter (fun v => negb (ss_ID v =s id)) l)
      else (error_response 404 "not_found", l)
  end.
Fixpoint spec_run (l : list SavedSearch) (ops : list saved_op) : list Response * list SavedSearch :=
  match ops with
  | [] => ([], l)
  | op :: ops => let (rp, l) := spec_step l op in let (rps, l) := spec_run l ops in (rp :: rps, l)
  end.

(** The random identifiers drawn. *)
Definition drawn (op : saved_op) : list string :=
  match op with OpCreate _ _ (Some id) _ => [id] | _ => [] end.
Definition name_le (a b : SavedSearch) : Prop := String.ltb (ss_Name b) (ss_Name a) = false.

(** ** Sorting *)

Lemma insert_saved_perm v l : insert_saved v l ≡ₚ v :: l.
Proof.
  induction l as [|x l IH]; [done|]. cbn [insert_saved]. destruct (String.ltb _ _); [|done].
  rewrite IH. apply Permutation_swap.
Qed.
Lemma sort_saved_perm l : sort_saved l ≡ₚ l.
Proof. unfold sort_saved. induction l as [|v l IH]; [done|]. cbn [foldr]. by rewrite insert_saved_perm, IH. Qed.

Lemma ltb_asym a b : String.ltb a b = true -> String.ltb b a = false.
Proof.
  unfold String.ltb. rewrite (String.compare_antisym b a). by destruct (String.compare a b).
Qed.

Lemma insert_saved_sorted v l : Sorted name_le l -> Sorted name_le (insert_saved v l).
Proof.
  induction 1 as [|x l Hs IH Hx]; [by repeat constructor|]. cbn [insert_saved].
  destruct (String.ltb (ss_Name x) (ss_Name v)) eqn:E.
  - constructor; [done|]. destruct l as [|y l]; cbn [insert_saved] in *.
    + constructor. by apply ltb_asym.
    + destruct (String.ltb (ss_Name y) (ss_Name v)); constructor; [by inversion Hx|by apply ltb_asym].
  - constructor; [by constructor|]. by constructor.
Qed.
Lemma sort_saved_sorted l : Sorted name_le (sort_saved l).
Proof. induction l; [constructor|]. by apply insert_saved_sorted. Qed.

(** The searches of an owner do not depend on the order of the list. *)
#[export] Instance owned_proper owner : Proper ((≡ₚ) ==> (≡ₚ)) (owned owner).
Proof.
  intros l l'. apply filter_perm.
Qed.

(** ** The refinement *)

Definition keyed (v : SavedSearch) : string * SavedSearch := (ss_ID v, v).
Definition holds (m : gmap string SavedSearch) (l : list SavedSearch) : Prop :=
  m = list_to_map (map keyed l) /\ NoDup (map ss_ID l).

Lemma keyed_ids l : (map keyed l).*1 = map ss_ID l.
Proof. rewrite <- list_fmap_compose. done. Qed.

Lemma holds_lookup m l v : holds m l -> m !! ss_ID v = Some v <-> In v l.
Proof.
  intros [-> Hn]. rewrite <- elem_of_list_to_map by (by rewrite keyed_ids).
  rewrite list_elem_of_In, in_map_iff. split; [intros (x & [= _ <-] & ?); done|]. intros. by exists v.
Qed.

Lemma holds_snoc m l v : holds m l -> ss_ID v ∉ map ss_ID l -> holds (<[ss_ID v := v]> m) (l ++ [v]).
Proof.
  intros [-> Hn] Hv. split.
  - rewrite map_app. cbn [map]. symmetry. apply (list_to_map_snoc (map keyed l) (ss_ID v) v). by rewrite keyed_ids.
  - rewrite map_app. apply NoDup_app. split_and!; [done| |apply NoDup_singleton].
    by intros x Hx ->%list_elem_of_singleton.
Qed.

Lemma keep_ids (p : SavedSearch -> bool) l x : x ∈ map ss_ID (List.filter p l) -> x ∈ map ss_ID l.
Proof. rewrite !list_elem_of_In, !in_map_iff. intros (v & ? & [? _]%filter_In). by exists v. Qed.

Lemma holds_delete m l id : holds m l -> holds (delete id m) (List.filter (fun v => negb (ss_ID v =s id)) l).
Proof.
  intros [-> Hn]. induction l as [|v l IH]; [by split; [apply delete_empty|]|].
  cbn [map] in Hn. apply NoDup_cons in Hn as [Hv Hn]. destruct (IH Hn) as [Hm Hd]. cbn [List.filter map].
  change (list_to_map (keyed v :: map keyed l)) with (<[ss_ID v := v]> (list_to_map (map keyed l)) : gmap string SavedSearch).
  destruct (str_eq_spec (ss_ID v) id) as [<-|Hne]; cbn [negb].
  - rewrite delete_insert_eq. by split.
  - split; cbn [map].
    + rewrite delete_insert_ne by done. rewrite Hm. done.
    + apply NoDup_cons. split; [|done]. intros Hin. exact (Hv (keep_ids _ _ _ Hin)).
Qed.

Lemma holds_owned m l owner id :
  holds m l ->
  existsb (fun v => (ss_ID v =s id) && (ss_CreatedBy v =s owner)) l
  = match m !! id with Some v => ss_CreatedBy v =s owner | None => false end.
Proof.
  intros Hh. apply eq_true_iff_eq. rewrite existsb_exists. split.
  - intros (v & Hin & H). apply andb_true_iff in H as [H1 H2]. destruct (str_eq_spec (ss_ID v) id) as [<-|]; [|done].
    apply (holds_lookup m l v Hh) in Hin. by rewrite Hin.
  - destruct (m !! id) as [v|] eqn:E; [|done]. intros H. assert (ss_ID v = id) as <-.
    { destruct Hh as [-> Hn]. apply elem_of_list_to_map_2, list_elem_of_In, in_map_iff in E as (x & [= <- <-] & _). done. }
    exists v. split; [by apply (holds_lookup m l v Hh)|]. by rewrite str_eq_refl, H.
Qed.

Lemma hex_string_inj a b : hex_string a = hex_string b -> a = b.
Proof.
  revert b. induction a as [|c a IH]; intros [|d b] H; [done| | |].
  - exfalso. apply (f_equal String.length) in H. cbn [hex_string] in H. rewrite length_append in H. cbn in H. lia.
  - exfalso. apply (f_equal String.length) in H. cbn [hex_string] in H. rewrite length_append in H. cbn in H. lia.
  - cbn [hex_string] in H. apply (f_equal (read_hex 2 0)) in H.
    rewrite !read_hex_print in H by (pose proof (code_bound c); pose proof (code_bound d); cbn; lia).
    injection H as Hc Hs. rewrite (IH b Hs), <- (chr_code c), <- (chr_code d). by rewrite Hc.
Qed.

(** The identifiers of the list come from identifiers drawn before. *)
Definition ids_from (used : list string) (l : list SavedSearch) : Prop :=
  Forall (fun v => exists r, r ∈ used /\ ss_ID v = hex_string r) l.

Lemma ids_from_filter used l p : ids_from used l -> ids_from used (List.filter p l).
Proof. unfold ids_from. rewrite !List.Forall_forall. intros H v [Hv _]%filter_In. by apply H. Qed.

Lemma fresh_id used l r : ids_from used l -> NoDup (used ++ [r]) -> hex_string r ∉ map ss_ID l.
Proof.
  unfold ids_from. rewrite List.Forall_forall, list_elem_of_In, in_map_iff. intros Hids Hn (v & Hv & Hin).
  destruct (Hids v Hin) as (r' & Hr & Hid). rewrite Hid in Hv. apply hex_string_inj in Hv as ->.
  apply NoDup_app in Hn as (_ & Hn & _). apply (Hn r Hr). by apply list_elem_of_singleton.
Qed.
Lemma ids_from_more used more l : ids_from used l -> ids_from (used ++ more) l.
Proof.
  apply List.Forall_impl. intros v (r & Hr & Hv). exists r. split; [|done]. apply elem_of_app. by left.
Qed.

(** What a request for a creation comes to, before the store is asked. *)
Lemma new_search_asked owner body random now :
  new_search owner body random now
  = match asked body, random with
    | None, _ => inl (error_response 400 "invalid_saved_search")
    | Some _, None => inl (error_response 500 "internal_error")
    | Some v, Some id => inr (complete_search v owner (hex_string id) (UTC now))
    end.
Proof.
  unfold new_search, asked. destruct (jsonDecode _ _ _) as [v|]; bind_simpl; [|done].
  by destruct (saved_acceptable v), random.
Qed.

Lemma saved_step_spec m l used op :
  holds m l -> ids_from used l -> NoDup (used ++ drawn op) ->
  exists m', saved_step m op = ((spec_step l op).1, m')
    /\ holds m' (spec_step l op).2 /\ ids_from (used ++ drawn op) (spec_step l op).2.
Proof.
  intros Hh Hids Hn. pose proof (ids_from_more _ (drawn op) _ Hids) as Hmore.
  destruct op as [owner body random now|owner id]; cbn [saved_step spec_step].
  - unfold createSaved. rewrite new_search_asked. destruct (asked body) as [v|]; [|by exists m].
    destruct random as [r|]; [|by exists m]. cbv zeta. cbn [fst snd drawn] in *.
    eexists. split; [done|]. split.
    + apply holds_snoc; [done|]. by apply (fresh_id used).
    + apply Forall_app. split; [done|]. apply Forall_cons_2; [|by constructor]. exists r. split; [|done].
      apply elem_of_app. right. by apply list_elem_of_singleton.
  - rewrite (holds_owned m l owner id Hh). unfold deleteSaved.
    destruct (m !! id) as [v|]; [|by exists m]. destruct (ss_CreatedBy v =s owner); [|by exists m].
    eexists. split_and!; [done|by apply holds_delete|by apply ids_from_filter].
Qed.

Lemma saved_run_spec ops m l used :
  holds m l -> ids_from used l -> NoDup (used ++ concat (map drawn ops)) ->
  (saved_run m ops).1 = (spec_run l ops).1 /\ holds (saved_run m ops).2 (spec_run l ops).2.
Proof.
  revert m l used. induction ops as [|op ops IH]; intros m l used Hh Hids Hn; [done|].
  cbn [map concat] in Hn. rewrite app_assoc in Hn.
  destruct (saved_step_spec m l used op Hh Hids) as (m' & Hstep & Hh' & Hids').
  { by apply NoDup_app in Hn as [? _]. }
  cbn [saved_run spec_run]. rewrite Hstep. destruct (spec_step l op) as [rp l']. cbn [fst snd] in *.
  destruct (IH m' l' _ Hh' Hids' Hn) as [H1 H2].
  destruct (saved_run m' ops), (spec_run l' ops). cbn [fst snd] in *. by subst.
Qed.

(** The map holds the searches of the list. *)
Lemma holds_values m l : holds m l -> map snd (map_to_list m) ≡ₚ l.
Proof.
  intros [-> Hn]. rewrite map_to_list_to_map by (by rewrite keyed_ids). rewrite map_map. cbn [keyed snd]. by rewrite map_id.
Qed.
Lemma holds_empty : holds ∅ [].
Proof. by split; [|constructor]. Qed.

(** C15. Without a control store, any sequence of creations and deletions by any
    owners is answered as if the searches were a list in the order of their
    creation, and listing gives an owner exactly its own searches of that list,
    by name; the identifiers drawn at random must be distinct. *)
Theorem saved_refines_list ops :
  NoDup (concat (map drawn ops)) ->
  (saved_run ∅ ops).1 = (spec_run [] ops).1
  /\ forall owner, exists out,
       listSaved None (saved_run ∅ ops).2 owner = mkResp 200 (PSavedList out)
       /\ Permutation out (owned owner (spec_run [] ops).2) /\ Sorted name_le out.
Proof.
  intros Hn. destruct (saved_run_spec ops ∅ [] [] holds_empty) as [H1 H2]; [constructor|done|].
  split; [done|]. intros owner. eexists. split; [done|]. split; [|apply sort_saved_sorted].
  by rewrite sort_saved_perm, (holds_values _ _ H2).
Qed.

Definition sample_body (name : string) : string :=
  let quoted s := String (chr 34) (s +:+ String (chr 34) "") in
  "{" +:+ quoted "name" +:+ ":" +:+ quoted name +:+ "," +:+ quoted "id" +:+ ":" +:+ quoted "chosen" +:+ "}".
Definition sample_ops : list saved_op := [
  OpCreate "admin" (sample_body "b") (Some "0123456789abcdef"%string) zero_time;
  OpCreate "admin" (sample_body " ") (Some "0123456789abcdeg"%string) zero_time;
  OpCreate "other" (sample_body "z") (Some "0123456789abcdeh"%string) zero_time;
  OpCreate "admin" (sample_body "a") (Some "0123456789abcdei"%string) zero_time;
  OpDelete "admin" "chosen"; OpDelete "admin" (hex_string "0123456789abcdeh"); OpDelete "other" (hex_string "0123456789abcdeh")].

Lemma saved_refines_list_witness :
  map rp_Status (saved_run ∅ sample_ops).1 = [201; 400; 201; 201; 404; 404; 204]
  /\ map ss_Name (sort_saved (owned "admin" (map snd (map_to_list (saved_run ∅ sample_ops).2)))) = ["a"; "b"]%string
  /\ (saved_run ∅ sample_ops).1 = (spec_run [] sample_ops).1.
Proof.
  split; [vm_compute; reflexivity|]. split; [vm_compute; reflexivity|].
  apply (saved_refines_list sample_ops). refine (@bool_decide_unpack (NoDup _) (NoDup_dec _) _). vm_compute. exact I.
Defined.
