(* ===== verification/Ingest.v ===== *)
(** * HTTP ingestion

    [ingestJSON] of [backend/internal/api/server.go]: the items of a body, their
    entries, and the answers. *)
From S2P Require Import Prelude GoStrings GoTime Domain Pipeline GoStrconv GoJson Query Row VictoriaLogs Requests.

Definition max_items : nat := 1000.
Definition item : Type := gmap string any.

(** The loop over an NDJSON stream: it stops at its end, at an error, or with
    one item more than a batch may have. *)
Fixpoint ndjson_items (budget : nat) (cut : bool) (s : string) : option (list item) :=
  match budget with
  | O => Some []
  | S budget =>
      match Decode cut s with
      | DEof => Some []
      | DError => None
      | DValue j rest =>
          m ← to_map use_number j;
          l ← ndjson_items budget cut rest;
          Some (m :: l)
      end
  end.

(** The maps of a decoded array, when all its elements are maps. *)
Fixpoint batch_items (l : list any) : option (list item) :=
  match l with
  | [] => Some []
  | AMap m :: l => r ← batch_items l; Some (list_to_map m :: r)
  | _ :: _ => None
  end.

Definition max_body : Z := Z.shiftl 10 20.
(** The items of a body, or the code of the answer. *)
Definition body_items (content_type body : string) : list item + string :=
  let cut := max_body <? len body in
  let s := if cut then str_take (Z.to_nat max_body) body else body in
  if Contains content_type "ndjson" then
    match ndjson_items (S max_items) cut s with
    | Some l => inl l
    | None => inr "invalid_ndjson"%string
    end
  else
    match Decode cut s with
    | DValue j _ =>
        match to_any use_number j with
        | Some (AMap m) => inl [list_to_map m]
        | Some (AList l) =>
            match batch_items l with Some l => inl l | None => inr "invalid_batch"%string end
        | _ => inr "invalid_json"%string
        end
    | _ => inr "invalid_json"%string
    end.

Definition own_columns : list string :=
  ["timestamp"; "message"; "hostname"; "level"; "severity"; "service"; "app_name"]%string.
Definition is_own_column (k : string) : bool := existsb (str_eq k) own_columns.

Section Ingest.
Context (sprint_float : Z -> string).
Local Abbreviation sprint := (Sprint sprint_float).

(** [fmt.Sprint(m[k])], and of the other key when the first is missing. *)
Definition text_of (m : item) (k : string) : string := sprint (field m k).
Definition text_or (m : item) (k k' : string) : string :=
  if text_of m k =s "<nil>" then text_of m k' else text_of m k.

Definition stamp_of (m : item) (now : Time) : option Time :=
  match m !! "timestamp"%string with
  | Some (AStr v) => if v =s "" then Some now else ParseRFC3339Nano v
  | _ => Some now
  end.

(** The entry of the [i]th item, or the code of the answer. *)
Definition item_entry (now : Time) (i : nat) (m : item) : LogEntry + string :=
  let msg := text_of m "message" in
  if (msg =s "<nil>") || (msg =s "") then inr "message_required"%string else
  match stamp_of m now with
  | None => inr "invalid_timestamp"%string
  | Some stamp =>
      let host := text_of m "hostname" in
      inl {| le_ID := "http-" +:+ Itoa (t_ns now) +:+ "-" +:+ Itoa (Z.of_nat i);
             le_TenantID := "default";
             le_Timestamp := stamp;
             le_ReceivedAt := now;
             le_Message := msg;
             le_RawMessage := "";
             le_Hostname := if host =s "<nil>" then "" else host;
             le_SourceIP := "";
             le_SourcePort := 0;
             le_Facility := None;
             le_FacilityName := "";
             le_Severity := None;
             le_SeverityName := text_or m "severity" "level";
             le_Priority := None;
             le_Protocol := "http";
             le_Format := "json";
             le_AppName := text_or m "app_name" "service";
             le_ProcessID := "";
             le_MessageID := "";
             le_SourceID := "http-json";
             le_Source := "HTTP JSON";
             le_SourceType := "http";
             le_Fields := filter (fun e => is_own_column e.1 = false) m;
             le_Labels := ∅;
             le_ParseStatus := ParseStatusParsed;
             le_SchemaVersion := SchemaVersion;
             le_TimestampInferred := false |}
  end.

Fixpoint item_entries (now : Time) (i : nat) (l : list item) : list LogEntry + string * nat :=
  match l with
  | [] => inl []
  | m :: l =>
      match item_entry now i m with
      | inr code => inr (code, i)
      | inl e => match item_entries now (S i) l with inl r => inl (e :: r) | inr x => inr x end
      end
  end.

(** The answer, and the batch handed to the backend; [None] when that panics. *)
Definition ingestJSON (append : list LogEntry -> outcome storage_error AppendResult)
    (content_type body : string) (now : Time) : option (Response * option (list LogEntry)) :=
  match body_items content_type body with
  | inr code => Some (error_response 400 code, None)
  | inl items =>
      if (max_items <? length items)%nat then Some (error_response 413 "batch_too_large", None) else
      let now := UTC now in
      match item_entries now 0 items with
      | inr (code, i) => Some (mkResp 400 (PCode code (Some i)), None)
      | inl logs =>
          match append logs with
          | Ok r => Some (mkResp 202 (PAccepted (ar_Accepted r)), Some logs)
          | Err _ => Some (error_response 503 "storage_unavailable", Some logs)
          | Panic => None
          end
      end
  end.
End Ingest.
