(* ===== verification/IngestProps.v ===== *)
(** * What HTTP ingestion stores

    Every item of an accepted body is in the text posted to the service, one line
    each, and reads back with its message and its fields. *)
From S2P Require Import Prelude GoStrings GoUtf8 GoTime Domain Pipeline GoStrconv GoJson GoJsonProps JsonDecoded Query Row VictoriaLogs VictoriaLogsProps Backend Requests Ingest.

(** ** Items are well-formed *)

Lemma ndjson_items_wf budget cut s l : ndjson_items budget cut s = Some l -> Forall wf_row l.
Proof.
  revert s l. induction budget as [|budget IH]; intros s l H; cbn [ndjson_items] in H; [by injection H as <-|].
  destruct (Decode cut s) as [| |j rest] eqn:E; [by injection H as <-|done|]. apply decoded_good in E.
  destruct (to_map use_number j) as [m|] eqn:Em; [|done]. cbn [mbind option_bind] in H.
  destruct (ndjson_items budget cut rest) as [r|] eqn:Er; [|done]. injection H as <-.
  constructor; [by apply (to_map_any j)|by apply (IH rest)].
Qed.

Lemma batch_items_wf l r : all_wf l -> heights l <= max_depth -> batch_items l = Some r -> Forall wf_row r.
Proof.
  revert r. induction l as [|v l IH]; intros r Hw Hh H; cbn [batch_items] in H; [by injection H as <-|].
  destruct v as [| | | | | |m]; try done. cbn [all_wf heights] in *. destruct Hw as [Hm Hw].
  destruct (batch_items l) as [r'|]; [|done]. injection H as <-.
  constructor; [apply map_wf_row; [done|lia]|apply IH; [done|lia|done]].
Qed.

Lemma body_items_wf ct body l : body_items ct body = inl l -> Forall wf_row l.
Proof.
  unfold body_items. destruct (Contains ct "ndjson").
  - destruct (ndjson_items _ _ _) as [r|] eqn:E; [|done]. intros [= <-]. by apply ndjson_items_wf in E.
  - destruct (Decode _ _) as [| |j rest] eqn:E; [done..|]. apply decoded_good in E as (v & Hv & Hw & Hh). rewrite Hv.
    destruct v as [| | | | |vs|m]; try done.
    + rewrite wf_list in Hw. rewrite height_list in Hh. destruct (batch_items vs) as [r|] eqn:Eb; [|done]. intros [= <-].
      apply (batch_items_wf vs); [done|lia|done].
    + intros [= <-]. constructor; [|done]. by apply map_wf_row.
Qed.

(** ** Entries of items *)

Section Entries.
Context (sprint_float : Z -> string).
Local Abbreviation text := (text_of sprint_float).
Local Abbreviation entry := (item_entry sprint_float).

Lemma field_wf m k : wf_row m -> wf_any (field m k).
Proof. intros H. unfold field. destruct (m !! k) as [v|] eqn:E; [|done]. by destruct (H k v E) as (_ & ? & _). Qed.
Lemma text_valid m k : wf_row m -> valid_utf8 (text m k).
Proof. intros H. by apply Sprint_valid, field_wf. Qed.
Lemma text_or_valid m k k' : wf_row m -> valid_utf8 (text_or sprint_float m k k').
Proof. intros H. unfold text_or. destruct (_ =s _); by apply text_valid. Qed.

Definition id_of (now : Time) (i : nat) : string := "http-" +:+ Itoa (t_ns now) +:+ "-" +:+ Itoa (Z.of_nat i).

Lemma id_valid now i : valid_utf8 (id_of now i).
Proof.
  unfold id_of. apply valid_append; [by apply valid_ascii|]. apply valid_append; [apply Itoa_ascii|].
  apply valid_append; [by apply valid_ascii|apply Itoa_ascii].
Qed.

Lemma item_entry_storable now i m e : wf_row m -> entry now i m = inl e -> storable e.
Proof.
  intros Hm H. unfold item_entry in H. cbv zeta in H. destruct (_ || _); [done|].
  destruct (stamp_of m now) as [stamp|]; [|done]. injection H as <-. split_and!.
  - repeat (apply Forall_cons_2; [cbn [le_ID le_TenantID le_Message le_Protocol le_Format le_SourceID le_SourceType le_RawMessage
      le_Hostname le_SourceIP le_FacilityName le_SeverityName le_AppName le_ProcessID le_MessageID le_Source];
      try (by apply valid_ascii)|]); [| | | | |by apply Forall_nil_2].
    + exact (id_valid now i).
    + by apply text_valid.
    + destruct (_ =s _); [constructor|by apply text_valid].
    + by apply text_or_valid.
    + by apply text_or_valid.
  - cbn. intros k v Hk. apply map_lookup_filter_Some in Hk as [Hk _]. destruct (Hm k v Hk) as (? & ? & ?). by split_and!.
  - apply map_Forall_empty.
Qed.

(** What an entry keeps of its item. *)
Lemma item_entry_keeps now i m e :
  entry now i m = inl e ->
  le_ID e = "http-" +:+ Itoa (t_ns now) +:+ "-" +:+ Itoa (Z.of_nat i)
  /\ le_Message e = text m "message" /\ le_Labels e = ∅ /\ le_Message e <> ""%string
  /\ le_Fields e = filter (fun x => is_own_column x.1 = false) m
  /\ stamp_of m now = Some (le_Timestamp e) /\ le_ReceivedAt e = now /\ le_TimestampInferred e = false
  /\ le_Hostname e = (if text m "hostname" =s "<nil>" then "" else text m "hostname")
  /\ le_SeverityName e = text_or sprint_float m "severity" "level"
  /\ le_AppName e = text_or sprint_float m "app_name" "service".
Proof.
  unfold item_entry. cbv zeta. intros H. destruct (_ || _) eqn:E; [done|]. apply orb_false_iff in E as [_ E].
  destruct (stamp_of m now) as [stamp|]; [|done]. injection H as <-. cbn. split_and!; try done.
  intros Hm. by rewrite Hm in E.
Qed.

Lemma item_entries_spec now i items logs :
  item_entries sprint_float now i items = inl logs ->
  Forall2 (fun m e => exists j, entry now j m = inl e) items logs
  /\ map le_ID logs = map (id_of now) (seq i (length items)).
Proof.
  revert i logs. induction items as [|m items IH]; intros i logs H; cbn [item_entries] in H; [injection H as <-; by split|].
  destruct (entry now i m) as [e|] eqn:E; [|done].
  destruct (item_entries sprint_float now (S i) items) as [r|] eqn:Er; [|done]. injection H as <-.
  destruct (IH (S i) r Er) as [H1 H2]. cbn [map length seq]. rewrite H2.
  split; [constructor; [by exists i|done]|]. f_equal. by destruct (item_entry_keeps _ _ _ _ E) as [-> _].
Qed.

Lemma Itoa_nat_inj a b : Itoa (Z.of_nat a) = Itoa (Z.of_nat b) -> a = b.
Proof.
  unfold Itoa. destruct (Z.ltb_spec (Z.of_nat a) 0), (Z.ltb_spec (Z.of_nat b) 0); try lia. intros E%(f_equal (dec_value 0)).
  rewrite !dec_digits in E by lia. injection E as E. lia.
Qed.
Lemma id_of_inj now a b : id_of now a = id_of now b -> a = b.
Proof.
  assert (Hi : forall i, id_of now i = ("http-" +:+ Itoa (t_ns now) +:+ "-") +:+ Itoa (Z.of_nat i)).
  { intros i. unfold id_of. by rewrite !append_assoc. }
  rewrite !Hi. intros H%(f_equal (strip_prefix ("http-" +:+ Itoa (t_ns now) +:+ "-"))).
  rewrite !strip_prefix_append in H. injection H as H. by apply Itoa_nat_inj.
Qed.
Lemma ids_distinct now i n : NoDup (map (id_of now) (seq i n)).
Proof. apply NoDup_fmap_2; [intros a b; apply id_of_inj|apply NoDup_seq]. Qed.
End Entries.

(** ** What the service is sent *)

Section Stored.
Context (do : http_request -> option http_response)
  (visit : LogEntry -> list (string * any) * list (string * string))
  (json_float : Z -> option string) (sprint_float : Z -> string) (c : Client).
Hypothesis visit_order : forall e, range_order e (visit e).1 (visit e).2.
Local Abbreviation row_of := (row_of visit).

(** The service accepted a text that reads as these rows. *)
Definition posted (rows : list (gmap string any)) : Prop :=
  exists text headers rs, do (mkRequest POST (endpoint c "/insert/jsonline") headers text) = Some rs
    /\ success (rs_status rs) = true /\ read_rows text = Some rows.

Lemma Append_posted logs r :
  logs <> [] -> Forall storable logs -> Append do visit json_float c logs = Ok r -> posted (map row_of logs).
Proof using visit_order.
  intros Hne Hs H. destruct (encode_rows_read visit json_float visit_order logs Hs) as (body & Hb & Hr).
  unfold Append in H. destruct logs as [|e logs]; [done|]. rewrite Hb in H.
  match type of H with context [do ?rq] => destruct (do rq) as [rs|] eqn:Ed; [|done] end.
  destruct (success (rs_status rs)) eqn:Es; [|done]. by eexists body, _, rs.
Qed.

(** The fields of an item, and those that share no name with another one. *)
Definition other_fields (m : item) : gmap string any := filter (fun x => is_own_column x.1 = false) m.
Definition unshared (m : item) (k : string) : Prop :=
  other_fields m !! (event_prefix +:+ k) = None
  /\ forall n, is_Some (other_fields m !! n) -> event_prefix +:+ n <> k.

Definition host_of (m : item) : string :=
  if text_of sprint_float m "hostname" =s "<nil>" then "" else text_of sprint_float m "hostname".

(** The row of the [i]th item of a body received at [now]: what its columns hold.
    A field that shares no name is under its own, or under [event.] where the
    entry [e] has a column of that name; one that does may lose its value to the
    other, but its name has a value. *)
Record keeps (now : Time) (i : nat) (m : item) (e : LogEntry) (row : gmap string any) : Prop := {
  kp_id : row !! "id"%string = Some (AStr (id_of now i));
  kp_message : row !! "message"%string = Some (AStr (text_of sprint_float m "message"));
  kp_time : exists stamp, stamp_of m now = Some stamp
    /\ row !! "timestamp"%string = Some (AStr (FormatRFC3339Nano stamp));
  kp_received : row !! "received_at"%string = Some (AStr (FormatRFC3339Nano now));
  kp_source : row !! "source_id"%string = Some (AStr "http-json") /\ row !! "protocol"%string = Some (AStr "http")
    /\ row !! "format"%string = Some (AStr "json");
  kp_hostname : row !! "hostname"%string = column (host_of m);
  kp_app : row !! "app_name"%string = column (text_or sprint_float m "app_name" "service");
  kp_severity : text_or sprint_float m "severity" "level" <> ""%string ->
    row !! "severity_name"%string = Some (AStr (text_or sprint_float m "severity" "level"));
  kp_fields : forall k v, other_fields m !! k = Some v ->
    is_Some (row !! k) /\ (unshared m k -> row !! field_place (entry_columns e) k = Some v)
}.

Lemma missing_column e k :
  le_Labels e = ∅ -> le_Fields e !! k = None -> own_name k = true -> entry_columns e !! k = None ->
  row_of e !! k = None.
Proof using visit_order.
  intros Hl Hf Hown Hc. destruct (row_of e !! k) as [v|] eqn:E; [|done].
  apply (toDirectRow_from e _ _ _ _ (visit_order e)) in E as [E|n E [->| ->]|n x E -> _].
  - by rewrite Hc in E.
  - by rewrite Hf in E.
  - by destruct (own_name_event _ n Hown).
  - by destruct (own_name_label _ n Hown).
Qed.

Lemma own_column_row e k s :
  le_Labels e = ∅ -> le_Fields e !! k = None -> own_name k = true ->
  entry_columns e !! k = column s -> row_of e !! k = column s.
Proof using visit_order.
  intros Hl Hf Hown Hc. unfold column in *. destruct (s =s "").
  - by apply missing_column.
  - by apply toDirectRow_column.
Qed.

Lemma entry_row_keeps now i m e :
  item_entry sprint_float now i m = inl e -> le_ID e = id_of now i -> keeps now i m e (row_of e).
Proof using visit_order.
  intros He Hid.
  destruct (item_entry_keeps _ _ _ _ _ He) as (_ & Hm & Hl & _ & Hf & Hs & Hr & _ & Hh & Hsev & Ha).
  fold (other_fields m) in Hf.
  assert (Hown : forall k, is_own_column k = true -> le_Fields e !! k = None).
  { intros k Hk. rewrite Hf. apply map_lookup_filter_None. right. intros v _ Hno. change (is_own_column k = false) in Hno. congruence. }
  destruct (entry_columns_text e) as (C1 & C2 & C3 & C4 & C5 & C6 & C7).
  destruct (entry_columns_optional e) as (O1 & O2 & O3).
  assert (Hcol : forall k v, entry_columns e !! k = Some v -> row_of e !! k = Some v) by (intros k v; apply toDirectRow_column).
  assert (Hsource : le_SourceID e = "http-json"%string /\ le_Protocol e = "http"%string /\ le_Format e = "json"%string).
  { clear -He. unfold item_entry in He. cbv zeta in He. destruct (_ || _); [done|]. destruct (stamp_of m now); [|done].
    by injection He as <-. }
  destruct Hsource as (S1 & S2 & S3). constructor.
  - by rewrite (Hcol _ _ C1), Hid.
  - by rewrite (Hcol _ _ C4), Hm.
  - exists (le_Timestamp e). split; [done|by apply Hcol].
  - by rewrite (Hcol _ _ C3), Hr.
  - by rewrite (Hcol _ _ C7), (Hcol _ _ C5), (Hcol _ _ C6), S1, S2, S3.
  - unfold host_of. rewrite <- Hh. by apply own_column_row; [|apply Hown| |].
  - rewrite <- Ha. by apply own_column_row; [|apply Hown| |].
  - rewrite <- Hsev. intros Hne. apply Hcol. rewrite O3. unfold column. by destruct (str_eq_spec (le_SeverityName e) "").
  - intros k v Hk. rewrite <- Hf in Hk. split; [apply (toDirectRow_named e _ _ k (visit_order e)); by exists v|].
    intros [Hu1 Hu2]. apply (toDirectRow_alone e _ _ k v (visit_order e) Hk). rewrite <- Hf in Hu1, Hu2.
    constructor; [done|done|]. rewrite Hl. intros l [x Hx]. by rewrite lookup_empty in Hx.
Qed.

End Stored.

Definition quoted (s : string) : string := String (chr 34) (s +:+ String (chr 34) "").
Definition sample_batch : string :=
  "[{" +:+ quoted "message" +:+ ":" +:+ quoted "up" +:+ "," +:+ quoted "vlan" +:+ ":12},{"
  +:+ quoted "message" +:+ ":" +:+ quoted "down" +:+ "}]".
Definition sample_client : Client := mkClient "http" "vl:9428" "" "".
Definition accept_all (_ : http_request) : option http_response := Some (mkResponse 200 "" None).
Definition in_key_order (e : LogEntry) : list (string * any) * list (string * string) :=
  (map_to_list (le_Fields e), map_to_list (le_Labels e)).
Definition sample_ingest : option (Response * option (list LogEntry)) :=
  ingestJSON (fun _ => ""%string) (Append accept_all in_key_order (fun _ => None) sample_client)
    "application/json" sample_batch zero_time.
Definition sample_logs : list LogEntry := match sample_ingest with Some (_, Some l) => l | _ => [] end.


(** The entry of an item depends on these parts of it. *)
Lemma item_entry_ext sprint_float now i (m1 m2 : gmap string any) :
  (forall k, In k ["message"; "hostname"]%string -> m1 !! k = m2 !! k) -> stamp_of m1 now = stamp_of m2 now ->
  text_or sprint_float m1 "severity" "level" = text_or sprint_float m2 "severity" "level" ->
  text_or sprint_float m1 "app_name" "service" = text_or sprint_float m2 "app_name" "service" ->
  other_fields m1 = other_fields m2 ->
  item_entry sprint_float now i m1 = item_entry sprint_float now i m2.
Proof.
  intros Hk Hs Hsev Happ Hf. unfold item_entry, other_fields in *. rewrite Hs, Hsev, Happ, Hf. unfold text_of, field.
  rewrite (Hk "message"%string), (Hk "hostname"%string) by (cbn; tauto). done.
Qed.

Lemma other_fields_insert (m : gmap string any) k x :
  is_own_column k = true ->
  other_fields (<[k := x]> m) = other_fields m.
Proof.
  intros Hk. unfold other_fields. apply map_eq. intros k'. apply option_eq. intros v. rewrite !map_lookup_filter_Some.
  destruct (decide (k' = k)) as [->|Hne]; [|by rewrite lookup_insert_ne].
  split; intros [_ Hno]; change (is_own_column k = false) in Hno; congruence.
Qed.

Lemma text_or_other sprint_float (m : gmap string any) k k' x :
  k <> k' -> text_of sprint_float m k <> "<nil>"%string ->
  text_or sprint_float (<[k' := x]> m) k k' = text_or sprint_float m k k'.
Proof.
  intros Hne Hk. assert (text_of sprint_float (<[k' := x]> m) k = text_of sprint_float m k) as E.
  { unfold text_of, field. by rewrite lookup_insert_ne. }
  unfold text_or. rewrite E. by destruct (str_eq_spec (text_of sprint_float m k) "<nil>").
Qed.
Lemma text_or_ne sprint_float (m : gmap string any) k k' k'' x :
  k'' <> k -> k'' <> k' -> text_or sprint_float (<[k'' := x]> m) k k' = text_or sprint_float m k k'.
Proof. intros H1 H2. unfold text_or, text_of, field. by rewrite !lookup_insert_ne. Qed.

(** What an item loses. With a severity, its level makes no difference; nor does
    its service with an application; and a timestamp that is not a text is as good
    as none. *)
Theorem item_keys_lost sprint_float now i (m : gmap string any) (x : any) :
  (text_of sprint_float m "severity" <> "<nil>"%string ->
     item_entry sprint_float now i (<["level"%string := x]> m) = item_entry sprint_float now i m)
  /\ (text_of sprint_float m "app_name" <> "<nil>"%string ->
     item_entry sprint_float now i (<["service"%string := x]> m) = item_entry sprint_float now i m)
  /\ (m !! "timestamp"%string = None -> (forall v, x <> AStr v) ->
     item_entry sprint_float now i (<["timestamp"%string := x]> m) = item_entry sprint_float now i m).
Proof.
  assert (Hkeep : forall k0, In k0 ["level"; "service"; "timestamp"]%string ->
    forall k, In k ["message"; "hostname"]%string -> <[k0 := x]> m !! k = m !! k).
  { intros k0 H0 k H. apply lookup_insert_ne. intros ->. cbn in *. naive_solver. }
  split_and!.
  - intros Hs. apply item_entry_ext; [apply Hkeep; cbn; tauto| |by apply text_or_other|by apply text_or_ne|by apply other_fields_insert].
    unfold stamp_of, item. by rewrite lookup_insert_ne.
  - intros Hs. apply item_entry_ext; [apply Hkeep; cbn; tauto| |by apply text_or_ne|by apply text_or_other|by apply other_fields_insert].
    unfold stamp_of, item. by rewrite lookup_insert_ne.
  - intros Hm Hx. apply item_entry_ext; [apply Hkeep; cbn; tauto| |by apply text_or_ne|by apply text_or_ne|by apply other_fields_insert].
    unfold stamp_of, item. rewrite lookup_insert_eq, Hm. destruct x; try done. by destruct (Hx s).
Qed.

(** An item with neither [severity] nor [level] is stored with the severity name
    [<nil>]: only the first key of the two is tested. *)
Theorem missing_severity_stored sprint_float now i (m : gmap string any) e :
  item_entry sprint_float now i m = inl e -> m !! "severity"%string = None -> m !! "level"%string = None ->
  le_SeverityName e = "<nil>"%string.
Proof.
  unfold item_entry. cbv zeta. intros H Hs Hl. destruct (_ || _); [done|]. destruct (stamp_of m now); [|done].
  injection H as <-. cbn [le_SeverityName]. unfold text_or, text_of, field. by rewrite Hs, Hl.
Qed.
Lemma missing_severity_stored_witness :
  le_SeverityName (match item_entry (fun _ => ""%string) zero_time 0 {["message"%string := AStr "up"]} with
                   | inl e => e | inr _ => mkLogEntry "" "" zero_time zero_time "" "" "" "" 0 None "" None "" None "" "" "" "" "" "" "" "" ∅ ∅ ParseStatusParsed 1 false end)
  = "<nil>"%string.
Proof.
  apply (missing_severity_stored (fun _ => ""%string) zero_time 0 {["message"%string := AStr "up"]});
    vm_compute; reflexivity.
Defined.
