(* ===== verification/Tail.v ===== *)
(** * Live tail

    [tailLogs] of [backend/internal/api/server.go]: what one connection sends at
    each tick, and the window of row keys it remembers. *)
From S2P Require Import Prelude GoStrings GoTime Domain GoStrconv GoJson Query VictoriaLogs Requests.

Definition window : nat := Z.to_nat 4096.

(** [tailKey] *)
Definition tailKey (sprint_float : Z -> string) (row : gmap string any) : string :=
  let other := Sprint sprint_float (field row "_stream_id") +:+ "|" +:+ Sprint sprint_float (field row "_time")
               +:+ "|" +:+ Sprint sprint_float (field row "_msg") in
  match row !! "id"%string with
  | Some (AStr id) => if id =s "" then other else id
  | _ => other
  end.

(** The keys remembered, and their order. *)
Record tail_state := mkTail { tl_seen : gset string; tl_order : list string }.
Definition tail_start : tail_state := mkTail ∅ [].

Inductive tail_event :=
  | TWarning
  | TGap
  | TData (key : string) (text : string)
  | THeartbeat.

Section Tail.
Context (sprint_float : Z -> string) (json_float : Z -> option string).

(** One row of a tick. *)
Definition tail_row (s : tail_state) (row : gmap string any) : list tail_event * tail_state :=
  let key := tailKey sprint_float row in
  if bool_decide (key ∈ tl_seen s) then ([], s) else
  let seen := {[key]} ∪ tl_seen s in
  let order := tl_order s ++ [key] in
  let s := if (window <? length order)%nat
           then match order with oldest :: order => mkTail (seen ∖ {[oldest]}) order | [] => mkTail seen order end
           else mkTail seen order in
  match Marshal_map json_float row with
  | Some text => ([TData key text], s)
  | None => ([], s)
  end.

Fixpoint tail_rows (s : tail_state) (rows : list (gmap string any)) : list tail_event * tail_state :=
  match rows with
  | [] => ([], s)
  | row :: rows =>
      let (out, s) := tail_row s row in
      let (out', s) := tail_rows s rows in
      (out ++ out', s)
  end.

(** The query of a tick. *)
Definition tail_query (text : string) (now : Time) : Query :=
  mkQuery "default" (add_dur now (- (30 * second))) now text "" [] 1000 "".

(** One tick, given the answer to its query. *)
Definition tail_tick (answer : outcome storage_error QueryResult) (s : tail_state) : list tail_event * tail_state :=
  match answer with
  | Ok res =>
      let (out, s) := tail_rows s (rev (qr_Data res)) in
      ((if qr_Truncated res then [TGap] else []) ++ out ++ [THeartbeat], s)
  | _ => ([TWarning; THeartbeat], s)
  end.

(** A connection, over the answers to its queries. *)
Fixpoint tail_run (s : tail_state) (answers : list (outcome storage_error QueryResult)) : list tail_event :=
  match answers with
  | [] => []
  | a :: answers => let (out, s) := tail_tick a s in out ++ tail_run s answers
  end.

(** ** The window

    [sent] are all the keys ever recorded, oldest first: the state remembers
    the last [window] of them. *)

Definition last_n {A} (n : nat) (l : list A) : list A := drop (length l - n) l.

Definition tail_ok (sent : list string) (s : tail_state) : Prop :=
  tl_order s = last_n window sent /\ tl_seen s = list_to_set (tl_order s) /\ NoDup (tl_order s).

(** Any [window] consecutive keys, and one more, are distinct. *)
Definition spaced (sent : list string) : Prop :=
  forall i, NoDup (take (S window) (drop i sent)).

Definition keys_of (evs : list tail_event) : list string :=
  omap (fun e => match e with TData k _ => Some k | _ => None end) evs.
End Tail.

Lemma last_n_short {A} n (l : list A) : (length l <= n)%nat -> last_n n l = l.
Proof. intros H. unfold last_n. by replace (length l - n)%nat with O by lia. Qed.

Lemma last_n_snoc {A} n (l : list A) x :
  last_n n (l ++ [x]) = if (n <=? length l)%nat then drop 1 (last_n n l ++ [x]) else last_n n l ++ [x].
Proof.
  unfold last_n. rewrite length_app. simpl. destruct (Nat.leb_spec n (length l)) as [H|H].
  - rewrite drop_app. destruct n as [|n].
    + rewrite (drop_ge l (length l - 0)) by lia. rewrite (drop_ge l) by lia. by rewrite drop_ge by (simpl; lia).
    + rewrite drop_app, length_drop, drop_drop.
      replace (length l - S n + 1)%nat with (length l + 1 - S n)%nat by lia. f_equal. f_equal. lia.
  - replace (length l + 1 - n)%nat with O by lia. by replace (length l - n)%nat with O by lia.
Qed.

Lemma length_last_n {A} n (l : list A) : length (last_n n l) = Nat.min n (length l).
Proof. unfold last_n. rewrite length_drop. lia. Qed.

Lemma spaced_snoc sent key : spaced sent -> key ∉ last_n window sent -> spaced (sent ++ [key]).
Proof.
  intros Hs Hk i. rewrite drop_app. destruct (Nat.le_gt_cases (i + S window) (length sent)) as [Hi|Hi].
  - rewrite take_app_le by (rewrite length_drop; lia). apply Hs.
  - assert (Hd : take (S window) (drop i sent) = drop i sent) by (apply take_ge; rewrite length_drop; lia).
    specialize (Hs i). rewrite Hd in Hs.
    assert (Hpre : forall l : list string, NoDup l -> NoDup (take (S window) l)).
    { intros l Hl. rewrite <- (take_drop (S window) l) in Hl. by apply NoDup_app in Hl as [? _]. }
    apply Hpre. destruct (i - length sent)%nat as [|k] eqn:Ek; [|rewrite (drop_ge [key]) by (simpl; lia); by rewrite app_nil_r].
    apply NoDup_app. split_and!; [done| |apply NoDup_singleton].
    intros x Hx ->%list_elem_of_singleton. apply Hk. unfold last_n.
    assert (Hsuf : drop i sent = drop (i - (length sent - window)) (drop (length sent - window) sent)).
    { rewrite drop_drop. f_equal. lia. }
    rewrite Hsuf in Hx. apply list_elem_of_lookup in Hx as [j Hj]. rewrite lookup_drop in Hj.
    by apply list_elem_of_lookup_2 in Hj.
Qed.

(** Forgetting the oldest key leaves the set of the others. *)
Lemma set_of_window (l order : list string) (key oldest : string) :
  list_to_set (oldest :: order) = (list_to_set l ∪ list_to_set [key] : gset string) -> oldest ∉ order ->
  ({[key]} ∪ list_to_set l) ∖ {[oldest]} = (list_to_set order : gset string).
Proof.
  intros H Hn. apply set_eq. intros x. apply (f_equal (fun y => x ∈ y)) in H.
  assert (Hx : x ∈ (list_to_set l ∪ list_to_set [key] : gset string) <-> x = oldest \/ x ∈ order).
  { rewrite <- H, elem_of_list_to_set, elem_of_cons. done. }
  rewrite elem_of_union, !elem_of_list_to_set, list_elem_of_singleton in Hx.
  rewrite elem_of_difference, elem_of_union, !elem_of_singleton, !elem_of_list_to_set.
  split; [intros [? ?]; tauto|]. intros Ho. split; [tauto|]. by intros ->.
Qed.

Section Spaced.
Context (sprint_float : Z -> string) (json_float : Z -> option string).
Local Abbreviation key_of := (tailKey sprint_float).
Local Abbreviation one_row := (tail_row sprint_float json_float).
Local Abbreviation all_rows := (tail_rows sprint_float json_float).

(** A step records at most the row's key, and only when it is not remembered. *)
Lemma tail_row_step sent s row out s' :
  tail_ok sent s -> one_row s row = (out, s') ->
  (key_of row ∈ last_n window sent /\ out = [] /\ s' = s)
  \/ (key_of row ∉ last_n window sent /\ tail_ok (sent ++ [key_of row]) s'
      /\ (is_Some (Marshal_map json_float row) -> keys_of out = [key_of row])).
Proof.
  intros (Ho & Hseen & Hn) H. unfold tail_row in H. cbv zeta in H.
  set (key := key_of row) in *. rewrite Hseen in H.
  destruct (decide (key ∈ tl_order s)) as [Hin|Hin].
  - rewrite bool_decide_eq_true_2 in H by set_solver. left. rewrite <- Ho. by injection H as <- <-.
  - rewrite bool_decide_eq_false_2 in H by set_solver. right. rewrite <- Ho. split; [done|].
    set (s2 := if (window <? _)%nat then _ else _) in H.
    assert (Hs2 : tail_ok (sent ++ [key]) s2).
    { assert (HnK : NoDup (tl_order s ++ [key])).
      { apply NoDup_app. split_and!; [done| |apply NoDup_singleton]. by intros x Hx ->%list_elem_of_singleton. }
      unfold s2, tail_ok. rewrite last_n_snoc, <- Ho. rewrite length_app. cbn [length].
      assert (Hlen : length (tl_order s) = Nat.min window (length sent)) by (rewrite Ho; apply length_last_n).
      destruct (Nat.leb_spec window (length sent)).
      - destruct (Nat.ltb_spec window (length (tl_order s) + 1)); [|lia].
        destruct (tl_order s ++ [key]) as [|oldest order] eqn:E; [by destruct (tl_order s)|].
        cbn [tl_order tl_seen drop]. inversion HnK as [|? ? Hnot Hn']; subst. split_and!; [done| |done].
        apply set_of_window; [|done]. rewrite <- E. apply list_to_set_app_L.
      - destruct (Nat.ltb_spec window (length (tl_order s) + 1)); [lia|]. cbn [tl_order tl_seen].
        split_and!; [done| |done].
        rewrite list_to_set_app_L. cbn [list_to_set foldr]. by rewrite (right_id_L ∅ (∪)), (comm_L (∪)). }
    clearbody s2. destruct (Marshal_map json_float row) as [t|]; injection H as <- <-; (split; [done|]).
    + done.
    + by intros [? ?].
Qed.
Definition encodable (row : gmap string any) : Prop := is_Some (Marshal_map json_float row).

Lemma keys_of_app a b : keys_of (a ++ b) = keys_of a ++ keys_of b.
Proof. apply omap_app. Qed.

Lemma in_last_n (n : nat) (k : string) l : k ∈ last_n n l -> k ∈ l.
Proof.
  unfold last_n. intros [j Hj]%list_elem_of_lookup. rewrite lookup_drop in Hj. by apply list_elem_of_lookup_2 in Hj.
Qed.

Lemma tail_rows_step sent s rows out s' :
  tail_ok sent s -> spaced sent -> Forall encodable rows -> all_rows s rows = (out, s') ->
  tail_ok (sent ++ keys_of out) s' /\ spaced (sent ++ keys_of out)
  /\ (forall k, k ∈ sent ++ keys_of out <-> k ∈ sent \/ k ∈ map key_of rows).
Proof.
  intros Hok Hsp Hrows. revert sent s out s' Hok Hsp. induction Hrows as [|row rows Hrow Hrows IH];
    intros sent s out s' Hok Hsp H.
  - injection H as <- <-. rewrite app_nil_r. split_and!; [done..|]. intros k. simpl. by rewrite elem_of_nil; tauto.
  - cbn [tail_rows] in H. destruct (one_row s row) as [o1 s1] eqn:E1.
    destruct (all_rows s1 rows) as [o2 s2] eqn:E2. injection H as <- <-. cbn [map].
    destruct (tail_row_step sent s row o1 s1 Hok E1) as [(Hin & -> & ->)|(Hnot & Hok1 & Hk)].
    + destruct (IH sent s o2 s2 Hok Hsp E2) as (H1 & H2 & H3). split_and!; [done..|].
      intros k. rewrite app_nil_l, H3, elem_of_cons. apply in_last_n in Hin. naive_solver.
    + rewrite keys_of_app, (Hk Hrow), app_assoc.
      destruct (IH (sent ++ [key_of row]) s1 o2 s2 Hok1 (spaced_snoc _ _ Hsp Hnot) E2) as (H1 & H2 & H3).
      split_and!; [done..|]. intros k. rewrite H3, elem_of_app, !elem_of_cons, elem_of_nil. tauto.
Qed.

(** The rows of the answers, in the order they came. *)
Definition answered (answers : list (outcome storage_error QueryResult)) : list (gmap string any) :=
  concat (map (fun a => match a with Ok res => qr_Data res | _ => [] end) answers).

Lemma tail_run_step sent s answers :
  tail_ok sent s -> spaced sent -> Forall encodable (answered answers) ->
  spaced (sent ++ keys_of (tail_run sprint_float json_float s answers))
  /\ (forall k, k ∈ sent ++ keys_of (tail_run sprint_float json_float s answers)
        <-> k ∈ sent \/ k ∈ map key_of (answered answers)).
Proof.
  revert sent s. induction answers as [|a answers IH]; intros sent s Hok Hsp Hrows.
  - simpl. rewrite app_nil_r. split; [done|]. intros k. rewrite elem_of_nil. tauto.
  - unfold answered in Hrows. cbn [map concat] in Hrows. apply Forall_app in Hrows as [Ha Hrest].
    cbn [tail_run]. unfold answered. cbn [map concat]. fold (answered answers) in *. unfold tail_tick.
    destruct a as [res|e|].
    + destruct (all_rows s (rev (qr_Data res))) as [out s'] eqn:E.
      destruct (tail_rows_step sent s (rev (qr_Data res)) out s' Hok Hsp) as (H1 & H2 & H3); [by apply Forall_rev|exact E|].
      rewrite !keys_of_app. assert (keys_of (if qr_Truncated res then [TGap] else []) = []) as ->
        by (by destruct (qr_Truncated res)).
      change (keys_of [THeartbeat]) with (@nil string). rewrite app_nil_l, app_nil_r, app_assoc.
      destruct (IH _ s' H1 H2 Hrest) as [H4 H5]. split; [done|]. intros k. rewrite H5, H3, map_app, elem_of_app, map_rev.
      rewrite !list_elem_of_In, <- in_rev, <- !list_elem_of_In. tauto.
    + destruct (IH sent s Hok Hsp Hrest) as [H4 H5]. rewrite keys_of_app. by split.
    + destruct (IH sent s Hok Hsp Hrest) as [H4 H5]. rewrite keys_of_app. by split.
Qed.

(** C30. A live tail sends the key of every row its queries return, nothing else,
    and sends a key again only when at least 4096 others were sent since. *)
Theorem tail_dedupes answers :
  Forall encodable (answered answers) ->
  let sent := keys_of (tail_run sprint_float json_float tail_start answers) in
  (forall k, k ∈ sent <-> k ∈ map key_of (answered answers)) /\ spaced sent.
Proof.
  intros Hrows sent. destruct (tail_run_step [] tail_start answers) as [H1 H2].
  - by split_and!; [|done|constructor].
  - intros i. rewrite drop_nil, take_nil. constructor.
  - done.
  - split; [|exact H1]. intros k. specialize (H2 k). rewrite app_nil_l in H2. fold sent in H2. rewrite H2, elem_of_nil. tauto.
Qed.
End Spaced.

Definition tail_sample : list (outcome storage_error QueryResult) :=
  let row id : gmap string any := {["id"%string := AStr id]} in
  [Ok (mkResult [row "b"%string; row "a"%string] "" false); Err ErrUnavailable;
   Ok (mkResult [row "c"%string; row "b"%string] "" true)].

Lemma tail_dedupes_witness :
  keys_of (tail_run (fun _ => ""%string) (fun _ => None) tail_start tail_sample) = ["a"; "b"; "c"]%string
  /\ spaced (keys_of (tail_run (fun _ => ""%string) (fun _ => None) tail_start tail_sample)).
Proof.
  split; [vm_compute; reflexivity|]. apply (tail_dedupes (fun _ => ""%string) (fun _ => None) tail_sample).
  repeat constructor; vm_compute; eexists; reflexivity.
Defined.
