(* ===== verification/TailStream.v ===== *)
(** * The stream of a live tail

    The rest of [tailLogs] of [backend/internal/api/server.go], over the events of
    [Tail]: the bytes a connection is sent as [text/event-stream], when they are
    flushed, and when the handler returns. What a client reads with the rules of
    that format are the events, and the rows. *)
From S2P Require Import Prelude GoStrings GoUtf8 GoTime Domain GoStrconv GoJson GoJsonProps Query VictoriaLogs Requests Tail.

Definition newline : byte := chr 10.
Definition two_newlines : string := String newline (String newline "").
Definition json_code (code : string) : string :=
  let q s := String quote_byte (s +:+ String quote_byte "") in "{" +:+ q "code" +:+ ":" +:+ q code +:+ "}".

(** The header lines of the answer. *)
Definition stream_headers : list (string * string) :=
  [("Content-Type", "text/event-stream"); ("Cache-Control", "no-cache"); ("X-Accel-Buffering", "no")]%string.

(** The texts written: the opening, and that of an event. *)
Definition opening : string := ": connected" +:+ two_newlines.
Definition event_text (e : tail_event) : string :=
  match e with
  | TWarning => "event: warning" +:+ String newline ("data: " +:+ json_code "query_failed" +:+ two_newlines)
  | TGap => "event: gap" +:+ String newline ("data: " +:+ json_code "tail_window_truncated" +:+ two_newlines)
  | TData _ text => "data: " +:+ text +:+ two_newlines
  | THeartbeat => ": heartbeat" +:+ two_newlines
  end.

(** A connection: what reached the client, and what was written since. *)
Record wire := mkWire { wr_flushed : string; wr_buffered : string }.
Definition Flush (w : wire) : wire := mkWire (wr_flushed w +:+ wr_buffered w) "".

(** What the handler waits for: a tick, with the answer to its query, or the end
    of the request's context. *)
Inductive wake := WTick (answer : outcome storage_error QueryResult) | WDone.
Inductive tail_end := TailReturned | TailWaiting.

Section Stream.
Context (sprint_float : Z -> string) (json_float : Z -> option string).
(** Whether the connection takes a text; one it does not take is lost. *)
Context (takes : wire -> string -> bool).

Definition write (s : string) (w : wire) : wire * bool :=
  if takes w s then (mkWire (wr_flushed w) (wr_buffered w +:+ s), true) else (w, false).

(** The events of a tick; the handler looks at the result of writing rows only,
    and returns when one fails. *)
Fixpoint send (evs : list tail_event) (w : wire) : wire * bool :=
  match evs with
  | [] => (w, true)
  | e :: evs =>
      let (w, ok) := write (event_text e) w in
      match e with
      | TData _ _ => if ok then send evs w else (w, false)
      | _ => send evs w
      end
  end.

Fixpoint tail_loop (s : tail_state) (w : wire) (wakes : list wake) : wire * tail_end :=
  match wakes with
  | [] => (w, TailWaiting)
  | WDone :: _ => (w, TailReturned)
  | WTick answer :: wakes =>
      let (evs, s) := tail_tick sprint_float json_float answer s in
      let (w, ok) := send evs w in
      if ok then tail_loop s (Flush w) wakes else (w, TailReturned)
  end.

(** [tailLogs] from the check of the writer on: an answer, or the headers and the
    stream. *)
Definition tail_connection (flusher : bool) (wakes : list wake) : Response + list (string * string) * (wire * tail_end) :=
  if negb flusher then inl (error_response 501 "streaming_unsupported")
  else inr (stream_headers, tail_loop tail_start (Flush (write opening (mkWire "" "")).1) wakes).
End Stream.

(** ** Reading an event stream

    The format of the WHATWG, for streams without carriage returns: lines; a blank
    line ends an event, which is dispatched when it has data; a line that begins
    with a colon is a comment. *)
Record sse := mkSse { sse_event : string; sse_data : string }.

Fixpoint sse_lines (cur s : string) : list string :=
  match s with
  | EmptyString => []
  | String c s => if c =c newline then cur :: sse_lines "" s else sse_lines (cur +:+ String c "") s
  end.

(** The event being built: its type and the lines of its data. *)
Definition sse_line (st : string * option string) (line : string) : list sse * (string * option string) :=
  if line =s "" then
    (match st.2 with Some d => [mkSse st.1 d] | None => [] end, (""%string, None))
  else match strip_prefix "event: " line, strip_prefix "data: " line with
  | Some t, _ => ([], (t, st.2))
  | _, Some d => ([], (st.1, Some match st.2 with Some d0 => d0 +:+ String newline d | None => d end))
  | _, _ => ([], st)
  end.
Fixpoint sse_events (st : string * option string) (ls : list string) : list sse :=
  match ls with
  | [] => []
  | l :: ls => let (out, st) := sse_line st l in out ++ sse_events st ls
  end.
Definition sse_read (s : string) : list sse := sse_events (""%string, None) (sse_lines "" s).

(** The events of a tail as a client sees them; comments are not events. *)
Definition seen_as (e : tail_event) : list sse :=
  match e with
  | TWarning => [mkSse "warning" (json_code "query_failed")]
  | TGap => [mkSse "gap" (json_code "tail_window_truncated")]
  | TData _ text => [mkSse "" text]
  | THeartbeat => []
  end.

(** ** What is sent on a sound connection *)

Fixpoint texts (evs : list tail_event) : string :=
  match evs with [] => EmptyString | e :: evs => event_text e +:+ texts evs end.

Lemma texts_app a b : texts (a ++ b) = texts a +:+ texts b.
Proof. induction a as [|e a IH]; [done|]. cbn [app texts]. by rewrite IH, append_assoc. Qed.

Section Sound.
Context (sprint_float : Z -> string) (json_float : Z -> option string).
Local Abbreviation sound := (fun (_ : wire) (_ : string) => true).

Lemma send_sound evs w :
  send sound evs w = (mkWire (wr_flushed w) (wr_buffered w +:+ texts evs), true).
Proof.
  revert w. induction evs as [|e evs IH]; intros w; cbn [send texts write].
  - destruct w. cbn. by rewrite append_nil_r.
  - destruct e; rewrite IH; cbn [wr_flushed wr_buffered]; by rewrite append_assoc.
Qed.

Lemma tail_loop_sound s answers flushed :
  tail_loop sprint_float json_float sound s (mkWire flushed "") (map WTick answers)
  = (mkWire (flushed +:+ texts (tail_run sprint_float json_float s answers)) "", TailWaiting).
Proof.
  revert s flushed. induction answers as [|a answers IH]; intros s flushed; cbn [map tail_loop tail_run].
  - cbn [texts]. by rewrite append_nil_r.
  - destruct (tail_tick sprint_float json_float a s) as [evs s']. rewrite send_sound. unfold Flush.
    cbn [wr_flushed wr_buffered]. rewrite IH, texts_app, append_assoc. done.
Qed.

Lemma lines_line cur line s :
  lacks newline line = true -> sse_lines cur (line +:+ String newline s) = (cur +:+ line) :: sse_lines "" s.
Proof.
  revert cur. induction line as [|c line IH]; intros cur Hl.
  - rewrite append_nil_r. change ("" +:+ String newline s) with (String newline s). cbn [sse_lines]. by rewrite ch_eq_refl.
  - unfold lacks in Hl. cbn [all_bytes] in Hl. apply andb_true_iff in Hl as [Hc Hl]. apply negb_true_iff in Hc.
    rewrite append_cons. cbn [sse_lines]. rewrite Hc, IH by done. by rewrite append_assoc.
Qed.

(** An event is read, and the reader is where it was. *)
Definition text_ok (e : tail_event) : Prop := match e with TData _ text => no_control text = true | _ => True end.
Local Abbreviation read := (fun s => sse_events (""%string, None) (sse_lines "" s)).

Lemma read_comment c rest : lacks newline c = true -> read (String ":" c +:+ (two_newlines +:+ rest)) = read rest.
Proof.
  intros Hc. cbv beta. change (two_newlines +:+ rest) with (String newline (String newline rest)).
  rewrite lines_line by done. cbn [sse_events sse_lines]. by rewrite ch_eq_refl.
Qed.

Lemma read_data type data rest :
  lacks newline data = true ->
  sse_events (type, None) (sse_lines "" ("data: " +:+ (data +:+ (two_newlines +:+ rest)))) = mkSse type data :: read rest.
Proof.
  intros Hd. change (two_newlines +:+ rest) with (String newline (String newline rest)).
  rewrite <- append_assoc, lines_line by (unfold lacks in *; rewrite all_bytes_append; by rewrite Hd).
  cbn [sse_events sse_lines]. rewrite ch_eq_refl. done.
Qed.

(** A named event. *)
Lemma read_named name type data rest :
  lacks newline name = true -> sse_line (""%string, None) name = ([], (type, None)) -> lacks newline data = true ->
  read ((name +:+ String newline ("data: " +:+ (data +:+ two_newlines))) +:+ rest) = mkSse type data :: read rest.
Proof.
  intros Hn Hl Hd. cbv beta. rewrite append_assoc, (append_cons newline), !(append_assoc _ _ rest).
  rewrite lines_line by done. cbn [sse_events]. change ("" +:+ name) with name. rewrite Hl. by apply read_data.
Qed.

Lemma read_event e rest : text_ok e -> read (event_text e +:+ rest) = seen_as e ++ read rest.
Proof.
  intros He. destruct e as [| |k text|].
  - by apply read_named.
  - by apply read_named.
  - cbn [event_text seen_as]. rewrite !append_assoc. apply read_data. by apply no_control_lacks.
  - cbn [event_text seen_as]. rewrite append_assoc. by apply (read_comment " heartbeat").
Qed.

Lemma read_texts evs : Forall text_ok evs -> read (texts evs) = concat (map seen_as evs).
Proof.
  induction 1 as [|e evs He _ IH]; [done|]. cbn [texts map concat]. by rewrite read_event, IH.
Qed.

(** The text of a row is one line of JSON that decodes to the row. *)
Lemma row_text row text :
  wf_row row -> Marshal_map json_float row = Some text ->
  no_control text = true /\ Unmarshal_map use_number text = Some row.
Proof.
  intros Hwf Ht. destruct (wf_row_entries row Hwf) as [Hany _]. split; [by apply (Marshal_no_control json_float _ _ Hany)|].
  destruct (row_reads_back json_float row Hwf) as (s & Hs & _ & Hscan). rewrite Ht in Hs. injection Hs as <-.
  destruct (Hscan ""%string (2 * String.length text + 1)%nat) as (js & Hjs & Hto); [done|lia|].
  rewrite append_nil_r in Hjs. unfold Unmarshal_map, scan. rewrite Hjs. exact Hto.
Qed.

(** Every data event of a tail is the text of a row of the answers. *)
Definition from_rows (rows : list (gmap string any)) (e : tail_event) : Prop :=
  match e with
  | TData k text => exists row, row ∈ rows /\ k = tailKey sprint_float row /\ Marshal_map json_float row = Some text
  | _ => True
  end.

Lemma tail_rows_from rows s : Forall (from_rows rows) (tail_rows sprint_float json_float s rows).1.
Proof.
  assert (H : forall l s, (forall row, row ∈ l -> row ∈ rows) -> Forall (from_rows rows) (tail_rows sprint_float json_float s l).1).
  { clear s. induction l as [|row l IH]; intros s Hl; [constructor|]. cbn [tail_rows].
    destruct (tail_row sprint_float json_float s row) as [o1 s1] eqn:E1.
    specialize (IH s1 (fun r Hr => Hl r (list_elem_of_further r row l Hr))).
    destruct (tail_rows sprint_float json_float s1 l) as [o2 s2]. cbn [fst] in *. apply Forall_app_2; [|done].
    unfold tail_row in E1. cbv zeta in E1. destruct (bool_decide _); [by injection E1 as <- _|].
    destruct (Marshal_map json_float row) as [t|] eqn:Em; injection E1 as <- _; [|constructor].
    apply Forall_singleton. exists row. split_and!; [|done|done]. apply Hl. left. }
  by apply H.
Qed.

Lemma from_rows_mono rows rows' e : (forall r, r ∈ rows -> r ∈ rows') -> from_rows rows e -> from_rows rows' e.
Proof. intros H. destruct e; cbn; try done. intros (row & Hr & ?). exists row. split; [by apply H|done]. Qed.

Lemma tail_run_from answers s :
  Forall (from_rows (answered answers)) (tail_run sprint_float json_float s answers).
Proof.
  revert s. induction answers as [|a answers IH]; intros s; [constructor|]. cbn [tail_run].
  destruct (tail_tick sprint_float json_float a s) as [evs s'] eqn:E. unfold answered. cbn [map concat]. fold (answered answers).
  apply Forall_app_2.
  2: { eapply Forall_impl; [apply IH|]. intros e. apply from_rows_mono. intros r Hr. apply elem_of_app. by right. }
  unfold tail_tick in E. destruct a as [res| |]; [|injection E as <- _; by repeat constructor..].
  pose proof (tail_rows_from (rev (qr_Data res)) s) as Hf. destruct (tail_rows _ _ s _) as [out s2]. injection E as <- _.
  repeat apply Forall_app_2; [by destruct (qr_Truncated res); repeat constructor| |by repeat constructor].
  eapply Forall_impl; [exact Hf|]. intros e. apply from_rows_mono. intros r Hr. apply elem_of_app. left.
  apply list_elem_of_In. apply in_rev. by apply list_elem_of_In.
Qed.

Lemma from_rows_text rows e : Forall wf_row rows -> from_rows rows e -> text_ok e.
Proof.
  intros Hr. destruct e; cbn; try done. intros (row & Hrow & _ & Ht).
  rewrite Forall_forall in Hr. by apply (row_text row text (Hr row Hrow)).
Qed.

(** C33. A client reads the tail: on a connection that takes what is written, when
    the handler waits again everything it wrote has been flushed, and read as an
    event stream it is the warnings, gaps and rows of the ticks, in order; each
    data event is JSON that decodes to a row of the answers, under the key it
    was sent for. *)
Theorem tail_stream_reads_back answers :
  Forall wf_row (answered answers) ->
  exists w, tail_connection sprint_float json_float sound true (map WTick answers) = inr (stream_headers, (w, TailWaiting))
    /\ wr_buffered w = ""%string
    /\ sse_read (wr_flushed w) = concat (map seen_as (tail_run sprint_float json_float tail_start answers))
    /\ forall k text, TData k text ∈ tail_run sprint_float json_float tail_start answers ->
         exists row, row ∈ answered answers /\ k = tailKey sprint_float row /\ Unmarshal_map use_number text = Some row.
Proof.
  intros Hrows. unfold tail_connection. cbn [negb]. eexists. split; [|split; [|split]].
  - unfold write, Flush. cbn [fst wr_flushed wr_buffered]. by rewrite tail_loop_sound.
  - done.
  - cbn [wr_flushed]. unfold opening, sse_read. rewrite append_assoc.
    etransitivity; [exact (read_comment " connected" _ eq_refl)|]. apply read_texts.
    eapply Forall_impl; [apply tail_run_from|]. intros e. by apply from_rows_text.
  - intros k text Hin. pose proof (tail_run_from answers tail_start) as Hf. rewrite Forall_forall in Hf.
    destruct (Hf _ Hin) as (row & Hrow & Hk & Ht). exists row. split_and!; [done|done|].
    rewrite Forall_forall in Hrows. by apply (row_text row text (Hrows row Hrow)).
Qed.
End Sound.

(** Whatever the connection takes, the handler returns when the context of the
    request ends, and looks at nothing after. *)
Theorem tail_returns sprint_float json_float takes s w wakes rest :
  tail_loop sprint_float json_float takes s w (wakes ++ WDone :: rest)
  = tail_loop sprint_float json_float takes s w (wakes ++ [WDone])
  /\ (tail_loop sprint_float json_float takes s w (wakes ++ [WDone])).2 = TailReturned.
Proof.
  revert s w. induction wakes as [|[a|] wakes IH]; intros s w; [done| |done]. cbn [app tail_loop].
  destruct (tail_tick _ _ a s) as [evs s']. destruct (send takes evs w) as [w' []]; [apply IH|done].
Qed.

(** A row that cannot be written ends the handler: the second row of a tick is
    lost with the connection, and nothing of the tick is flushed. *)
Example tail_broken :
  let row id : gmap string any := {["id"%string := AStr id]} in
  let takes (w : wire) (s : string) := len (wr_buffered w) <? 10 in
  tail_connection (fun _ => ""%string) (fun _ => None) takes true
    [WTick (Ok (mkResult [row "b"%string; row "a"%string] "" false)); WDone]
  = inr (stream_headers, (mkWire opening (event_text (TData "a" ("{" +:+ String quote_byte ("id" +:+ String quote_byte (":" +:+
      String quote_byte ("a" +:+ String quote_byte "}")))))), TailReturned)).
Proof. vm_compute. reflexivity. Qed.

Lemma tail_stream_reads_back_witness :
  exists w, tail_connection (fun _ => ""%string) (fun _ => None) (fun _ _ => true) true (map WTick tail_sample)
      = inr (stream_headers, (w, TailWaiting))
    /\ wr_buffered w = ""%string
    /\ sse_read (wr_flushed w) = concat (map seen_as (tail_run (fun _ => ""%string) (fun _ => None) tail_start tail_sample))
    /\ forall k text, TData k text ∈ tail_run (fun _ => ""%string) (fun _ => None) tail_start tail_sample ->
         exists row, row ∈ answered tail_sample /\ k = tailKey (fun _ => ""%string) row /\ Unmarshal_map use_number text = Some row.
Proof.
  apply (tail_stream_reads_back (fun _ => ""%string) (fun _ => None) tail_sample).
  assert (Hrow : forall id, all_bytes (fun c => code c <? 128) id = true -> wf_row {["id"%string := AStr id]}).
  { intros id Hid. apply map_Forall_singleton. split_and!; [by apply valid_ascii|by apply valid_ascii|].
    vm_compute. reflexivity. }
  cbn. repeat (apply Forall_cons_2; [by apply Hrow|]). apply Forall_nil_2.
Defined.
