(* ===== verification/Server.v ===== *)
(** * The HTTP API

    [backend/internal/api/server.go]: the handlers, and what happens to a request
    from [requestLog] through [authMiddleware] and the routes to its handler.
    What a request meets at its time is in [Env]: the backend, the control store
    and its check, whether ingestion accepts, the clock and the random bytes. A
    handler that panics is [None]: [net/http] recovers and closes the connection.
    The texts of error messages are left out of the answers. *)
From S2P Require Import Prelude GoStrings GoTime GoUrl Domain Config Pipeline GoStrconv GoJson Query VictoriaLogs Requests Mux Backend Auth Saved Ingest.

Record Server := mkServer {
  s_auth : authManager;
  s_saved : gmap string SavedSearch;
  s_sources : list SourceConfig;
  s_address : string
}.
Record Env := mkEnv {
  ev_backend : Backend;
  ev_control : option bool;
  ev_store : option SavedStore;
  ev_accepting : bool;
  ev_now : Time;
  ev_token : string;
  ev_id : option string
}.

(** What a request came to: the pattern and the handler that took it, the
    answer, the cookie set, and the batch handed to the backend. *)
Record reply := mkReply {
  re_pattern : string;
  re_route : option route;
  re_response : Response;
  re_cookie : option cookie;
  re_appended : option (list LogEntry)
}.

(** [queryError] *)
Definition queryError : Response := error_response 400 "query_error".

(** [writeJSON] of an operation of the backend, or its error. *)
Definition answer {A} (f : A -> payload) (m : outcome storage_error A) : option Response :=
  match m with
  | Ok a => Some (mkResp 200 (f a))
  | Err _ => Some queryError
  | Panic => None
  end.

Section Handlers.
Context (sprint_float : Z -> string) (parse_float : string -> option Z).

(** [requireQuery], [decodeQuery] and an operation of the querier. *)
Definition query_handler (b : Backend) (r : Request) (f : Querier -> Query -> option Response) : option Response :=
  match b_Querier b with
  | None => Some (error_response 501 "capability_not_supported")
  | Some qr =>
      match decodeQuery parse_float (r_Body r) with
      | None => Some (error_response 400 "invalid_request")
      | Some q => f qr q
      end
  end.

Definition searchLogs (b : Backend) (r : Request) : option Response :=
  query_handler b r (fun qr q => answer PResult (b_Query qr q)).
Definition logStats (b : Backend) (r : Request) : option Response :=
  query_handler b r (fun qr q => answer PStats (b_Stats qr q)).
Definition fieldNames (b : Backend) (r : Request) : option Response :=
  query_handler b r (fun qr q => answer PFields (b_FieldNames qr q)).
Definition fieldValues (b : Backend) (r : Request) (field : string) : option Response :=
  query_handler b r (fun qr q => answer PValues (b_FieldValues qr q field 20)).

(** A failed export is only logged: the status is 200, the body what was written. *)
Definition export_types (format : string) : bool := existsb (str_eq format) ["json"; "ndjson"; "csv"]%string.
Definition exportLogs (b : Backend) (r : Request) : option Response :=
  let format := if Query_Get r "format" =s "" then "ndjson"%string else Query_Get r "format" in
  query_handler b r (fun qr q =>
    if negb (export_types format) then Some (error_response 400 "invalid_format") else
    match b_Export qr q format with
    | Ok text => Some (mkResp 200 (PExport format text))
    | Err (_, text) => Some (mkResp 200 (PExport format text))
    | Panic => None
    end).

(** Up to the stream, which is the subject of [TailStream]. *)
Definition tailLogs (b : Backend) (r : Request) : option Response :=
  match b_Querier b with
  | None => Some (error_response 501 "capability_not_supported")
  | Some _ =>
      if 4096 <? len (Query_Get r "query") then Some (error_response 400 "query_too_large")
      else Some (mkResp 200 PStream)
  end.

Definition health : Response := mkResp 200 (PStatus "ok" []).

Definition ready (b : Backend) (accepting : bool) (control : option bool) : Response :=
  let h := b_Check b in
  let ok := accepting && hl_Healthy h && default true control in
  let text (b : bool) (yes no : string) := if b then yes else no in
  mkResp (if ok then 200 else 503)
    (PStatus (text ok "ready" "not_ready")
       ([("ingestion"%string, text accepting "accepting" "draining");
         ("storage"%string, text (hl_Healthy h) "healthy" "unhealthy")]
        ++ match control with
           | None => []
           | Some up => [("control_store"%string, text up "ok" "unavailable")]
           end)).

Definition capabilities (b : Backend) : Response := mkResp 200 (PCapabilities (b_Capabilities b)).

Definition recentLogs (b : Backend) (r : Request) : option Response :=
  match b_Recent b with
  | None => Some (error_response 501 "capability_not_supported")
  | Some recent =>
      let v := Query_Get r "limit" in
      match (if v =s "" then Some 20 else
             match Atoi v with
             | Some n => if (n <? 1) || (1000 <? n) then None else Some n
             | None => None
             end) with
      | None => Some (error_response 400 "invalid_limit")
      | Some limit =>
          match recent limit with
          | Ok rows => Some (mkResp 200 (PRows rows))
          | Err _ => Some (error_response 502 "storage_error")
          | Panic => None
          end
      end
  end.

(** The handler of a route. *)
Section Dispatch.
Context (matches : string -> string -> bool).

Definition keep (s : Server) (rp : option Response) : option (Response * option cookie * option (list LogEntry) * Server) :=
  rp ← rp; Some (rp, None, None, s).
Definition with_auth (s : Server) (a : authManager) : Server := mkServer a (s_saved s) (s_sources s) (s_address s).
Definition with_saved (s : Server) (m : gmap string SavedSearch) : Server :=
  mkServer (s_auth s) m (s_sources s) (s_address s).
Definition owner_of (ev : Env) (s : Server) (r : Request) : string := se_User (get (s_auth s) r (ev_now ev)).1.

Definition dispatch (ev : Env) (s : Server) (r : Request) (rt : route)
    : option (Response * option cookie * option (list LogEntry) * Server) :=
  let b := ev_backend ev in
  match rt with
  | RHealth => keep s (Some health)
  | RReady => keep s (Some (ready b (ev_accepting ev) (ev_control ev)))
  | RMetrics => keep s (Some (mkResp 200 PMetrics))
  | RCapabilities => keep s (Some (capabilities b))
  | RRecent => keep s (recentLogs b r)
  | RIngest =>
      '(rp, logs) ← ingestJSON sprint_float (b_Append b) (r_ContentType r) (r_Body r) (ev_now ev);
      Some (rp, None, logs, s)
  | RSearch => keep s (searchLogs b r)
  | RStats => keep s (logStats b r)
  | RFields => keep s (fieldNames b r)
  | RValues field => keep s (fieldValues b r field)
  | RExport => keep s (exportLogs b r)
  | RTail => keep s (tailLogs b r)
  | RLogin => let '(rp, ck, a) := login matches (s_auth s) r (ev_token ev) (ev_now ev) in
      Some (rp, ck, None, with_auth s a)
  | RLogout => let '(rp, ck, a) := logout (s_auth s) r in Some (rp, ck, None, with_auth s a)
  | RMe => keep s (Some (me (s_auth s) r (ev_now ev)))
  | RListSaved => keep s (Some (listSaved (ev_store ev) (s_saved s) (owner_of ev s r)))
  | RCreateSaved =>
      let (rp, m) := createSaved (ev_store ev) (s_saved s) (owner_of ev s r) (r_Body r) (ev_id ev) (ev_now ev) in
      Some (rp, None, None, with_saved s m)
  | RDeleteSaved id =>
      let (rp, m) := deleteSaved (ev_store ev) (s_saved s) (owner_of ev s r) id in
      Some (rp, None, None, with_saved s m)
  | RSources => keep s (Some (listSources (ev_accepting ev) (s_address s) (s_sources s)))
  end.

(** [s.authMiddleware(mux)]; [redirect] is the status of the redirects of
    [net/http] (301 or 307 by version). *)
Definition handle (redirect : Z) (ev : Env) (s : Server) (r : Request) : option (reply * Server) :=
  let refuse status payload := Some (mkReply "" None (mkResp status payload) None None, s) in
  if negb (authMiddleware (s_auth s) r (ev_now ev)) then refuse 401 (PCode "unauthorized" None) else
  match serve_mux (r_Method r) (r_EscapedPath r) with
  | NotFound => refuse 404 PEmpty
  | MethodNotAllowed => refuse 405 PEmpty
  | Redirected pattern p => Some (mkReply pattern None (mkResp redirect (PLocation p)) None None, s)
  | Routed pattern rt =>
      '(rp, ck, logs, s) ← dispatch ev s r rt;
      Some (mkReply pattern (Some rt) rp ck logs, s)
  end.

(** [net/http] first refuses a path that does not unescape. *)
Definition well_formed (r : Request) : bool := bool_decide (is_Some (unescape InPath (r_EscapedPath r))).
Definition serve (redirect : Z) (ev : Env) (s : Server) (r : Request) : option (reply * Server) :=
  if well_formed r then handle redirect ev s r
  else Some (mkReply "" None (mkResp 400 PEmpty) None None, s).
End Dispatch.
End Handlers.

(** [New] *)
Definition New (generate : string -> option string) (password address : string) (sources : list SourceConfig) : Server :=
  mkServer (newAuthManager generate password) ∅ sources address.
