(* ===== verification/ServerProps.v ===== *)
(** * What the API promises

    No request makes a handler panic; a protected handler runs only for the
    holder of a session that a login opened less than twelve hours before and
    no logout closed since. *)
From S2P Require Import Prelude GoStrings GoTime GoUrl Domain Config Pipeline GoStrconv GoJson Query VictoriaLogs Requests Mux Backend Auth Saved Ingest Server.

Definition returns {A} (o : option A) : Prop := is_Some o.

Lemma returns_some {A} (a : A) : returns (Some a).
Proof. by eexists. Qed.
Lemma answer_returns {A} (f : A -> payload) m : no_panic m -> returns (answer f m).
Proof. destruct m; [by eexists..|done]. Qed.
Create HintDb returns.
#[local] Hint Resolve returns_some answer_returns : returns.

Section Total.
Context (sprint_float : Z -> string) (parse_float : string -> option Z) (b : Backend).
Context `{!BackendLaws b}.

Lemma query_handler_returns r f :
  (forall qr q, QuerierLaws qr -> returns (f qr q)) -> returns (query_handler parse_float b r f).
Proof.
  intros Hf. unfold query_handler. destruct (b_Querier b) as [qr|] eqn:E; [|by eexists].
  destruct (decodeQuery _ _); [|by eexists]. apply Hf. by apply Querier_laws.
Qed.
Lemma exportLogs_returns r : returns (exportLogs parse_float b r).
Proof.
  apply query_handler_returns. intros qr q Hq. destruct (export_types _); [|by eexists]. cbn [negb].
  pose proof (Export_returns q (if Query_Get r "format" =s "" then "ndjson" else Query_Get r "format")%string) as H.
  destruct (b_Export _ _ _) as [text|[e text]|]; [by eexists..|done].
Qed.
Lemma tailLogs_returns r : returns (tailLogs b r).
Proof. unfold tailLogs. destruct (b_Querier b); [|by eexists]. destruct (_ <? _); by eexists. Qed.
Lemma recentLogs_returns r : returns (recentLogs b r).
Proof.
  unfold recentLogs. destruct (b_Recent b) as [f|] eqn:E; [|by eexists]. destruct (if _ =s _ then _ else _) as [n|]; [|by eexists].
  pose proof (Recent_returns f n E) as H. destruct (f n); [by eexists..|done].
Qed.
Lemma ingestJSON_returns ct body now : returns (ingestJSON sprint_float (b_Append b) ct body now).
Proof.
  unfold ingestJSON. destruct (body_items _ _) as [items|]; [|by eexists]. destruct (_ <? _)%nat; [by eexists|].
  cbv zeta. destruct (item_entries _ _ _ _) as [logs|[code i]]; [|by eexists].
  pose proof (Append_returns logs) as H. destruct (b_Append b logs); [by eexists..|done].
Qed.

Lemma keep_returns s rp : returns rp -> returns (keep s rp).
Proof. intros [x ->]. by eexists. Qed.
#[local] Hint Resolve keep_returns exportLogs_returns tailLogs_returns recentLogs_returns : returns.
Lemma query_answers {A} r (f : A -> payload) (op : Querier -> Query -> outcome storage_error A) s :
  (forall qr q, QuerierLaws qr -> no_panic (op qr q)) ->
  returns (keep s (query_handler parse_float b r (fun qr q => answer f (op qr q)))).
Proof. intros H. apply keep_returns, query_handler_returns. intros. by apply answer_returns, H. Qed.

Lemma dispatch_returns matches ev s r rt :
  ev_backend ev = b -> returns (dispatch sprint_float parse_float matches ev s r rt).
Proof.
  intros Hb. destruct rt; cbn [dispatch]; rewrite ?Hb; auto with returns.
  - destruct (ingestJSON_returns (r_ContentType r) (r_Body r) (ev_now ev)) as [[rp logs] ->]. by eexists.
  - apply (query_answers r PResult b_Query). intros. by apply Query_returns.
  - apply (query_answers r PStats b_Stats). intros. by apply Stats_returns.
  - apply (query_answers r PFields b_FieldNames). intros. by apply FieldNames_returns.
  - apply (query_answers r PValues (fun qr q => b_FieldValues qr q field 20)). intros. by apply FieldValues_returns.
  - destruct (login _ _ _ _ _) as [[rp ck] a]. by eexists.
  - destruct (logout _ _) as [[rp ck] a]. by eexists.
  - destruct (createSaved _ _ _ _ _ _) as [rp m]. by eexists.
  - destruct (deleteSaved _ _ _ _) as [rp m]. by eexists.
Qed.

End Total.

(** C26. Whatever the request, the state of the server and the random bytes,
    the server answers: no handler panics, as long as the backend keeps its
    laws, which the VictoriaLogs client does whatever the service answers. *)
Theorem serve_answers sprint_float parse_float matches redirect ev s r :
  BackendLaws (ev_backend ev) -> is_Some (serve sprint_float parse_float matches redirect ev s r).
Proof.
  intros Hb. unfold serve, handle. destruct (well_formed _); [|by eexists]. destruct (negb _); [by eexists|].
  destruct (serve_mux _ _) as [pattern rt|pattern loc| |]; [|by eexists..].
  destruct (dispatch_returns sprint_float parse_float (ev_backend ev) matches ev s r rt eq_refl)
    as [[[[rp ck] logs] s'] ->]. by eexists.
Qed.

(** ** Sessions along a history of requests *)

Section Sessions.
Context (sprint_float : Z -> string) (parse_float : string -> option Z) (matches : string -> string -> bool)
  (redirect : Z).
Local Abbreviation serve1 := (serve sprint_float parse_float matches redirect).
Local Abbreviation dispatch1 := (dispatch sprint_float parse_float matches).

(** A request that was answered. *)
Record served := mkServed { sd_env : Env; sd_request : Request; sd_reply : reply }.

(** The server after a list of requests, and what it answered. *)
Fixpoint run (s : Server) (l : list (Env * Request)) : list served * Server :=
  match l with
  | [] => ([], s)
  | (ev, r) :: l =>
      match serve1 ev s r with
      | Some (rp, s') => let (log, s'') := run s' l in (mkServed ev r rp :: log, s'')
      | None => run s l
      end
  end.

(** A login that gave [token] out: the login handler took the request, for
    [admin] and a password that matches the hash. *)
Definition opens (hash token : string) (x : served) : Prop :=
  re_route (sd_reply x) = Some RLogin
  /\ token = RawURLEncode (ev_token (sd_env x))
  /\ exists c, jsonDecode credentials_field (mkCredentials "" "") (r_Body (sd_request x)) = Some c
       /\ cr_Username c = "admin"%string /\ matches hash (cr_Password c) = true.
Definition closes (token : string) (x : served) : Prop :=
  re_route (sd_reply x) = Some RLogout /\ r_Cookie (sd_request x) = Some token.

(** [token] was last given out at [t], and not given up since. *)
Definition granted (hash : string) (log : list served) (token : string) (t : Time) : Prop :=
  exists before x after, log = before ++ x :: after /\ opens hash token x /\ ev_now (sd_env x) = t
    /\ Forall (fun y => ~ opens hash token y /\ ~ closes token y) after.

Lemma granted_nil hash token t : ~ granted hash [] token t.
Proof. intros (before & x & after & H & _). by destruct before. Qed.

Lemma granted_snoc hash log x token t :
  granted hash (log ++ [x]) token t <->
  (opens hash token x /\ ev_now (sd_env x) = t)
  \/ (granted hash log token t /\ ~ opens hash token x /\ ~ closes token x).
Proof.
  split.
  - intros (before & y & after & Heq & Ho & Ht & Hf). destruct after as [|z after _] using rev_ind.
    + apply app_inj_tail in Heq as [-> ->]. by left.
    + rewrite app_comm_cons, app_assoc in Heq. apply app_inj_tail in Heq as [-> ->].
      apply Forall_app in Hf as [Hf Hz]. apply Forall_cons_1 in Hz as [Hz _]. right. split; [|exact Hz]. by exists before, y, after.
  - intros [[Ho Ht]|[(before & y & after & -> & Ho & Ht & Hf) Hx]].
    + exists log, x, []. by split_and!.
    + exists before, y, (after ++ [x]). rewrite <- app_assoc. split_and!; [done..|].
      apply Forall_app. split; [done|]. by apply Forall_cons_2.
Qed.

Definition admin_session (t : Time) : session := mkSession "admin" "admin" (add_dur t (hours 12)).

(** The table of sessions holds exactly the granted tokens. *)
Definition sessions_ok (hash : string) (log : list served) (s : Server) : Prop :=
  a_enabled (s_auth s) = true /\ a_hash (s_auth s) = hash
  /\ forall token se, a_sessions (s_auth s) !! token = Some se
       <-> exists t, granted hash log token t /\ se = admin_session t.

(** What a handler does to the sessions. *)
Lemma dispatch_auth ev s r rt rp ck logs s' :
  dispatch1 ev s r rt = Some (rp, ck, logs, s') ->
  s_auth s' = match rt with
              | RLogin => (login matches (s_auth s) r (ev_token ev) (ev_now ev)).2
              | RLogout => (logout (s_auth s) r).2
              | _ => s_auth s
              end.
Proof.
  destruct rt; cbn [dispatch]; intros H;
    try (unfold keep in H; destruct (_ : option Response); [|done]; by injection H as <- <- <- <-).
  - destruct (ingestJSON _ _ _ _ _) as [[??]|]; [|done]. by injection H as <- <- <- <-.
  - destruct (login _ _ _ _ _) as [[? ?] a]. by injection H as <- <- <- <-.
  - destruct (logout _ _) as [[? ?] a]. by injection H as <- <- <- <-.
  - destruct (createSaved _ _ _ _ _ _). by injection H as <- <- <- <-.
  - destruct (deleteSaved _ _ _ _). by injection H as <- <- <- <-.
Qed.

Lemma credentials_opens hash token ev r rp a :
  a_enabled a = true -> a_hash a = hash -> re_route rp = Some RLogin ->
  credentials_ok matches a r = true /\ token = RawURLEncode (ev_token ev)
  <-> opens hash token (mkServed ev r rp).
Proof.
  intros He <- Hr. unfold credentials_ok, opens. cbn [sd_reply sd_env sd_request]. rewrite He, Hr.
  destruct (jsonDecode _ _ _) as [c|].
  - rewrite andb_true_r, andb_true_iff. split.
    + intros [[Hu Hm] ->]. split_and!; [done..|]. exists c. split_and!; [done| |done]. by destruct (str_eq_spec (cr_Username c) "admin").
    + intros (_ & -> & c' & [= <-] & -> & ->). by rewrite str_eq_refl.
  - split; [by intros [? _]|]. by intros (_ & _ & ? & ? & _).
Qed.

(** The new table after a login, and after a logout. *)
Lemma login_sessions hash log ev s r rp s' :
  sessions_ok hash log s -> re_route rp = Some RLogin ->
  s_auth s' = (login matches (s_auth s) r (ev_token ev) (ev_now ev)).2 ->
  sessions_ok hash (log ++ [mkServed ev r rp]) s'.
Proof.
  intros (He & Hh & Hs) Hr Ha. unfold sessions_ok. rewrite Ha. unfold login.
  assert (Ho : forall token, opens hash token (mkServed ev r rp) <->
    credentials_ok matches (s_auth s) r = true /\ token = RawURLEncode (ev_token ev)).
  { intros token. symmetry. by apply credentials_opens. }
  assert (Hc : forall token, ~ closes token (mkServed ev r rp)) by (intros token [H _]; cbn [sd_reply] in H; congruence).
  destruct (credentials_ok _ _ _); cbn [negb].
  - cbn [issue snd a_enabled a_hash a_sessions]. split_and!; [done..|]. intros token se.
    destruct (decide (token = RawURLEncode (ev_token ev))) as [->|Hne].
    + rewrite lookup_insert_eq. split.
      * intros [= <-]. exists (ev_now ev). split; [|done]. apply granted_snoc. left. by rewrite Ho.
      * intros (t & Hg & ->). apply granted_snoc in Hg as [[_ <-]|(_ & Hn & _)]; [done|]. by rewrite Ho in Hn; destruct Hn.
    + rewrite lookup_insert_ne by done. rewrite Hs. apply exist_proper. intros t. rewrite granted_snoc, Ho. naive_solver.
  - split_and!; [done..|]. intros token se. rewrite Hs. apply exist_proper. intros t. rewrite granted_snoc, Ho. naive_solver.
Qed.

Lemma logout_sessions hash log ev s r rp s' :
  sessions_ok hash log s -> re_route rp = Some RLogout -> s_auth s' = (logout (s_auth s) r).2 ->
  sessions_ok hash (log ++ [mkServed ev r rp]) s'.
Proof.
  intros (He & Hh & Hs) Hr Ha. unfold sessions_ok. rewrite Ha. unfold logout. cbn [snd].
  assert (Ho : forall token, ~ opens hash token (mkServed ev r rp)) by (intros token [H _]; cbn [sd_reply] in H; congruence).
  assert (Hc : forall token, closes token (mkServed ev r rp) <-> r_Cookie r = Some token)
    by (intros token; unfold closes; cbn [sd_reply sd_request]; tauto).
  destruct (r_Cookie r) as [token0|] eqn:Er; cbn [a_enabled a_hash a_sessions].
  - split_and!; [done..|]. intros token se. destruct (decide (token = token0)) as [->|Hne].
    + rewrite lookup_delete_eq. split; [done|]. intros (t & Hg & _). apply granted_snoc in Hg as [[H _]|(_ & _ & H)].
      * by apply Ho in H.
      * by rewrite Hc in H; destruct H.
    + rewrite lookup_delete_ne by done. rewrite Hs. apply exist_proper. intros t. rewrite granted_snoc, Hc. naive_solver.
  - split_and!; [done..|]. intros token se. rewrite Hs. apply exist_proper. intros t. rewrite granted_snoc, Hc. naive_solver.
Qed.

Lemma serve_sessions hash log ev s r rp s' :
  sessions_ok hash log s -> serve1 ev s r = Some (rp, s') -> sessions_ok hash (log ++ [mkServed ev r rp]) s'.
Proof.
  intros (He & Hh & Hs) H.
  assert (Hsame : s_auth s' = s_auth s -> re_route rp <> Some RLogin -> re_route rp <> Some RLogout ->
    sessions_ok hash (log ++ [mkServed ev r rp]) s').
  { intros Ha H1 H2. unfold sessions_ok. rewrite Ha. split_and!; [done..|]. intros token se. rewrite Hs.
    apply exist_proper. intros t. rewrite granted_snoc. unfold opens, closes. cbn [sd_reply]. naive_solver. }
  unfold serve, handle in H. destruct (well_formed _); [|by injection H as <- <-; apply Hsame].
  destruct (negb _); [by injection H as <- <-; apply Hsame|].
  destruct (serve_mux _ _) as [pattern rt|pattern loc| |]; [|by injection H as <- <-; apply Hsame..].
  destruct (dispatch1 ev s r rt) as [[[[resp ck] logs] s2]|] eqn:Ed; [|done]. injection H as <- <-.
  pose proof (dispatch_auth _ _ _ _ _ _ _ _ Ed) as Ha. destruct rt; try (by apply Hsame).
  - by apply (login_sessions hash log ev s).
  - by apply (logout_sessions hash log ev s).
Qed.

Lemma run_sessions hash l log0 s0 log s :
  sessions_ok hash log0 s0 -> run s0 l = (log, s) -> sessions_ok hash (log0 ++ log) s.
Proof.
  revert log0 s0 log. induction l as [|[ev r] l IH]; intros log0 s0 log Hok H; cbn [run] in H.
  - injection H as <- <-. by rewrite app_nil_r.
  - destruct (serve1 ev s0 r) as [[rp s1]|] eqn:E; [|by apply (IH log0 s0)].
    destruct (run s1 l) as [log1 s2] eqn:E1. injection H as <- <-.
    change (?x :: log1) with ([x] ++ log1). rewrite app_assoc. apply (IH _ s1); [|done]. by apply (serve_sessions hash log0 ev s0).
Qed.

Lemma start_sessions hash s :
  a_enabled (s_auth s) = true -> a_hash (s_auth s) = hash -> a_sessions (s_auth s) = ∅ -> sessions_ok hash [] s.
Proof.
  intros He Hh Ha. split_and!; [done..|]. intros token se. rewrite Ha, lookup_empty. split; [done|].
  by intros (t & [] %granted_nil & _).
Qed.

(** The request carries a live session: granted by a login of the log less than
    twelve hours ago, and not closed since. *)
Definition live (hash : string) (log : list served) (r : Request) (now : Time) : Prop :=
  exists token t, r_Cookie r = Some token /\ granted hash log token t
    /\ Before now (add_dur t (hours 12)) = true.

Lemma get_live hash log s r now : sessions_ok hash log s -> (get (s_auth s) r now).2 = true <-> live hash log r now.
Proof.
  intros (He & _ & Hs). unfold get, live. rewrite He. cbn [negb]. destruct (r_Cookie r) as [token|].
  - destruct (a_sessions (s_auth s) !! token) as [se|] eqn:E; cbn [snd].
    + split.
      * intros Hb. apply Hs in E as (t & Hg & ->). by exists token, t.
      * intros (? & t & [= <-] & Hg & Hb). assert (Some se = Some (admin_session t)) as [= ->]; [|done].
        rewrite <- E. apply Hs. by exists t.
    + split; [done|]. intros (? & t & [= <-] & Hg & _).
      assert (a_sessions (s_auth s) !! token = Some (admin_session t)) by (apply Hs; by exists t). congruence.
  - split; [done|]. by intros (? & ? & ? & _).
Qed.

(** C5. With a password configured, along every history of requests: a handler
    under [/api/] other than login runs only for a request whose cookie a login
    of that history gave out, to [admin] and a password that matches the hash,
    less than twelve hours ago and without a logout since; every such request
    that names a route reaches its handler; and a request that reaches no
    handler changes nothing, sets no cookie and stores nothing. *)
Theorem protected_needs_session generate password address sources history log s ev r rp s' :
  password <> ""%string ->
  run (New generate password address sources) history = (log, s) ->
  serve1 ev s r = Some (rp, s') ->
  let hash := default ""%string (generate password) in
  (forall rt, re_route rp = Some rt -> public rt = false -> live hash log r (ev_now ev))
  /\ (live hash log r (ev_now ev) -> is_Some (unescape InPath (r_EscapedPath r)) ->
      forall pattern rt, serve_mux (r_Method r) (r_EscapedPath r) = Routed pattern rt -> re_route rp = Some rt)
  /\ (re_route rp = None -> s' = s /\ re_cookie rp = None /\ re_appended rp = None).
Proof.
  intros Hpw Hrun Hserve hash.
  assert (Hok : sessions_ok hash log s).
  { apply (run_sessions hash history [] (New generate password address sources)); [|done].
    unfold New, newAuthManager, hash. destruct (str_eq_spec password ""); [done|]. by apply start_sessions. }
  pose proof (get_live hash log s r (ev_now ev) Hok) as Hlive. destruct Hok as (He & _).
  unfold serve, well_formed, handle in Hserve. unfold authMiddleware in Hserve. rewrite He in Hserve. cbn [negb orb] in Hserve.
  destruct (unescape InPath (r_EscapedPath r)) as [p|] eqn:Ep; [|injection Hserve as <- <-; split_and!; [done| |done]; by intros _ []].
  rewrite (bool_decide_true _ (mk_is_Some (Some p) p eq_refl)) in Hserve.
  assert (Hp : r_Path r = p) by (unfold r_Path; by rewrite Ep). rewrite Hp in Hserve.
  destruct (serve_mux _ _) as [pattern rt|pattern loc| |] eqn:Em.
  2-4: destruct (negb _); injection Hserve as <- <-; by split_and!.
  destruct (_ || _ || _) eqn:Eg; cbn [negb] in Hserve.
  - destruct (dispatch1 ev s r rt) as [[[[resp ck] logs] s2]|]; [|done]. injection Hserve as <- <-. cbn [re_route].
    split_and!; [|by intros _ _ pattern' rt' [= _ <-]|done]. intros rt' [= <-] Hpub.
    destruct (protected_path _ _ _ _ _ Em Ep Hpub) as [H1 H2]. rewrite H1, H2 in Eg. by apply Hlive.
  - injection Hserve as <- <-. split_and!; [done| |done]. intros Hl. apply Hlive in Hl. by rewrite Hl, orb_true_r in Eg.
Qed.
End Sessions.

(** ** Draining *)

Definition draining (ev : Env) : Env :=
  mkEnv (ev_backend ev) (ev_control ev) (ev_store ev) false (ev_now ev) (ev_token ev) (ev_id ev).
(** Ingestion over HTTP does not stop when the service drains: it never asks
    whether ingestion is accepting. *)
Lemma ingest_while_draining sprint_float parse_float matches ev s r :
  dispatch sprint_float parse_float matches (draining ev) s r RIngest
  = dispatch sprint_float parse_float matches ev s r RIngest.
Proof. reflexivity. Qed.

(** ** Instances *)

Definition sample_backend : Backend :=
  client_backend (fun _ => Some (mkResponse 200 "" None)) (fun e => (map_to_list (le_Fields e), map_to_list (le_Labels e)))
    (fun _ => true) (fun _ => ""%string) (fun _ => None) (fun _ => None) (mkClient "http" "logs:9428" "" "").
Definition sample_env (seconds : Z) (token : string) : Env :=
  mkEnv sample_backend None None true (mkTime (seconds * second) 0) token (Some "0123456789abcdef"%string).
Definition sample_post (path cookie body : string) : Request :=
  mkReq POST path [] (if cookie =s "" then None else Some cookie) "application/json" true body.
Definition str_quoted (s : string) : string := String (chr 34) (s +:+ String (chr 34) "").
Definition sample_login (password : string) : Request :=
  sample_post "/api/v1/auth/login" ""
    ("{" +:+ str_quoted "username" +:+ ":" +:+ str_quoted "admin" +:+ "," +:+ str_quoted "password" +:+ ":"
     +:+ str_quoted password +:+ "}").
Definition sample_hash (p : string) : string := "h" +:+ p.
Definition sample_matches (h p : string) : bool := h =s sample_hash p.
Definition sample_token : string := "01234567890123456789012345678901".

Definition sample_server : Server := New (fun p => Some (sample_hash p)) "secret" ":8080" [].
Definition sample_serve : Env -> Server -> Request -> option (reply * Server) :=
  serve (fun _ => ""%string) (fun _ => None) sample_matches 301.
Definition sample_history : list (Env * Request) :=
  [(sample_env 500 "x", sample_login "wrong"); (sample_env 1000 sample_token, sample_login "secret")].
Definition sample_run : list served * Server :=
  run (fun _ => ""%string) (fun _ => None) sample_matches 301 sample_server sample_history.
Definition sample_search : Request := sample_post "/api/v1/logs/searc%68" (RawURLEncode sample_token) "{}".
Definition answer_of (o : option (reply * Server)) : reply * Server :=
  default (mkReply "" None (mkResp 0 PEmpty) None None, sample_server) o.

Lemma serve_answers_witness :
  BackendLaws sample_backend /\ is_Some (sample_serve (sample_env 0 "") sample_server (sample_login "secret")).
Proof.
  split; [apply client_backend_laws|]. apply (serve_answers _ _ _ _ (sample_env 0 "")). apply client_backend_laws.
Defined.

Lemma protected_needs_session_witness :
  let rp := (answer_of (sample_serve (sample_env 2000 "") sample_run.2 sample_search)).1 in
  re_route rp = Some RSearch /\ live sample_matches "hsecret" sample_run.1 sample_search (mkTime (2000 * second) 0).
Proof.
  set (out := answer_of (sample_serve (sample_env 2000 "") sample_run.2 sample_search)).
  assert (E : sample_serve (sample_env 2000 "") sample_run.2 sample_search = Some out) by (vm_compute; reflexivity).
  assert (Hr : re_route out.1 = Some RSearch) by (vm_compute; reflexivity).
  split; [exact Hr|]. clearbody out. destruct out as [rp s'].
  destruct (protected_needs_session (fun _ => ""%string) (fun _ => None) sample_matches 301
    (fun p => Some (sample_hash p)) "secret" ":8080" [] sample_history sample_run.1 sample_run.2
    (sample_env 2000 "") sample_search rp s') as [H _];
    [discriminate|unfold sample_run; by destruct (run _ _ _ _ _ _)|exact E|].
  exact (H RSearch Hr eq_refl).
Defined.
