(* ===== verification/Http.v ===== *)
(** * Observed requests

    [requestLog] and [statusWriter] of [backend/internal/api/server.go], and the
    metrics they feed, [backend/internal/metrics/http.go]: what is counted for a
    request is what it was answered, under a bounded set of routes. *)
From S2P Require Import Prelude GoStrings GoTime GoUrl Domain Metrics Config Pipeline GoStrconv GoJson Query VictoriaLogs Requests Mux Backend Auth Saved Ingest Server ServerProps.

(** ** The counters *)

(** Counts by method, route and status; observations by method and route. *)
Record HTTP := mkHTTP {
  h_requests : gmap (string * string * string) Z;
  h_duration : gmap (string * string) Z
}.
Definition NewHTTP : HTTP := mkHTTP ∅ ∅.
Definition Observe (method route : string) (status : Z) (m : HTTP) : HTTP :=
  let route := if route =s "" then "unmatched"%string else route in
  mkHTTP (add (method, route, Itoa status) 1 (h_requests m)) (add (method, route) 1 (h_duration m)).

(** ** The recorder *)

(** What a client gets from [http.ResponseWriter]: the first header counts, and
    a body without one has status 200. *)
Record client := mkClient { cl_status : option Z; cl_body : string }.
Definition send_header (status : Z) (c : client) : client :=
  match cl_status c with Some _ => c | None => mkClient (Some status) (cl_body c) end.
Definition send_body (p : string) (c : client) : client :=
  let c := send_header 200 c in mkClient (cl_status c) (cl_body c +:+ p).

Record statusWriter := mkRecorder { sw_ResponseWriter : client; sw_status : Z }.
Definition recorder : statusWriter := mkRecorder (mkClient None "") 200.
Definition WriteHeader (status : Z) (w : statusWriter) : statusWriter :=
  mkRecorder (send_header status (sw_ResponseWriter w)) status.
Definition Write (p : string) (w : statusWriter) : statusWriter :=
  mkRecorder (send_body p (sw_ResponseWriter w)) (if sw_status w =? 0 then 200 else sw_status w).

(** The calls a handler makes on its writer. *)
Inductive call := CHeader (status : Z) | CWrite (p : string).
Definition perform (w : statusWriter) (c : call) : statusWriter :=
  match c with CHeader s => WriteHeader s w | CWrite p => Write p w end.
Definition status_sent (w : statusWriter) : Z := default 200 (cl_status (sw_ResponseWriter w)).

(** [writeJSON] and the other ways handlers answer: an export and a live tail
    write without a header, the rest send one first. *)
Section Calls.
Context (encode : payload -> string).
Definition calls (rp : Response) : list call :=
  match rp_Payload rp with
  | PExport _ text => if text =s "" then [] else [CWrite text]
  | PStream => [CWrite (encode PStream)]
  | PEmpty => [CHeader (rp_Status rp)]
  | p => [CHeader (rp_Status rp); CWrite (encode p)]
  end.
Definition recorded (rp : Response) : statusWriter := foldl perform recorder (calls rp).
End Calls.

(** ** The middleware *)

Section RequestLog.
Context (sprint_float : Z -> string) (parse_float : string -> option Z) (matches : string -> string -> bool)
  (redirect : Z) (encode : payload -> string).

(** [requestLog]; without an observer nothing is counted, nor when the handler
    panics. *)
Definition requestLog (next : Env -> Server -> Request -> option (reply * Server))
    (ev : Env) (s : Server) (r : Request) (observer : option HTTP) : option (reply * Server) * option HTTP :=
  match next ev s r with
  | None => (None, observer)
  | Some (rp, s') =>
      (Some (rp, s'),
       Observe (method_text (r_Method r)) (re_pattern rp) (sw_status (recorded encode (re_response rp))) <$> observer)
  end.

(** [ListenAndServe] of one request. *)
Definition serve_observed (ev : Env) (s : Server) (r : Request) (observer : option HTTP)
    : option (reply * Server) * option HTTP :=
  if well_formed r then requestLog (handle sprint_float parse_float matches redirect) ev s r observer
  else (serve sprint_float parse_float matches redirect ev s r, observer).

(** The answers to a list of requests, with the server and the counters after. *)
Fixpoint run_observed (s : Server) (h : HTTP) (l : list (Env * Request)) : list served * Server * HTTP :=
  match l with
  | [] => ([], s, h)
  | (ev, r) :: l =>
      match serve_observed ev s r (Some h) with
      | (Some (rp, s'), h') =>
          let '(log, s'', h'') := run_observed s' (default h h') l in (mkServed ev r rp :: log, s'', h'')
      | (None, _) => run_observed s h l
      end
  end.
End RequestLog.

(** ** What is recorded is what is sent *)

(** A status of 200 where no header is sent. *)
Definition header_ok (rp : Response) : Prop :=
  match rp_Payload rp with PExport _ _ | PStream => rp_Status rp = 200 | _ => rp_Status rp <> 0 end.

Lemma recorded_status encode rp :
  header_ok rp -> sw_status (recorded encode rp) = rp_Status rp /\ status_sent (recorded encode rp) = rp_Status rp.
Proof.
  unfold header_ok, recorded, calls, status_sent. destruct rp as [st p]. cbn [rp_Status rp_Payload].
  assert (Hne : forall x, st <> 0 -> (if st =? 0 then x else st) = st) by (intros x H; by destruct (Z.eqb_spec st 0)).
  destruct p as [| | | | | |fmt text| | | | | | | | | | |]; intros H; cbn; rewrite ?Hne by done; try (by split); try by subst st.
  destruct (text =s ""); cbn; by subst st.
Qed.

Lemma error_header_ok st c : st <> 0 -> header_ok (error_response st c).
Proof. done. Qed.
Create HintDb headers.
Lemma queryError_header_ok : header_ok queryError.
Proof. done. Qed.
#[local] Hint Resolve error_header_ok queryError_header_ok : headers.
#[local] Hint Extern 1 (header_ok (mkResp _ _)) => (cbv [header_ok rp_Payload rp_Status]; lia) : headers.
#[local] Hint Extern 1 (header_ok (error_response _ _)) => (apply error_header_ok; lia) : headers.

(** A response, when there is one, satisfies [P]. *)
Definition answers (P : Response -> Prop) (o : option Response) : Prop := forall rp, o = Some rp -> P rp.

(** Every branch of a handler. *)
Ltac branches := unfold mbind, option_bind in *; repeat (case_match; try done); simplify_eq; auto with headers.

Section Answers.
Context (sprint_float : Z -> string) (parse_float : string -> option Z) (matches : string -> string -> bool).

Lemma query_handler_ok b r f :
  (forall qr q, answers header_ok (f qr q)) -> answers header_ok (query_handler parse_float b r f).
Proof. intros Hf rp. unfold query_handler. intros H. branches. by eapply Hf. Qed.
Lemma answer_ok {A} (f : A -> payload) m :
  (forall a, match f a with PExport _ _ | PStream => False | _ => True end) -> answers header_ok (answer f m).
Proof.
  intros Hf rp. unfold answer. destruct m as [a|e|]; [|intros [= <-]; auto with headers|done].
  intros [= <-]. specialize (Hf a). unfold header_ok. cbn [rp_Payload rp_Status]. by destruct (f a).
Qed.
Lemma exportLogs_ok b r : answers header_ok (exportLogs parse_float b r).
Proof. apply query_handler_ok. intros qr q rp H. branches. Qed.
Lemma tailLogs_ok b r : answers header_ok (tailLogs b r).
Proof. intros rp H. unfold tailLogs in H. branches. Qed.
Lemma recentLogs_ok b r : answers header_ok (recentLogs b r).
Proof. intros rp H. unfold recentLogs in H. branches. Qed.

Lemma dispatch_header ev s r rt rp ck logs s' :
  dispatch sprint_float parse_float matches ev s r rt = Some (rp, ck, logs, s') -> header_ok rp.
Proof.
  assert (Hkeep : forall o, answers header_ok o -> keep s o = Some (rp, ck, logs, s') -> header_ok rp).
  { intros o Ho H. unfold keep in H. destruct o as [x|]; [|done]. apply Ho. cbn in H. by simplify_eq. }
  assert (Hquery : forall A (f : A -> payload) op,
    (forall a, match f a with PExport _ _ | PStream => False | _ => True end) ->
    answers header_ok (query_handler parse_float (ev_backend ev) r (fun qr q => answer f (op qr q)))).
  { intros A f op Hf. apply query_handler_ok. intros. by apply answer_ok. }
  assert (Hsome : forall x, header_ok x -> answers header_ok (Some x)) by (by intros x Hx y [= <-]).
  destruct rt; cbn [dispatch]; intros H; try (eapply Hkeep; [|exact H]);
    auto using exportLogs_ok, tailLogs_ok, recentLogs_ok; try (apply Hquery; done); try (apply Hsome).
  - done.
  - unfold ready, header_ok. cbn [rp_Payload rp_Status]. by case_match.
  - done.
  - done.
  - unfold ingestJSON in H. branches.
  - unfold login in H. branches.
  - unfold logout in H. branches.
  - unfold me. branches.
  - unfold listSaved. branches.
  - unfold createSaved, new_search in H. branches.
  - unfold deleteSaved in H. branches.
  - done.
Qed.

Lemma handle_header redirect ev s r rp s' :
  redirect <> 0 -> handle sprint_float parse_float matches redirect ev s r = Some (rp, s') -> header_ok (re_response rp).
Proof.
  intros Hr. unfold handle. destruct (negb _); [by intros [= <- _]|].
  destruct (serve_mux _ _) as [pattern rt|pattern loc| |]; try (by intros [= <- _]).
  destruct (dispatch _ _ _ _ _ _ _) as [[[[x ck] logs] s2]|] eqn:E; [|done].
  intros [= <- _]. by apply dispatch_header in E.
Qed.
End Answers.

(** ** Labels *)

(** Every route, as it is labelled. *)
Definition route_labels : list string :=
  "unmatched"%string :: map (fun r => method_text r.1.1 +:+ " " +:+ r.1.2) routes.

Lemma first_some_in {A B} (f : A -> option B) l y : first_some f l = Some y -> exists x, In x l /\ f x = Some y.
Proof.
  induction l as [|x l IH]; [done|]. cbn. destruct (f x) eqn:E.
  - intros [= <-]. exists x. by split; [left|].
  - intros H. destruct (IH H) as (z & Hz & Hf). exists z. by split; [right|].
Qed.
Lemma find_route_label m p pattern rt : find_route m p = Some (pattern, rt) -> In pattern route_labels.
Proof.
  intros (((m', pat), h) & Hin & H)%first_some_in. unfold try_route in H. destruct (method_ok _ _); [|done].
  destruct (match_path _ _) as [c|]; [|done]. injection H as <- _. right. apply in_map_iff. by eexists (m', pat, h).
Qed.
Definition label_of (pattern : string) : string := if pattern =s "" then "unmatched"%string else pattern.
Lemma handle_label sprint_float parse_float matches redirect ev s r rp s' :
  handle sprint_float parse_float matches redirect ev s r = Some (rp, s') -> In (label_of (re_pattern rp)) route_labels.
Proof.
  assert (Hempty : In (label_of "") route_labels) by (by left).
  assert (Hl : forall pattern, In pattern route_labels -> In (label_of pattern) route_labels).
  { intros pattern H. unfold label_of. by destruct (pattern =s ""). }
  unfold handle. destruct (negb _); [by intros [= <- _]|].
  destruct (serve_mux _ _) as [pattern rt|pattern loc| |] eqn:E; try (by intros [= <- _]); unfold serve_mux in E;
    destruct (negb _); try done; destruct (find_route _ _) as [[pat rt']|] eqn:Ef; try (by destruct (existsb _ _)); simplify_eq.
  - destruct (dispatch _ _ _ _ _ _ _) as [[[[x ck] logs] s2]|]; [|done]. intros [= <- _]. by eapply Hl, find_route_label.
  - intros [= <- _]. by eapply Hl, find_route_label.
  - by intros [= <- _].
Qed.

(** ** The counters are the answers *)

(** What is counted for an answer: nothing when [net/http] refused the path. *)
Definition observation (x : served) : option (string * string * string) :=
  if well_formed (sd_request x)
  then Some (method_text (r_Method (sd_request x)), label_of (re_pattern (sd_reply x)),
             Itoa (rp_Status (re_response (sd_reply x))))
  else None.
Definition occurrences {K} `{EqDecision K} (k : K) (l : list K) : Z :=
  Z.of_nat (length (List.filter (fun x => bool_decide (x = k)) l)).

Lemma occurrences_cons {K} `{EqDecision K} (k x : K) l :
  occurrences k (x :: l) = (if bool_decide (x = k) then 1 else 0) + occurrences k l.
Proof. unfold occurrences. cbn [List.filter]. case_bool_decide; cbn [length]; lia. Qed.
Lemma lookup_add {K} `{Countable K} (k j : K) n (m : gmap K Z) :
  default 0 (add k n m !! j) = default 0 (m !! j) + (if bool_decide (k = j) then n else 0).
Proof.
  unfold add. case_bool_decide as E; [subst j; rewrite lookup_insert_eq; cbn; lia|]. rewrite lookup_insert_ne by done. lia.
Qed.

Section Counted.
Context (sprint_float : Z -> string) (parse_float : string -> option Z) (matches : string -> string -> bool)
  (redirect : Z) (encode : payload -> string).
Hypothesis redirect_status : redirect <> 0.
Local Abbreviation observed1 := (serve_observed sprint_float parse_float matches redirect encode).
Local Abbreviation serve1 := (serve sprint_float parse_float matches redirect).

(** One request: the answer is the server's, and one observation is added. *)
Lemma serve_observed_spec ev s r h :
  exists h', observed1 ev s r (Some h) = (serve1 ev s r, Some h')
    /\ forall rp s', serve1 ev s r = Some (rp, s') ->
         match observation (mkServed ev r rp) with
         | None => h' = h
         | Some k => h' = mkHTTP (add k 1 (h_requests h)) (add k.1 1 (h_duration h)) /\ In k.1.2 route_labels
         end.
Proof using redirect_status.
  unfold serve_observed, observation, serve. cbn [sd_request sd_reply]. destruct (well_formed r); [|by eexists].
  unfold requestLog. destruct (handle _ _ _ _ ev s r) as [[rp s']|] eqn:E; [|by eexists].
  eexists. split; [done|]. intros rp' s'' [= <- <-].
  destruct (recorded_status encode (re_response rp)) as [-> _]; [by eapply handle_header|]. split; [done|]. by eapply handle_label.
Qed.

(** C36. The counters of the API are its answers: with an observer it answers as
    without one, the count of a method, route and status is the number of
    well-formed requests answered so, the observations of durations are as many,
    and every route counted is a registered pattern or [unmatched]. *)
Theorem requests_counted s l :
  let '(log, s', h) := run_observed sprint_float parse_float matches redirect encode s NewHTTP l in
  run sprint_float parse_float matches redirect s l = (log, s')
  /\ (forall k, default 0 (h_requests h !! k) = occurrences k (omap observation log))
  /\ (forall k, default 0 (h_duration h !! k) = occurrences k (map fst (omap observation log)))
  /\ Forall (fun k => In k.1.2 route_labels) (omap observation log).
Proof using redirect_status.
  enough (H : forall l s h,
    let '(log, s', h') := run_observed sprint_float parse_float matches redirect encode s h l in
    run sprint_float parse_float matches redirect s l = (log, s')
    /\ (forall k, default 0 (h_requests h' !! k) = default 0 (h_requests h !! k) + occurrences k (omap observation log))
    /\ (forall k, default 0 (h_duration h' !! k) = default 0 (h_duration h !! k) + occurrences k (map fst (omap observation log)))
    /\ Forall (fun k => In k.1.2 route_labels) (omap observation log)).
  { specialize (H l s NewHTTP). destruct (run_observed _ _ _ _ _ _ _ _) as [[log s'] h]. destruct H as (Hr & Hq & Hd & Hl).
    split_and!; [done|intros k; by rewrite Hq|intros k; by rewrite Hd|done]. }
  clear s l. induction l as [|[ev r] l IH]; intros s h; cbn [run_observed run].
  { split_and!; [done|intros k; unfold occurrences; cbn; lia..|constructor]. }
  destruct (serve_observed_spec ev s r h) as (h1 & -> & Hone).
  destruct (serve1 ev s r) as [[rp s1]|] eqn:E; [|apply IH]. cbn [default]. change (id h1) with h1.
  specialize (Hone rp s1 eq_refl). specialize (IH s1 h1).
  destruct (run_observed _ _ _ _ _ s1 h1 l) as [[log s'] h']. destruct IH as (-> & Hq & Hd & Hl).
  cbn [omap list_omap]. destruct (observation (mkServed ev r rp)) as [k|]; [destruct Hone as [-> Hin]|subst h1; by split_and!].
  cbn [h_requests h_duration] in *. split_and!; [done| | |by constructor]; intros j.
  - rewrite Hq, lookup_add, occurrences_cons. lia.
  - rewrite Hd, lookup_add. cbn [map]. rewrite occurrences_cons. lia.
Qed.
End Counted.

(** The method is not bounded: whatever a client sends as one is a label. *)
Lemma method_label_unbounded sprint_float parse_float matches ev s name :
  a_enabled (s_auth s) = false ->
  exists h, serve_observed sprint_float parse_float matches 301 (fun _ => ""%string) ev s
      (mkReq (OTHER name) "/" [] None "" false "") (Some NewHTTP)
    = (serve sprint_float parse_float matches 301 ev s (mkReq (OTHER name) "/" [] None "" false ""), Some h)
    /\ h_requests h !! (name, "unmatched", "404")%string = Some 1.
Proof.
  intros Ha. exists (Observe name "" 404 NewHTTP). split.
  - unfold serve_observed, serve, requestLog, handle, authMiddleware. rewrite Ha. reflexivity.
  - unfold Observe. cbn [h_requests NewHTTP]. change (Itoa 404) with "404"%string. unfold add.
    rewrite lookup_empty. apply lookup_insert_eq.
Qed.

(** ** An instance *)

(** The answers of [ServerProps.sample_history]. *)
Lemma requests_counted_witness :
  let '(log, _, h) := run_observed (fun _ => ""%string) (fun _ => None) sample_matches 301 (fun _ => ""%string)
                        sample_server NewHTTP sample_history in
  length log = 2%nat /\ default 0 (h_requests h !! ("POST", "POST /api/v1/auth/login", "401")%string) = 1.
Proof.
  pose proof (requests_counted (fun _ => ""%string) (fun _ => None) sample_matches 301 (fun _ => ""%string)
    ltac:(done) sample_server sample_history) as H.
  destruct (run_observed _ _ _ _ _ _ _ _) as [[log s'] h] eqn:E. destruct H as (Hrun & Hq & _ & _).
  rewrite Hq. apply (f_equal fst) in Hrun. cbn [fst] in Hrun. rewrite <- Hrun. split; vm_compute; reflexivity.
Defined.
