(* ===== verification/Postgres.v ===== *)
(** * The control store on PostgreSQL

    [backend/internal/controlstore/postgres]: the statements it sends and how it
    reads the answers. The connection pool is not part of the repository: it is a
    record of functions on the state of the database, and what PostgreSQL does
    with the statements is the class [PostgreSQL]. *)
From S2P Require Import Prelude GoStrings GoUtf8 GoTime Domain Config GoStrconv GoJson Query VictoriaLogs Requests Mux Auth Saved SavedProps.

(** An argument or a column. *)
Inductive sql_value := SText (s : string) | STime (t : Time).

(** [pgxpool], over the state [S] of a pool and of the database behind it; [None]
    is an error. [db_Query] gives the rows and whether iterating over them ended
    with an error. *)
Record Database (S : Type) := mkDatabase {
  db_New : string -> option S;
  db_Ping : S -> bool;
  db_Exec : S -> string -> list sql_value -> option Z * S;
  db_Query : S -> string -> list sql_value -> option (list (list sql_value) * bool);
  db_Close : S -> S
}.
Arguments mkDatabase {S}. Arguments db_New {S}. Arguments db_Ping {S}. Arguments db_Exec {S}.
Arguments db_Query {S}. Arguments db_Close {S}.

Definition list_statement : string := "SELECT id,name,description,query,default_time_range,created_by,created_at,updated_at FROM saved_searches WHERE created_by=$1 ORDER BY name,id".
Definition insert_statement : string := "INSERT INTO saved_searches(id,name,description,query,default_time_range,created_by,created_at,updated_at) VALUES($1,$2,$3,$4,$5,$6,$7,$8)".
Definition delete_statement : string := "DELETE FROM saved_searches WHERE id=$1 AND created_by=$2".

(** [Migrate]: one text of several statements, each of which changes nothing
    when it was already applied. *)
Definition migrate_statement : string := "
CREATE TABLE IF NOT EXISTS schema_migrations (
  version bigint PRIMARY KEY,
  applied_at timestamptz NOT NULL DEFAULT now()
);
INSERT INTO schema_migrations(version) VALUES (1) ON CONFLICT DO NOTHING;
CREATE TABLE IF NOT EXISTS saved_searches (
  id text PRIMARY KEY,
  name text NOT NULL,
  description text NOT NULL DEFAULT '',
  query text NOT NULL DEFAULT '',
  default_time_range text NOT NULL DEFAULT '1h',
  created_by text NOT NULL,
  created_at timestamptz NOT NULL,
  updated_at timestamptz NOT NULL
);
CREATE INDEX IF NOT EXISTS saved_searches_owner_name_idx ON saved_searches(created_by, name);
INSERT INTO schema_migrations(version) VALUES (2) ON CONFLICT DO NOTHING;
".

(** [rows.Scan] into the fields of a search; [None] when a type differs. *)
Definition Scan (row : list sql_value) : option SavedSearch :=
  match row with
  | [SText id; SText name; SText description; SText query; SText range; SText by_; STime created; STime updated] =>
      Some (mkSaved id name description query range by_ created updated)
  | _ => None
  end.
Fixpoint scan_rows (rows : list (list sql_value)) (out : list SavedSearch) : option (list SavedSearch) :=
  match rows with
  | [] => Some out
  | row :: rows => v ← Scan row; scan_rows rows (out ++ [v])
  end.

Definition row_of (v : SavedSearch) : list sql_value :=
  [SText (ss_ID v); SText (ss_Name v); SText (ss_Description v); SText (ss_Query v); SText (ss_DefaultRange v);
   SText (ss_CreatedBy v); STime (ss_CreatedAt v); STime (ss_UpdatedAt v)].

Section Store.
Context {S : Type} (db : Database S).

(** [Check] is a ping with a deadline of its own: its answer is [db_Ping]'s too. *)
Definition Ping (s : S) : bool := db_Ping db s.
Definition Check (s : S) : bool := Ping s.
Definition Close (s : S) : S := db_Close db s.
(** [Open]: the pool, or the error with what is left of the pool, if there was one. *)
Definition Open (dsn : string) : S + option S :=
  match db_New db dsn with
  | None => inr None
  | Some s => if Ping s then inl s else inr (Some (Close s))
  end.

Definition succeeds (r : option Z * S) : bool * S :=
  (match r.1 with Some _ => true | None => false end, r.2).
Definition Migrate (s : S) : bool * S := succeeds (db_Exec db s migrate_statement []).

Definition ListSavedSearches (s : S) (owner : string) : option (list SavedSearch) :=
  '(rows, failed) ← db_Query db s list_statement [SText owner];
  out ← scan_rows rows [];
  if failed : bool then None else Some out.
Definition CreateSavedSearch (s : S) (v : SavedSearch) : bool * S :=
  succeeds (db_Exec db s insert_statement (row_of v)).
Definition DeleteSavedSearch (s : S) (owner id : string) : option bool * S :=
  let (affected, s) := db_Exec db s delete_statement [SText id; SText owner] in
  (n ← affected; Some (0 <? n), s).

(** What the interface of the API answers in a state of the database. *)
Definition pool_store (s : S) : SavedStore :=
  mkStore (ListSavedSearches s) (fun v => (CreateSavedSearch s v).1) (fun owner id => (DeleteSavedSearch s owner id).1).

(** The handlers of [saved.go] with this store: the answer and the state after the
    statement they send, if they send one. *)
Definition store_step (s : S) (op : saved_op) : Response * S :=
  match op with
  | OpCreate owner body random now =>
      ((createSaved (Some (pool_store s)) ∅ owner body random now).1,
       match new_search owner body random now with inl _ => s | inr v => (CreateSavedSearch s v).2 end)
  | OpDelete owner id => ((deleteSaved (Some (pool_store s)) ∅ owner id).1, (DeleteSavedSearch s owner id).2)
  end.
Fixpoint store_run (s : S) (ops : list saved_op) : list Response * S :=
  match ops with
  | [] => ([], s)
  | op :: ops => let (rp, s) := store_step s op in let (rps, s) := store_run s ops in (rp :: rps, s)
  end.
End Store.

(** ** What PostgreSQL promises *)

(** A [text] holds UTF-8 without the zero byte. *)
Definition text_ok (s : string) : bool := lacks (chr 0) s && (ToValidUTF8 s replacement =s s).
Definition texts_ok (v : SavedSearch) : bool :=
  forallb text_ok [ss_ID v; ss_Name v; ss_Description v; ss_Query v; ss_DefaultRange v; ss_CreatedBy v].
(** A [timestamptz] keeps a time to its own precision, [kept]. *)
Definition kept_search (kept : Time -> Time) (v : SavedSearch) : SavedSearch :=
  mkSaved (ss_ID v) (ss_Name v) (ss_Description v) (ss_Query v) (ss_DefaultRange v) (ss_CreatedBy v)
    (kept (ss_CreatedAt v)) (kept (ss_UpdatedAt v)).
Definition mine (id owner : string) (v : SavedSearch) : bool := (ss_ID v =s id) && (ss_CreatedBy v =s owner).
(** Texts are ordered by the collation of the database. *)
Definition by_name (collate : string -> string -> Prop) (l : list SavedSearch) : Prop :=
  Sorted.Sorted (fun a b => collate (ss_Name a) (ss_Name b)) l.

(** [usable] is an open pool whose server answers; [table] is what the table
    [saved_searches] holds, [None] before it exists. *)
Class PostgreSQL {S} (db : Database S) (usable : S -> Prop) (table : S -> option (list SavedSearch))
    (kept : Time -> Time) (collate : string -> string -> Prop) : Prop := {
  (* IF NOT EXISTS: what is there is left as it is *)
  pg_migrate s : usable s -> exists n s', db_Exec db s migrate_statement [] = (Some n, s')
    /\ usable s' /\ table s' = Some (default [] (table s));
  pg_insert s t v : usable s -> table s = Some t -> texts_ok v = true -> ss_ID v ∉ map ss_ID t ->
    exists n s' t', db_Exec db s insert_statement (row_of v) = (Some n, s')
    /\ usable s' /\ table s' = Some t' /\ t' ≡ₚ kept_search kept v :: t;
  (* a primary key occurs once; a text that cannot be kept is an error *)
  pg_refuse s t v : usable s -> table s = Some t -> texts_ok v = false \/ ss_ID v ∈ map ss_ID t ->
    exists s', db_Exec db s insert_statement (row_of v) = (None, s') /\ usable s' /\ table s' = Some t;
  (* the rows deleted are counted *)
  pg_delete s t owner id : usable s -> table s = Some t -> text_ok id = true -> text_ok owner = true ->
    exists s', db_Exec db s delete_statement [SText id; SText owner]
      = (Some (Z.of_nat (length (List.filter (mine id owner) t))), s')
    /\ usable s' /\ table s' = Some (List.filter (fun v => negb (mine id owner v)) t);
  pg_list s t owner : usable s -> table s = Some t -> text_ok owner = true ->
    exists l, db_Query db s list_statement [SText owner] = Some (map row_of l, false)
    /\ l ≡ₚ owned owner t /\ by_name collate l;
  (* a closed pool answers nothing *)
  pg_closed s : db_Ping db (db_Close db s) = false
    /\ (forall statement args, (db_Exec db (db_Close db s) statement args).1 = None
                            /\ db_Query db (db_Close db s) statement args = None)
}.

Lemma Scan_row v : Scan (row_of v) = Some v.
Proof. by destruct v. Qed.
Lemma scan_rows_rows l out : scan_rows (map row_of l) out = Some (out ++ l).
Proof.
  revert out. induction l as [|v l IH]; intros out; [by rewrite app_nil_r|]. cbn [map scan_rows]. rewrite Scan_row.
  cbn [mbind option_bind]. by rewrite IH, <- app_assoc.
Qed.
Lemma mine_spec id owner v : mine id owner v = true <-> ss_ID v = id /\ ss_CreatedBy v = owner.
Proof.
  unfold mine. rewrite andb_true_iff. destruct (str_eq_spec (ss_ID v) id), (str_eq_spec (ss_CreatedBy v) owner); naive_solver.
Qed.
Lemma filter_some {A} (f : A -> bool) l : 0 <? Z.of_nat (length (List.filter f l)) = existsb f l.
Proof. induction l as [|x l IH]; [done|]. cbn [List.filter existsb]. by destruct (f x). Qed.
Lemma kept_ids kept l : map ss_ID (map (kept_search kept) l) = map ss_ID l.
Proof. by rewrite map_map. Qed.
Lemma filter_kept kept f l :
  (forall v, f (kept_search kept v) = f v) ->
  List.filter f (map (kept_search kept) l) = map (kept_search kept) (List.filter f l).
Proof.
  intros Hf. induction l as [|v l IH]; [done|]. cbn [map List.filter]. rewrite Hf, IH. by destruct (f v).
Qed.

Lemma kept_values kept l l' : l ≡ₚ l' -> map (kept_search kept) l ≡ₚ map (kept_search kept) l'.
Proof. apply Permutation_map. Qed.

Lemma text_ok_ascii s : all_bytes (fun c => (0 <? code c) && (code c <? 128)) s = true -> text_ok s = true.
Proof.
  intros H. unfold text_ok. apply andb_true_iff. split.
  - unfold lacks. revert H. induction s as [|c s IH]; [done|]. cbn [all_bytes]. intros [Hc Hs]%andb_true_iff.
    rewrite (IH Hs), andb_true_r. destruct (ch_eq_spec c (chr 0)) as [->|]; [|done]. by vm_compute in Hc.
  - rewrite ToValidUTF8_id; [apply str_eq_refl|]. apply valid_ascii. revert H. induction s as [|c s IH]; [done|].
    cbn [all_bytes]. intros [Hc Hs]%andb_true_iff. rewrite (IH Hs), andb_true_r. by apply andb_true_iff in Hc as [_ ?].
Qed.
Lemma hex_string_text s : text_ok (hex_string s) = true.
Proof.
  apply text_ok_ascii. induction s as [|c s IH]; [done|]. cbn [hex_string]. rewrite all_bytes_append, IH, andb_true_r.
  by destruct c as [[] [] [] [] [] [] [] []].
Qed.

(** An operation whose texts the database can keep. *)
Definition storable (op : saved_op) : bool :=
  match op with
  | OpCreate owner body _ now =>
      match asked body with Some v => texts_ok (complete_search v owner "" now) | None => true end
  | OpDelete owner id => text_ok id && text_ok owner
  end.

Section Answers.
Context {S : Type} (db : Database S) (usable : S -> Prop) (table : S -> option (list SavedSearch)).
Context (kept : Time -> Time) (collate : string -> string -> Prop) `{!PostgreSQL db usable table kept collate}.

Lemma list_answers s t owner :
  usable s -> table s = Some t -> text_ok owner = true ->
  exists l, Saved.ListSavedSearches (pool_store db s) owner = Some l /\ l ≡ₚ owned owner t /\ by_name collate l.
Proof.
  intros Hu Ht Ho. destruct (pg_list s t owner Hu Ht Ho) as (l & Hq & Hp & Hs). exists l.
  cbn [pool_store Saved.ListSavedSearches]. unfold ListSavedSearches. rewrite Hq. bind_simpl. by rewrite scan_rows_rows.
Qed.

(** In a state with the table [t], the store creates what is new and can be kept,
    and deletes what the owner has and nothing else. *)
Lemma create_answers s t v :
  usable s -> table s = Some t ->
  (CreateSavedSearch db s v).1 = true <-> texts_ok v = true /\ ss_ID v ∉ map ss_ID t.
Proof.
  intros Hu Ht. unfold CreateSavedSearch, succeeds. destruct (texts_ok v) eqn:Hv.
  - destruct (decide (ss_ID v ∈ map ss_ID t)) as [Hin|Hin].
    + destruct (pg_refuse s t v Hu Ht) as (s' & -> & _); [by right|]. by split; [|intros []].
    + destruct (pg_insert s t v Hu Ht Hv Hin) as (n & s' & t' & -> & _). by split.
  - destruct (pg_refuse s t v Hu Ht) as (s' & -> & _); [by left|]. by split; [|intros []].
Qed.
Lemma delete_answers s t owner id :
  usable s -> table s = Some t -> text_ok id = true -> text_ok owner = true ->
  exists s', DeleteSavedSearch db s owner id = (Some (existsb (mine id owner) t), s')
    /\ usable s' /\ table s' = Some (List.filter (fun v => negb (mine id owner v)) t).
Proof.
  intros Hu Ht Hi Ho. destruct (pg_delete s t owner id Hu Ht Hi Ho) as (s' & Hd & Hs). exists s'.
  unfold DeleteSavedSearch. rewrite Hd. bind_simpl. by rewrite filter_some.
Qed.

(** The store answers for the table as the map of the server does for the same
    searches: it lists an owner's own by name, it creates what is new, and it
    deletes what the owner has and nothing else. *)
Theorem pool_store_answers s t owner :
  usable s -> table s = Some t -> text_ok owner = true ->
  (exists l, Saved.ListSavedSearches (pool_store db s) owner = Some l /\ l ≡ₚ owned owner t /\ by_name collate l)
  /\ (forall v, Saved.CreateSavedSearch (pool_store db s) v = true <-> texts_ok v = true /\ ss_ID v ∉ map ss_ID t)
  /\ (forall id, text_ok id = true -> Saved.DeleteSavedSearch (pool_store db s) owner id = Some true
       <-> exists v, In v t /\ ss_ID v = id /\ ss_CreatedBy v = owner)
  /\ (forall id, text_ok id = true -> is_Some (Saved.DeleteSavedSearch (pool_store db s) owner id)).
Proof.
  intros Hu Ht Ho. split_and!; [by apply list_answers|intros v; by apply create_answers| |];
    intros id Hi; cbn [pool_store Saved.DeleteSavedSearch];
    destruct (delete_answers s t owner id Hu Ht Hi Ho) as (s' & -> & _); [|by eexists].
  cbn [fst]. split.
  - intros [= (v & Hv & Hm)%existsb_exists]. exists v. by rewrite <- mine_spec.
  - intros (v & Hv & Hm). f_equal. apply existsb_exists. exists v. by rewrite mine_spec.
Qed.

Lemma Migrate_answers s : usable s -> exists s', Migrate db s = (true, s') /\ usable s' /\ table s' = Some (default [] (table s)).
Proof. intros Hu. destruct (pg_migrate s Hu) as (n & s' & Hm & Hs). exists s'. unfold Migrate, succeeds. by rewrite Hm. Qed.

(** The table holds the searches of a list. *)
Definition tabled (s : S) (l : list SavedSearch) : Prop :=
  usable s /\ exists t, table s = Some t /\ t ≡ₚ map (kept_search kept) l.

(** Identifiers are unique: deleting an owner's search by both is deleting it by
    its identifier. *)
Lemma delete_mine l id owner :
  NoDup (map ss_ID l) -> existsb (mine id owner) l = true ->
  List.filter (fun v => negb (mine id owner v)) l = List.filter (fun v => negb (ss_ID v =s id)) l.
Proof.
  intros Hn (v & Hv & Hm)%existsb_exists. apply mine_spec in Hm as [<- <-]. apply List.filter_ext_in. intros w Hw. f_equal.
  apply eq_true_iff_eq. rewrite mine_spec. destruct (str_eq_spec (ss_ID w) (ss_ID v)) as [E|]; [|naive_solver].
  split; [done|]. intros _. split; [done|]. by rewrite (same_key ss_ID l w v Hn Hw Hv E).
Qed.
Lemma delete_none l id owner :
  existsb (mine id owner) l = false -> List.filter (fun v => negb (mine id owner v)) l = l.
Proof.
  induction l as [|v l IH]; [done|]. cbn [existsb List.filter]. intros [-> Hl]%orb_false_iff. by rewrite IH.
Qed.

Lemma store_step_spec s l used op :
  tabled s l -> NoDup (map ss_ID l) -> ids_from used l -> NoDup (used ++ drawn op) -> storable op = true ->
  exists s', store_step db s op = ((spec_step l op).1, s') /\ tabled s' (spec_step l op).2.
Proof.
  intros (Hu & t & Ht & Hp) Hd Hids Hn Hok. destruct op as [owner body random now|owner id]; cbn [store_step spec_step].
  - unfold createSaved. rewrite new_search_asked. cbn [storable] in Hok.
    destruct (asked body) as [v|]; [|by exists s; repeat (split; [done|]); exists t].
    destruct random as [r|]; [|by exists s; repeat (split; [done|]); exists t]. cbv zeta. cbn [fst snd drawn] in *.
    set (w := complete_search v owner (hex_string r) (UTC now)).
    assert (Hw : texts_ok w = true).
    { unfold texts_ok in Hok |- *. cbn [complete_search forallb ss_ID w] in Hok |- *. apply andb_true_iff in Hok as [_ Hok].
      by rewrite hex_string_text. }
    assert (Hnew : ss_ID w ∉ map ss_ID t).
    { rewrite Hp, kept_ids. by apply (fresh_id used). }
    destruct (pg_insert s t w Hu Ht Hw Hnew) as (n & s' & t' & Hi & Hu' & Ht' & Hp').
    cbn [pool_store Saved.CreateSavedSearch]. unfold CreateSavedSearch, succeeds. rewrite Hi.
    eexists. split; [done|]. split; [done|]. exists t'. split; [done|]. rewrite Hp', Hp, map_app. cbn [map].
    apply Permutation_cons_append.
  - cbn [storable] in Hok. apply andb_true_iff in Hok as [Hi Ho].
    destruct (delete_answers s t owner id Hu Ht Hi Ho) as (s' & Hs & Hu' & Ht').
    unfold deleteSaved. cbn [pool_store Saved.DeleteSavedSearch]. rewrite Hs. cbn [fst snd]. change (fun v => (ss_ID v =s id) && (ss_CreatedBy v =s owner)) with (mine id owner).
    assert (He : existsb (mine id owner) t = existsb (mine id owner) l).
    { rewrite (existsb_perm _ _ _ Hp). clear. induction l as [|v l IH]; [done|]. cbn [map existsb]. by rewrite IH. }
    exists s'. rewrite He.
    assert (Hf : List.filter (fun v => negb (mine id owner v)) t
                 ≡ₚ map (kept_search kept) (List.filter (fun v => negb (mine id owner v)) l)).
    { rewrite (filter_perm _ _ _ Hp). by rewrite filter_kept. }
    destruct (existsb (mine id owner) l) eqn:E; cbn [fst snd]; (split; [done|]); (split; [done|]);
      eexists; (split; [done|]).
    + by rewrite Hf, delete_mine.
    + by rewrite Hf, delete_none.
Qed.

Lemma store_run_spec ops s m l used :
  tabled s l -> holds m l -> ids_from used l -> NoDup (used ++ concat (map drawn ops)) -> forallb storable ops = true ->
  (store_run db s ops).1 = (spec_run l ops).1 /\ tabled (store_run db s ops).2 (spec_run l ops).2.
Proof.
  revert s m l used. induction ops as [|op ops IH]; intros s m l used Hs Hh Hids Hn Hok; [done|].
  cbn [map concat forallb] in Hn, Hok. rewrite app_assoc in Hn. apply andb_true_iff in Hok as [Hop Hok].
  assert (Hone : NoDup (used ++ drawn op)) by (by apply NoDup_app in Hn as [? _]).
  destruct (saved_step_spec m l used op Hh Hids Hone) as (m' & _ & Hh' & Hids').
  destruct (store_step_spec s l used op Hs (proj2 Hh) Hids Hone Hop) as (s' & Hstep & Hs').
  cbn [store_run spec_run]. rewrite Hstep. destruct (spec_step l op) as [rp l']. cbn [fst snd] in *.
  destruct (IH s' m' l' _ Hs' Hh' Hids' Hn Hok) as [H1 H2].
  destruct (store_run db s' ops), (spec_run l' ops). cbn [fst snd] in *. by subst.
Qed.

(** C16. Once migrated, an empty database answers any sequence of creations and
    deletions by any owners exactly as the map of the server does, and listing
    gives an owner the same searches as the map holds, with times as the database
    keeps them and in the order of its collation. The identifiers drawn must be
    distinct and the texts such as PostgreSQL can keep. *)
Theorem stores_agree s ops :
  usable s -> default [] (table s) = [] -> forallb storable ops = true -> NoDup (concat (map drawn ops)) ->
  exists s0, Migrate db s = (true, s0)
  /\ (store_run db s0 ops).1 = (saved_run ∅ ops).1
  /\ forall owner, text_ok owner = true -> exists out,
       listSaved (Some (pool_store db (store_run db s0 ops).2)) ∅ owner = mkResp 200 (PSavedList out)
       /\ by_name collate out
       /\ Permutation out (map (kept_search kept) (owned owner (map snd (map_to_list (saved_run ∅ ops).2)))).
Proof.
  intros Hu Ht Hok Hn. destruct (Migrate_answers s Hu) as (s0 & Hm & Hu0 & Ht0). rewrite Ht in Ht0.
  exists s0. split; [done|]. assert (Hs0 : tabled s0 []) by (by split; [|exists []]).
  destruct (saved_run_spec ops ∅ [] [] holds_empty) as [H1 H2]; [constructor|done|].
  destruct (store_run_spec ops s0 ∅ [] [] Hs0 holds_empty) as (H3 & Hu' & t & Ht' & Hp); [constructor|done..|].
  split; [congruence|]. intros owner Ho.
  destruct (list_answers _ t owner Hu' Ht' Ho) as (out & Hl & Hout & Hby). exists out. unfold listSaved.
  rewrite Hl. split; [done|]. split; [done|]. rewrite Hout, Hp, (holds_values _ _ H2).
  unfold owned. by rewrite filter_kept.
Qed.

(** A search with a zero byte in a text, which the map of the server takes, is
    answered as if the store were out of order. *)
Theorem zero_byte_unavailable s t owner body id now v :
  usable s -> table s = Some t -> asked body = Some v -> text_ok (ss_Name v) = false ->
  (store_step db s (OpCreate owner body (Some id) now)).1 = error_response 503 "control_store_unavailable"
  /\ rp_Status (saved_step ∅ (OpCreate owner body (Some id) now)).1 = 201.
Proof.
  intros Hu Ht Hv Hname. cbn [store_step saved_step]. unfold createSaved. rewrite new_search_asked, Hv. split; [|done].
  set (w := complete_search v owner (hex_string id) (UTC now)). cbn [pool_store Saved.CreateSavedSearch].
  destruct (CreateSavedSearch db s w).1 eqn:E; [|done]. apply (create_answers s t w Hu Ht) in E as [E _].
  unfold texts_ok in E. cbn [forallb complete_search ss_Name w] in E. by rewrite Hname, andb_false_r in E.
Qed.
End Answers.

(** ** Opening *)

(** A pool that could be made but does not answer is closed: nothing is sent
    through what [Open] leaves. A pool it returns has answered a ping. *)
Theorem Open_closes {S} (db : Database S) usable table kept collate dsn :
  PostgreSQL db usable table kept collate ->
  match Open db dsn with
  | inl s => db_New db dsn = Some s /\ Ping db s = true
  | inr None => db_New db dsn = None
  | inr (Some s) => Check db s = false /\ (Migrate db s).1 = false
      /\ (forall owner, ListSavedSearches db s owner = None)
      /\ (forall v, (CreateSavedSearch db s v).1 = false)
      /\ (forall owner id, (DeleteSavedSearch db s owner id).1 = None)
  end.
Proof.
  intros Hpg. unfold Open. destruct (db_New db dsn) as [s|]; [|done]. destruct (Ping db s) eqn:Hping; [done|].
  destruct (pg_closed s) as [Hp Hc]. unfold Check, Ping, Close. split; [done|].
  unfold Migrate, CreateSavedSearch, succeeds, ListSavedSearches, DeleteSavedSearch. split_and!.
  - by destruct (Hc migrate_statement []) as [-> _].
  - intros owner. by destruct (Hc list_statement [SText owner]) as [_ ->].
  - intros v. by destruct (Hc insert_statement (row_of v)) as [-> _].
  - intros owner id. destruct (Hc delete_statement [SText id; SText owner]) as [Hd _].
    by destruct (db_Exec _ _ _ _) as [? ?]; cbn [fst] in Hd; subst.
Qed.

(** ** A database in memory *)

Record memory := mkMemory { mm_Closed : bool; mm_Table : option (list SavedSearch) }.

Definition memory_insert (kept : Time -> Time) (m : memory) (t : list SavedSearch) (v : SavedSearch) : option Z * memory :=
  if negb (texts_ok v) || existsb (fun x => ss_ID x =s ss_ID v) t then (None, m)
  else (Some 1, mkMemory false (Some (kept_search kept v :: t))).
Definition memory_exec (kept : Time -> Time) (m : memory) (statement : string) (args : list sql_value) : option Z * memory :=
  if mm_Closed m then (None, m)
  else if statement =s migrate_statement then (Some 0, mkMemory false (Some (default [] (mm_Table m))))
  else match mm_Table m with
  | None => (None, m)
  | Some t =>
      if statement =s insert_statement then
        match Scan args with Some v => memory_insert kept m t v | None => (None, m) end
      else match args with
      | [SText id; SText owner] =>
          (Some (Z.of_nat (length (List.filter (mine id owner) t))),
           mkMemory false (Some (List.filter (fun v => negb (mine id owner v)) t)))
      | _ => (None, m)
      end
  end.
Definition memory_db (kept : Time -> Time) : Database memory :=
  mkDatabase (fun _ => Some (mkMemory false None)) (fun m => negb (mm_Closed m)) (memory_exec kept)
    (fun m _ args => match mm_Closed m, mm_Table m, args with
                     | false, Some t, [SText owner] => Some (map row_of (sort_saved (owned owner t)), false)
                     | _, _, _ => None
                     end)
    (fun m => mkMemory true (mm_Table m)).

(** Ordered byte by byte. *)
Definition bytewise (a b : string) : Prop := String.ltb b a = false.

Lemma memory_exec_insert kept t v :
  memory_exec kept (mkMemory false (Some t)) insert_statement (row_of v) = memory_insert kept (mkMemory false (Some t)) t v.
Proof.
  unfold memory_exec. cbn [mm_Closed mm_Table]. change (insert_statement =s migrate_statement) with false.
  change (insert_statement =s insert_statement) with true. cbv iota. by rewrite Scan_row.
Qed.
Lemma has_id t v : existsb (fun x => ss_ID x =s ss_ID v) t = true <-> ss_ID v ∈ map ss_ID t.
Proof.
  rewrite existsb_exists, list_elem_of_In, in_map_iff. split; intros (x & H1 & H2); exists x.
  - by destruct (str_eq_spec (ss_ID x) (ss_ID v)).
  - split; [done|]. rewrite H1. apply str_eq_refl.
Qed.

#[export] Instance memory_laws kept :
  PostgreSQL (memory_db kept) (fun m => mm_Closed m = false) mm_Table kept bytewise.
Proof.
  constructor.
  - intros [closed t] Hm. cbn [mm_Closed] in Hm. subst. by eexists _, _.
  - intros [closed t'] t v Hm Ht Hv Hn. cbn [mm_Closed mm_Table] in Hm, Ht. subst.
    cbn [db_Exec memory_db]. rewrite memory_exec_insert. unfold memory_insert. rewrite Hv.
    destruct (existsb _ t) eqn:E; [by apply has_id in E|]. by eexists _, _, _.
  - intros [closed t'] t v Hm Ht Hno. cbn [mm_Closed mm_Table] in Hm, Ht. subst.
    cbn [db_Exec memory_db]. rewrite memory_exec_insert. unfold memory_insert.
    destruct Hno as [->| ->%has_id]; [by eexists|]. rewrite orb_true_r. by eexists.
  - intros [closed t'] t owner id Hm Ht _ _. cbn [mm_Closed mm_Table] in Hm, Ht. subst. by eexists.
  - intros [closed t'] t owner Hm Ht _. cbn [mm_Closed mm_Table] in Hm, Ht. subst.
    exists (sort_saved (owned owner t)). split_and!; [done|apply sort_saved_perm|apply sort_saved_sorted].
  - done.
Qed.

Lemma stores_agree_witness :
  exists s0, Migrate (memory_db UTC) (mkMemory false None) = (true, s0)
  /\ map rp_Status (store_run (memory_db UTC) s0 sample_ops).1 = [201; 400; 201; 201; 404; 404; 204]
  /\ (store_run (memory_db UTC) s0 sample_ops).1 = (saved_run ∅ sample_ops).1.
Proof.
  destruct (stores_agree (memory_db UTC) (fun m => mm_Closed m = false) mm_Table UTC bytewise (mkMemory false None) sample_ops)
    as (s0 & Hm & Hr & _); [done|done|by vm_compute| |].
  - refine (@bool_decide_unpack (NoDup _) (NoDup_dec _) _). vm_compute. exact I.
  - exists s0. split; [done|]. split; [|done]. rewrite Hr. vm_compute. reflexivity.
Defined.

Lemma pool_store_answers_witness :
  exists l, Saved.ListSavedSearches (pool_store (memory_db UTC) (mkMemory false (Some [zero_saved]))) "" = Some l
  /\ l ≡ₚ [zero_saved].
Proof.
  destruct (pool_store_answers (memory_db UTC) (fun m => mm_Closed m = false) mm_Table UTC bytewise
    (mkMemory false (Some [zero_saved])) [zero_saved] "") as [(l & Hl & Hp & _) _]; [done..|].
  by exists l.
Defined.

(** A name with an escaped zero byte. *)
Definition zero_byte_body : string := sample_body ("a" +:+ String backslash_byte "u0000").
Lemma zero_byte_unavailable_witness :
  (store_step (memory_db UTC) (mkMemory false (Some [])) (OpCreate "admin" zero_byte_body (Some "0123456789abcdef"%string) zero_time)).1
  = error_response 503 "control_store_unavailable".
Proof.
  destruct (asked zero_byte_body) as [v|] eqn:Hv; [|by vm_compute in Hv].
  apply (zero_byte_unavailable (memory_db UTC) (fun m => mm_Closed m = false) mm_Table UTC bytewise
    (mkMemory false (Some [])) [] "admin" zero_byte_body "0123456789abcdef" zero_time v); [done|done|done|].
  vm_compute in Hv. injection Hv as <-. by vm_compute.
Defined.
