(* ===== verification/GoFlag.v ===== *)
(** * Go's [flag] package

    [flag.Parse] with string, integer and boolean flags, and [strconv.ParseInt] in
    base 0, which reads the integers. Spelled flags read back as the settings they
    spell, in order. *)
From S2P Require Import Prelude GoStrings GoDuration.

(** ** [strconv.ParseInt(s, 0, 64)] *)

Definition max_uint64 : Z := 2 ^ 64 - 1.
(** A letter in lower case; other bytes are no letters afterwards either. *)
Definition lower (c : byte) : Z := Z.lor (code c) 32.
Definition is_lower (z : Z) : bool := (97 <=? z) && (z <=? 122).
Definition digit_value (c : byte) : option Z :=
  if is_digit c then Some (code c - 48)
  else if is_lower (lower c) then Some (lower c - 97 + 10)
  else None.

(** The digits of a number of base [base], and whether there was an underscore;
    [None] is a syntax or range error. *)
Fixpoint base_digits (base n : Z) (underscores : bool) (s : string) : option (Z * bool) :=
  match s with
  | EmptyString => Some (n, underscores)
  | String c s =>
      if c =c "_" then base_digits base n true s
      else d ← digit_value c;
           if base <=? d then None
           else if max_uint64 <? n * base + d then None
           else base_digits base (n * base + d) underscores s
  end.

(** The base a number announces, and its digits. *)
Definition base_of (s : string) : Z * string :=
  match s with
  | String z t =>
      if z =c "0" then
        match t with
        | String c (String d u) =>
            if lower c =? 98 then (2, String d u)
            else if lower c =? 111 then (8, String d u)
            else if lower c =? 120 then (16, String d u)
            else (8, t)
        | _ => (8, t)
        end
      else (10, s)
  | EmptyString => (10, s)
  end.

(** [underscoreOK]: each underscore is between digits, a prefix counting as one.
    [saw] is what came before. *)
Inductive seen := SawStart | SawDigit | SawUnderscore | SawOther.
Fixpoint underscores_from (hex : bool) (saw : seen) (s : string) : bool :=
  match s with
  | EmptyString => match saw with SawUnderscore => false | _ => true end
  | String c s =>
      if is_digit c || hex && ((97 <=? lower c) && (lower c <=? 102)) then underscores_from hex SawDigit s
      else if c =c "_" then match saw with SawDigit => underscores_from hex SawUnderscore s | _ => false end
      else match saw with SawUnderscore => false | _ => underscores_from hex SawOther s end
  end.
Definition underscoreOK (s : string) : bool :=
  let s := match s with String c t => if (c =c "-") || (c =c "+") then t else s | EmptyString => s end in
  match s with
  | String z (String c t) =>
      if (z =c "0") && ((lower c =? 98) || (lower c =? 111) || (lower c =? 120))
      then underscores_from (lower c =? 120) SawDigit t else underscores_from false SawStart s
  | _ => underscores_from false SawStart s
  end.

Definition ParseUint0 (s : string) : option Z :=
  if s =s "" then None else
  let (base, t) := base_of s in
  '(n, underscores) ← base_digits base 0 false t;
  if underscores && negb (underscoreOK s) then None else Some n.
Definition ParseInt0 (s : string) : option Z :=
  match s with
  | EmptyString => None
  | String c t =>
      let neg := c =c "-" in
      n ← ParseUint0 (if neg || (c =c "+") then t else s);
      let v := if neg then - n else n in
      if in_int64 v then Some v else None
  end.

(** ** [flag.Parse] *)

Section Flags.
Context {A : Type}.

(** A flag writes to a variable of the program's state [A]. *)
Inductive flag := FlagString (put : string -> A -> A) | FlagInt (put : Z -> A -> A) | FlagBool (put : bool -> A -> A).
Definition flag_set : Type := string -> option flag.

Definition Set_ (f : flag) (value : string) (a : A) : option A :=
  match f with
  | FlagString put => Some (put value a)
  | FlagInt put => n ← ParseInt0 value; Some (put n a)
  | FlagBool put => b ← ParseBool value; Some (put b a)
  end.

(** What an argument is: not a flag, the end of the flags, bad syntax, or a name
    with a value after the first equals sign. *)
Inductive word := WArgument | WEnd | WBad | WFlag (name : string) (value : option string).
Definition name_value (name : string) : word :=
  match name with
  | EmptyString => WBad
  | String c t =>
      if (c =c "-") || (c =c "=") then WBad
      else match cut_byte t "=" with
           | Some (n, v) => WFlag (String c n) (Some v)
           | None => WFlag name None
           end
  end.
Definition word_of (s : string) : word :=
  match s with
  | String d (String c t) =>
      if negb (d =c "-") then WArgument
      else if c =c "-" then if t =s "" then WEnd else name_value t
      else name_value (String c t)
  | _ => WArgument
  end.

(** [ExitOnError]: a request for help and an error both end the program. *)
Inductive parse_end := Parsed (a : A) (rest : list string) | Help | Usage.

Fixpoint Parse (formal : flag_set) (args : list string) (a : A) : parse_end :=
  match args with
  | [] => Parsed a []
  | s :: args1 =>
      match word_of s with
      | WArgument => Parsed a args
      | WEnd => Parsed a args1
      | WBad => Usage
      | WFlag name value =>
          match formal name with
          | None => if (name =s "help") || (name =s "h") then Help else Usage
          | Some f =>
              let set_to v rest := match Set_ f v a with Some a => rest a | None => Usage end in
              match f, value with
              | FlagBool _, None => set_to "true"%string (Parse formal args1)
              | _, Some v => set_to v (Parse formal args1)
              | _, None => match args1 with [] => Usage | v :: args2 => set_to v (Parse formal args2) end
              end
          end
      end
  end.

(** ** Flags spelled on a command line *)

Inductive style := OneDash | TwoDashes | OneEquals | TwoEquals.
Definition spell (st : style) (name value : string) : list string :=
  match st with
  | OneDash => ["-" +:+ name; value]
  | TwoDashes => ["--" +:+ name; value]
  | OneEquals => ["-" +:+ name +:+ "=" +:+ value]
  | TwoEquals => ["--" +:+ name +:+ "=" +:+ value]
  end%string.
Definition setting : Type := style * string * string.
Definition spelled (l : list setting) : list string := concat (map (fun '(st, name, value) => spell st name value) l).

(** A name that can be spelled: not empty, without an equals sign, and not
    starting with a dash. *)
Definition flag_name (name : string) : bool :=
  match name with EmptyString => false | String c _ => negb (c =c "-") && lacks "=" name end.

(** What the settings do, one after the other. *)
Fixpoint apply_settings (formal : flag_set) (l : list setting) (a : A) : option A :=
  match l with
  | [] => Some a
  | (_, name, value) :: l => f ← formal name; a ← Set_ f value a; apply_settings formal l a
  end.
(** A boolean flag takes its value after an equals sign only. *)
Definition spellable (formal : flag_set) (s : setting) : bool :=
  let '(st, name, _) := s in
  flag_name name && match formal name with
                    | Some (FlagBool _) => match st with OneEquals | TwoEquals => true | _ => false end
                    | _ => true
                    end.

Lemma name_value_plain name : flag_name name = true -> name_value name = WFlag name None.
Proof.
  destruct name as [|c t]; [done|]. cbn [flag_name name_value]. intros [Hc Hl]%andb_true_iff.
  unfold lacks in Hl. cbn [all_bytes] in Hl. apply andb_true_iff in Hl as [He Hl].
  apply negb_true_iff in Hc, He. rewrite Hc, He. cbn [orb].
  destruct (cut_byte t "=") as [[n v]|] eqn:E; [|done]. exfalso. apply cut_byte_Some in E as [-> _].
  rewrite all_bytes_append in Hl. cbn [all_bytes] in Hl. by rewrite ch_eq_refl, andb_false_r in Hl.
Qed.
Lemma name_value_equals name v : flag_name name = true -> name_value (name +:+ "=" +:+ v) = WFlag name (Some v).
Proof.
  destruct name as [|c t]; [done|]. rewrite append_cons. cbn [flag_name name_value]. intros [Hc Hl]%andb_true_iff.
  unfold lacks in Hl. cbn [all_bytes] in Hl. apply andb_true_iff in Hl as [He Hl].
  apply negb_true_iff in Hc, He. rewrite Hc, He. cbn [orb].
  change ("=" +:+ v) with (String "=" v). by rewrite (cut_byte_append "=" t v Hl).
Qed.

Lemma word_one name rest :
  flag_name name = true -> word_of ("-" +:+ name +:+ rest) = name_value (name +:+ rest).
Proof.
  destruct name as [|c t]; [done|]. cbn [flag_name]. intros [Hc _]%andb_true_iff. apply negb_true_iff in Hc.
  change ("-" +:+ String c t +:+ rest) with (String "-" (String c (t +:+ rest))). unfold word_of.
  change (negb ("-" =c "-")) with false. cbv iota. by rewrite Hc.
Qed.
Lemma word_two name rest :
  flag_name name = true -> word_of ("--" +:+ name +:+ rest) = name_value (name +:+ rest).
Proof.
  destruct name as [|c t]; [done|]. intros _.
  change ("--" +:+ String c t +:+ rest) with (String "-" (String "-" (String c (t +:+ rest)))). unfold word_of.
  change (negb ("-" =c "-")) with false. change ("-" =c "-") with true. cbv iota. done.
Qed.

(** Spelled settings are made in order, and parsing goes on behind them. *)
Lemma Parse_spelled formal l a a' rest :
  forallb (spellable formal) l = true -> apply_settings formal l a = Some a' ->
  Parse formal (spelled l ++ rest) a = Parse formal rest a'.
Proof.
  revert a. induction l as [|[[st name] value] l IH]; intros a Hs H; [by injection H as <-|].
  cbn [forallb spellable apply_settings] in Hs, H. apply andb_true_iff in Hs as [[Hn Hb]%andb_true_iff Hs].
  destruct (formal name) as [f|] eqn:Ef; [|done]. cbn [mbind option_bind] in H.
  destruct (Set_ f value a) as [a1|] eqn:Ea; [|done]. cbn [mbind option_bind] in H. specialize (IH a1 Hs H).
  unfold spelled in *. cbn [map concat]. rewrite <- app_assoc.
  pose proof (word_one name "" Hn) as H1. pose proof (word_two name "" Hn) as H2. rewrite append_nil_r in H1, H2.
  destruct st; cbn [spell app Parse]; rewrite ?H1, ?H2, ?(word_one name) , ?(word_two name), ?name_value_plain, ?name_value_equals
    by done; rewrite Ef; cbv zeta; destruct f; try done; by rewrite Ea.
Qed.
End Flags.
Arguments flag : clear implicits.
Arguments flag_set : clear implicits.
Arguments parse_end : clear implicits.

(** ** A printed integer is read as it is *)

Lemma digit_not_underscore c : is_digit c = true -> (c =c "_") = false.
Proof. intros H. destruct (ch_eq_spec c "_") as [->|]; [by vm_compute in H|done]. Qed.

Lemma dec_value_mono s n v : dec_value n s = Some v -> 0 <= n -> n <= v.
Proof.
  revert n. induction s as [|c s IH]; intros n Hv Hn; [by injection Hv as ->|]. cbn [dec_value] in Hv.
  destruct (is_digit c) eqn:Hc; [|done]. unfold is_digit in Hc. b2p. pose proof (IH _ Hv ltac:(lia)). lia.
Qed.
Lemma base_digits_dec s n v :
  all_bytes is_digit s = true -> dec_value n s = Some v -> v <= max_uint64 -> 0 <= n ->
  base_digits 10 n false s = Some (v, false).
Proof.
  revert n. induction s as [|c s IH]; intros n Hd Hv Hm Hn; [by injection Hv as ->|]. cbn [all_bytes dec_value base_digits] in *.
  apply andb_true_iff in Hd as [Hc Hd]. rewrite Hc in Hv. rewrite (digit_not_underscore c Hc). unfold digit_value. rewrite Hc.
  assert (0 <= code c - 48 <= 9) by (unfold is_digit in Hc; b2p; lia). bind_simpl.
  destruct (Z.leb_spec 10 (code c - 48)); [lia|].
  pose proof (dec_value_mono _ _ _ Hv ltac:(lia)).
  destruct (Z.ltb_spec max_uint64 (n * 10 + (code c - 48))); [lia|]. by apply IH; [|..|lia].
Qed.

Lemma ParseUint0_digits n : 0 <= n <= max_uint64 -> ParseUint0 (digits n) = Some n.
Proof.
  intros Hn. destruct (Z.eq_dec n 0) as [->|Hne]; [done|]. unfold ParseUint0.
  destruct (str_eq_spec (digits n) ""); [by destruct (digits_nonempty n)|].
  assert (Hb : base_of (digits n) = (10, digits n)).
  { pose proof (digits_head n ltac:(lia)) as Hh. destruct (digits n) as [|c t]; [done|]. cbn [starts base_of] in *.
    apply negb_true_iff in Hh. by rewrite Hh. }
  rewrite Hb, (base_digits_dec _ 0 n); [done|apply digits_digits; lia|apply dec_digits; lia|lia|done].
Qed.

Lemma ParseInt0_Itoa z : in_int64 z = true -> ParseInt0 (Itoa z) = Some z.
Proof.
  intros Hz. assert (Hm : in_int64 z = true -> - z <= max_uint64 /\ z <= max_uint64).
  { unfold in_int64, min_int64, max_int64, max_uint64. change (2 ^ 63) with 9223372036854775808.
    change (2 ^ 64) with 18446744073709551616. lia. }
  destruct (Hm Hz) as [Hm1 Hm2]. unfold Itoa. destruct (Z.ltb_spec z 0).
  - unfold ParseInt0. rewrite ch_eq_refl. cbn [orb]. rewrite ParseUint0_digits by lia. bind_simpl.
    rewrite Z.opp_involutive. by rewrite Hz.
  - pose proof (digits_digits z ltac:(lia)) as Hd. pose proof (ParseUint0_digits z ltac:(lia)) as Hp.
    pose proof (digits_nonempty z). destruct (digits z) as [|c t]; [done|].
    cbn [all_bytes] in Hd. apply andb_true_iff in Hd as [Hc _]. unfold ParseInt0.
    destruct (ch_eq_spec c "-") as [->|]; [by vm_compute in Hc|]. destruct (ch_eq_spec c "+") as [->|]; [by vm_compute in Hc|].
    cbn [orb]. rewrite Hp. bind_simpl. by rewrite Hz.
Qed.

Example integers :
  map ParseInt0 ["0x1F"; "0b101"; "017"; "0o17"; "1_000"; "-0_8"; "_1"; "1__0"; "+9223372036854775807"; "9223372036854775808"; "08"]%string
  = [Some 31; Some 5; Some 15; Some 15; Some 1000; None; None; None; Some max_int64; None; None].
Proof. vm_compute. reflexivity. Qed.
