(* ===== verification/Service.v ===== *)
(** * The service: starting, serving, stopping

    [run] of [backend/cmd/syslogx/main.go] and [Manager.Start] of
    [backend/internal/transport/syslog/manager.go]: what is started, in which
    order, and what is released on every way out. The result is the sequence of
    actions on the components, with their [defer]s, and the errors joined. *)
From S2P Require Import Prelude GoStrings GoTime Domain Config Queue Metrics Pipeline GoStrconv GoJson Query Row VictoriaLogs.

(** What the machine answers. [m_binds] is opening the socket of a source;
    [m_signal] tells which side of the [select] comes first, [m_served] the result
    of [ListenAndServe] when it is the server. *)
Record machine := mkMachine {
  m_version : bool;
  m_path : string;
  m_environ : list string;
  m_overrides : Overrides;
  m_LoadLocation : string -> option Location;
  m_decode_file : string -> Config -> option Config;
  m_ReadFile : string -> option string;
  m_open : string -> bool;
  m_migrate : bool;
  m_binds : SourceConfig -> bool;
  m_signal : bool;
  m_served : bool;
  m_pipeline_stops : bool;
  m_server_stops : bool
}.

Inductive action :=
  | OpenStore | MigrateStore | CloseStore
  | StartPipeline | StopPipeline
  | StartSource (id : string) | CloseSource (id : string)
  | Serve | StopAccepting | ShutdownServer
  | CancelService | StopSignals.
Inductive service_error :=
  | ELoad (e : config_error) | EBackend | EDSN | EOpen | EMigrate | ENewPipeline | ESource (id : string)
  | EServe | EPipelineStop | EServerStop.

(** [Manager.Close] closes what was opened. *)
Definition Close (opened : list string) : list action := map CloseSource opened.

(** [Manager.Start]: the identifiers whose sockets are open, or the source that
    could not be started, after [Close]. *)
Definition start_source (binds : SourceConfig -> bool) (s : SourceConfig) : bool :=
  if sc_Protocol s =s "udp" then binds s else if sc_Protocol s =s "tcp" then binds s else false.
Fixpoint Start (binds : SourceConfig -> bool) (l : list SourceConfig) (opened : list string)
    : list action * (list string + string) :=
  match l with
  | [] => ([], inl opened)
  | s :: l =>
      if negb (sc_Enabled s) then Start binds l opened
      else if start_source binds s then
        let (trace, r) := Start binds l (opened ++ [sc_ID s]) in (StartSource (sc_ID s) :: trace, r)
      else (Close opened, inr (sc_ID s))
  end.

(** A run: its actions and its errors. *)
Definition outcome_of : Type := list action * list service_error.
Definition fails (e : service_error) : outcome_of := ([], [e]).
Definition doing (a : action) (r : outcome_of) : outcome_of := (a :: r.1, r.2).
(** [defer]: the action is the last of the function. *)
Definition deferring (a : action) (r : outcome_of) : outcome_of := (r.1 ++ [a], r.2).
Definition error_if (b : bool) (e : service_error) : list service_error := if b then [e] else [].

Section Run.
Context (m : machine).

(** From [pipeline.Start] on. *)
Definition serve_phase (cfg : Config) : outcome_of :=
  doing StartPipeline
    (let (trace, r) := Start (m_binds m) (ic_Sources (c_Ingestion cfg)) [] in
     match r with
     | inr id => (trace ++ [StopPipeline], [ESource id])
     | inl opened =>
         (trace ++ Serve :: StopAccepting :: Close opened ++ [StopPipeline; ShutdownServer; CancelService],
          error_if (negb (m_signal m) && negb (m_served m)) EServe
          ++ error_if (negb (m_pipeline_stops m)) EPipelineStop
          ++ error_if (negb (m_server_stops m)) EServerStop)
     end).

Definition pipeline_phase (cfg : Config) : outcome_of :=
  match NewPipeline (m_LoadLocation m) (c_Ingestion cfg) "victorialogs" with
  | None => fails ENewPipeline
  | Some _ => serve_phase cfg
  end.

Definition store_phase (cfg : Config) : outcome_of :=
  if negb (cs_Enabled (c_ControlStore cfg)) then pipeline_phase cfg else
  match ControlDSN (m_ReadFile m) cfg with
  | Ok dsn =>
      if negb (m_open m dsn) then doing OpenStore (fails EOpen)
      else doing OpenStore (deferring CloseStore (doing MigrateStore
             (if m_migrate m then pipeline_phase cfg else fails EMigrate)))
  | _ => fails EDSN
  end.

Definition run : outcome_of :=
  if m_version m then ([], []) else
  match Load (m_LoadLocation m) (m_decode_file m) (m_path m) (m_environ m) (m_overrides m) with
  | Ok cfg =>
      match New (st_Endpoint (c_Storage cfg)) (st_StreamFields (c_Storage cfg)) with
      | None => fails EBackend
      | Some _ => deferring StopSignals (deferring CancelService (store_phase cfg))
      end
  | Err e => fails (ELoad e)
  | Panic => ([], [])
  end.
End Run.

(** ** Everything started is released *)

Definition released (x y : action) (l : list action) : Prop := forall a b, l = a ++ x :: b -> In y b.

Lemma released_absent x y l : ~ In x l -> released x y l.
Proof. intros H a b ->. exfalso. apply H, in_elt. Qed.
Lemma released_later x y l1 l2 : ~ In x l2 -> In y l2 -> released x y (l1 ++ l2).
Proof.
  intros Hx Hy a b E. destruct (app_eq_app _ _ _ _ E) as (l & [[-> E2]|[-> E2]]).
  - destruct l as [|z l]; cbn in E2; [exfalso; apply Hx; rewrite <- E2; by left|]. injection E2 as <- ->. apply in_or_app. by right.
  - exfalso. apply Hx. rewrite E2. apply in_elt.
Qed.
Lemma released_snoc x y l z : x <> z -> released x y l -> released x y (l ++ [z]).
Proof.
  intros Hne H a b E. destruct b as [|w b _] using rev_ind.
  - apply app_inj_tail in E as [_ E]. congruence.
  - rewrite app_comm_cons, app_assoc in E. apply app_inj_tail in E as [-> _]. apply in_or_app. left. by eapply H.
Qed.
Lemma released_cons x y l z : x <> z -> released x y l -> released x y (z :: l).
Proof. intros Hne H a b E. destruct a as [|w a]; injection E as E1 E2; [congruence|]. by eapply H. Qed.

(** ** Starting the sources *)

Lemma Start_trace binds l opened trace r :
  Start binds l opened = (trace, r) ->
  exists ids, match r with
    | inl ids' => ids' = opened ++ ids /\ trace = map StartSource ids
    | inr _ => trace = map StartSource ids ++ Close (opened ++ ids)
    end.
Proof.
  revert opened trace. induction l as [|s l IH]; intros opened trace H; cbn [Start] in H.
  { injection H as <- <-. exists []. by rewrite app_nil_r. }
  destruct (negb (sc_Enabled s)); [by eapply IH|]. destruct (start_source binds s).
  - destruct (Start binds l (opened ++ [sc_ID s])) as [t1 r1] eqn:E. injection H as <- <-.
    destruct (IH _ _ E) as [ids Hids]. exists (sc_ID s :: ids). destruct r1 as [ids'|id].
    + destruct Hids as [-> ->]. by rewrite <- app_assoc.
    + rewrite Hids. by rewrite <- app_assoc.
  - injection H as <- <-. exists []. by rewrite app_nil_r.
Qed.

Lemma Start_all binds l opened :
  Forall (fun s => sc_Enabled s = true -> start_source binds s = true) l ->
  exists ids, (Start binds l opened).2 = inl ids.
Proof.
  intros H. revert opened. induction H as [|s l Hs Hl IH]; intros opened; cbn [Start]; [by eexists|].
  destruct (sc_Enabled s); cbn [negb]; [|apply IH]. rewrite Hs by done.
  destruct (IH (opened ++ [sc_ID s])) as [ids Hids]. destruct (Start binds l _) as [t r]. by exists ids.
Qed.

(** ** A run *)

(** What a run does once a client of the storage is made. *)
Inductive good (l : list action) : Prop := good_intro
  (g_pipeline : released StartPipeline StopPipeline l)
  (g_sources : forall i, released (StartSource i) (CloseSource i) l)
  (g_store : released MigrateStore CloseStore l)
  (g_serving : In Serve l -> exists up ids down,
     l = up ++ Serve :: StopAccepting :: Close ids ++ StopPipeline :: ShutdownServer :: CancelService :: down
     /\ In StartPipeline up /\ (forall i, In (StartSource i) up <-> In i ids)
     /\ Forall (fun a => In a [CloseStore; CancelService; StopSignals]) down).

Lemma in_sources x ids : In x (map StartSource ids) <-> exists i, x = StartSource i /\ In i ids.
Proof. rewrite in_map_iff. split; intros (i & H1 & H2); exists i; auto. Qed.
Lemma in_closes x ids : In x (Close ids) <-> exists i, x = CloseSource i /\ In i ids.
Proof. unfold Close. rewrite in_map_iff. split; intros (i & H1 & H2); exists i; auto. Qed.
Lemma sources_closed i ids post :
  ~ In (StartSource i) post -> released (StartSource i) (CloseSource i) (map StartSource ids ++ Close ids ++ post).
Proof.
  intros Hp. destruct (in_dec String.string_dec i ids) as [Hi|Hi].
  - apply released_later.
    + rewrite in_app_iff, in_closes. intros [(j & E & _)|H]; [discriminate E|done].
    + apply in_or_app. left. apply in_closes. by exists i.
  - apply released_absent. rewrite !in_app_iff, in_sources, in_closes. intros [(j & [= <-] & Hj)|[(j & E & _)|H]]; done.
Qed.

Ltac in_trace := repeat progress (rewrite ?in_app_iff, ?in_sources, ?in_closes; cbn [In]).
Ltac absent := in_trace; let H := fresh in intros H; repeat destruct H as [H|H];
  first [done | by destruct H as (? & ? & ?)].

Lemma serve_phase_good m cfg : good (serve_phase m cfg).1.
Proof.
  unfold serve_phase. destruct (Start _ _ []) as [trace r] eqn:E. destruct (Start_trace _ _ _ _ _ E) as [ids Hids].
  destruct r as [ids'|id]; cbn [doing fst].
  - destruct Hids as [-> ->]. cbn [app].
    constructor.
    + apply (released_later _ _ [StartPipeline]); [absent|in_trace; tauto].
    + intros i. apply released_cons; [done|]. change (Serve :: StopAccepting :: ?l) with ([Serve; StopAccepting] ++ l).
      destruct (in_dec String.string_dec i ids) as [Hi|Hi]; [apply released_later|apply released_absent].
      * absent.
      * in_trace. right. left. by exists i.
      * in_trace. intros H. repeat destruct H as [H|H]; try done; destruct H as (j & Ej & Hj); [by injection Ej as <-|done].
    + apply released_absent. absent.
    + intros _. exists (StartPipeline :: map StartSource ids), ids, []. split_and!; [done|by left| |constructor].
      intros i. in_trace. split; [intros [H|(j & [= <-] & H)]; done|intros H; right; by exists i].
  - rewrite Hids. cbn [app]. rewrite <- app_assoc. constructor.
    + apply (released_later _ _ [StartPipeline]); [absent|in_trace; tauto].
    + intros i. apply released_cons; [done|]. apply sources_closed. cbn [In]. intros [H|H]; done.
    + apply released_absent. absent.
    + intros H. exfalso. revert H. absent.
Qed.

(** What surrounds the phase keeps it good. *)
Lemma good_quiet l : (forall a, In a l -> In a [OpenStore; CloseStore; CancelService; StopSignals]) -> good l.
Proof.
  intros H. assert (Hn : forall a, ~ In a [OpenStore; CloseStore; CancelService; StopSignals] -> ~ In a l) by (intros a Ha Hi; by apply Ha, H).
  constructor; try (intros; apply released_absent, Hn; absent).
  intros Hs. exfalso. revert Hs. apply Hn. absent.
Qed.
Lemma good_snoc l a : In a [CloseStore; CancelService; StopSignals] -> good l -> good (l ++ [a]).
Proof.
  intros Ha [H1 H2 H3 H4].
  assert (Hne : forall x, ~ In x [CloseStore; CancelService; StopSignals] -> x <> a) by (intros x Hx ->; done).
  constructor.
  1, 3: by apply released_snoc; [apply Hne; absent|].
  - intros i. apply released_snoc; [apply Hne; absent|apply H2].
  - intros Hs. assert (Hs' : In Serve l).
    { apply in_app_or in Hs as [Hs|[Hs|[]]]; [done|]. exfalso. apply (Hne Serve); [absent|done]. }
    destruct (H4 Hs') as (up & ids & down & -> & Hup & Hids & Hdown). exists up, ids, (down ++ [a]).
    rewrite <- !app_assoc. cbn [app]. rewrite <- !app_assoc. split_and!; [done..|]. apply Forall_app. split; [done|by constructor].
Qed.
(** Opening the store, with its deferred close. *)
Lemma good_store l a : In a [OpenStore; MigrateStore] -> good l -> In CloseStore l -> good (a :: l).
Proof.
  intros Ha [H1 H2 H3 H4] Hc.
  assert (Hne : forall x, ~ In x [OpenStore; MigrateStore] -> x <> a) by (intros x Hx ->; done).
  constructor.
  - apply released_cons; [apply Hne; absent|done].
  - intros i. apply released_cons; [apply Hne; absent|apply H2].
  - intros b c E. destruct b as [|x b]; injection E as E1 E2; [by subst c|]. by eapply H3.
  - intros [Hs|Hs]; [subst a; exfalso; revert Ha; absent|]. destruct (H4 Hs) as (up & ids & down & -> & Hup & Hids & Hdown).
    exists (a :: up), ids, down. split_and!; [done|by right| |done]. intros i. rewrite <- Hids. split; [|by right].
    intros [E|H]; [subst a; exfalso; revert Ha; absent|done].
Qed.

Lemma pipeline_phase_good m cfg : good (pipeline_phase m cfg).1.
Proof. unfold pipeline_phase. destruct (NewPipeline _ _ _); [apply serve_phase_good|]. by apply good_quiet. Qed.

Lemma store_phase_good m cfg : good (store_phase m cfg).1.
Proof.
  unfold store_phase. destruct (negb _); [apply pipeline_phase_good|].
  destruct (ControlDSN _ _) as [dsn|e|]; [|by apply good_quiet..]. destruct (negb _).
  { apply good_quiet. cbn. tauto. }
  set (r := if m_migrate m then _ else _). assert (Hr : good r.1).
  { unfold r. destruct (m_migrate m); [apply pipeline_phase_good|by apply good_quiet]. }
  cbn [doing deferring fst].
  assert (Hc : In CloseStore (r.1 ++ [CloseStore])) by (apply in_or_app; right; by left).
  apply good_store; [by left| |by right]. apply good_store; [by right; left| |done]. apply good_snoc; [by left|done].
Qed.

(** C40. Whatever fails, what a run started it releases: a started pipeline is
    stopped, every opened source is closed, an opened store is closed. Once it
    serves, it stops accepting, closes the sources, stops the pipeline and then
    shuts the server down, in this order and before the store is closed. *)
Theorem run_releases m :
  let trace := (run m).1 in
  released StartPipeline StopPipeline trace
  /\ (forall i, released (StartSource i) (CloseSource i) trace)
  /\ released MigrateStore CloseStore trace
  /\ (In Serve trace -> exists up ids down,
       trace = up ++ Serve :: StopAccepting :: Close ids ++ StopPipeline :: ShutdownServer :: CancelService :: down
       /\ In StartPipeline up /\ (forall i, In (StartSource i) up <-> In i ids)
       /\ Forall (fun a => In a [CloseStore; CancelService; StopSignals]) down).
Proof.
  cbv zeta. assert (H : good (run m).1).
  { unfold run. destruct (m_version m); [by apply good_quiet|]. destruct (Load _ _ _ _ _) as [cfg|e|]; [|by apply good_quiet..].
    destruct (New _ _); [|by apply good_quiet]. cbn [deferring fst].
    apply good_snoc; [by right; right; left|]. apply good_snoc; [by right; left|]. apply store_phase_good. }
  by destruct H.
Qed.

(** ** Starting succeeds *)

(** C39. A configuration that loads starts: with a usable storage endpoint, a
    control store that opens and migrates if one is enabled, and addresses that
    can be bound, the service serves, and its only errors are those of serving
    and of stopping. *)
Theorem loaded_config_serves m cfg :
  m_version m = false ->
  Load (m_LoadLocation m) (m_decode_file m) (m_path m) (m_environ m) (m_overrides m) = Ok cfg ->
  is_Some (New (st_Endpoint (c_Storage cfg)) (st_StreamFields (c_Storage cfg))) ->
  (cs_Enabled (c_ControlStore cfg) = true ->
   exists dsn, ControlDSN (m_ReadFile m) cfg = Ok dsn /\ m_open m dsn = true /\ m_migrate m = true) ->
  (forall s, In s (ic_Sources (c_Ingestion cfg)) -> sc_Enabled s = true -> m_binds m s = true) ->
  In Serve (run m).1
  /\ (run m).2 = error_if (negb (m_signal m) && negb (m_served m)) EServe
                 ++ error_if (negb (m_pipeline_stops m)) EPipelineStop
                 ++ error_if (negb (m_server_stops m)) EServerStop.
Proof.
  intros Hv Hload [client Hnew] Hstore Hbind. unfold run. rewrite Hv, Hload, Hnew. cbn [deferring fst snd].
  destruct (NewPipeline_tables _ _ _ _ _ _ "victorialogs" Hload) as (p & Hp & _).
  assert (Hs : exists ids, (Start (m_binds m) (ic_Sources (c_Ingestion cfg)) []).2 = inl ids).
  { apply Start_all. apply List.Forall_forall. intros s Hin He.
    unfold Load in Hload. apply bind_ok in Hload as (c0 & _ & Hload). apply bind_ok in Hload as (c1 & _ & Hload).
    apply finalize_ok in Hload. pose proof (cok_sources _ _ Hload) as Hs. rewrite List.Forall_forall in Hs.
    unfold start_source. rewrite (Hbind s Hin He).
    destruct (sok_protocol _ _ (Hs s Hin)) as [<-|[<-|[]]]; reflexivity. }
  destruct Hs as [ids Hids].
  assert (Hserve : In Serve (pipeline_phase m cfg).1 /\ (pipeline_phase m cfg).2
    = error_if (negb (m_signal m) && negb (m_served m)) EServe ++ error_if (negb (m_pipeline_stops m)) EPipelineStop
      ++ error_if (negb (m_server_stops m)) EServerStop).
  { unfold pipeline_phase. rewrite Hp. unfold serve_phase. destruct (Start _ _ []) as [trace r]. cbn [snd] in Hids. subst r.
    split; [|done]. cbn [doing fst]. right. apply in_elt. }
  destruct Hserve as [Hserve He]. unfold store_phase. destruct (cs_Enabled (c_ControlStore cfg)); cbn [negb].
  - destruct (Hstore eq_refl) as (dsn & Hd & Ho & Hm). rewrite Hd, Ho, Hm. cbn [negb doing deferring fst snd].
    split; [|done]. rewrite !in_app_iff. left. left. right. right. apply in_or_app. by left.
  - split; [|done]. rewrite !in_app_iff. by left; left.
Qed.

(** ** Instances *)

Definition sample_machine (bound : bool) : machine :=
  mkMachine false "config.yaml" ["SYSLOGX_HTTP_ADDRESS=:7001"]%string (mkOverrides ":7002" "") utc_only one_source
    (fun _ => None) (fun _ => false) false (fun _ => bound) true true true true.

Example serving_trace : (run (sample_machine true)).1 =
  [StartPipeline; StartSource "edge"; Serve; StopAccepting; CloseSource "edge"; StopPipeline; ShutdownServer;
   CancelService; CancelService; StopSignals].
Proof. vm_compute. reflexivity. Qed.
Example unbound_trace : run (sample_machine false) = ([StartPipeline; StopPipeline; CancelService; StopSignals], [ESource "edge"]).
Proof. vm_compute. reflexivity. Qed.

Lemma loaded_config_serves_witness :
  In Serve (run (sample_machine true)).1 /\ (run (sample_machine true)).2 = [].
Proof.
  destruct (loaded_config_serves (sample_machine true) loaded) as [H1 H2]; [reflexivity|vm_compute; reflexivity|vm_compute; eauto
    |vm_compute; discriminate|reflexivity|].
  split; [exact H1|exact H2].
Defined.
Lemma run_releases_witness : released StartPipeline StopPipeline (run (sample_machine false)).1.
Proof. exact (proj1 (run_releases (sample_machine false))). Defined.
