(* ===== verification/Loggen.v ===== *)
(** * The load generator

    [backend/cmd/loggen/main.go]: the options it accepts and the lines it sends.
    [math/rand] is [Intn], over an abstract state: a draw below its bound. *)
From S2P Require Import Prelude GoStrings GoUtf8 GoTime Domain GoStrconv GoRegexp Parser ParserProps Parser3164.

Record options := mkOptions {
  o_target : string; o_protocol : string; o_format : string; o_path : string;
  o_port : Z; o_rate : Z; o_count : Z
}.
Inductive option_error := EOutOfRange | EProtocol | EFormat | EMismatch | ETarget.

Definition validate (o : options) : option option_error :=
  if (o_rate o <? 1) || (1000000 <? o_rate o) || (o_count o <? 1) || (o_port o <? 1) || (65535 <? o_port o)
  then Some EOutOfRange
  else if negb (o_protocol o =s "udp") && negb (o_protocol o =s "tcp") && negb (o_protocol o =s "http")
  then Some EProtocol
  else if negb (o_format o =s "rfc3164") && negb (o_format o =s "rfc5424") && negb (o_format o =s "json")
  then Some EFormat
  else if negb (Bool.eqb (o_protocol o =s "http") (o_format o =s "json")) then Some EMismatch
  else if (TrimSpace (o_target o) =s "") || negb (HasPrefix (o_path o) "/") then Some ETarget
  else None.

Definition hosts : list string := ["fw01"; "fw02"; "web01"; "db01"]%string.
Definition apps : list string := ["vpn"; "firewall"; "nginx"; "sshd"]%string.
Definition levels : list string :=
  ["debug"; "info"; "notice"; "warning"; "error"; "critical"; "alert"; "emergency"]%string.

(** [t.Format] with the layout of RFC 3164: the day padded with a space. *)
Definition FormatStamp (t : Time) : string :=
  let '(_, m, d) := civil_of_days (local_days t) in
  let c := clock_of t in
  month_name m +:+ " " +:+ (if d <? 10 then " " +:+ Itoa d else Itoa d) +:+ " "
  +:+ pad 2 (hour c) +:+ ":" +:+ pad 2 (minute c) +:+ ":" +:+ pad 2 (sec c).

Section Loggen.
Context {R : Type} (Intn : R -> Z -> Z * R) (is_print : Z -> bool).

(** An element drawn from a list. *)
Definition pick (l : list string) (r : R) : string * R :=
  let (i, r) := Intn r (Z.of_nat (length l)) in (nth (Z.to_nat i) l ""%string, r).

Definition random_ip (r : R) : string * R :=
  let (a, r) := Intn r 256 in
  let (b, r) := Intn r 254 in
  ("10.10." +:+ Itoa a +:+ "." +:+ Itoa (1 + b), r).

Definition message_of (app : string) (id : Z) : string := "synthetic " +:+ app +:+ " event " +:+ Itoa id.
Definition pid_of (id : Z) : string := Itoa (1000 + Z.rem id 9000).

Record jsonLog := mkJsonLog {
  j_Timestamp : string; j_Hostname : string; j_Level : string; j_Service : string; j_Message : string;
  j_SourceIP : string; j_Vendor : string; j_DeviceType : string; j_EventID : Z
}.
Definition makeJSON (r : R) (now : Time) (id : Z) : jsonLog * R :=
  let (host, r) := pick hosts r in
  let (app, r) := pick apps r in
  let (level, r) := pick levels r in
  let (ip, r) := random_ip r in
  (mkJsonLog (FormatRFC3339Nano (UTC now)) host level app (message_of app id) ip "syslogx" "synthetic" id, r).

(** [now] is in the generator's zone. *)
Definition syslogLine (r : R) (now : Time) (format : string) (id : Z) : string * R :=
  let (host, r) := pick hosts r in
  let (app, r) := pick apps r in
  let (severity, r) := Intn r 8 in
  let (f, r) := Intn r 8 in
  let facility := 16 + f in
  let priority := facility * 8 + severity in
  let msg := message_of app id in
  if format =s "rfc3164" then
    ("<" +:+ Itoa priority +:+ ">" +:+ FormatStamp now +:+ " " +:+ host +:+ " " +:+ app +:+ "[" +:+ pid_of id
     +:+ "]: " +:+ msg, r)
  else
    let (ip, r) := random_ip r in
    ("<" +:+ Itoa priority +:+ ">1 " +:+ FormatRFC3339Nano (UTC now) +:+ " " +:+ host +:+ " " +:+ app +:+ " "
     +:+ pid_of id +:+ " synthetic [syslogx@32473 source_ip=" +:+ Quote is_print ip +:+ " event_id="
     +:+ Quote is_print (Itoa id) +:+ "] " +:+ msg, r).
End Loggen.

(** ** Every line is read back as it was meant *)

Definition word_byte (c : byte) : bool :=
  is_graph c && negb (c =c chr 34) && negb (c =c chr 92) && negb (c =c "]") && negb (c =c ":") && negb (c =c "[").
Definition word (s : string) : bool := negb (s =s "") && negb (s =s "-") && all_bytes word_byte s.

Lemma digit_word c : is_digit c = true -> word_byte c = true.
Proof.
  intros H. unfold word_byte, is_graph. unfold is_digit in H.
  assert (Hne : forall k, (48 <=? code k) && (code k <=? 57) = false -> (c =c k) = false).
  { intros k Hk. destruct (ch_eq_spec c k) as [E|]; [|done]. rewrite <- E in Hk. congruence. }
  rewrite !Hne by done. cbn [negb]. rewrite !andb_true_r. b2p. lia.
Qed.
Lemma Itoa_word z : 0 <= z -> word (Itoa z) = true.
Proof.
  intros Hz. unfold Itoa. destruct (Z.ltb_spec z 0); [lia|]. pose proof (digits_digits z Hz) as Hd.
  pose proof (digits_nonempty z) as Hne. unfold word. destruct (str_eq_spec (digits z) ""); [done|].
  destruct (str_eq_spec (digits z) "-") as [E|]; [by rewrite E in Hd|]. cbn [negb andb].
  eapply all_bytes_impl; [apply digit_word|done].
Qed.

Lemma word_quote is_print s : all_bytes word_byte s = true -> Quote is_print s = String (chr 34) (s +:+ String (chr 34) "").
Proof.
  intros H. unfold Quote. f_equal. f_equal. induction s as [|c s IH]; [done|]. cbn [all_bytes String.length quote_body] in *.
  apply andb_true_iff in H as [Hc Hs]. unfold word_byte in Hc. apply andb_true_iff in Hc as [Hc _].
  apply andb_true_iff in Hc as [Hc _]. apply andb_true_iff in Hc as [Hc _]. apply andb_true_iff in Hc as [Hc Hb].
  apply andb_true_iff in Hc as [Hg Hq]. unfold is_graph in Hg. b2p.
  unfold decode_rune. destruct (Z.ltb_spec (code c) 128); [|lia].
  assert ((1 =? 1)%nat && (code c =? rune_error) = false) as -> by (unfold rune_error; lia).
  replace (str_drop 1 (String c s)) with s by (by destruct s). rewrite IH by done.
  change (String c s) with (String c "" +:+ s). f_equal. unfold escaped_rune, IsPrint.
  destruct (Z.eqb_spec (code c) 34) as [E|_].
  { exfalso. destruct (ch_eq_spec c (chr 34)) as [|Hne]; [done|]. apply Hne. by rewrite <- (chr_code c), E. }
  destruct (Z.eqb_spec (code c) 92) as [E|_].
  { exfalso. destruct (ch_eq_spec c (chr 92)) as [|Hne]; [done|]. apply Hne. by rewrite <- (chr_code c), E. }
  cbn [orb]. destruct (Z.ltb_spec (code c) 128); [|lia].
  replace ((32 <=? code c) && (code c <? 127)) with true by lia.
  unfold encode_rune. destruct (Z.ltb_spec (code c) 128); [|lia]. cbn. by rewrite chr_code.
Qed.
Lemma word_escape s : all_bytes word_byte s = true -> sd_escape s = s.
Proof.
  induction s as [|c s IH]; [done|]. cbn [all_bytes sd_escape]. intros [Hc Hs]%andb_true_iff. rewrite (IH Hs).
  assert (sd_escapable c = false) as ->; [|done]. unfold word_byte in Hc. unfold sd_escapable.
  change dquote with (chr 34). change backslash with (chr 92). by destruct (is_graph c), (c =c chr 34), (c =c chr 92), (c =c "]").
Qed.

(** An address is at most 13 bytes long. *)
Definition address (ip : string) : Prop := all_bytes word_byte ip = true /\ len ip <= 13.
Lemma word_ip a b : 0 <= a < 256 -> 0 <= b < 256 -> address ("10.10." +:+ Itoa a +:+ "." +:+ Itoa b).
Proof.
  intros Ha Hb.
  assert (Hl : forall z, 0 <= z < 256 -> len (Itoa z) <= 3).
  { intros z Hz. unfold Itoa. destruct (Z.ltb_spec z 0); [lia|]. pose proof (digits_length 2 z ltac:(change (0 <= z < 1000); lia)).
    unfold len. lia. }
  split; [|rewrite !len_append; change (len "10.10.") with 6; change (len ".") with 1; pose proof (Hl a Ha); pose proof (Hl b Hb); lia].
  assert (Hwa := Itoa_word a ltac:(lia)). assert (Hwb := Itoa_word b ltac:(lia)). unfold word in Hwa, Hwb.
  apply andb_true_iff in Hwa as [_ Hwa], Hwb as [_ Hwb].
  repeat (rewrite all_bytes_append || cbn [all_bytes]). by rewrite Hwa, Hwb.
Qed.

(** What a word is to the two parsers. *)
Lemma word_spec s : word s = true ->
  s <> ""%string /\ nil_token s = s /\ token_ok s = true /\ nonempty s = true
  /\ all_bytes re_nonspace s = true /\ all_bytes is_graph s = true /\ lacks ":" s = true /\ lacks "[" s = true.
Proof.
  unfold word, nil_token, token_ok, nonempty. destruct (str_eq_spec s "") as [|Hne]; [done|].
  destruct (s =s "-"); [done|]. cbn [negb andb]. rewrite andb_true_r. intros H.
  assert (Hi : forall q, (forall c, word_byte c = true -> q c = true) -> all_bytes q s = true)
    by (intros q Hq; by eapply all_bytes_impl).
  assert (Hg : forall c, word_byte c = true -> is_graph c = true).
  { intros c Hc. unfold word_byte in Hc. by destruct (is_graph c). }
  split_and!; try done.
  - apply Hi. intros c Hc%Hg. by destruct (ch_eq_spec c " ") as [->|].
  - apply Hi. intros c Hc%Hg. by apply graph_nonspace.
  - by apply Hi.
  - apply Hi. intros c Hc. unfold word_byte in Hc. destruct (c =c ":"); [|done]. by rewrite andb_false_r in Hc.
  - apply Hi. intros c Hc. unfold word_byte in Hc. destruct (c =c "["); [|done]. by rewrite andb_false_r in Hc.
Qed.

Section Lines.
Context {R : Type} (Intn : R -> Z -> Z * R) (is_print : Z -> bool).
Hypothesis Intn_range : forall r n, 0 < n -> 0 <= (Intn r n).1 < n.

Lemma pick_in l r : l <> [] -> In (pick Intn l r).1 l.
Proof using Intn_range.
  intros Hl. unfold pick. pose proof (Intn_range r (Z.of_nat (length l))) as H.
  assert (0 < Z.of_nat (length l)) by (destruct l; [done|simpl; lia]).
  destruct (Intn r _) as [i r']. cbn [fst] in *. apply nth_In. lia.
Qed.
Lemma random_ip_address r : address (random_ip Intn r).1.
Proof using Intn_range.
  unfold random_ip. pose proof (Intn_range r 256 ltac:(lia)) as Ha. destruct (Intn r 256) as [a r1].
  pose proof (Intn_range r1 254 ltac:(lia)) as Hb. destruct (Intn r1 254) as [b r2]. cbn [fst] in *. apply word_ip; lia.
Qed.
End Lines.

Lemma hosts_words h : In h hosts -> word h = true.
Proof. unfold hosts. intros H. repeat (destruct H as [<-|H]; [reflexivity|]). destruct H. Qed.
Lemma apps_words h : In h apps -> word h = true.
Proof. unfold apps. intros H. repeat (destruct H as [<-|H]; [reflexivity|]). destruct H. Qed.

(** The line of the draws. *)
Definition line5424 (priority : Z) (now : Time) (host app ip : string) (id : Z) : Line5424 :=
  mkLine5424 priority (UTC now) host app (pid_of id) "synthetic"
    [("syslogx@32473", [("source_ip", ip); ("event_id", Itoa id)])]%string (message_of app id).

Lemma pid_word id : 0 <= id -> word (pid_of id) = true.
Proof. intros H. apply Itoa_word. pose proof (Z.rem_bound_pos id 9000). lia. Qed.

Lemma message_ends app id p : 0 <= id -> (forall c, is_graph c = true -> p c = false) -> ends p (message_of app id) = false.
Proof.
  intros Hid Hp. unfold message_of.
  assert ("synthetic " +:+ (app +:+ (" event " +:+ Itoa id)) = ("synthetic " +:+ (app +:+ " event ")) +:+ Itoa id) as ->
    by (by rewrite !append_assoc).
  destruct (word_spec _ (Itoa_word id Hid)) as (Hne & _ & _ & _ & _ & Hg & _).
  rewrite ends_append. destruct (Itoa id) as [|c s] eqn:E; [done|]. rewrite <- E in *. unfold ends.
  rewrite <- (all_bytes_rev is_graph) in Hg. destruct (str_rev (Itoa id)) as [|x y] eqn:Er.
  - exfalso. apply Hne. rewrite <- (str_rev_involutive (Itoa id)). by rewrite Er.
  - cbn [starts all_bytes] in *. apply andb_true_iff in Hg as [Hx _]. auto.
Qed.

Lemma line5424_ok priority now host app ip id :
  0 <= priority <= 191 -> 0 <= Year (UTC now) <= 9999 -> word host = true -> word app = true -> 0 <= id ->
  line_ok (line5424 priority now host app ip id).
Proof.
  intros Hp Hy Hh Ha Hid. apply word_spec in Hh as (_ & _ & Hh & _), Ha as (_ & _ & Ha & _).
  destruct (word_spec _ (pid_word id Hid)) as (_ & _ & Hpid & _). unfold line_ok, line5424. cbn [l_pri l_time l_host l_app l_pid l_msgid l_sd l_msg].
  split_and!; try done; try lia. apply message_ends; [done|]. intros c Hc. unfold is_crlf.
  destruct (ch_eq_spec c (chr 13)) as [->|]; [done|]. by destruct (ch_eq_spec c (chr 10)) as [->|].
Qed.

Lemma append_string c s : String c "" +:+ s = String c s.
Proof. reflexivity. Qed.

Lemma print5424_line priority now host app ip id is_print :
  word host = true -> word app = true -> all_bytes word_byte ip = true -> 0 <= id ->
  "<" +:+ Itoa priority +:+ ">1 " +:+ FormatRFC3339Nano (UTC now) +:+ " " +:+ host +:+ " " +:+ app +:+ " "
     +:+ pid_of id +:+ " synthetic [syslogx@32473 source_ip=" +:+ Quote is_print ip +:+ " event_id="
     +:+ Quote is_print (Itoa id) +:+ "] " +:+ message_of app id
  = print5424 (line5424 priority now host app ip id).
Proof.
  intros Hh Ha Hip Hid. apply word_spec in Hh as (_ & Hh & _), Ha as (Hane & Ha & _).
  destruct (word_spec _ (pid_word id Hid)) as (_ & Hpid & _).
  pose proof (Itoa_word id Hid) as Hw. unfold word in Hw. apply andb_true_iff in Hw as [_ Hw].
  rewrite (word_quote _ _ Hip), (word_quote _ _ Hw). unfold print5424, print_header, line5424.
  cbn [l_pri l_time l_host l_app l_pid l_msgid l_sd l_msg print_sd print_elements print_element fst snd].
  unfold print_element. cbn [fst snd print_params]. unfold print_param. cbn [fst snd].
  rewrite Hh, Ha, Hpid, (word_escape _ Hip), (word_escape _ Hw). change (nil_token "synthetic") with "synthetic"%string.
  unfold print_msg. destruct (str_eq_spec (message_of app id) "") as [E|_]; [discriminate E|].
  repeat (rewrite append_assoc || rewrite append_cons). reflexivity.
Qed.

Definition line3164 (priority : Z) (now : Time) (host app : string) (id : Z) : Line3164 :=
  let '(_, m, d) := civil_of_days (local_days now) in
  mkLine3164 priority m d (hour (clock_of now)) (minute (clock_of now)) (sec (clock_of now)) host app (pid_of id)
    (message_of app id).

Lemma print3164_line priority now host app id :
  0 <= id ->
  "<" +:+ Itoa priority +:+ ">" +:+ FormatStamp now +:+ " " +:+ host +:+ " " +:+ app +:+ "[" +:+ pid_of id
     +:+ "]: " +:+ message_of app id
  = print3164 (line3164 priority now host app id).
Proof.
  intros Hid. destruct (word_spec _ (pid_word id Hid)) as (Hpid & _). unfold FormatStamp, line3164.
  destruct (civil_of_days (local_days now)) as [[y m] d]. unfold print3164, print_body, print_tag, print_head, b_clock, print_clock, print_day.
  cbn [b_pri b_month b_day b_hour b_min b_sec b_host b_app b_pid b_msg].
  destruct (str_eq_spec (pid_of id) ""); [done|]. unfold print_msg.
  destruct (str_eq_spec (message_of app id) "") as [E|_]; [discriminate E|].
  destruct (d <? 10); repeat (rewrite append_assoc || rewrite append_cons); reflexivity.
Qed.

Lemma message_text app id : word app = true -> 0 <= id -> text_ok (message_of app id) = true.
Proof.
  intros Ha Hid. unfold text_ok. apply orb_true_iff. right. apply andb_true_iff. split.
  - apply andb_true_iff. split; [done|]. apply negb_false_iff. rewrite <- (negb_involutive (ends _ _)).
    pose proof (message_ends app id (fun c => negb (is_graph c)) Hid) as H. unfold ends in *.
    destruct (str_rev (message_of app id)) as [|c s] eqn:E.
    + exfalso. apply (f_equal str_rev) in E. by rewrite str_rev_involutive in E.
    + cbn [starts] in *. rewrite H; [done|]. by intros x ->.
  - destruct (word_spec _ Ha) as (_ & _ & _ & _ & _ & Hga & _). destruct (word_spec _ (Itoa_word id Hid)) as (_ & _ & _ & _ & _ & Hgi & _).
    unfold message_of. rewrite !all_bytes_append, (graph_any _ Hga), (graph_any _ Hgi). done.
Qed.

Lemma clock_of_ok t : clock_ok (hour (clock_of t)) (minute (clock_of t)) (sec (clock_of t)).
Proof. pose proof (clock_bounds t) as (?&?&?&?). done. Qed.

Lemma line3164_wf priority now host app id :
  0 <= priority <= 191 -> word host = true -> word app = true -> 0 <= id -> line3164_ok (line3164 priority now host app id).
Proof.
  intros Hp Hh Ha Hid. pose proof (days_of_civil_of_days (local_days now)) as Hv. unfold line3164.
  destruct (civil_of_days (local_days now)) as [[y m] d]. destruct Hv as (_ & Hm & Hd).
  assert (days_in m y <= 31) by (unfold days_in; repeat case_match; lia).
  destruct (word_spec _ Hh) as (_ & _ & _ & Hhn & Hhs & _). destruct (word_spec _ Ha) as (_ & _ & _ & Han & _ & Hag & Hac & Hab).
  destruct (word_spec _ (pid_word id Hid)) as (_ & _ & _ & _ & _ & Hpg & Hpc & Hpb).
  unfold line3164_ok. cbn [b_pri b_month b_day b_hour b_min b_sec b_host b_app b_pid b_msg].
  split_and!; try done; try lia; try apply clock_of_ok. by apply message_text.
Qed.

(** In UTC, a stamp of an instant less than 180 days from the arrival is read
    as that instant, to the second; February 29 is never read at all. *)
Lemma nearest_now now received :
  t_off now = 0 -> Z.abs (unix_sec now * second - t_ns received) <= 180 * 86400 * second ->
  1001 <= Year (UTC received) <= 9998 ->
  (let '(_, m, d) := civil_of_days (local_days now) in plain_date m d) ->
  let '(_, m, d) := civil_of_days (local_days now) in
  nearestRFC3164Time (month_name m) (Itoa d)
    (print_clock (hour (clock_of now)) (minute (clock_of now)) (sec (clock_of now))) received None
  = Some (mkTime (unix_sec now * second) 0).
Proof.
  intros Hoff Hnear HY. pose proof (days_of_civil_of_days (local_days now)) as Hv.
  destruct (civil_of_days (local_days now)) as [[y m] d]. destruct Hv as (Hdays & Hvalid). intros Hpd.
  set (h := hour (clock_of now)). set (mi := minute (clock_of now)). set (s := sec (clock_of now)).
  assert (Hck : clock_ok h mi s) by apply clock_of_ok.
  assert (Hnow : Date y m d (plain_clock h mi s) loc_utc = mkTime (unix_sec now * second) 0).
  { unfold Date, loc_utc, plain_clock. cbn [hour minute sec nsec Z.eqb]. f_equal. rewrite Hdays.
    unfold h, mi, s, clock_of, local_days. cbn [hour minute sec]. rewrite Hoff, Z.add_0_r.
    generalize (unix_sec now). intros u. unfold second. div_lia. }
  destruct (nearest_closest m d h mi s received None 0 Hpd Hck zone_utc HY) as (y' & Hn & _ & _ & Hmin).
  cbn [default] in Hn, Hmin. change (stamp_at loc_utc) with stamp_ns in Hmin.
  rewrite Hn. assert (y' = y) as ->; [|by rewrite Hnow].
  assert (Hat : stamp_ns y m d h mi s = unix_sec now * second) by (unfold stamp_ns; by rewrite Hnow).
  specialize (Hmin y). rewrite Hat in Hmin.
  pose proof (fun a b => stamp_ns_far a b m d h mi s Hpd) as Hfar.
  destruct (Z.lt_trichotomy y y') as [H|[H|H]]; [|done|]; pose proof (Hfar _ _ H); unfold second in *; lia.
Qed.

(** What an event keeps of the draws and of the number of the line. *)
Definition generated (ev : Event) (id : Z) : Prop :=
  In (e_Hostname ev) hosts /\ In (e_AppName ev) apps
  /\ e_Message ev = message_of (e_AppName ev) id /\ e_ProcessID ev = pid_of id
  /\ exists p, 128 <= p <= 191 /\ e_Priority ev = Some p /\ e_Facility ev = Some (p / 8) /\ e_Severity ev = Some (p mod 8).

Section Read.
Context {R : Type} (Intn : R -> Z -> Z * R) (is_print : Z -> bool).
Hypothesis Intn_range : forall r n, 0 < n -> 0 <= (Intn r n).1 < n.

(** A generated line is the line of some draws. *)
Lemma syslogLine_draws r now format id :
  0 <= id ->
  exists priority host app ip,
    128 <= priority <= 191 /\ In host hosts /\ In app apps /\ address ip
    /\ (syslogLine Intn is_print r now format id).1
       = if format =s "rfc3164" then print3164 (line3164 priority now host app id)
         else print5424 (line5424 priority now host app ip id).
Proof using Intn_range.
  intros Hid. unfold syslogLine.
  pose proof (pick_in Intn Intn_range hosts r ltac:(done)) as Hh. destruct (pick Intn hosts r) as [host r1].
  pose proof (pick_in Intn Intn_range apps r1 ltac:(done)) as Ha. destruct (pick Intn apps r1) as [app r2].
  pose proof (Intn_range r2 8 ltac:(lia)) as Hs. destruct (Intn r2 8) as [severity r3].
  pose proof (Intn_range r3 8 ltac:(lia)) as Hf. destruct (Intn r3 8) as [f r4].
  pose proof (random_ip_address Intn Intn_range r4) as Hip. destruct (random_ip Intn r4) as [ip r5].
  cbn [fst] in *. exists ((16 + f) * 8 + severity), host, app, ip.
  split_and!; [lia|lia|done..|]. destruct (format =s "rfc3164"); cbn [fst].
  - by apply print3164_line.
  - destruct Hip as [Hip _]. apply print5424_line; auto using hosts_words, apps_words.
Qed.

Lemma generated_5424 r now id received :
  0 <= id -> 0 <= Year (UTC now) <= 9999 ->
  exists ev, Registry_Parse NewRegistry "auto" (syslogLine Intn is_print r now "rfc5424" id).1 received None = Ok ev
    /\ generated ev id /\ e_Timestamp ev = UTC now.
Proof using Intn_range.
  intros Hid Hy. destruct (syslogLine_draws r now "rfc5424" id Hid) as (p & host & app & ip & Hp & Hh & Ha & _ & ->).
  change ("rfc5424" =s "rfc3164") with false. cbv iota. eexists. split.
  - apply Registry_Parse_5424; [|done|by left]. apply line5424_ok; auto using hosts_words, apps_words; lia.
  - split; [|done]. split_and!; try done. by exists p.
Qed.

(** Every line the load generator sends is detected and parsed to what it was
    generated from: host, application, process, priority and message, with the
    time of the generator. RFC 3164 lines carry it to the second, when the
    generator and the source are in UTC and the line arrives within 180 days; on
    a February 29 the parser refuses them. *)
Theorem generated_lines_read_back r now id received :
  0 <= id ->
  (0 <= Year (UTC now) <= 9999 ->
   exists ev, Registry_Parse NewRegistry "auto" (syslogLine Intn is_print r now "rfc5424" id).1 received None = Ok ev
     /\ generated ev id /\ e_Timestamp ev = UTC now)
  /\ (t_off now = 0 -> Z.abs (unix_sec now * second - t_ns received) <= 180 * 86400 * second ->
      1001 <= Year (UTC received) <= 9998 ->
      (let '(_, m, d) := civil_of_days (local_days now) in plain_date m d) ->
      exists ev, Registry_Parse NewRegistry "auto" (syslogLine Intn is_print r now "rfc3164" id).1 received None = Ok ev
        /\ generated ev id /\ e_Timestamp ev = mkTime (unix_sec now * second) 0).
Proof using Intn_range.
  intros Hid. split; [intros Hy; by apply generated_5424|].
  intros Hoff Hnear HY Hpd. destruct (syslogLine_draws r now "rfc3164" id Hid) as (p & host & app & ip & Hp & Hh & Ha & _ & ->).
    change ("rfc3164" =s "rfc3164") with true. cbv iota.
    pose proof (nearest_now now received Hoff Hnear HY Hpd) as Hn.
    assert (Hok : line3164_ok (line3164 p now host app id)) by (apply line3164_wf; auto using hosts_words, apps_words; lia).
    rewrite Registry_Parse_3164, RFC3164_Parse_stamp by (done || by left). unfold line3164 in *.
    destruct (civil_of_days (local_days now)) as [[y m] d]. cbn [b_month b_day b_clock] in *. unfold b_clock.
    cbn [b_hour b_min b_sec]. rewrite Hn. eexists. split; [done|]. split; [|done]. split_and!; try done. by exists p.
Qed.
End Read.

(** A generator whose draws are all the last below the bound. *)
Definition last_draw (r : unit) (n : Z) : Z * unit := (n - 1, r).
Definition sample_now : Time := mkTime (1767225600 * second + 5) 0.

Example sample3164_line : (syslogLine last_draw (fun _ => true) tt sample_now "rfc3164" 9001).1
  = "<191>Jan  1 00:00:00 db01 sshd[1001]: synthetic sshd event 9001"%string.
Proof. vm_compute. reflexivity. Qed.

Lemma generated_lines_read_back_witness :
  exists ev, Registry_Parse NewRegistry "auto" "<191>Jan  1 00:00:00 db01 sshd[1001]: synthetic sshd event 9001"
      (mkTime (1767200000 * second) 0) None = Ok ev
    /\ generated ev 9001 /\ e_Timestamp ev = mkTime (1767225600 * second) 0.
Proof.
  rewrite <- sample3164_line.
  destruct (generated_lines_read_back last_draw (fun _ => true) ltac:(intros; cbn; lia) tt sample_now 9001
    (mkTime (1767200000 * second) 0) ltac:(lia)) as [_ H].
  apply H; [reflexivity|vm_compute; congruence|vm_compute; split; congruence|].
  vm_compute. split; split; congruence.
Defined.
