(* ===== verification/LoggenRun.v ===== *)
(** * Sending generated logs

    [run] of [backend/cmd/loggen/main.go]: how many logs are due, the lines and
    batches written until then, and where it stops. What the machine answers is
    in [world], by the round of the outer loop or by the number of logs sent,
    which determine the moment of each question. *)
From S2P Require Import Prelude GoStrings GoUtf8 GoTime GoDuration Domain GoRegexp Parser ParserProps Parser3164 Config Framing GoStrconv GoJson GoJsonProps Loggen.
From Stdlib Require Import SpecFloat.

Record world := mkWorld {
  w_dial : bool;
  w_since : nat -> Z;
  w_interrupted : nat -> bool;
  w_done : Z -> bool;
  w_now : Z -> Time;
  w_write : Z -> bool;
  w_flush : nat -> bool
}.
Inductive stop := SOptions (e : option_error) | SDial | SInterrupted | SWrite | SFlush.

(** [d.Seconds()] *)
Definition Seconds (d : Z) : spec_float :=
  SFadd 53 1024 (float_of (Z.quot d second)) (float_div (float_of (Z.rem d second)) (float_of second)).
Definition targetByNow (o : options) (since : Z) : Z :=
  let target := trunc_float (float_mul (Seconds since) (float_of (o_rate o))) + Z.max 1 (Z.quot (o_rate o) 10) in
  if o_count o <? target then o_count o else target.

(** [json.Marshal] of one record, and of a batch. *)
Definition json_fields (j : jsonLog) : list (string * string) :=
  [("timestamp", json_string (j_Timestamp j)); ("hostname", json_string (j_Hostname j));
   ("level", json_string (j_Level j)); ("service", json_string (j_Service j));
   ("message", json_string (j_Message j)); ("source_ip", json_string (j_SourceIP j));
   ("vendor", json_string (j_Vendor j)); ("device_type", json_string (j_DeviceType j));
   ("event_id", Itoa (j_EventID j))]%string.
Definition Marshal_batch (l : list jsonLog) : string := print_array (map (fun j => print_object (json_fields j)) l).

Section Run.
Context {R : Type} (Intn : R -> Z -> Z * R) (is_print : Z -> bool).
Context (o : options) (w : world).

Fixpoint make_batch (n : nat) (id : Z) (r : R) : list jsonLog * R :=
  match n with
  | O => ([], r)
  | S n =>
      let (j, r) := makeJSON Intn r (w_now w id) id in
      let (l, r) := make_batch n (id + 1) r in (j :: l, r)
  end.

(** The next write: its text, and how many logs it holds. *)
Definition emit (r : R) (target sent : Z) : string * Z * R :=
  if o_protocol o =s "http" then
    let size := Z.min 1000 (target - sent) in
    let (l, r) := make_batch (Z.to_nat size) sent r in (Marshal_batch l, size, r)
  else
    let (line, r) := syslogLine Intn is_print r (w_now w sent) (o_format o) sent in
    (if o_protocol o =s "tcp" then line +:+ String newline "" else line, 1, r).

(** What was written, how many logs, and why it stopped if it did. *)
Definition progress : Type := list string * Z * R * option stop.

(** The inner loop: it writes at least one log a round. *)
Fixpoint send_until (fuel : nat) (r : R) (target sent : Z) : progress :=
  match fuel with
  | O => ([], sent, r, None)
  | S fuel =>
      if target <=? sent then ([], sent, r, None)
      else if w_done w sent then ([], sent, r, Some SInterrupted)
      else
        let '(text, size, r) := emit r target sent in
        if negb (w_write w sent) then ([], sent, r, Some SWrite)
        else
          let '(texts, sent, r, e) := send_until fuel r target (sent + size) in (text :: texts, sent, r, e)
  end.

(** The outer loop from round [n]; [None] is out of fuel. *)
Fixpoint rounds (fuel n : nat) (r : R) (sent : Z) : option (list string * Z * option stop) :=
  match fuel with
  | O => None
  | S fuel =>
      if o_count o <=? sent then Some ([], sent, None) else
      let target := targetByNow o (w_since w n) in
      if target <=? sent then
        if w_interrupted w n then Some ([], sent, Some SInterrupted) else rounds fuel (S n) r sent
      else
        let '(texts, sent, r, e) := send_until (Z.to_nat (target - sent)) r target sent in
        match e with
        | Some e => Some (texts, sent, Some e)
        | None =>
            if (o_protocol o =s "tcp") && negb (w_flush w n) then Some (texts, sent, Some SFlush)
            else '(more, sent, e) ← rounds fuel (S n) r sent; Some (texts ++ more, sent, e)
        end
  end.

Definition run (fuel : nat) (seed : R) : option (list string * Z * option stop) :=
  match validate o with
  | Some e => Some ([], 0, Some (SOptions e))
  | None =>
      if negb (o_protocol o =s "http") && negb (w_dial w) then Some ([], 0, Some SDial)
      else rounds fuel 0 seed 0
  end.
End Run.

Example target_values :
  let o := mkOptions "h" "tcp" "rfc5424" "/" 514 1000 100000 in
  (targetByNow o 0, targetByNow o 1500000000, targetByNow o 333333333, targetByNow o (200 * second))
  = (100, 1600, 433, 100000).
Proof. vm_compute. reflexivity. Qed.

(** ** What a run writes *)

Section Written.
Context {R : Type} (Intn : R -> Z -> Z * R) (is_print : Z -> bool).
Context (o : options) (w : world).
Local Abbreviation emit1 := (emit Intn is_print o w).

(** From [sent] logs and the state [r] of the generator, [texts] were written,
    which makes [sent'] logs. *)
Inductive written : Z -> R -> list string -> Z -> R -> Prop :=
  | written_nil sent r : written sent r [] sent r
  | written_more sent r target text size r1 texts sent' r' :
      sent < target <= o_count o -> emit1 r target sent = (text, size, r1) ->
      written (sent + size) r1 texts sent' r' -> written sent r (text :: texts) sent' r'.

Lemma written_app sent r l1 sent1 r1 l2 sent2 r2 :
  written sent r l1 sent1 r1 -> written sent1 r1 l2 sent2 r2 -> written sent r (l1 ++ l2) sent2 r2.
Proof. induction 1; [done|]. intros H2. cbn [app]. econstructor; eauto. Qed.

Lemma emit_size r target sent text size r' :
  emit1 r target sent = (text, size, r') -> sent < target -> 1 <= size <= target - sent.
Proof.
  unfold emit. destruct (o_protocol o =s "http").
  - destruct (make_batch _ _ _ _) as [l r1]. intros [= _ <- _]. lia.
  - destruct (syslogLine _ _ _ _ _ _) as [l r1]. intros [= _ <- _]. lia.
Qed.

(** The inner loop writes up to the target, unless it stops. *)
Lemma send_until_written fuel r target sent texts sent' r' e :
  target <= o_count o -> target - sent <= Z.of_nat fuel ->
  send_until Intn is_print o w fuel r target sent = (texts, sent', r', e) ->
  (exists r2, written sent r texts sent' r2 /\ (e = None -> r2 = r')) /\ sent <= sent' <= Z.max sent target
  /\ (e = None -> target <= sent')
  /\ ((forall i, w_done w i = false) -> (forall i, w_write w i = true) -> e = None).
Proof.
  intros Hc. revert r sent texts sent' r' e. induction fuel as [|fuel IH]; intros r sent texts sent' r' e Hf H; cbn [send_until] in H.
  { injection H as <- <- <- <-. split; [exists r; by split; [constructor|]|]. split_and!; done || lia. }
  destruct (Z.leb_spec target sent) as [Hle|Hlt].
  { injection H as <- <- <- <-. split; [exists r; by split; [constructor|]|]. split_and!; done || lia. }
  destruct (w_done w sent) eqn:Ed.
  { injection H as <- <- <- <-. split; [exists r; by split; [constructor|]|]. split_and!; try done; try lia. intros Hd. by rewrite Hd in Ed. }
  destruct (emit1 r target sent) as [[text size] r1] eqn:Ee. pose proof (emit_size _ _ _ _ _ _ Ee Hlt) as Hsize.
  destruct (w_write w sent) eqn:Ew; cbn [negb] in H.
  - destruct (send_until _ _ _ _ fuel r1 target (sent + size)) as [[[texts1 sent1] r2] e1] eqn:E.
    injection H as <- <- <- <-. destruct (IH r1 (sent + size) texts1 sent1 r2 e1 ltac:(lia) E) as ((r3 & Hw & Hr) & Hs & Hn & Ha).
    split; [exists r3; split; [by econstructor|done]|]. split_and!; try done; lia.
  - injection H as <- <- <- <-. split; [exists r; by split; [constructor|]|]. split_and!; try done; try lia. intros _ Hw. by rewrite Hw in Ew.
Qed.

Lemma target_bounds since : targetByNow o since <= o_count o.
Proof. unfold targetByNow. cbv zeta. destruct (Z.ltb_spec (o_count o) (trunc_float (float_mul (Seconds since) (float_of (o_rate o))) + Z.max 1 (Z.quot (o_rate o) 10))); lia. Qed.

(** Nothing fails. *)
Definition undisturbed : Prop :=
  (forall i, w_done w i = false) /\ (forall i, w_write w i = true) /\ (forall n, w_flush w n = true)
  /\ (forall n, w_interrupted w n = false).

(** However a run ends, it counted what it wrote; without a reason to stop it
    wrote all; and nothing but a failure makes it stop. *)
Lemma rounds_written fuel n r sent texts sent' e :
  rounds Intn is_print o w fuel n r sent = Some (texts, sent', e) -> sent <= o_count o ->
  (exists r', written sent r texts sent' r') /\ sent <= sent' <= o_count o
  /\ (e = None -> sent' = o_count o) /\ (undisturbed -> e = None).
Proof.
  revert n r sent texts sent' e. induction fuel as [|fuel IH]; intros n r sent texts sent' e H Hs; cbn [rounds] in H; [done|].
  destruct (Z.leb_spec (o_count o) sent).
  { injection H as <- <- <-. split; [eexists; constructor|]. split_and!; try done; lia. }
  pose proof (target_bounds (w_since w n)) as Ht.
  destruct (Z.leb_spec (targetByNow o (w_since w n)) sent).
  { destruct (w_interrupted w n) eqn:Ei; [|by apply IH in H].
    injection H as <- <- <-. split; [eexists; constructor|]. split_and!; try done; try lia. intros (_ & _ & _ & Hi). by rewrite Hi in Ei. }
  destruct (send_until _ _ _ _ _ r _ sent) as [[[texts1 sent1] r1] e1] eqn:E.
  destruct (send_until_written (Z.to_nat (targetByNow o (w_since w n) - sent)) r _ sent texts1 sent1 r1 e1 Ht ltac:(lia) E) as ((r2 & Hw & Hr2) & Hs1 & Hn & Ha). destruct e1 as [e1|].
  { injection H as <- <- <-. split; [by eexists|]. split_and!; try done; try lia. intros (Hd & Hwr & _). by specialize (Ha Hd Hwr). }
  rewrite (Hr2 eq_refl) in Hw.
  destruct ((o_protocol o =s "tcp") && negb (w_flush w n)) eqn:Efl.
  { injection H as <- <- <-. split; [by eexists|]. split_and!; try done; try lia. intros (_ & _ & Hfl & _).
    rewrite Hfl, andb_false_r in Efl. done. }
  destruct (rounds _ _ _ _ fuel (S n) r1 sent1) as [[[more sent2] e2]|] eqn:Em; [|done].
  injection H as <- <- <-. destruct (IH (S n) r1 sent1 more sent2 e2 Em ltac:(lia)) as ([r' Hw'] & Hs2 & Hn2 & Hu).
  split; [exists r'; by eapply written_app|]. split_and!; try done; lia.
Qed.

(** A run ends by the round whose clock reading makes every log due. *)
Lemma rounds_end fuel n m r sent :
  (m < fuel)%nat -> o_count o <= targetByNow o (w_since w (n + m)) ->
  sent <= o_count o -> is_Some (rounds Intn is_print o w (S fuel) n r sent).
Proof.
  revert n m r sent. induction fuel as [|fuel IH]; intros n m r sent Hm Hd Hs; [lia|].
  remember (S fuel) as f eqn:Ef. cbn [rounds].
  destruct (Z.leb_spec (o_count o) sent); [by eexists|]. pose proof (target_bounds (w_since w n)) as Ht.
  assert (Hnext : m <> 0%nat -> forall r1 sent1, sent1 <= o_count o -> is_Some (rounds Intn is_print o w f (S n) r1 sent1)).
  { subst f. intros Hne r1 sent1 H1. apply (IH (S n) (m - 1)%nat); [lia| |done]. by replace (S n + (m - 1))%nat with (n + m)%nat by lia. }
  destruct (Z.leb_spec (targetByNow o (w_since w n)) sent).
  { destruct (w_interrupted w n); [by eexists|]. apply Hnext; [|done]. intros ->. rewrite Nat.add_0_r in Hd. lia. }
  destruct (send_until _ _ _ _ _ r _ sent) as [[[texts1 sent1] r1] e1] eqn:E.
  destruct (send_until_written (Z.to_nat (targetByNow o (w_since w n) - sent)) r _ sent texts1 sent1 r1 e1 Ht ltac:(lia) E) as (_ & Hs1 & Hn & _). destruct e1; [by eexists|].
  destruct (_ && _); [by eexists|].
  assert (is_Some (rounds Intn is_print o w f (S n) r1 sent1)) as [[[more sent2] e2] Hr].
  { destruct (Nat.eq_dec m 0%nat) as [->|Hne]; [|apply Hnext; [done|lia]]. rewrite Nat.add_0_r in Hd.
    rewrite Ef. cbn [rounds]. destruct (Z.leb_spec (o_count o) sent1); [by eexists|]. specialize (Hn eq_refl). lia. }
  rewrite Hr. by eexists.
Qed.
End Written.

(** ** Generated texts are short and printable *)

Definition line_byte (c : byte) : bool := (32 <=? code c) && (code c <=? 126).
Definition short (n : Z) (s : string) : Prop := all_bytes line_byte s = true /\ len s <= n.

Lemma short_append a b m n : short m a -> short n b -> short (m + n) (a +:+ b).
Proof. intros [Ha Hm] [Hb Hn]. split; [by rewrite all_bytes_append, Ha, Hb|rewrite len_append; lia]. Qed.
Lemma digit_line c : is_digit c = true -> line_byte c = true.
Proof. unfold is_digit, line_byte. lia. Qed.
Lemma word_short s n : all_bytes word_byte s = true -> len s <= n -> short n s.
Proof.
  intros Hs Hn. split; [|done]. revert Hs. apply all_bytes_impl. intros c Hc. unfold word_byte, is_graph in Hc.
  unfold line_byte. destruct (Z.leb_spec 33 (code c)), (Z.leb_spec (code c) 126); try done. lia.
Qed.
Lemma Itoa_short z k : 0 <= z < 10 ^ Z.of_nat (S k) -> short (Z.of_nat (S k)) (Itoa z).
Proof.
  intros Hz. unfold Itoa. destruct (Z.ltb_spec z 0); [lia|]. split.
  - apply (digits_bytes line_byte digit_line), digits_digits. lia.
  - pose proof (digits_length k z Hz). unfold len. lia.
Qed.
Lemma pad2_short z : 0 <= z < 100 -> short 2 (pad 2 z).
Proof.
  intros Hz. split; [by apply (pad_bytes line_byte digit_line); lia|]. unfold len. rewrite length_pad; [done|change (0 <= z < 100); lia].
Qed.
Lemma stamp_short t : 0 <= Year (UTC t) <= 9999 -> short 30 (FormatRFC3339Nano (UTC t)).
Proof. intros Hy. split; [by apply (FormatRFC3339Nano_bytes line_byte digit_line)|by apply FormatRFC3339Nano_length]. Qed.
Lemma listed_short l s : forallb (fun x => all_bytes line_byte x && (len x <=? 9)) l = true -> In s l -> short 9 s.
Proof. intros H Hin. rewrite forallb_forall in H. apply H in Hin. apply andb_true_iff in Hin as [Hb Hl]. split; [done|lia]. Qed.
Lemma month_short m : short 9 (month_name m).
Proof.
  unfold month_name. destruct (month_names !! Z.to_nat (m - 1)) as [s|] eqn:E; [|done].
  apply (listed_short month_names); [reflexivity|]. apply list_elem_of_In. by eapply list_elem_of_lookup_2.
Qed.
Lemma literal_short s : all_bytes line_byte s = true -> short (len s) s.
Proof. done. Qed.
Lemma short_le m n s : short m s -> m <= n -> short n s.
Proof. intros [Hs Hm] Hn. split; [done|lia]. Qed.

Create HintDb short.
#[local] Hint Resolve pad2_short stamp_short month_short : short.
#[local] Hint Extern 5 (short _ _) => (apply literal_short; reflexivity) : short.
#[local] Hint Extern 5 (_ <= _ < _) => lia : short.
(** A concatenation is as long as its parts together. *)
Ltac shorts := first [solve [eauto with short] | eapply short_append; shorts].
Ltac shorten := eapply short_le; [shorts|unfold len; cbn [String.length]; lia].

(** Numbers of logs are Go [int]s; eighteen digits are enough. *)
Definition id_ok (id : Z) : Prop := 0 <= id < 10 ^ 18.

Lemma id_short id : id_ok id -> short 18 (Itoa id).
Proof. apply (Itoa_short id 17). Qed.
Lemma priority_short p : 128 <= p <= 191 -> short 3 (Itoa p).
Proof. intros. apply (Itoa_short p 2). change (0 <= p < 1000). lia. Qed.
Lemma byte_short z : 0 <= z < 256 -> short 3 (Itoa z).
Proof. intros. apply (Itoa_short z 2). change (0 <= z < 1000). lia. Qed.
Lemma day_short d : 1 <= d <= 31 -> short 3 (if d <? 10 then " " +:+ Itoa d else Itoa d).
Proof.
  intros Hd. assert (short 2 (Itoa d)) by (apply (Itoa_short d 1); change (0 <= d < 100); lia).
  destruct (d <? 10); shorten.
Qed.
Lemma pid_short id : 0 <= id -> short 4 (pid_of id).
Proof. intros H. apply (Itoa_short _ 3). pose proof (Z.rem_bound_pos id 9000). change (10 ^ Z.of_nat 4) with 10000. lia. Qed.
#[local] Hint Resolve id_short priority_short byte_short day_short pid_short : short.
Lemma message_short app id : short 9 app -> id_ok id -> short 44 (message_of app id).
Proof. intros Ha Hid. unfold message_of. shorten. Qed.
#[local] Hint Resolve message_short : short.

Lemma print3164_short p now host app id :
  128 <= p <= 191 -> short 9 host -> short 9 app -> id_ok id -> short 130 (print3164 (line3164 p now host app id)).
Proof.
  intros Hp Hh Ha Hid. assert (0 <= id) by (unfold id_ok in Hid; lia). rewrite <- print3164_line by done. unfold FormatStamp.
  pose proof (days_of_civil_of_days (local_days now)) as Hv. pose proof (clock_bounds now) as (?&?&?&?).
  set (c := clock_of now) in *. destruct (civil_of_days (local_days now)) as [[y m] d]. destruct Hv as (_ & _ & Hd).
  assert (days_in m y <= 31) by (unfold days_in; repeat case_match; lia).
  assert (1 <= d <= 31) by lia. shorten.
Qed.

Lemma address_short ip : address ip -> short 13 ip.
Proof. intros [Hb Hl]. by apply word_short. Qed.
Lemma host_short h : In h hosts -> short 9 h.
Proof. by apply listed_short. Qed.
Lemma app_short h : In h apps -> short 9 h.
Proof. by apply listed_short. Qed.
Lemma level_short h : In h levels -> short 9 h.
Proof. by apply listed_short. Qed.
Lemma word_quote_short is_print n s : all_bytes word_byte s = true -> short n s -> short (n + 2) (Quote is_print s).
Proof.
  intros Hw Hs. rewrite word_quote by done. change (String (chr 34) (s +:+ String (chr 34) "")) with (String (chr 34) "" +:+ s +:+ String (chr 34) "").
  shorten.
Qed.
#[local] Hint Resolve address_short host_short app_short level_short word_quote_short print3164_short : short.

Lemma Itoa_word_bytes z : 0 <= z -> all_bytes word_byte (Itoa z) = true.
Proof. intros H. apply Itoa_word in H. unfold word in H. by apply andb_true_iff in H as [_ H]. Qed.

Lemma print5424_short p now host app ip id :
  128 <= p <= 191 -> 0 <= Year (UTC now) <= 9999 -> In host hosts -> In app apps -> address ip -> id_ok id ->
  short 230 (print5424 (line5424 p now host app ip id)).
Proof.
  intros Hp Hy Hh Ha Hip Hid. assert (Hid0 : 0 <= id) by (unfold id_ok in Hid; lia). pose proof Hip as [Hw _].
  pose proof (Itoa_word_bytes id Hid0) as Hiw.
  rewrite <- (print5424_line p now host app ip id (fun _ => true)) by auto using hosts_words, apps_words. shorten.
Qed.

(** A line of the generator. *)
Lemma syslogLine_short {R} (Intn : R -> Z -> Z * R) is_print r now format id :
  (forall r n, 0 < n -> 0 <= (Intn r n).1 < n) -> 0 <= Year (UTC now) <= 9999 -> id_ok id ->
  let line := (syslogLine Intn is_print r now format id).1 in short 230 line /\ exists s, line = String "<" s.
Proof.
  intros Hr Hy Hid. assert (Hid0 : 0 <= id) by (unfold id_ok in Hid; lia).
  destruct (syslogLine_draws Intn is_print Hr r now format id Hid0) as (p & host & app & ip & Hp & Hh & Ha & Hip & ->).
  cbv zeta. destruct (format =s "rfc3164").
  - split; [eapply short_le; [eauto with short|lia]|]. rewrite <- print3164_line by done. by eexists.
  - split; [by apply print5424_short|]. rewrite <- (print5424_line p now host app ip id (fun _ => true)); auto using hosts_words, apps_words.
    + by eexists.
    + by destruct Hip.
Qed.

(** ** Lines over a connection *)

(** What the peer reads of the texts written. *)
Definition stream (texts : list string) : string := foldr String.append "" texts.

Section Lines.
Context {R : Type} (Intn : R -> Z -> Z * R) (is_print : Z -> bool).
Hypothesis Intn_range : forall r n, 0 < n -> 0 <= (Intn r n).1 < n.
Context (o : options) (w : world).
Hypothesis tcp : o_protocol o = "tcp"%string.

(** [line] is log number [id]. *)
Definition log_line (id : Z) (line : string) : Prop :=
  exists r, line = (syslogLine Intn is_print r (w_now w id) (o_format o) id).1.

Lemma written_lines sent r texts sent' r' :
  written Intn is_print o w sent r texts sent' r' ->
  exists lines, texts = map (fun l => l +:+ String newline "") lines /\ Z.of_nat (length lines) = sent' - sent
    /\ forall i line, lines !! i = Some line -> log_line (sent + Z.of_nat i) line.
Proof using tcp.
  induction 1 as [sent r|sent r target text size r1 texts sent' r' Ht He _ (lines & -> & Hl & Hi)].
  - exists []. split_and!; [done|simpl; lia|done].
  - unfold emit in He. rewrite tcp in He. change ("tcp" =s "http") with false in He. change ("tcp" =s "tcp") with true in He.
    cbv iota in He. destruct (syslogLine Intn is_print r (w_now w sent) (o_format o) sent) as [line r2] eqn:El.
    injection He as <- <- <-. exists (line :: lines). split_and!; [done|cbn [length]; lia|].
    intros [|i] line' H; [injection H as <-; exists r; rewrite Z.add_0_r; by rewrite El|].
    replace (sent + Z.of_nat (S i)) with (sent + 1 + Z.of_nat i) by lia. by apply Hi.
Qed.

Hypothesis years : forall i, 0 <= Year (UTC (w_now w i)) <= 9999.

(** A source accepts such a line. *)
Lemma log_line_ok source id line :
  sc_Framing source = "newline"%string \/ sc_Framing source = "auto"%string -> 230 < sc_MaxMessageBytes source ->
  id_ok id -> log_line id line -> message_ok (sc_Framing source) (sc_MaxMessageBytes source) (MLine line).
Proof using Intn_range years.
  intros Hf Hmax Hid [r ->].
  destruct (syslogLine_short Intn is_print r (w_now w id) (o_format o) id Intn_range (years id) Hid) as [[Hb Hl] [s Hs]].
  cbn [message_ok]. split_and!.
  - destruct Hf as [->| ->]; [by left|]. right. split; [done|]. by rewrite Hs.
  - by rewrite Hs.
  - revert Hb. apply all_bytes_impl. intros c Hc. by destruct (ch_eq_spec c newline) as [->|].
  - destruct (HasSuffix _ cr) eqn:E; [|done]. apply bool_decide_eq_true in E as [a Ha%strip_suffix_Some]. rewrite Ha, all_bytes_append in Hb.
    by rewrite andb_false_r in Hb.
  - lia.
Qed.

Lemma print_lines lines : stream (map (fun l => l +:+ String newline "") lines) = print_messages (map MLine lines).
Proof. induction lines as [|l lines IH]; [done|]. unfold print_messages in *. cbn [map stream foldr print_message] in *. by rewrite <- IH. Qed.

(** C37. Over TCP the generator and a source agree: when nothing fails, a run ends
    by the round whose clock reading makes every log due, and what it wrote is
    received as that many lines, in order. Each line of RFC 5424 is parsed to the
    log it was made from, with the time it was made. *)
Theorem generated_stream_received n fuel seed source :
  validate o = None -> o_count o <= 10 ^ 18 ->
  w_dial w = true -> undisturbed w -> o_count o <= targetByNow o (w_since w n) -> (n < fuel)%nat ->
  sc_Framing source = "newline"%string \/ sc_Framing source = "auto"%string -> 230 < sc_MaxMessageBytes source ->
  exists texts lines,
    run Intn is_print o w (S fuel) seed = Some (texts, o_count o, None)
    /\ handleTCP source (fun _ _ => true) (mkReader (stream texts) EEOF) = Some (lines, TEnded EEOF)
    /\ Z.of_nat (length lines) = o_count o
    /\ forall i line received, lines !! i = Some line -> o_format o = "rfc5424"%string ->
         exists ev, Registry_Parse NewRegistry "auto" line received None = Ok ev
           /\ generated ev (Z.of_nat i) /\ e_Timestamp ev = UTC (w_now w (Z.of_nat i)).
Proof using Intn_range tcp years.
  intros Hv Hmax Hdial Hu Hdue Hfuel Hframing Hlimit.
  assert (Hcount : 1 <= o_count o).
  { unfold validate in Hv. destruct (_ || _) eqn:E in Hv; [done|]. lia. }
  destruct (rounds_end Intn is_print o w fuel 0 n seed 0 Hfuel Hdue ltac:(lia)) as [[[texts sent] e] Hr].
  destruct (rounds_written _ _ _ _ _ _ _ _ _ _ _ Hr ltac:(lia)) as ([r' Hw] & _ & Hn & He).
  rewrite (He Hu) in *. rewrite (Hn eq_refl) in *.
  destruct (written_lines _ _ _ _ _ Hw) as (lines & -> & Hlen & Hlines).
  eexists _, lines. split; [unfold run; rewrite Hv, Hdial, andb_false_r; exact Hr|]. rewrite print_lines.
  split_and!; [|lia|].
  - replace lines with (map payload_of (map MLine lines)) at 2 by (rewrite map_map; apply map_id).
    apply (handleTCP_print source (map MLine lines) [] _ EEOF); [|cbn [rd_data]; lia|done|apply readFrame_end; lia].
    apply Forall_map, Forall_lookup. intros i line Hi. pose proof (lookup_lt_Some _ _ _ Hi).
    apply (log_line_ok source (Z.of_nat i)); [done..|unfold id_ok; lia|]. by apply (Hlines i line).
  - intros i line received Hi Hf. destruct (Hlines i line Hi) as [r ->]. rewrite Hf, Z.add_0_l.
    apply generated_5424; [done|lia|apply years].
Qed.
End Lines.

(** ** An instance *)

Definition sample_world : world :=
  mkWorld true (fun _ => 0) (fun _ => false) (fun _ => false) (fun _ => sample_now) (fun _ => true) (fun _ => true).
Definition tcp_options : options := mkOptions "127.0.0.1" "tcp" "rfc5424" "/" 514 1000 2.

Lemma generated_stream_received_witness :
  exists texts lines,
    run last_draw (fun _ => true) tcp_options sample_world 2 tt = Some (texts, 2, None)
    /\ handleTCP (mkSource "edge" "edge" "tcp" ":514" "auto" true 8192 8 "auto" "default" "UTC") (fun _ _ => true)
         (mkReader (stream texts) EEOF) = Some (lines, TEnded EEOF)
    /\ length lines = 2%nat.
Proof.
  destruct (generated_stream_received last_draw (fun _ => true) ltac:(intros; cbn; lia) tcp_options sample_world
    eq_refl ltac:(intros; vm_compute; split; congruence) 0 1 tt
    (mkSource "edge" "edge" "tcp" ":514" "auto" true 8192 8 "auto" "default" "UTC"))
    as (texts & lines & Hr & Ht & Hl & _); [reflexivity|vm_compute; congruence|reflexivity|by split_and!|vm_compute; congruence|lia
    |by right|vm_compute; congruence|].
  exists texts, lines. split_and!; [exact Hr|exact Ht|]. change (o_count tcp_options) with 2 in Hl. lia.
Defined.
