(* ===== verification/LoggenHttp.v ===== *)
(** * Batches of the load generator over HTTP

    Every body the generator posts is a batch that [ingestJSON] accepts, and each
    entry it makes of it is the record the generator drew. *)
From S2P Require Import Prelude GoStrings GoUtf8 GoTime GoDuration Domain Parser ParserProps Parser3164 Config Pipeline Framing GoStrconv GoJson GoJsonProps Query Row VictoriaLogs Requests Ingest Loggen LoggenRun.

(** ** A batch is read back *)

Definition record_members (j : jsonLog) : list (string * any) :=
  [("timestamp", AStr (j_Timestamp j)); ("hostname", AStr (j_Hostname j)); ("level", AStr (j_Level j));
   ("service", AStr (j_Service j)); ("message", AStr (j_Message j)); ("source_ip", AStr (j_SourceIP j));
   ("vendor", AStr (j_Vendor j)); ("device_type", AStr (j_DeviceType j)); ("event_id", ANumber (Itoa (j_EventID j)))]%string.
Definition record_entries (j : jsonLog) : list (string * any) :=
  foldl (fun a e => set_entry e.1 e.2 a) [] (record_members j).
Definition item_of (j : jsonLog) : item := list_to_map (record_entries j).

(** A record whose texts are short and printable. *)
Definition record_ok (j : jsonLog) : Prop :=
  short 30 (j_Timestamp j) /\ short 9 (j_Hostname j) /\ short 9 (j_Level j) /\ short 9 (j_Service j)
  /\ short 44 (j_Message j) /\ short 13 (j_SourceIP j) /\ short 9 (j_Vendor j) /\ short 9 (j_DeviceType j) /\ id_ok (j_EventID j).

Lemma short_valid n s : short n s -> valid_utf8 s.
Proof. intros [H _]. apply valid_ascii. revert H. apply all_bytes_impl. intros c. unfold line_byte. lia. Qed.
Lemma member_encodes k n s : valid_utf8 k -> short n s -> encodes_entry 0 (k, AStr s) (k, json_string s).
Proof. intros Hk Hs. split_and!; [done..|]. by eapply encodes_string, short_valid. Qed.

Lemma record_encodes j : record_ok j -> encodes 1 (AMap (record_entries j)) (print_object (json_fields j)).
Proof.
  intros (H1 & H2 & H3 & H4 & H5 & H6 & H7 & H8 & Hid). apply (encodes_object 0); [done|].
  unfold record_members, json_fields.
  do 8 (constructor; [by eapply member_encodes; [apply valid_ascii; reflexivity|eassumption]|]). constructor; [|constructor].
  split_and!; [done|by apply valid_ascii|]. apply encodes_nat. unfold id_ok in Hid. cbn [fst snd]. lia.
Qed.

Lemma batch_encodes l : Forall record_ok l -> encodes 2 (AList (map (fun j => AMap (record_entries j)) l)) (Marshal_batch l).
Proof.
  intros Hl. apply (encodes_array 1); [done|]. induction Hl as [|j l Hj Hl IH]; [constructor|].
  constructor; [by apply record_encodes|done].
Qed.

Lemma batch_items_of l : batch_items (map (fun j => AMap (record_entries j)) l) = Some (map item_of l).
Proof. induction l as [|j l IH]; [done|]. cbn [map batch_items]. by rewrite IH. Qed.

(** ** A batch fits the limit of a body *)

Lemma escape_length c : len (escape_byte c) <= 6.
Proof. unfold escape_byte. repeat case_match; vm_compute; congruence. Qed.
Lemma json_string_length n s : short n s -> len (json_string s) <= 6 * n + 2.
Proof.
  intros [Hs Hn]. unfold json_string. rewrite len_cons, len_append. change (len (String quote_byte "")) with 1.
  assert (H : forall f s, all_bytes line_byte s = true -> len (json_body f s) <= 6 * len s).
  { clear. induction f as [|f IH]; intros s Hs; [pose proof (len_nonneg s); cbn; change (len "") with 0; lia|].
    destruct s as [|c s]; [done|]. cbn [json_body all_bytes] in *. apply andb_true_iff in Hs as [Hc Hs].
    unfold line_byte in Hc. destruct (Z.ltb_spec (code c) 128); [|lia].
    rewrite len_append, len_cons. pose proof (escape_length c). specialize (IH s Hs). lia. }
  specialize (H (String.length s) s Hs). lia.
Qed.
Lemma record_length j : record_ok j -> len (print_object (json_fields j)) <= 1500.
Proof.
  intros (H1 & H2 & H3 & H4 & H5 & H6 & H7 & H8 & Hid).
  apply json_string_length in H1, H2, H3, H4, H5, H6, H7, H8. destruct (id_short _ Hid) as [_ Hi].
  unfold print_object, json_fields. cbn [map join]. unfold print_entry. cbn [fst snd]. rewrite !len_append.
  assert (Hk : forall k, short 11 k -> len (json_string k) <= 68) by (intros k Hk; by apply (json_string_length 11)).
  repeat match goal with |- context [len (json_string (String ?c ?s))] =>
    pose proof (Hk (String c s) ltac:(split; [reflexivity|vm_compute; congruence])); generalize dependent (len (json_string (String c s))); intros
  end.
  change (len "{") with 1. change (len "}") with 1. change (len ":") with 1. change (len ",") with 1. lia.
Qed.
Lemma batch_length l : Forall record_ok l -> len (Marshal_batch l) <= 2 + 1501 * Z.of_nat (length l).
Proof.
  intros Hl. unfold Marshal_batch, print_array. rewrite !len_append. change (len "[") with 1. change (len "]") with 1.
  enough (len (join "," (map (fun j => print_object (json_fields j)) l)) <= 1501 * Z.of_nat (length l)) by lia.
  induction Hl as [|j l Hj Hl IH]; [done|]. cbn [map length]. rewrite join_cons, len_append. pose proof (record_length j Hj).
  destruct l as [|j' l]; cbn [map] in *; [change (len "") with 0; lia|]. rewrite len_append. change (len ",") with 1. lia.
Qed.

Lemma batch_body l : Forall record_ok l -> (length l <= max_items)%nat ->
  body_items "application/json" (Marshal_batch l) = inl (map item_of l).
Proof.
  intros Hl Hn. pose proof (batch_length l Hl) as Hlen. unfold body_items. change (Contains "application/json" "ndjson") with false.
  unfold max_items in Hn.
  assert ((max_body <? len (Marshal_batch l)) = false) as -> by (change max_body with 10485760; lia).
  cbv iota. unfold Decode. destruct (batch_encodes l Hl) as [Hst H].
  destruct (value_start_spec (Marshal_batch l) "" Hst) as [Hw (c & s & Hc & _)]. rewrite append_nil_r in Hw. rewrite Hw.
  destruct (str_eq_spec (Marshal_batch l) "") as [E|_]; [by rewrite E in Hc|]. unfold scan.
  destruct (H "" 0 (2 * String.length (Marshal_batch l) + 1)%nat) as (j & Hj & Hto); [done|done|lia|].
  rewrite append_nil_r in Hj. rewrite Hj. destruct j; rewrite ?Hto; cbn [andb]; by rewrite ?Hto, ?batch_items_of.
Qed.

(** ** The entries of a batch *)

Lemma record_entries_eq j : record_entries j =
  [("device_type", AStr (j_DeviceType j)); ("event_id", ANumber (Itoa (j_EventID j))); ("hostname", AStr (j_Hostname j));
   ("level", AStr (j_Level j)); ("message", AStr (j_Message j)); ("service", AStr (j_Service j));
   ("source_ip", AStr (j_SourceIP j)); ("timestamp", AStr (j_Timestamp j)); ("vendor", AStr (j_Vendor j))]%string.
Proof. reflexivity. Qed.

(** What is kept of a record beside the columns. *)
Definition kept_fields (j : jsonLog) : gmap string any :=
  list_to_map [("device_type", AStr (j_DeviceType j)); ("event_id", ANumber (Itoa (j_EventID j)));
               ("source_ip", AStr (j_SourceIP j)); ("vendor", AStr (j_Vendor j))]%string.

(** A lookup in a map written out, by comparing keys. *)
Ltac find_key := repeat (rewrite lookup_insert_ne by done); first [apply lookup_insert_eq | apply lookup_empty].

Lemma kept_filter j : filter (fun e => is_own_column e.1 = false) (item_of j) = kept_fields j.
Proof.
  unfold item_of, item. rewrite record_entries_eq. unfold kept_fields. cbn [list_to_map foldr fst snd].
  repeat first [rewrite map_filter_insert_True by done | rewrite map_filter_insert_not by (intros; done)].
  by rewrite map_filter_empty.
Qed.

(** The entry made of a record. *)
Definition entry_of (j : jsonLog) (e : LogEntry) : Prop :=
  le_Message e = j_Message j /\ le_Hostname e = j_Hostname j /\ le_SeverityName e = j_Level j
  /\ le_AppName e = j_Service j /\ Some (le_Timestamp e) = ParseRFC3339Nano (j_Timestamp j)
  /\ le_Fields e = kept_fields j.

Section Entries.
Context (sprint_float : Z -> string).
Local Abbreviation text j k := (text_of sprint_float (item_of j) k).

Lemma text_member j k s : item_of j !! k = Some (AStr s) -> text j k = s.
Proof. intros H. unfold text_of. by rewrite (f_equal (default ANil) H : field (item_of j) k = AStr s). Qed.
Lemma text_missing j k : item_of j !! k = None -> text j k = "<nil>"%string.
Proof. intros H. unfold text_of. by rewrite (f_equal (default ANil) H : field (item_of j) k = ANil). Qed.

(** A text that can stand in a record: neither empty nor that of a missing key. *)
Definition says (s : string) : Prop := s <> ""%string /\ s <> "<nil>"%string.
Lemma item_entry_of now i j t :
  says (j_Message j) -> says (j_Hostname j) -> j_Timestamp j <> ""%string -> ParseRFC3339Nano (j_Timestamp j) = Some t ->
  exists e, item_entry sprint_float now i (item_of j) = inl e /\ entry_of j e.
Proof.
  intros [Hm Hmn] [_ Hh] Hne Ht.
  assert (Hat : forall k s, (list_to_map (record_entries j) : gmap string any) !! k = Some (AStr s) -> text j k = s) by apply text_member.
  assert (Hno : forall k, (list_to_map (record_entries j) : gmap string any) !! k = None -> text j k = "<nil>"%string) by apply text_missing.
  rewrite record_entries_eq in Hat, Hno. cbn [list_to_map foldr fst snd] in Hat, Hno.
  unfold item_entry. cbv zeta. unfold text_or.
  rewrite (Hat "message"%string (j_Message j)) by find_key. rewrite (Hat "hostname"%string (j_Hostname j)) by find_key.
  rewrite (Hat "level"%string (j_Level j)) by find_key. rewrite (Hat "service"%string (j_Service j)) by find_key.
  rewrite (Hno "severity"%string), (Hno "app_name"%string) by find_key. clear Hat Hno.
  destruct (str_eq_spec (j_Message j) "<nil>"); [done|]. destruct (str_eq_spec (j_Message j) ""); [done|]. cbn [orb].
  assert (stamp_of (item_of j) now = Some t) as ->.
  { unfold stamp_of, item_of, item. rewrite record_entries_eq. cbn [list_to_map foldr fst snd].
    assert (E : forall s (m : gmap string any), m !! "timestamp"%string = Some (AStr s) ->
      match m !! "timestamp"%string with Some (AStr v) => if v =s "" then Some now else ParseRFC3339Nano v | _ => Some now end
      = if s =s "" then Some now else ParseRFC3339Nano s) by (intros s m ->; done).
    rewrite (E (j_Timestamp j)) by find_key. by destruct (str_eq_spec (j_Timestamp j) ""). }
  eexists. split; [done|]. unfold entry_of. rewrite kept_filter. cbn [le_Message le_Hostname le_SeverityName le_AppName le_Timestamp le_Fields].
  destruct (str_eq_spec (j_Hostname j) "<nil>"); [done|]. change ("<nil>" =s "<nil>") with true. cbv iota.
  split_and!; done.
Qed.
End Entries.

(** ** Every post of a run is accepted *)

(** The record number [id] made at [now]. *)
Definition log_record (id : Z) (now : Time) (j : jsonLog) : Prop :=
  In (j_Hostname j) hosts /\ In (j_Level j) levels /\ In (j_Service j) apps
  /\ j_Message j = message_of (j_Service j) id /\ j_EventID j = id /\ j_Timestamp j = FormatRFC3339Nano (UTC now)
  /\ short 13 (j_SourceIP j) /\ j_Vendor j = "syslogx"%string /\ j_DeviceType j = "synthetic"%string.

Lemma log_record_ok id now j : id_ok id -> 0 <= Year (UTC now) <= 9999 -> log_record id now j -> record_ok j.
Proof.
  intros Hid Hy (Hh & Hl & Ha & Hm & Hi & Ht & Hip & Hv & Hd). unfold record_ok.
  rewrite Hm, Hi, Ht, Hv, Hd. split_and!; auto using host_short, app_short, level_short, message_short, stamp_short; done.
Qed.
Lemma log_record_entry sprint_float id now at_ i j :
  0 <= Year (UTC now) <= 9999 -> log_record id now j ->
  exists e, item_entry sprint_float at_ i (item_of j) = inl e /\ entry_of j e.
Proof.
  intros Hy (Hh & _ & _ & Hm & _ & Ht & _). apply (item_entry_of _ _ _ _ (UTC now)).
  - rewrite Hm. done.
  - unfold hosts in Hh. repeat (destruct Hh as [<-|Hh]; [done|]). destruct Hh.
  - rewrite Ht. intros E. pose proof (format_starts (UTC now) "" ltac:(lia)) as H. by rewrite E in H.
  - rewrite Ht. by apply ParseRFC3339Nano_Format.
Qed.

Section Batches.
Context {R : Type} (Intn : R -> Z -> Z * R) (is_print : Z -> bool).
Hypothesis Intn_range : forall r n, 0 < n -> 0 <= (Intn r n).1 < n.

Lemma makeJSON_record r now id : log_record id now (makeJSON Intn r now id).1.
Proof using Intn_range.
  unfold makeJSON.
  pose proof (pick_in Intn Intn_range hosts r ltac:(done)) as Hh. destruct (pick Intn hosts r) as [host r1].
  pose proof (pick_in Intn Intn_range apps r1 ltac:(done)) as Ha. destruct (pick Intn apps r1) as [app r2].
  pose proof (pick_in Intn Intn_range levels r2 ltac:(done)) as Hl. destruct (pick Intn levels r2) as [level r3].
  pose proof (random_ip_address Intn Intn_range r3) as Hip. destruct (random_ip Intn r3) as [ip r4].
  cbn [fst] in *. split_and!; try done; by apply address_short.
Qed.

Context (w : world).
Lemma make_batch_records n id r :
  length (make_batch Intn w n id r).1 = n
  /\ forall i j, (make_batch Intn w n id r).1 !! i = Some j -> log_record (id + Z.of_nat i) (w_now w (id + Z.of_nat i)) j.
Proof using Intn_range.
  revert id r. induction n as [|n IH]; intros id r; [done|]. cbn [make_batch].
  pose proof (makeJSON_record r (w_now w id) id) as Hj. destruct (makeJSON Intn r (w_now w id) id) as [j r1].
  destruct (IH (id + 1) r1) as [Hlen Hl]. destruct (make_batch Intn w n (id + 1) r1) as [l r2]. cbn [fst length] in *.
  split; [by rewrite Hlen|]. intros [|i] j' Hi; [injection Hi as <-; by rewrite Z.add_0_r|].
  replace (id + Z.of_nat (S i)) with (id + 1 + Z.of_nat i) by lia. by apply Hl.
Qed.

Context (o : options).
Hypothesis http : o_protocol o = "http"%string.

Lemma written_batches sent r texts sent' r' :
  written Intn is_print o w sent r texts sent' r' ->
  exists batches, texts = map Marshal_batch batches /\ Z.of_nat (length (concat batches)) = sent' - sent
    /\ Forall (fun b => (1 <= length b <= 1000)%nat) batches
    /\ forall i j, concat batches !! i = Some j -> log_record (sent + Z.of_nat i) (w_now w (sent + Z.of_nat i)) j.
Proof using Intn_range http.
  induction 1 as [sent r|sent r target text size r1 texts sent' r' Ht He _ (batches & -> & Hl & Hb & Hi)].
  - exists []. split_and!; [done|simpl; lia|constructor|done].
  - pose proof (emit_size _ _ _ _ _ _ _ _ _ _ He ltac:(lia)) as Hsize. unfold emit in He. rewrite http in He.
    change ("http" =s "http") with true in He. cbv iota zeta in He.
    destruct (make_batch_records (Z.to_nat (Z.min 1000 (target - sent))) sent r) as [Hlen Hrec].
    destruct (make_batch Intn w _ sent r) as [b r2]. cbn [fst] in *. injection He as <- <- <-.
    exists (b :: batches). cbn [map concat]. rewrite length_app. split_and!; [done|lia|constructor; [lia|done]|].
    intros i j [Hi'|[Hge Hi']]%lookup_app_Some; [by apply Hrec|]. rewrite Hlen in *.
    replace (sent + Z.of_nat i) with (sent + Z.min 1000 (target - sent) + Z.of_nat (i - Z.to_nat (Z.min 1000 (target - sent)))) by lia.
    by apply Hi.
Qed.

Hypothesis years : forall i, 0 <= Year (UTC (w_now w i)) <= 9999.

(** One body, as [ingestJSON] takes it. *)
Lemma batch_ingested sprint_float append now k b :
  0 <= k -> k + Z.of_nat (length b) <= 10 ^ 18 -> (length b <= 1000)%nat ->
  (forall i j, b !! i = Some j -> log_record (k + Z.of_nat i) (w_now w (k + Z.of_nat i)) j) ->
  exists logs, Forall2 entry_of b logs /\
    ingestJSON sprint_float append "application/json" (Marshal_batch b) now
    = match append logs with
      | Ok a => Some (mkResp 202 (PAccepted (ar_Accepted a)), Some logs)
      | Err _ => Some (error_response 503 "storage_unavailable", Some logs)
      | Panic => None
      end.
Proof using years.
  intros Hk Hmax Hlen Hb.
  assert (Hok : Forall record_ok b).
  { apply Forall_lookup. intros i j Hi. pose proof (lookup_lt_Some _ _ _ Hi). eapply log_record_ok; [|by apply years|by apply Hb].
    unfold id_ok. lia. }
  assert (He : forall n l, (forall j, In j l -> exists id, log_record id (w_now w id) j) ->
    exists logs, item_entries sprint_float (UTC now) n (map item_of l) = inl logs /\ Forall2 entry_of l logs).
  { intros n l. revert n. induction l as [|j l IH]; intros n Hl; [by exists []|].
    destruct (Hl j (or_introl eq_refl)) as [id Hj].
    destruct (log_record_entry sprint_float id (w_now w id) (UTC now) n j (years id) Hj) as (e & He & Hej).
    destruct (IH (S n)) as (logs & Hlogs & H2); [intros j' Hj'; apply Hl; by right|].
    exists (e :: logs). cbn [map item_entries]. rewrite He, Hlogs. split; [done|by constructor]. }
  destruct (He 0%nat b) as (logs & Hlogs & H2).
  { intros j Hj. apply list_elem_of_In, list_elem_of_lookup in Hj as [i Hi]. eexists. by apply Hb. }
  exists logs. split; [done|]. unfold ingestJSON. rewrite (batch_body b Hok Hlen), length_map. destruct (Nat.ltb_spec max_items (length b)) as [Hlt|_]; [unfold max_items in Hlt; lia|].
  cbv zeta. by rewrite Hlogs.
Qed.

(** C38. Over HTTP every body a run posts is accepted: it holds 1 to 1000 records,
    the records of all bodies are the logs sent, in order, and [ingestJSON] hands
    one entry for each to the backend, with its message, host, level, service,
    time and other fields. A run ends by the round whose clock reading makes every
    log due; it stops early only when something fails, and counts what it sent. *)
Theorem generated_batches_ingested n fuel seed sprint_float append now :
  validate o = None -> o_count o <= 10 ^ 18 -> o_count o <= targetByNow o (w_since w n) -> (n < fuel)%nat ->
  exists texts sent e batches,
    run Intn is_print o w (S fuel) seed = Some (texts, sent, e)
    /\ (e = None -> sent = o_count o) /\ (undisturbed w -> e = None)
    /\ Z.of_nat (length (concat batches)) = sent
    /\ (forall i j, concat batches !! i = Some j -> log_record (Z.of_nat i) (w_now w (Z.of_nat i)) j)
    /\ Forall2 (fun text b => (1 <= length b <= 1000)%nat /\
         exists logs, Forall2 entry_of b logs /\
           ingestJSON sprint_float append "application/json" text now
           = match append logs with
             | Ok a => Some (mkResp 202 (PAccepted (ar_Accepted a)), Some logs)
             | Err _ => Some (error_response 503 "storage_unavailable", Some logs)
             | Panic => None
             end) texts batches.
Proof using Intn_range http years.
  intros Hv Hmax Hdue Hfuel.
  assert (Hcount : 1 <= o_count o).
  { unfold validate in Hv. destruct (_ || _) eqn:E in Hv; [done|]. lia. }
  destruct (rounds_end Intn is_print o w fuel 0 n seed 0 Hfuel Hdue ltac:(lia)) as [[[texts sent] e] Hr].
  destruct (rounds_written _ _ _ _ _ _ _ _ _ _ _ Hr ltac:(lia)) as ([r' Hw] & Hs & Hn & He).
  destruct (written_batches _ _ _ _ _ Hw) as (batches & -> & Hlen & Hb & Hi).
  exists (map Marshal_batch batches), sent, e, batches. rewrite Z.sub_0_r in Hlen.
  split_and!; try done.
  - unfold run. rewrite Hv, http. exact Hr.
  - assert (Hk : exists k, k = 0 /\ k + Z.of_nat (length (concat batches)) <= 10 ^ 18) by (exists 0; lia).
    destruct Hk as (k & Hk0 & Hkl). assert (Hk : 0 <= k) by lia. setoid_rewrite <- Hk0 in Hi. clear Hk0 Hlen Hw Hr.
    revert k Hk Hkl Hi. induction Hb as [|b batches Hb1 Hb IH]; intros k Hk Hkl Hi; [constructor|].
    cbn [concat map] in *. rewrite length_app in Hkl. constructor.
    + split; [done|]. apply (batch_ingested sprint_float append now k b); [done|lia|lia|].
      intros i j Hij. apply Hi. by apply lookup_app_l_Some.
    + apply (IH (k + Z.of_nat (length b))); [lia|lia|]. intros i j Hij.
      replace (k + Z.of_nat (length b) + Z.of_nat i) with (k + Z.of_nat (length b + i)) by lia. apply Hi.
      rewrite lookup_app_r by lia. by replace (length b + i - length b)%nat with i by lia.
Qed.
End Batches.

(** ** Instances *)

Definition http_options : options := mkOptions "127.0.0.1" "http" "json" "/api/v1/ingest" 8080 1000 2.

Lemma generated_batches_ingested_witness :
  exists texts batches,
    run last_draw (fun _ => true) http_options sample_world 2 tt = Some (texts, 2, None)
    /\ length (concat batches) = 2%nat
    /\ Forall2 (fun text (b : list jsonLog) => exists logs, Forall2 entry_of b logs
         /\ ingestJSON (fun _ => ""%string) (fun _ => Ok (mkAppendResult 2 0)) "application/json" text sample_now
            = Some (mkResp 202 (PAccepted 2), Some logs)) texts batches.
Proof.
  destruct (generated_batches_ingested last_draw (fun _ => true) ltac:(intros; cbn; lia) sample_world http_options
    eq_refl ltac:(intros; vm_compute; split; congruence) 0 1 tt (fun _ => ""%string) (fun _ => Ok (mkAppendResult 2 0)) sample_now)
    as (texts & sent & e & batches & Hr & Hn & Hu & Hl & _ & Hb); [reflexivity|vm_compute; congruence|vm_compute; congruence|lia|].
  assert (He : e = None) by (apply Hu; by split_and!). specialize (Hn He). change (o_count http_options) with 2 in Hn.
  exists texts, batches. rewrite He, Hn in Hr. split_and!; [exact Hr|lia|].
  eapply Forall2_impl; [exact Hb|]. intros text b (_ & logs & H2 & Ha). by exists logs.
Defined.
