(* ===== verification/CommandLine.v ===== *)
(** * The command lines

    [main] of [backend/cmd/loggen/main.go] and of [backend/cmd/syslogx/main.go]:
    their flags, what is run with them, and the exit code. Help exits with 0 and
    a bad command line with 2, as [flag.ExitOnError] does; the summary line and
    the log are left out. *)
From S2P Require Import Prelude GoStrings GoTime Domain Config GoFlag Service Loggen LoggenRun.

Definition given (name : string) (names : list string) : bool := existsb (str_eq name) names.
Lemma given_snoc name names n : given name (names ++ [n]) = given name names || (name =s n).
Proof. unfold given. rewrite existsb_app. cbn [existsb]. by rewrite orb_false_r. Qed.
(** Flags, each spelled in its style with the value [shown] has for its name. *)
Definition settings (shown : string -> string) (l : list (style * string)) : list setting :=
  map (fun '(st, name) => (st, name, shown name)) l.

(** A program whose state after the flags of [names] is [merge names] reads any
    sequence of them. *)
Section Settings.
Context {A : Type} (formal : flag_set A) (shown : string -> string) (merge : list string -> A) (known : list string).
Context (Hset : forall names name, In name known ->
  (f ← formal name; Set_ f (shown name) (merge names)) = Some (merge (names ++ [name]))).
Context (Hspell : forall st name, In name known -> spellable formal (st, name, shown name) = true).

Lemma apply_shown l names :
  Forall (fun s => In s.2 known) l ->
  apply_settings formal (settings shown l) (merge names) = Some (merge (names ++ map snd l)).
Proof.
  intros Hl. revert names. induction Hl as [|[st name] l Hn _ IH]; intros names; [cbn; by rewrite app_nil_r|].
  cbn [snd] in Hn. pose proof (Hset names name Hn) as Hs. cbn [settings map apply_settings].
  destruct (formal name) as [f|]; [|done]. cbn [mbind option_bind] in *. rewrite Hs. cbn [mbind option_bind].
  fold (settings shown l). by rewrite IH, <- app_assoc.
Qed.
Lemma Parse_settings l :
  Forall (fun s => In s.2 known) l -> Parse formal (spelled (settings shown l)) (merge []) = Parsed (merge (map snd l)) [].
Proof.
  intros Hl. rewrite <- (app_nil_r (spelled _)).
  refine (Parse_spelled formal (settings shown l) (merge []) (merge (map snd l)) [] _ (apply_shown l [] Hl)).
  induction Hl as [|[st name] l Hn _ IH]; [done|]. cbn [settings map forallb]. apply andb_true_iff. by split; [apply Hspell|].
Qed.
End Settings.

(** ** The load generator *)

(** [o.seed] is kept beside the other options. *)
Definition loggen_options : Type := options * Z.
Definition default_options : loggen_options := (mkOptions "127.0.0.1" "udp" "rfc5424" "/api/v1/ingest" 514 1000 1000, 1).

Definition loggen_flags : flag_set loggen_options := fun name =>
  if name =s "target" then Some (FlagString (fun s '(mkOptions _ pr fo pa po ra co, seed) => (mkOptions s pr fo pa po ra co, seed)))
  else if name =s "protocol" then Some (FlagString (fun s '(mkOptions ta _ fo pa po ra co, seed) => (mkOptions ta s fo pa po ra co, seed)))
  else if name =s "format" then Some (FlagString (fun s '(mkOptions ta pr _ pa po ra co, seed) => (mkOptions ta pr s pa po ra co, seed)))
  else if name =s "path" then Some (FlagString (fun s '(mkOptions ta pr fo _ po ra co, seed) => (mkOptions ta pr fo s po ra co, seed)))
  else if name =s "port" then Some (FlagInt (fun n '(mkOptions ta pr fo pa _ ra co, seed) => (mkOptions ta pr fo pa n ra co, seed)))
  else if name =s "rate" then Some (FlagInt (fun n '(mkOptions ta pr fo pa po _ co, seed) => (mkOptions ta pr fo pa po n co, seed)))
  else if name =s "count" then Some (FlagInt (fun n '(mkOptions ta pr fo pa po ra _, seed) => (mkOptions ta pr fo pa po ra n, seed)))
  else if name =s "seed" then Some (FlagInt (fun n '(o, _) => (o, n)))
  else None.

Section Loggen.
Context {R : Type} (Intn : R -> Z -> Z * R) (is_print : Z -> bool) (NewSource : Z -> R).

(** What is written, the logs sent and the exit code. *)
Definition loggen_main (w : world) (fuel : nat) (args : list string) : option (list string * Z * Z) :=
  match Parse loggen_flags args default_options with
  | Help => Some ([], 0, 0)
  | Usage => Some ([], 0, 2)
  | Parsed (o, seed) _ =>
      '(texts, sent, e) ← LoggenRun.run Intn is_print o w fuel (NewSource seed);
      Some (texts, sent, match e with None => 0 | Some _ => 1 end)
  end.
End Loggen.

Definition loggen_names : list string := ["target"; "protocol"; "format"; "path"; "port"; "rate"; "count"; "seed"].
(** The options as their flags spell them. *)
Definition shown_option (o : loggen_options) (name : string) : string :=
  let '(mkOptions ta pr fo pa po ra co, seed) := o in
  if name =s "target" then ta else if name =s "protocol" then pr else if name =s "format" then fo
  else if name =s "path" then pa else if name =s "port" then Itoa po else if name =s "rate" then Itoa ra
  else if name =s "count" then Itoa co else Itoa seed.
(** The options of the names given, and the others of [d]. *)
Definition merged (names : list string) (o d : loggen_options) : loggen_options :=
  let pick {B} name (f : loggen_options -> B) := f (if given name names then o else d) in
  (mkOptions (pick "target"%string (fun o => o_target o.1)) (pick "protocol"%string (fun o => o_protocol o.1))
     (pick "format"%string (fun o => o_format o.1)) (pick "path"%string (fun o => o_path o.1))
     (pick "port"%string (fun o => o_port o.1)) (pick "rate"%string (fun o => o_rate o.1))
     (pick "count"%string (fun o => o_count o.1)), pick "seed"%string snd).

Definition int_options (o : loggen_options) : bool :=
  in_int64 (o_port o.1) && in_int64 (o_rate o.1) && in_int64 (o_count o.1) && in_int64 o.2.

Lemma set_shown o d names name :
  In name loggen_names -> int_options o = true ->
  (f ← loggen_flags name; Set_ f (shown_option o name) (merged names o d)) = Some (merged (names ++ [name]) o d).
Proof.
  intros Hin Hi. unfold int_options in Hi. destruct o as [[ta pr fo pa po ra co] seed]. cbn [fst snd o_port o_rate o_count] in Hi.
  apply andb_true_iff in Hi as [[[Hpo Hra]%andb_true_iff Hco]%andb_true_iff Hse].
  unfold merged. rewrite !given_snoc.
  destruct Hin as [<-|[<-|[<-|[<-|[<-|[<-|[<-|[<-|[]]]]]]]]];
    repeat match goal with |- context [?a =s ?b] => let v := eval vm_compute in (a =s b) in change (a =s b) with v end;
    cbn -[in_int64 Itoa ParseInt0 given]; rewrite ?ParseInt0_Itoa by done; cbn -[in_int64 Itoa ParseInt0 given];
    rewrite ?orb_true_r, ?orb_false_r; done.
Qed.

(** Whatever flags are given, in any order and style, once or more, the options
    of those flags are read as they were printed and the others keep their
    defaults; the run is that of these options. *)
Theorem loggen_flags_read_back {R} (Intn : R -> Z -> Z * R) is_print NewSource w fuel o l :
  Forall (fun s => In s.2 loggen_names) l -> int_options o = true ->
  let r := merged (map snd l) o default_options in
  Parse loggen_flags (spelled (settings (shown_option o) l)) default_options = Parsed r []
  /\ loggen_main Intn is_print NewSource w fuel (spelled (settings (shown_option o) l))
     = ('(texts, sent, e) ← LoggenRun.run Intn is_print r.1 w fuel (NewSource r.2);
        Some (texts, sent, match e with None => 0 | Some _ => 1 end)).
Proof.
  intros Hl Hi r.
  assert (Hp : Parse loggen_flags (spelled (settings (shown_option o) l)) default_options = Parsed r []).
  { refine (Parse_settings loggen_flags (shown_option o) (fun ns => merged ns o default_options) loggen_names _ _ l Hl).
    - intros names name Hn. by apply set_shown.
    - intros st name. cbn [loggen_names In]. naive_solver. }
  split; [exact Hp|]. unfold loggen_main. rewrite Hp. by destruct r.
Qed.

Definition sample_options : loggen_options := (mkOptions "10.0.0.9" "tcp" "rfc3164" "/x" 601 50 20, -7).
Lemma loggen_flags_read_back_witness :
  Parse loggen_flags ["-protocol"; "tcp"; "--port=601"; "-seed=-7"; "--format"; "rfc3164"]%string default_options
  = Parsed (mkOptions "127.0.0.1" "tcp" "rfc3164" "/api/v1/ingest" 601 1000 1000, -7) [].
Proof.
  refine (proj1 (loggen_flags_read_back (fun (r : unit) _ => (0, r)) (fun _ => false) (fun _ => tt)
    (mkWorld true (fun _ => 0) (fun _ => false) (fun _ => false) (fun _ => zero_time) (fun _ => true) (fun _ => true))
    0 sample_options [(OneDash, "protocol"); (TwoEquals, "port"); (OneEquals, "seed"); (TwoDashes, "format")]%string _ _)).
  - repeat constructor; vm_compute; tauto.
  - vm_compute. reflexivity.
Defined.

(** ** The service *)

Record service_options := mkServiceOptions {
  so_config : string; so_http : string; so_storage : string; so_version : bool
}.
Definition default_service : service_options := mkServiceOptions "config/syslogx.yaml" "" "" false.
Definition service_flags : flag_set service_options := fun name =>
  if name =s "config" then Some (FlagString (fun s f => mkServiceOptions s (so_http f) (so_storage f) (so_version f)))
  else if name =s "http-address" then Some (FlagString (fun s f => mkServiceOptions (so_config f) s (so_storage f) (so_version f)))
  else if name =s "storage-endpoint" then Some (FlagString (fun s f => mkServiceOptions (so_config f) (so_http f) s (so_version f)))
  else if name =s "version" then Some (FlagBool (fun b f => mkServiceOptions (so_config f) (so_http f) (so_storage f) b))
  else None.

(** The machine of [Service], asked with these options. *)
Definition with_options (f : service_options) (m : machine) : machine :=
  mkMachine (so_version f) (so_config f) (m_environ m) (mkOverrides (so_http f) (so_storage f)) (m_LoadLocation m)
    (m_decode_file m) (m_ReadFile m) (m_open m) (m_migrate m) (m_binds m) (m_signal m) (m_served m)
    (m_pipeline_stops m) (m_server_stops m).

(** The actions of [main] and its exit code. *)
Definition service_main (m : machine) (args : list string) : list action * Z :=
  match Parse service_flags args default_service with
  | Help => ([], 0)
  | Usage => ([], 2)
  | Parsed f _ => let (trace, errors) := Service.run (with_options f m) in (trace, match errors with [] => 0 | _ => 1 end)
  end.

Definition service_names : list string := ["config"; "http-address"; "storage-endpoint"].
Definition shown_service (f : service_options) (name : string) : string :=
  if name =s "config" then so_config f else if name =s "http-address" then so_http f else so_storage f.
Definition merged_service (names : list string) (f d : service_options) : service_options :=
  let pick name (g : service_options -> string) := g (if given name names then f else d) in
  mkServiceOptions (pick "config" so_config) (pick "http-address" so_http) (pick "storage-endpoint" so_storage)
    (so_version d).

Lemma set_service f d names name :
  In name service_names ->
  (g ← service_flags name; Set_ g (shown_service f name) (merged_service names f d))
  = Some (merged_service (names ++ [name]) f d).
Proof.
  intros Hin. unfold merged_service. rewrite !given_snoc.
  destruct Hin as [<-|[<-|[<-|[]]]];
    repeat match goal with |- context [?a =s ?b] => let v := eval vm_compute in (a =s b) in change (a =s b) with v end;
    cbn -[given]; rewrite ?orb_true_r, ?orb_false_r; done.
Qed.
(** From the command line to the configuration: flags in any order and style
    reach [run], a configuration file that is not named is the default one, and an
    address or endpoint that is given is the one served and stored to, before the
    environment and the file. *)
Theorem service_command_line m f l :
  Forall (fun s => In s.2 service_names) l ->
  let r := merged_service (map snd l) f default_service in
  let m' := with_options r m in
  service_main m (spelled (settings (shown_service f) l))
    = ((Service.run m').1, match (Service.run m').2 with [] => 0 | _ => 1 end)
  /\ forall c, Load (m_LoadLocation m') (m_decode_file m') (m_path m') (m_environ m') (m_overrides m') = Ok c ->
     (given "http-address" (map snd l) = true -> so_http f <> ""%string -> h_Address (c_HTTP c) = so_http f)
     /\ (given "storage-endpoint" (map snd l) = true -> so_storage f <> ""%string -> st_Endpoint (c_Storage c) = so_storage f).
Proof.
  intros Hl r m'.
  assert (Hp : Parse service_flags (spelled (settings (shown_service f) l)) default_service = Parsed r []).
  { refine (Parse_settings service_flags (shown_service f) (fun ns => merged_service ns f default_service)
      service_names _ _ l Hl).
    - intros names name Hn. by apply set_service.
    - intros st name. cbn [service_names In]. naive_solver. }
  split.
  - unfold service_main. rewrite Hp. fold m'. by destruct (Service.run m').
  - intros c Hc. destruct (Load_precedence _ _ _ _ _ _ Hc) as (Ha & Hs & _). rewrite Ha, Hs.
    unfold m', r, merged_service, overridden. cbn [with_options m_overrides o_HTTPAddress o_StorageEndpoint so_http so_storage].
    split; intros Hg Hne; rewrite Hg; [destruct (str_eq_spec (so_http f) "")|destruct (str_eq_spec (so_storage f) "")]; done.
Qed.

Lemma service_command_line_witness :
  service_main (sample_machine true) ["--http-address=:7003"; "-config"; "config.yaml"]%string
  = ((Service.run (with_options (mkServiceOptions "config.yaml" ":7003" "" false) (sample_machine true))).1, 0).
Proof.
  refine (eq_trans (proj1 (service_command_line (sample_machine true) (mkServiceOptions "config.yaml" ":7003" "" true)
    [(TwoEquals, "http-address"); (OneDash, "config")]%string _)) _).
  - repeat constructor; vm_compute; tauto.
  - vm_compute. reflexivity.
Defined.
